(* ===== verification/_CoqProject ===== *)
-Q . S2P
Prelude.v
OrdSet.v
SplayTree.v
SplayRep.v
SplaySteps.v
SplayCorrect.v
RBTree.v
RBRep.v
RBSteps.v
RBInv.v
RBQuery.v
RBInsert.v
RBRemove.v
TreeSet.v
TreeProps.v
CLayout.v
Pfvar.v
PfMacros.v
PfProps.v
Decimal.v
ClientHook.v
HookParse.v
HookProps.v
NetIP.v
NetProps.v
Dialers.v
Rules.v
RulesProps.v
Connector.v
ConnectorProps.v
SshDialer.v
OriginalDst.v
Radix.v
PfKernel.v
PfConsts.v
PfConstProps.v
Interpose.v
Transport.v
Control.v
ControlProps.v
Commands.v
Proxies.v
ProxiesProps.v
CommandsProps.v
Daemon.v
Process.v
ProcessProps.v
Attempts.v
AttemptsProps.v
Session.v
SessionProps.v
SessionLive.v
