(* ===== verification/Prelude.v ===== *)
(** * A verification of go-sshtunnel

    [sshtunnel] is a daemon that sends connections through SSH. Its own logic is in
    two places: C and C++ code under [src/client-hook] and
    [src/originaldest/darwin/include], and Go packages. This development models both,
    definition by definition, and proves what each part promises.

    ** Parts of the program, and files

    - Trees of [libkern/tree.h]. [SplayTree] and [RBTree] hold the macros and the
      functions they generate, over a store of nodes; the colour of a red-black node
      is the low bit of its parent pointer, as in the header. [OrdSet] is the abstract
      ordered set (a sorted list of entries). [SplayRep], [SplaySteps] and
      [SplayCorrect], and [RBRep], [RBSteps], [RBInv], [RBQuery], [RBInsert] and
      [RBRemove], relate a store to a tree, and a tree to a set. [TreeSet] is the
      interface that both implement, [TreeProps] has the theorems.
    - The packet filter of [net/pfvar.h]. [CLayout] computes the layout of C
      structures and the numbers of ioctl requests; [Pfvar] has the structures that
      programs exchange and the requests, [PfKernel] those that only the kernel has,
      [PfMacros] the macros that compute, [PfConsts] constants, flags, enumerations
      and names of members; [PfProps] and [PfConstProps] have the theorems.
    - Radix trees of [net/radix.h]: [Radix] has the structures and the list of free
      masks. The functions themselves are only declared in the repository.
    - The client hook, [client-hook.cpp]: [ClientHook] is the model, [HookParse] has
      the lemmas on the loop that parses answers, [HookProps] the theorems.
      [Decimal] is what the text of numbers needs, here and below. [Interpose] is the
      table of [dyld-interposing.h] that puts the hook in place.
    - Rules and dialers, [rules.go] and [dialer.go]: [NetIP] writes out the part of
      Go's package [net] that rules use, [NetProps] has its facts; [Dialers] is the
      registry of dialers, [Rules] chooses among them, [RulesProps] has the theorems.
    - The SSH dialer, [sshdialer.go], and the handler [Server.Connect] of [server.go]:
      [Connector] is a step relation in which the goroutine of [connect] and any
      number of requests interleave, [ConnectorProps] has the theorems; [Attempts] has
      what one such goroutine offers, prints and writes, with the array that its
      authentication methods share with the dialer's, [AttemptsProps] the theorems;
      [SshDialer] has [Dial], [Connect] and [GetConnector] with the lock they share.
      [Session] joins the connector with terminals in which the command [connect] of
      [Commands] runs, [SessionProps] has the theorems, [SessionLive] those on waiting
      for ever.
    - Original destinations, [originaldest]: [OriginalDst], which builds the request
      to the packet filter from the structures of [Pfvar].
    - Proxies, [proxy/*.go]: [Proxies] has how they are made and what they do for
      their clients, [ProxiesProps] the theorems.
    - The control interface, [control/*.go]: [Transport] has the types and their JSON,
      [Control] the interface as a class, the handlers and routes of the server, and
      the client, which is an instance again; [ControlProps] has the theorems.
    - Commands, [commands/*.go]: [Commands] has them over any implementation of the
      interface, in a terminal, with the loop that [server.Run] has for its line;
      [CommandsProps] has the theorems.
    - The daemon, [server/*.go] and [main.go]: [Daemon] implements the interface over
      dialers, rules and proxies; [Process] has [Run], and starting and stopping by
      the file with the process number; [ProcessProps] has the theorems.

    The parts meet where the code makes them meet: [OriginalDst] uses [Pfvar] and
    [NetIP], [Rules] ends in [Dialers], whose SSH dialer is the one of [SshDialer] and
    [Connector]; the proxies dial by [Rules] what [ClientHook] asks them for; commands
    run over [Client], the client over the handlers, these over [Server].

    ** How code is modelled

    C code is a function of [M S A]: it threads a state and ends with a value or a
    fault. A null or dangling pointer is [Segv], an access out of the bounds of an
    array [Panic], a loop that has used up its bound [Diverges], a wait for ever
    [Blocks]. In [Dialers] and [SshDialer] a run keeps its state when it faults,
    because the daemon goes on; so it does in the files of the daemon and its commands,
    which have the type [G S A]. Integers are [Z] with the wrap-around written out.
    System calls, the resolver, the SSH library and its parsers are arguments.

    Bounds: loops over trees get the number of nodes as their bound, and the theorems
    say that they end with a result; the loop that parses an answer gets the bytes of
    the answer and the buffer, one for each round; every theorem about it holds for
    larger bounds too. [malformed_answers] proves that for some answers no bound is
    enough, and so does [dns_answers]. The loop over the line of the daemon gets a round
    for each word and one more; [connect] asks as often as the server lets it, and its
    theorem holds for every bound.

    ** What the theorems show

    - Trees: insertion and removal refine the abstract set and keep the invariants,
      queries and iterations give its answers, also while nodes are removed; a search
      in a red-black tree is logarithmic; both kinds of trees agree with each other.
    - Packet filter: a structure that programs exchange with the kernel has the same
      members at the same places in 32 and 64 bits, or has variants that do, but for
      one; the
      requests have different numbers that decode; keys are prefixes of what they
      search; the conversions are inverse to each other, or where they are not;
      address comparison and arithmetic mean what they say, or where they do not;
      flags of a word are told apart and fit, and so do enumerations; macros for
      members name one, or do not.
    - Client hook: when it is active, what [connect] and [getaddrinfo] do on every
      path; the headers of an answer are found; which answers break it.
    - Rules: they are an ordered map from networks to dialers, the first that matches
      by its prefix is used; their text is read back as the same network.
    - Dialers: requests amount to lists of addresses and keys and a default; what
      remains after a [known_hosts] that cannot be loaded.
    - Proxies: a connection the hook or a redirection asks for gets the dialer of the
      first rule that matches; what is answered on errors; addresses of IPv6 cannot be
      dialled; the DNS proxy's one answer, or none, and when its loop does not end.
    - Control: each call of the client against the call of the implementation.
    - Commands: the line of the daemon is executed command by command; a host key is
      accepted only with consent; the script for iptables, which is for IPv4, against
      the rules; what [add-rule] really adds.
    - Sessions: a lone terminal connects only to a host whose key is known, or was
      shown in it and accepted; with two terminals that does not hold; a lone terminal
      waits for ever exactly when its request is on the list of those who wait and
      [connect] gives no notification any more, in three ways.
    - Daemon: how it stops, and how it cannot; the life of the file with its number.
    - Connections: a host is connected to only with a key that is known or was
      accepted; answers neither fault nor block; the reported outcome is the true
      one; two more ways to wait for ever (a passphrase without a notification, a lock that
      is not given back); what a dial does in every case; which hosts are tried with which
      user names, what is added to [known_hosts], and how keys that are added meanwhile
      overwrite the password method.

    ** Not modelled

    - The functions that [pfvar.h] and [radix.h] declare: they are in the kernel of
      Darwin. Types that [pfvar.h] takes from other headers are records of their sizes
      and alignments.
    - Servers of the libraries for HTTP, SOCKS5, DNS and JSON, and what they do between
      the calls of the program's code; the copying of bytes through a tunnel.
    - In C, prototypes, include guards, debug output, and a few constants and heads of
      lists that nothing else here refers to.
    - What the dynamic linker does with the table of [Interpose]. What [iptables] takes
      is a named hypothesis of the theorem on the script.
    - In [Daemon], the conversation with a connector: [Connect] of the server has only
      its table of connectors there. [Connector] has the conversation as a step
      relation, and [Session] with the terminals at its other end; a session is about
      one connector, and its replies have any texts for messages. [Connector]
      leaves out what [Attempts] has: texts, user names, the lines of [known_hosts];
      banners are in neither.
    - Printing to the log, and the texts of errors. *)

From stdpp Require Import base gmap list strings.
From Stdlib Require Import ZArith Lia.

#[global] Open Scope Z_scope.

(** The null pointer of C. *)
Abbreviation NULL := 0.

(** * Computations that can fail

    C and Go code is modelled by functions of type [M S A]: they thread a state
    of type [S] and end with a value or with the fault the run has. *)

(** [Segv]: an address that holds no object was read or written (C), or a nil
    pointer was dereferenced (Go). [Diverges]: the bound of a loop was reached.
    [Panic]: a Go run-time panic other than a nil dereference, or a C access out
    of the bounds of an array. [Blocks]: the goroutine waits for ever. *)
Inductive fault := Segv | Diverges | Panic | Blocks.

#[export] Instance fault_eq_dec : EqDecision fault.
Proof. solve_decision. Defined.

Inductive outcome (A : Type) :=
  | Done (a : A)
  | Fault (f : fault).
Arguments Done {A} a.
Arguments Fault {A} f.

Definition M (S A : Type) : Type := S -> outcome (A * S).

#[export] Instance M_ret S : MRet (M S) := fun A a s => Done (a, s).
#[export] Instance M_bind S : MBind (M S) := fun A B k m s =>
  match m s with
  | Done (a, s') => k a s'
  | Fault f => Fault f
  end.

Definition fail {S A} (f : fault) : M S A := fun _ => Fault f.
Definition get {S} : M S S := fun s => Done (s, s).
Definition put {S} (s' : S) : M S unit := fun _ => Done (tt, s').
Definition gets {S A} (f : S -> A) : M S A := fun s => Done (f s, s).
Definition modify {S} (f : S -> S) : M S unit := fun s => Done (tt, f s).

(** [loop n body a]: a while loop with at most [n] rounds; a round ends with
    [inl] (the loop variables of the next round) or with [inr] (break). *)
Fixpoint loop {S A B} (fuel : nat) (body : A -> M S (A + B)) (a : A) : M S B :=
  match fuel with
  | O => fail Diverges
  | S n =>
      r ← body a;
      match r with
      | inl a' => loop n body a'
      | inr b => mret b
      end
  end.

(** * Weakest preconditions

    [wp m Q s]: [m] started in [s] ends without a fault, in a value and a state
    that satisfy [Q]. It is a total-correctness statement. *)
Definition wp {S A} (m : M S A) (Q : A -> S -> Prop) (s : S) : Prop :=
  match m s with
  | Done (a, s') => Q a s'
  | Fault _ => False
  end.

Section wp_rules.
Context {S : Type}.
Implicit Types s : S.

Lemma wp_ret {A} (a : A) (Q : A -> S -> Prop) s : Q a s -> wp (mret a) Q s.
Proof. done. Qed.

Lemma wp_bind {A B} (m : M S A) (k : A -> M S B) Q s :
  wp m (fun a s' => wp (k a) Q s') s -> wp (m ≫= k) Q s.
Proof.
  unfold wp, mbind, M_bind. by destruct (m s) as [[a s']|f].
Qed.

Lemma wp_assoc {A B C} (m : M S A) (n : A -> M S B) (k : B -> M S C) Q s :
  wp ((m ≫= n) ≫= k) Q s -> wp (m ≫= fun a => n a ≫= k) Q s.
Proof. unfold wp, mbind, M_bind. by destruct (m s) as [[a s']|f]. Qed.

Lemma wp_mono {A} (m : M S A) (P Q : A -> S -> Prop) s :
  wp m P s -> (forall a s', P a s' -> Q a s') -> wp m Q s.
Proof. unfold wp. destruct (m s) as [[a s']|f]; auto. Qed.

Lemma wp_get (Q : S -> S -> Prop) s : Q s s -> wp get Q s.
Proof. done. Qed.

Lemma wp_put (Q : unit -> S -> Prop) s s' : Q tt s' -> wp (put s') Q s.
Proof. done. Qed.

(** A while loop whose rounds decrease the index of the invariant [I] ends,
    whatever bound above the index it was given. *)
Lemma wp_loop {A B} (body : A -> M S (A + B))
    (I : nat -> A -> S -> Prop) (Q : B -> S -> Prop) :
  (forall n a s, I n a s ->
     wp (body a) (fun r s' =>
       match r with
       | inl a' => exists n', (n' < n)%nat /\ I n' a' s'
       | inr b => Q b s'
       end) s) ->
  forall fuel n a s, I n a s -> (n < fuel)%nat -> wp (loop fuel body a) Q s.
Proof.
  intros Hbody fuel. induction fuel as [|fuel IH]; intros n a s HI Hn; [lia|].
  cbn [loop]. apply wp_bind. eapply wp_mono; [by apply (Hbody n)|].
  intros [a'|b] s' H; cbn in H.
  - destruct H as (n' & Hn' & HI'). apply (IH n'); [done|lia].
  - by apply wp_ret.
Qed.

Lemma wp_gets {A} (f : S -> A) (Q : A -> S -> Prop) s : Q (f s) s -> wp (gets f) Q s.
Proof. done. Qed.

Lemma wp_modify (f : S -> S) (Q : unit -> S -> Prop) s : Q tt (f s) -> wp (modify f) Q s.
Proof. done. Qed.

(** Runs, one call at a time. *)
Lemma run_bind {A B} (m : M S A) (k : A -> M S B) s a s' :
  m s = Done (a, s') -> (m ≫= k) s = k a s'.
Proof. unfold mbind, M_bind. by intros ->. Qed.

Lemma run_congr {A B} (m m' : M S A) (k : A -> M S B) s s' :
  m s = m' s' -> (m ≫= k) s = (m' ≫= k) s'.
Proof. unfold mbind, M_bind. by intros ->. Qed.

Lemma run_fault {A B} (m : M S A) (k : A -> M S B) s f :
  m s = Fault f -> (m ≫= k) s = Fault f.
Proof. unfold mbind, M_bind. by intros ->. Qed.

Lemma run_assoc {A B C} (m : M S A) (n : A -> M S B) (k : B -> M S C) s :
  ((m ≫= n) ≫= k) s = (m ≫= fun a => n a ≫= k) s.
Proof. unfold mbind, M_bind. by destruct (m s) as [[a s']|f]. Qed.

Lemma run_ret {A B} (a : A) (k : A -> M S B) s : (mret a ≫= k) s = k a s.
Proof. done. Qed.

Lemma run_gets {A B} (f : S -> A) (k : A -> M S B) s : (gets f ≫= k) s = k (f s) s.
Proof. done. Qed.

Lemma run_modify {B} (f : S -> S) (k : unit -> M S B) s : (modify f ≫= k) s = k tt (f s).
Proof. done. Qed.

Lemma run_loop {A B} (body : A -> M S (A + B)) fuel a s :
  loop (Datatypes.S fuel) body a s =
    (r ← body a; match r with inl a' => loop fuel body a' | inr b => mret b end) s.
Proof. done. Qed.

(** From a weakest precondition to the run itself. *)
Lemma wp_run {A} (m : M S A) (Q : A -> S -> Prop) s :
  wp m Q s -> exists a s', m s = Done (a, s') /\ Q a s'.
Proof. unfold wp. destruct (m s) as [[a s']|f]; [eauto|done]. Qed.
End wp_rules.

Create HintDb wp.
#[export] Hint Resolve wp_ret wp_get wp_put wp_gets wp_modify : wp.

Create Rewrite HintDb run.
#[export] Hint Rewrite @run_assoc @run_ret @run_gets @run_modify : run.

(** * Generic lemmas *)

(** Distinct keys of a map are not more than its size: the bound that the loops
    over linked structures are given. *)
Lemma NoDup_keys_size {V} (m : gmap Z V) (l : list Z) :
  NoDup l -> (forall a, a ∈ l -> is_Some (m !! a)) -> (length l <= size m)%nat.
Proof.
  intros Hnd Hl. rewrite <-size_dom, <-(size_list_to_set (C := gset Z) l) by done.
  apply subseteq_size. intros a Ha. rewrite elem_of_list_to_set in Ha.
  apply elem_of_dom. by apply Hl.
Qed.

(** Lists with no common element, and the splitting of a list without
    duplicates into facts about its parts. *)
Definition apart {A} (l k : list A) : Prop := forall x, x ∈ l -> x ∉ k.

Section apart.
Context {A : Type}.
Implicit Types (l k m : list A) (a : A).

Lemma apart_app_l l k m : apart (l ++ k) m <-> apart l m /\ apart k m.
Proof. unfold apart. set_solver. Qed.
Lemma apart_app_r l k m : apart m (l ++ k) <-> apart m l /\ apart m k.
Proof. unfold apart. set_solver. Qed.
Lemma apart_cons_l a l m : apart (a :: l) m <-> a ∉ m /\ apart l m.
Proof. unfold apart. set_solver. Qed.
Lemma apart_cons_r a l m : apart m (a :: l) <-> a ∉ m /\ apart m l.
Proof. unfold apart. set_solver. Qed.
Lemma apart_nil_l m : apart [] m <-> True.
Proof. unfold apart. set_solver. Qed.
Lemma apart_nil_r m : apart m [] <-> True.
Proof. unfold apart. set_solver. Qed.
Lemma NoDup_apart l k : NoDup (l ++ k) <-> NoDup l /\ apart l k /\ NoDup k.
Proof. apply NoDup_app. Qed.
Lemma apart_sym l k : apart l k -> apart k l.
Proof. unfold apart. set_solver. Qed.
Lemma not_elem_of_nil_iff a : a ∉ @nil A <-> True.
Proof. set_solver. Qed.
Lemma NoDup_nil_iff : NoDup (@nil A) <-> True.
Proof. split; [done|constructor]. Qed.
End apart.

Create Rewrite HintDb parts.
#[export] Hint Rewrite @fmap_app @fmap_cons @fmap_nil @app_nil_r @app_nil_l
  @apart_app_l @apart_app_r @apart_cons_l @apart_cons_r @apart_nil_l @apart_nil_r
  @NoDup_apart @NoDup_cons @NoDup_nil_iff
  @not_elem_of_app @not_elem_of_cons @not_elem_of_nil_iff : parts.

(** [parts_in H] splits the hypothesis [H], a [NoDup] of appended lists. *)
Ltac parts_in H :=
  cbn in H; autorewrite with parts in H; cbn in H;
  autorewrite with parts in H; destruct_and? H.

(** Proves [p ∉ l] and [p <> q] from the facts of [parts_in]. *)
Ltac notin :=
  solve [ assumption | congruence
        | cbn; autorewrite with parts; cbn; split_and?;
          solve [done | assumption | congruence] ].

(** Proves [p ∈ l] for a member that is written out in [l]. *)
Ltac isin :=
  solve [ cbn; autorewrite with parts; cbn;
          repeat first [ rewrite elem_of_app | rewrite elem_of_cons ]; tauto ].

(** Proves [apart l k] from the facts of [parts_in]. *)
Ltac apartness :=
  solve [ cbn; autorewrite with parts; cbn; split_and?;
          solve [done | assumption | apply apart_sym; assumption | congruence] ].

(** Appended lists in their right-associated form. *)
Ltac app_norm := cbn; repeat progress (rewrite <-?app_assoc; cbn [app]).

(** Proves a decidable proposition on concrete values by evaluation. *)
Ltac by_compute := apply (bool_decide_unpack _); vm_compute; exact I.
