(* ===== verification/OrdSet.v ===== *)
(** The ordered set that both trees of [libkern/tree.h] implement: a list of
    entries (address of the node, key) that ascends in the user's comparison
    function. Each operation of the trees is proved against the operation of
    the same name here. *)

From stdpp Require Import base gmap list.
From Stdlib Require Import ZArith Lia.
From S2P Require Import Prelude.

(** What the macros require of the [cmp] argument of [SPLAY_GENERATE] and
    [RB_GENERATE]: a three-way comparison, its sign a total preorder. *)
Class Comparator {K} (cmp : K -> K -> Z) : Prop := {
  cmp_refl a : cmp a a = 0;
  cmp_opp a b : cmp a b < 0 <-> 0 < cmp b a;
  cmp_trans a b c : cmp a b < 0 -> cmp b c < 0 -> cmp a c < 0;
  cmp_eq_lt a b c : cmp a b = 0 -> cmp b c < 0 -> cmp a c < 0;
  cmp_lt_eq a b c : cmp a b < 0 -> cmp b c = 0 -> cmp a c < 0;
}.

(** The comparison of machine integers, the comparator of the witnesses. *)
Definition Zcmp (a b : Z) : Z := a - b.

#[export] Instance Zcmp_comparator : Comparator Zcmp.
Proof. unfold Zcmp. split; lia. Qed.

Section OrdSet.
Context {K : Type} (cmp : K -> K -> Z) `{!Comparator cmp}.

Abbreviation entry := (Z * K)%type.
Implicit Types (l : list entry) (x y : entry) (k : K).

(** Every key of [l] is less than [k]; greater than [k]. *)
Definition below k l : Prop := Forall (fun e => cmp e.2 k < 0) l.
Definition above k l : Prop := Forall (fun e => cmp k e.2 < 0) l.

Fixpoint sorted l : Prop :=
  match l with
  | [] => True
  | x :: l' => above x.2 l' /\ sorted l'
  end.

(** The entry with the key [k]. *)
Fixpoint os_find k l : option entry :=
  match l with
  | [] => None
  | y :: l' => if cmp k y.2 =? 0 then Some y else os_find k l'
  end.

(** [x] at its place, unless its key is there already. *)
Fixpoint os_insert x l : list entry :=
  match l with
  | [] => [x]
  | y :: l' =>
      if cmp x.2 y.2 <? 0 then x :: l
      else if 0 <? cmp x.2 y.2 then y :: os_insert x l'
      else l
  end.

(** All but the entry with the key [k]. *)
Definition os_remove k l : list entry :=
  filter (fun e => cmp k e.2 <> 0) l.

(** The first entry after the key [k], the last one before it. *)
Definition os_next k l : option entry :=
  head (filter (fun e => cmp k e.2 < 0) l).
Definition os_prev k l : option entry :=
  last (filter (fun e => cmp e.2 k < 0) l).

(** The address the C code returns for an entry, null for none. *)
Definition ptr_of (e : option entry) : Z := default NULL (fst <$> e).

Lemma cmp_sym a b : cmp a b = 0 -> cmp b a = 0.
Proof.
  intros E. destruct (Z.lt_trichotomy (cmp b a) 0) as [H|[H|H]]; [|done|].
  - apply cmp_opp in H. lia.
  - apply cmp_opp in H. lia.
Qed.

Lemma cmp_gt a b : 0 < cmp a b <-> cmp b a < 0.
Proof. by rewrite cmp_opp. Qed.

Lemma below_app k l1 l2 : below k (l1 ++ l2) <-> below k l1 /\ below k l2.
Proof. unfold below, above. by rewrite Forall_app. Qed.
Lemma above_app k l1 l2 : above k (l1 ++ l2) <-> above k l1 /\ above k l2.
Proof. unfold below, above. by rewrite Forall_app. Qed.
Lemma below_cons k x l : below k (x :: l) <-> cmp x.2 k < 0 /\ below k l.
Proof. unfold below, above. by rewrite Forall_cons. Qed.
Lemma above_cons k x l : above k (x :: l) <-> cmp k x.2 < 0 /\ above k l.
Proof. unfold below, above. by rewrite Forall_cons. Qed.
Lemma below_nil k : below k [].
Proof. apply Forall_nil_2. Qed.
Lemma above_nil k : above k [].
Proof. apply Forall_nil_2. Qed.

Lemma below_lt k k' l : below k l -> cmp k k' < 0 -> below k' l.
Proof.
  intros H Hlt. eapply Forall_impl; [done|]. intros e He; cbn in *.
  by eapply cmp_trans.
Qed.
Lemma above_lt k k' l : above k l -> cmp k' k < 0 -> above k' l.
Proof.
  intros H Hlt. eapply Forall_impl; [done|]. intros e He; cbn in *.
  by eapply cmp_trans.
Qed.
Lemma below_eq k k' l : below k l -> cmp k k' = 0 -> below k' l.
Proof.
  intros H Heq. eapply Forall_impl; [done|]. intros e He; cbn in *.
  by eapply cmp_lt_eq.
Qed.
Lemma above_eq k k' l : above k l -> cmp k' k = 0 -> above k' l.
Proof.
  intros H Heq. eapply Forall_impl; [done|]. intros e He; cbn in *.
  by eapply cmp_eq_lt.
Qed.

(** A sorted list around one of its entries. *)
Lemma sorted_mid l1 x l2 :
  sorted (l1 ++ x :: l2) <->
  sorted l1 /\ sorted l2 /\ below x.2 l1 /\ above x.2 l2.
Proof.
  induction l1 as [|y l1 IH]; cbn [app sorted].
  - split; [intros [??]; auto using below_nil|tauto].
  - rewrite IH, below_cons, above_app, above_cons. split; [tauto|].
    intros ([Hy1 ?] & ? & [Hyx ?] & ?). split_and!; try done.
    by eapply above_lt.
Qed.

Lemma sorted_app l1 l2 : sorted (l1 ++ l2) -> sorted l1 /\ sorted l2.
Proof.
  induction l1 as [|y l1 IH]; cbn [app sorted]; [done|].
  rewrite above_app. intros [[??] Hs]. split_and!; try done; by apply IH.
Qed.

Lemma sorted_join k l1 l2 :
  sorted l1 -> sorted l2 -> below k l1 -> above k l2 -> sorted (l1 ++ l2).
Proof.
  induction l1 as [|y l1 IH]; cbn [app sorted]; [done|].
  rewrite below_cons, above_app. intros [Hy Hs1] Hs2 [Hyk Hb] Ha.
  split; [|by apply IH]. split; [done|]. by eapply above_lt.
Qed.

(** The operations around the place of the key. *)
Lemma os_find_split k l1 x l2 :
  below k l1 -> cmp k x.2 = 0 -> os_find k (l1 ++ x :: l2) = Some x.
Proof.
  intros Hb He. induction Hb as [|y l1 Hy Hb IH]; cbn [app os_find].
  - by rewrite He.
  - rewrite cmp_opp in Hy. destruct (Z.eqb_spec (cmp k y.2) 0); [lia|done].
Qed.

Lemma os_find_none k l1 l2 :
  below k l1 -> above k l2 -> os_find k (l1 ++ l2) = None.
Proof.
  intros Hb Ha. induction Hb as [|y l1 Hy Hb IH]; cbn [app os_find].
  - induction Ha as [|y l2 Hy Ha IH]; cbn [os_find]; [done|].
    destruct (Z.eqb_spec (cmp k y.2) 0); [lia|done].
  - rewrite cmp_opp in Hy. destruct (Z.eqb_spec (cmp k y.2) 0); [lia|done].
Qed.

Lemma os_insert_split x l1 l2 :
  below x.2 l1 -> above x.2 l2 -> os_insert x (l1 ++ l2) = l1 ++ x :: l2.
Proof.
  intros Hb Ha. induction Hb as [|y l1 Hy Hb IH]; cbn [app os_insert].
  - destruct Ha as [|y l2 Hy Ha]; cbn [os_insert]; [done|].
    by destruct (Z.ltb_spec (cmp x.2 y.2) 0); [|lia].
  - rewrite cmp_opp in Hy. destruct (Z.ltb_spec (cmp x.2 y.2) 0); [lia|].
    destruct (Z.ltb_spec 0 (cmp x.2 y.2)); [by f_equal|lia].
Qed.

Lemma os_insert_present x l1 y l2 :
  below x.2 l1 -> cmp x.2 y.2 = 0 ->
  os_insert x (l1 ++ y :: l2) = l1 ++ y :: l2.
Proof.
  intros Hb He. induction Hb as [|z l1 Hz Hb IH]; cbn [app os_insert].
  - by rewrite He.
  - rewrite cmp_opp in Hz. destruct (Z.ltb_spec (cmp x.2 z.2) 0); [lia|].
    destruct (Z.ltb_spec 0 (cmp x.2 z.2)); [by f_equal|lia].
Qed.

Lemma filter_all (P : entry -> Prop) `{!forall e, Decision (P e)} l :
  Forall P l -> filter P l = l.
Proof.
  induction 1 as [|y l Hy Hl IH]; [done|]. by rewrite filter_cons_True, IH.
Qed.
Lemma filter_none (P : entry -> Prop) `{!forall e, Decision (P e)} l :
  Forall (fun e => ~ P e) l -> filter P l = [].
Proof.
  induction 1 as [|y l Hy Hl IH]; [done|]. by rewrite filter_cons_False, IH.
Qed.

Lemma os_remove_none k l1 l2 :
  below k l1 -> above k l2 -> os_remove k (l1 ++ l2) = l1 ++ l2.
Proof.
  intros Hb Ha. apply filter_all, Forall_app. split.
  - eapply Forall_impl; [done|]. intros e He. cbn in *.
    rewrite cmp_opp in He. lia.
  - eapply Forall_impl; [done|]. intros e He. cbn in *. lia.
Qed.

Lemma os_remove_split k l1 x l2 :
  below k l1 -> cmp k x.2 = 0 -> above k l2 ->
  os_remove k (l1 ++ x :: l2) = l1 ++ l2.
Proof.
  intros Hb He Ha. unfold os_remove. rewrite filter_app, filter_cons_False by lia.
  rewrite <-filter_app. by apply os_remove_none.
Qed.

Lemma os_remove_mid l1 p k l2 :
  sorted (l1 ++ (p, k) :: l2) -> os_remove k (l1 ++ (p, k) :: l2) = l1 ++ l2.
Proof.
  intros Hs. apply sorted_mid in Hs as (_ & _ & ? & ?).
  apply os_remove_split; [done|apply cmp_refl|done].
Qed.

Lemma os_next_split k l1 l2 :
  (forall e, e ∈ l1 -> 0 <= cmp k e.2) -> above k l2 ->
  os_next k (l1 ++ l2) = head l2.
Proof.
  intros Hb Ha. unfold os_next. rewrite filter_app, filter_none, filter_all; [done|done|].
  apply Forall_forall. intros e He. specialize (Hb e He). lia.
Qed.

Lemma os_prev_split k l1 l2 :
  below k l1 -> (forall e, e ∈ l2 -> cmp k e.2 <= 0) ->
  os_prev k (l1 ++ l2) = last l1.
Proof.
  intros Hb Ha. unfold os_prev.
  rewrite filter_app, (filter_all _ l1), filter_none, app_nil_r; [done| |done].
  apply Forall_forall. intros e He. specialize (Ha e He).
  rewrite cmp_opp. lia.
Qed.

(** The successor of an entry of a sorted list. *)
Lemma os_next_mid l1 p k l2 :
  sorted (l1 ++ (p, k) :: l2) -> os_next k (l1 ++ (p, k) :: l2) = head l2.
Proof.
  intros Hs. apply sorted_mid in Hs as (_ & _ & Hb & Ha).
  rewrite cons_middle, app_assoc. apply os_next_split; try done.
  intros e. rewrite elem_of_app, list_elem_of_singleton. intros [He| ->].
  - unfold below in Hb. rewrite Forall_forall in Hb. specialize (Hb e He).
    cbn in Hb. apply cmp_opp in Hb. lia.
  - by rewrite cmp_refl.
Qed.

Lemma os_prev_mid l1 p k l2 :
  sorted (l1 ++ (p, k) :: l2) -> os_prev k (l1 ++ (p, k) :: l2) = last l1.
Proof.
  intros Hs. apply sorted_mid in Hs as (_ & _ & Hb & Ha).
  apply os_prev_split; [done|]. intros e. rewrite elem_of_cons. intros [->|He].
  - by rewrite cmp_refl.
  - unfold above in Ha. rewrite Forall_forall in Ha. specialize (Ha e He). cbn in Ha. lia.
Qed.

Lemma os_insert_sorted x l : sorted l -> sorted (os_insert x l).
Proof.
  induction l as [|y l IH]; intros Hs; [cbn; auto using above_nil|].
  cbn [os_insert sorted] in *. destruct Hs as [Ha Hs].
  destruct (Z.ltb_spec (cmp x.2 y.2) 0).
  - cbn [sorted]. rewrite above_cons. split_and!; try done. by eapply above_lt.
  - destruct (Z.ltb_spec 0 (cmp x.2 y.2)); [|done]. cbn [sorted].
    split; [|by apply IH]. clear IH Hs. induction l as [|z l IH]; cbn [os_insert].
    + apply above_cons. split; [by apply cmp_gt|apply above_nil].
    + apply above_cons in Ha as [??].
      destruct (Z.ltb_spec (cmp x.2 z.2) 0).
      { rewrite !above_cons. split_and!; [by apply cmp_gt|done|done]. }
      destruct (Z.ltb_spec 0 (cmp x.2 z.2)); apply above_cons; auto.
Qed.

Lemma os_insert_in x y l : y ∈ os_insert x l -> y = x \/ y ∈ l.
Proof.
  induction l as [|z l IH]; cbn [os_insert]; [set_solver|].
  destruct (_ <? _); [set_solver|]. destruct (_ <? _); [set_solver|set_solver].
Qed.
Lemma os_remove_in k y l : y ∈ os_remove k l -> y ∈ l.
Proof. unfold os_remove. intros [_ H]%list_elem_of_filter. done. Qed.

Lemma os_remove_sorted k l : sorted l -> sorted (os_remove k l).
Proof.
  induction l as [|y l IH]; intros Hs; [done|]. destruct Hs as [Ha Hs].
  unfold os_remove in *. rewrite filter_cons. case_decide; [|by apply IH].
  cbn [sorted]. split; [|by apply IH]. apply Forall_forall. intros e He.
  apply list_elem_of_filter in He as [_ He]. unfold above in Ha.
  rewrite Forall_forall in Ha. by apply Ha.
Qed.
End OrdSet.

Create HintDb ordset.
#[export] Hint Resolve below_nil above_nil : ordset.
Create Rewrite HintDb ordset_rw.
#[export] Hint Rewrite @below_app @above_app @below_cons @above_cons : ordset_rw.
