(* ===== verification/SplayTree.v ===== *)
(** The splay trees of [originaldest/darwin/include/libkern/tree.h] (lines 86
    to 317): the macros and the functions [SPLAY_GENERATE] writes, over a store
    of nodes reached by pointers. *)

From stdpp Require Import base gmap list.
From Stdlib Require Import ZArith Lia.
From S2P Require Import Prelude OrdSet.


Section Splay.
(** [cmp]: the comparison the macros are given, on the keys of the nodes.
    [junk]: the indeterminate payload of the local [struct type __node]; it is
    never read. *)
Context {K : Type} (cmp : K -> K -> Z) (junk : K).

(** [SPLAY_ENTRY(type)] in a node with the payload [sp_key]. *)
Record spnode := SpNode { spe_left : Z; spe_right : Z; sp_key : K }.

(** [SPLAY_HEAD] and the live nodes, by address. *)
Record spmem := SpMem { sph_root : Z; sp_store : gmap Z spnode }.

Definition set_spe_left (v : Z) (n : spnode) : spnode :=
  SpNode v (spe_right n) (sp_key n).
Definition set_spe_right (v : Z) (n : spnode) : spnode :=
  SpNode (spe_left n) v (sp_key n).

Definition sp_load (p : Z) : M spmem spnode := fun s =>
  if p =? NULL then Fault Segv
  else match sp_store s !! p with
       | Some n => Done (n, s)
       | None => Fault Segv
       end.

(** Updates the object at the address [p]. *)
Definition sp_modify (f : spnode -> spnode) (p : Z) : M spmem unit :=
  n ← sp_load p;
  s ← get;
  put (SpMem (sph_root s) (<[p := f n]> (sp_store s))).

Definition SPLAY_INIT : M spmem unit :=
  s ← get; put (SpMem NULL (sp_store s)).

Definition SPLAY_LEFT (elm : Z) : M spmem Z :=
  n ← sp_load elm; mret (spe_left n).
Definition SPLAY_RIGHT (elm : Z) : M spmem Z :=
  n ← sp_load elm; mret (spe_right n).
Definition set_SPLAY_LEFT (elm v : Z) : M spmem unit :=
  sp_modify (set_spe_left v) elm.
Definition set_SPLAY_RIGHT (elm v : Z) : M spmem unit :=
  sp_modify (set_spe_right v) elm.

Definition SPLAY_ROOT : M spmem Z := s ← get; mret (sph_root s).
Definition set_SPLAY_ROOT (v : Z) : M spmem unit :=
  s ← get; put (SpMem v (sp_store s)).
Definition SPLAY_EMPTY : M spmem bool :=
  r ← SPLAY_ROOT; mret (r =? NULL).

(** The call [(cmp)(a, b)]. *)
Definition sp_cmp (a b : Z) : M spmem Z :=
  na ← sp_load a; nb ← sp_load b; mret (cmp (sp_key na) (sp_key nb)).

Definition SPLAY_ROTATE_RIGHT (tmp : Z) : M spmem unit :=
  r ← SPLAY_ROOT; v ← SPLAY_RIGHT tmp; set_SPLAY_LEFT r v;;
  r ← SPLAY_ROOT; set_SPLAY_RIGHT tmp r;;
  set_SPLAY_ROOT tmp.

Definition SPLAY_ROTATE_LEFT (tmp : Z) : M spmem unit :=
  r ← SPLAY_ROOT; v ← SPLAY_LEFT tmp; set_SPLAY_RIGHT r v;;
  r ← SPLAY_ROOT; set_SPLAY_LEFT tmp r;;
  set_SPLAY_ROOT tmp.

(** The macros that assign [tmp] return its new value. *)
Definition SPLAY_LINKLEFT (tmp : Z) : M spmem Z :=
  r ← SPLAY_ROOT; set_SPLAY_LEFT tmp r;;
  tmp' ← SPLAY_ROOT;
  r ← SPLAY_ROOT; v ← SPLAY_LEFT r; set_SPLAY_ROOT v;;
  mret tmp'.

Definition SPLAY_LINKRIGHT (tmp : Z) : M spmem Z :=
  r ← SPLAY_ROOT; set_SPLAY_RIGHT tmp r;;
  tmp' ← SPLAY_ROOT;
  r ← SPLAY_ROOT; v ← SPLAY_RIGHT r; set_SPLAY_ROOT v;;
  mret tmp'.

Definition SPLAY_ASSEMBLE (node left_ right_ : Z) : M spmem unit :=
  r ← SPLAY_ROOT; v ← SPLAY_LEFT r; set_SPLAY_RIGHT left_ v;;
  r ← SPLAY_ROOT; v ← SPLAY_RIGHT r; set_SPLAY_LEFT right_ v;;
  r ← SPLAY_ROOT; v ← SPLAY_RIGHT node; set_SPLAY_LEFT r v;;
  r ← SPLAY_ROOT; v ← SPLAY_LEFT node; set_SPLAY_RIGHT r v.

(** The local variable [__node]: an address no live object has, for the time
    of the call. *)
Definition sp_fresh (st : gmap Z spnode) : Z :=
  1 + map_fold (fun p _ m => Z.max p m) 0 st.
Definition sp_alloca : M spmem Z :=
  s ← get;
  let p := sp_fresh (sp_store s) in
  put (SpMem (sph_root s) (<[p := SpNode NULL NULL junk]> (sp_store s)));;
  mret p.
Definition sp_leave (p : Z) : M spmem unit :=
  s ← get; put (SpMem (sph_root s) (delete p (sp_store s))).

(** A round of the while loop of [name##_SPLAY]; its variables are [__left]
    and [__right]. *)
Definition SPLAY_round (elm : Z) (lr : Z * Z) : M spmem ((Z * Z) + (Z * Z)) :=
  let '(left_, right_) := lr in
  root ← SPLAY_ROOT;
  comp ← sp_cmp elm root;
  if comp =? 0 then mret (inr (left_, right_))
  else if comp <? 0 then
    tmp ← SPLAY_LEFT root;
    if tmp =? NULL then mret (inr (left_, right_)) else
    c ← sp_cmp elm tmp;
    stop ← (if c <? 0 then
              SPLAY_ROTATE_RIGHT tmp;;
              r ← SPLAY_ROOT; l ← SPLAY_LEFT r; mret (l =? NULL)
            else mret false);
    if stop : bool then mret (inr (left_, right_)) else
    right' ← SPLAY_LINKLEFT right_;
    mret (inl (left_, right'))
  else
    tmp ← SPLAY_RIGHT root;
    if tmp =? NULL then mret (inr (left_, right_)) else
    c ← sp_cmp elm tmp;
    stop ← (if 0 <? c then
              SPLAY_ROTATE_LEFT tmp;;
              r ← SPLAY_ROOT; l ← SPLAY_RIGHT r; mret (l =? NULL)
            else mret false);
    if stop : bool then mret (inr (left_, right_)) else
    left' ← SPLAY_LINKRIGHT left_;
    mret (inl (left', right_)).

(** The bound of the loops: every round consumes a live node. *)
Definition sp_bound : M spmem nat :=
  s ← get; mret (S (size (sp_store s))).

Definition SPLAY (elm : Z) : M spmem unit :=
  node ← sp_alloca;
  set_SPLAY_RIGHT node NULL;; set_SPLAY_LEFT node NULL;;
  n ← sp_bound;
  lr ← loop n (SPLAY_round elm) (node, node);
  SPLAY_ASSEMBLE node lr.1 lr.2;;
  sp_leave node.

(** A round of [name##_SPLAY_MINMAX]; with [comp = 0] the C loop never ends. *)
Definition MINMAX_round (comp : Z) (lr : Z * Z) : M spmem ((Z * Z) + (Z * Z)) :=
  let '(left_, right_) := lr in
  if comp <? 0 then
    root ← SPLAY_ROOT; tmp ← SPLAY_LEFT root;
    if tmp =? NULL then mret (inr (left_, right_)) else
    stop ← (if comp <? 0 then
              SPLAY_ROTATE_RIGHT tmp;;
              r ← SPLAY_ROOT; l ← SPLAY_LEFT r; mret (l =? NULL)
            else mret false);
    if stop : bool then mret (inr (left_, right_)) else
    right' ← SPLAY_LINKLEFT right_;
    mret (inl (left_, right'))
  else if 0 <? comp then
    root ← SPLAY_ROOT; tmp ← SPLAY_RIGHT root;
    if tmp =? NULL then mret (inr (left_, right_)) else
    stop ← (if 0 <? comp then
              SPLAY_ROTATE_LEFT tmp;;
              r ← SPLAY_ROOT; l ← SPLAY_RIGHT r; mret (l =? NULL)
            else mret false);
    if stop : bool then mret (inr (left_, right_)) else
    left' ← SPLAY_LINKRIGHT left_;
    mret (inl (left', right_))
  else mret (inl (left_, right_)).

Definition SPLAY_MINMAX (comp : Z) : M spmem unit :=
  node ← sp_alloca;
  set_SPLAY_RIGHT node NULL;; set_SPLAY_LEFT node NULL;;
  n ← sp_bound;
  lr ← loop n (MINMAX_round comp) (node, node);
  SPLAY_ASSEMBLE node lr.1 lr.2;;
  sp_leave node.

Definition SPLAY_FIND (elm : Z) : M spmem Z :=
  e ← SPLAY_EMPTY;
  if e : bool then mret NULL else
  SPLAY elm;;
  r ← SPLAY_ROOT; c ← sp_cmp elm r;
  if c =? 0 then SPLAY_ROOT else mret NULL.

Definition SPLAY_NEXT (elm : Z) : M spmem Z :=
  SPLAY elm;;
  r ← SPLAY_RIGHT elm;
  if negb (r =? NULL) then
    n ← sp_bound;
    loop n (fun elm => l ← SPLAY_LEFT elm;
                       mret (if negb (l =? NULL) then inl l else inr elm)) r
  else mret NULL.

Definition SPLAY_MIN_MAX (val : Z) : M spmem Z :=
  SPLAY_MINMAX val;; SPLAY_ROOT.

Definition SPLAY_NEGINF : Z := -1.
Definition SPLAY_INF : Z := 1.

Definition SPLAY_MIN : M spmem Z :=
  e ← SPLAY_EMPTY; if e : bool then mret NULL else SPLAY_MIN_MAX SPLAY_NEGINF.
Definition SPLAY_MAX : M spmem Z :=
  e ← SPLAY_EMPTY; if e : bool then mret NULL else SPLAY_MIN_MAX SPLAY_INF.

(** Returns the node that is in the way, or NULL. *)
Definition SPLAY_INSERT (elm : Z) : M spmem Z :=
  e ← SPLAY_EMPTY;
  if e : bool then
    set_SPLAY_RIGHT elm NULL;; set_SPLAY_LEFT elm NULL;;
    set_SPLAY_ROOT elm;; mret NULL
  else
    SPLAY elm;;
    root ← SPLAY_ROOT;
    comp ← sp_cmp elm root;
    if comp <? 0 then
      r ← SPLAY_ROOT; v ← SPLAY_LEFT r; set_SPLAY_LEFT elm v;;
      r ← SPLAY_ROOT; set_SPLAY_RIGHT elm r;;
      r ← SPLAY_ROOT; set_SPLAY_LEFT r NULL;;
      set_SPLAY_ROOT elm;; mret NULL
    else if 0 <? comp then
      r ← SPLAY_ROOT; v ← SPLAY_RIGHT r; set_SPLAY_RIGHT elm v;;
      r ← SPLAY_ROOT; set_SPLAY_LEFT elm r;;
      r ← SPLAY_ROOT; set_SPLAY_RIGHT r NULL;;
      set_SPLAY_ROOT elm;; mret NULL
    else SPLAY_ROOT.

Definition SPLAY_REMOVE (elm : Z) : M spmem Z :=
  e ← SPLAY_EMPTY;
  if e : bool then mret NULL else
  SPLAY elm;;
  root ← SPLAY_ROOT; c ← sp_cmp elm root;
  if c =? 0 then
    r ← SPLAY_ROOT; l ← SPLAY_LEFT r;
    (if l =? NULL then
       r ← SPLAY_ROOT; v ← SPLAY_RIGHT r; set_SPLAY_ROOT v
     else
       r ← SPLAY_ROOT; tmp ← SPLAY_RIGHT r;
       r ← SPLAY_ROOT; v ← SPLAY_LEFT r; set_SPLAY_ROOT v;;
       SPLAY elm;;
       r ← SPLAY_ROOT; set_SPLAY_RIGHT r tmp);;
    mret elm
  else mret NULL.

(** The nodes that [SPLAY_FOREACH] visits. *)
Definition SPLAY_FOREACH : M spmem (list Z) :=
  x ← SPLAY_MIN;
  n ← sp_bound;
  loop n (fun '(x, acc) =>
            if negb (x =? NULL) then
              y ← SPLAY_NEXT x; mret (inl (y, acc ++ [x]))
            else mret (inr acc)) (x, []).
End Splay.

Arguments spnode : clear implicits.
Arguments spmem : clear implicits.
