(* ===== verification/SplayRep.v ===== *)
(** Binary trees in the store of [SplayTree], the two side trees of the
    top-down splay, and the effect of each macro on them. *)

From stdpp Require Import base gmap list.
From Stdlib Require Import ZArith Lia.
From S2P Require Import Prelude OrdSet SplayTree.

Section Rep.
Context {K : Type}.

Implicit Types (st : gmap Z (spnode K)) (s : spmem K).

(** The binary tree a store holds below a pointer. *)
Inductive tree :=
  | E
  | N (l : tree) (p : Z) (k : K) (r : tree).

Definition troot (t : tree) : Z :=
  match t with E => NULL | N _ p _ _ => p end.

Fixpoint inorder (t : tree) : list (Z * K) :=
  match t with
  | E => []
  | N l p k r => inorder l ++ (p, k) :: inorder r
  end.

Abbreviation addrs t := (inorder t).*1.

Fixpoint tsize (t : tree) : nat :=
  match t with E => O | N l _ _ r => S (tsize l + tsize r) end.

Fixpoint rep st (t : tree) : Prop :=
  match t with
  | E => True
  | N l p k r =>
      p <> NULL /\ st !! p = Some (SpNode (troot l) (troot r) k) /\
      rep st l /\ rep st r
  end.

(** The left tree under construction: the nodes on its right spine with their
    left subtrees, the lowest first. [hole]: the right child of the lowest
    node, or [None] while the C code leaves it stale; [rnd]: the right child of
    the local [__node], the root of this tree. *)
Abbreviation lframe := (tree * Z * K)%type.
Abbreviation rframe := (Z * K * tree)%type.

Fixpoint inorderL (L : list lframe) : list (Z * K) :=
  match L with
  | [] => []
  | (l, q, k) :: L' => inorderL L' ++ inorder l ++ [(q, k)]
  end.
Fixpoint inorderR (R : list rframe) : list (Z * K) :=
  match R with
  | [] => []
  | (q, k, r) :: R' => (q, k) :: inorder r ++ inorderR R'
  end.

Definition hole_ok (hole : option Z) (v : Z) : Prop :=
  match hole with Some h => v = h | None => True end.

Fixpoint repL st (rnd : Z) (L : list lframe) (hole : option Z) : Prop :=
  match L with
  | [] => hole_ok hole rnd
  | (l, q, k) :: L' =>
      q <> NULL /\
      (exists v, st !! q = Some (SpNode (troot l) v k) /\ hole_ok hole v) /\
      rep st l /\ repL st rnd L' (Some q)
  end.
Fixpoint repR st (lnd : Z) (R : list rframe) (hole : option Z) : Prop :=
  match R with
  | [] => hole_ok hole lnd
  | (q, k, r) :: R' =>
      q <> NULL /\
      (exists v, st !! q = Some (SpNode v (troot r) k) /\ hole_ok hole v) /\
      rep st r /\ repR st lnd R' (Some q)
  end.

Fixpoint plugL (L : list lframe) (t : tree) : tree :=
  match L with [] => t | (l, q, k) :: L' => plugL L' (N l q k t) end.
Fixpoint plugR (R : list rframe) (t : tree) : tree :=
  match R with [] => t | (q, k, r) :: R' => plugR R' (N t q k r) end.

Lemma inorder_plugL L t : inorder (plugL L t) = inorderL L ++ inorder t.
Proof.
  revert t. induction L as [|[[l q] k] L IH]; intros t; cbn; [done|].
  rewrite IH. cbn. by rewrite <-!app_assoc.
Qed.
Lemma inorder_plugR R t : inorder (plugR R t) = inorder t ++ inorderR R.
Proof.
  revert t. induction R as [|[[q k] r] R IH]; intros t; cbn; [by rewrite app_nil_r|].
  rewrite IH. cbn. by rewrite <-!app_assoc.
Qed.

Lemma tsize_length t : tsize t = length (inorder t).
Proof.
  induction t as [|l IHl p k r IHr]; cbn; [done|].
  rewrite length_app, IHl, IHr. cbn. lia.
Qed.

(** Writes outside a tree leave it as it is. *)
Lemma rep_insert st t p n :
  p ∉ addrs t -> rep st t -> rep (<[p:=n]> st) t.
Proof.
  induction t as [|l IHl q k r IHr]; cbn; [done|].
  rewrite fmap_app, fmap_cons. cbn. intros Hp (?&?&?&?).
  split_and!; [done|rewrite lookup_insert_ne; set_solver|set_solver..].
Qed.

Lemma repL_insert st rnd L hole p n :
  p ∉ (inorderL L).*1 -> repL st rnd L hole -> repL (<[p:=n]> st) rnd L hole.
Proof.
  revert hole. induction L as [|[[l q] k] L IH]; intros hole; cbn; [done|].
  rewrite !fmap_app. cbn. intros Hp (?&(v&?&?)&?&?). split_and!.
  - done.
  - exists v. split; [rewrite lookup_insert_ne; set_solver|done].
  - apply rep_insert; set_solver.
  - apply IH; set_solver.
Qed.

Lemma repR_insert st lnd R hole p n :
  p ∉ (inorderR R).*1 -> repR st lnd R hole -> repR (<[p:=n]> st) lnd R hole.
Proof.
  revert hole. induction R as [|[[q k] r] R IH]; intros hole; cbn; [done|].
  rewrite !fmap_app. cbn. intros Hp (?&(v&?&?)&?&?). split_and!.
  - done.
  - exists v. split; [rewrite lookup_insert_ne; set_solver|done].
  - apply rep_insert; set_solver.
  - apply IH; set_solver.
Qed.

Lemma rep_delete st t p : p ∉ addrs t -> rep st t -> rep (delete p st) t.
Proof.
  induction t as [|l IHl q k r IHr]; cbn; [done|].
  rewrite fmap_app, fmap_cons. cbn. intros Hp (?&?&?&?).
  split_and!; [done|rewrite lookup_delete_ne; set_solver|set_solver..].
Qed.

(** A tree read back from two stores that agree on its nodes. *)
Lemma rep_ext st st' t :
  (forall a, a ∈ addrs t -> st' !! a = st !! a) -> rep st t -> rep st' t.
Proof.
  induction t as [|l IHl q k r IHr]; cbn; [done|].
  rewrite fmap_app, fmap_cons. cbn. intros Hp (?&?&?&?).
  split_and!; [done|rewrite Hp; set_solver|apply IHl|apply IHr]; set_solver.
Qed.

Lemma rep_live st t e : rep st t -> e ∈ inorder t ->
  exists n, st !! e.1 = Some n /\ sp_key n = e.2 /\ e.1 <> NULL.
Proof.
  induction t as [|l IHl q k r IHr]; cbn; [set_solver|].
  intros (?&?&?&?) He. rewrite elem_of_app, elem_of_cons in He.
  destruct He as [He|[->|He]]; [auto| |auto]. eexists. by split_and!.
Qed.

Lemma repL_plug st rnd L t :
  repL st rnd L (Some (troot t)) -> rep st t ->
  rep st (plugL L t) /\ rnd = troot (plugL L t).
Proof.
  revert t. induction L as [|[[l q] k] L IH]; intros t; cbn; [done|].
  intros (?&(v&?&->)&?&?) Ht. by apply IH.
Qed.
Lemma repR_plug st lnd R t :
  repR st lnd R (Some (troot t)) -> rep st t ->
  rep st (plugR R t) /\ lnd = troot (plugR R t).
Proof.
  revert t. induction R as [|[[q k] r] R IH]; intros t; cbn; [done|].
  intros (?&(v&?&->)&?&?) Ht. by apply IH.
Qed.

(** The rest of the memory: payloads never change, and the nodes outside [X]
    do not change at all. *)
Definition evolves (X : list Z) st st' : Prop :=
  (forall a, sp_key <$> st' !! a = sp_key <$> st !! a) /\
  (forall a, a ∉ X -> st' !! a = st !! a).

Lemma evolves_refl X st : evolves X st st.
Proof. done. Qed.
Lemma evolves_trans X st1 st2 st3 :
  evolves X st1 st2 -> evolves X st2 st3 -> evolves X st1 st3.
Proof.
  intros [H1 H2] [H3 H4]. split; [intros a; by rewrite H3|].
  intros a Ha. by rewrite H4, H2.
Qed.
Lemma evolves_weaken X Y st st' : X ⊆ Y -> evolves X st st' -> evolves Y st st'.
Proof. intros Hsub [H1 H2]. split; [done|]. intros a Ha. apply H2. set_solver. Qed.
Lemma evolves_insert X st st' p n n' :
  evolves X st st' -> st' !! p = Some n -> sp_key n' = sp_key n -> p ∈ X ->
  evolves X st (<[p:=n']> st').
Proof.
  intros [H1 H2] Hp Hk HX. split.
  - intros a. rewrite <-H1. destruct (decide (a = p)) as [->|].
    + rewrite lookup_insert_eq, Hp. cbn. by rewrite Hk.
    + by rewrite lookup_insert_ne.
  - intros a Ha. rewrite lookup_insert_ne by set_solver. by apply H2.
Qed.

(** Runs of the accessors. *)
Lemma wp_sp_load p n Q s :
  p <> NULL -> sp_store s !! p = Some n -> Q n s -> wp (sp_load p) Q s.
Proof.
  intros Hp Hn HQ. unfold wp, sp_load.
  destruct (Z.eqb_spec p NULL); [done|]. by rewrite Hn.
Qed.
Lemma wp_SPLAY_LEFT p n Q s :
  p <> NULL -> sp_store s !! p = Some n -> Q (spe_left n) s ->
  wp (SPLAY_LEFT p) Q s.
Proof. intros. eapply wp_bind, wp_sp_load; eauto. Qed.
Lemma wp_SPLAY_RIGHT p n Q s :
  p <> NULL -> sp_store s !! p = Some n -> Q (spe_right n) s ->
  wp (SPLAY_RIGHT p) Q s.
Proof. intros. eapply wp_bind, wp_sp_load; eauto. Qed.
Lemma wp_set_SPLAY_LEFT p v n Q s :
  p <> NULL -> sp_store s !! p = Some n ->
  Q tt (SpMem (sph_root s) (<[p := set_spe_left v n]> (sp_store s))) ->
  wp (set_SPLAY_LEFT p v) Q s.
Proof. intros. eapply wp_bind, wp_sp_load; eauto. Qed.
Lemma wp_set_SPLAY_RIGHT p v n Q s :
  p <> NULL -> sp_store s !! p = Some n ->
  Q tt (SpMem (sph_root s) (<[p := set_spe_right v n]> (sp_store s))) ->
  wp (set_SPLAY_RIGHT p v) Q s.
Proof. intros. eapply wp_bind, wp_sp_load; eauto. Qed.
Lemma wp_SPLAY_ROOT Q s : Q (sph_root s) s -> wp SPLAY_ROOT Q s.
Proof. done. Qed.
Lemma wp_set_SPLAY_ROOT v (Q : unit -> spmem K -> Prop) s :
  Q tt (SpMem v (sp_store s)) -> wp (set_SPLAY_ROOT v) Q s.
Proof. done. Qed.
Lemma wp_sp_cmp (cmp : K -> K -> Z) a b na nb Q s :
  a <> NULL -> b <> NULL -> sp_store s !! a = Some na -> sp_store s !! b = Some nb ->
  Q (cmp (sp_key na) (sp_key nb)) s -> wp (sp_cmp cmp a b) Q s.
Proof.
  intros. eapply wp_bind, wp_sp_load; eauto.
  eapply wp_bind, wp_sp_load; eauto.
Qed.
Lemma wp_sp_bound (Q : nat -> spmem K -> Prop) s :
  Q (S (size (sp_store s))) s -> wp sp_bound Q s.
Proof. done. Qed.
End Rep.

Arguments tree : clear implicits.
Arguments E {K}.
Arguments N {K} l p k r.
