(* ===== verification/SplaySteps.v ===== *)
(** The macros of the top-down splay, each as a move between the left tree, the
    current tree and the right tree. *)

From stdpp Require Import base gmap list.
From Stdlib Require Import ZArith Lia.
From S2P Require Import Prelude OrdSet SplayTree SplayRep.

Section Steps.
Context {K : Type} (junk : K).
Abbreviation lframe := (tree K * Z * K)%type.
Abbreviation rframe := (Z * K * tree K)%type.

Definition ltop (nd : Z) (L : list lframe) : Z :=
  match L with [] => nd | (_, q, _) :: _ => q end.
Definition rtop (nd : Z) (R : list rframe) : Z :=
  match R with [] => nd | (q, _, _) :: _ => q end.

Section WithNode.
(** [st0]: the store the loop starts in; [nd]: the address of [__node];
    [es]: the entries of the tree that is splayed. *)
Context (st0 : gmap Z (spnode K)) (nd : Z) (es : list (Z * K)).
Context (Hnd : NoDup (nd :: es.*1)) (Hnd0 : nd <> NULL).

(** [hL], [hR]: the pointers in the lowest nodes of the side trees, once they
    are known. *)
Record assembling (hL hR : option Z) (L : list lframe) (t : tree K)
    (R : list rframe) (s : spmem K) : Prop := Assembling {
  sg_root : sph_root s = troot t;
  sg_rep : rep (sp_store s) t;
  sg_node : exists lnd rnd,
    sp_store s !! nd = Some (SpNode lnd rnd junk) /\
    repL (sp_store s) rnd L hL /\ repR (sp_store s) lnd R hR;
  sg_es : inorderL L ++ inorder t ++ inorderR R = es;
  sg_evolves : evolves (nd :: es.*1) st0 (sp_store s);
}.

Abbreviation splaying := (assembling None None).

(** The address facts of a state, for [set_solver]. *)
Lemma sg_nodup hL hR L t R s :
  assembling hL hR L t R s ->
  NoDup (nd :: (inorderL L).*1 ++ (inorder t).*1 ++ (inorderR R).*1).
Proof.
  intros [_ _ _ <- _]. revert Hnd. by rewrite !fmap_app.
Qed.

Lemma elem_of_es hL hR L t R s a :
  assembling hL hR L t R s ->
  a = nd \/ a ∈ (inorderL L).*1 \/ a ∈ (inorder t).*1 \/ a ∈ (inorderR R).*1 ->
  a ∈ nd :: es.*1.
Proof.
  intros [_ _ _ <- _]. rewrite !fmap_app. set_solver.
Qed.

Ltac prepare H :=
  pose proof (sg_nodup _ _ _ _ _ _ H) as Hn; parts_in Hn;
  pose proof (fun a => elem_of_es _ _ _ _ _ _ a H) as Hes;
  destruct H as [Hroot Hrep (lnd & rnd & Hnode & HL & HR) He Hev];
  cbn in Hrep; destruct_and? Hrep.

Ltac look :=
  cbn; rewrite ?lookup_insert_ne by notin;
  first [eassumption | apply lookup_insert_eq].

Ltac upd :=
  first
    [ done | assumption
    | eapply evolves_insert;
      [ | look | done
        | match goal with He : forall a, _ -> a ∈ _ |- _ => apply He; isin end ]
    | apply rep_insert; [notin|]
    | apply repL_insert; [notin|]
    | apply repR_insert; [notin|]
    | rewrite lookup_insert_eq
    | rewrite lookup_insert_ne by notin ].

Lemma wp_ROTATE_RIGHT L a q kq b p kp r R s :
  splaying L (N (N a q kq b) p kp r) R s ->
  wp (SPLAY_ROTATE_RIGHT q)
    (fun _ => splaying L (N a q kq (N b p kp r)) R) s.
Proof.
  intros H. prepare H. unfold SPLAY_ROTATE_RIGHT.
  eapply wp_bind, wp_SPLAY_ROOT. rewrite Hroot. cbn [troot].
  eapply wp_bind, wp_SPLAY_RIGHT; [done..|].
  eapply wp_bind, wp_set_SPLAY_LEFT; [done..|].
  eapply wp_bind, wp_SPLAY_ROOT. cbn.
  eapply wp_bind, wp_set_SPLAY_RIGHT; [done|look|].
  apply wp_set_SPLAY_ROOT. cbn. rewrite Hroot. cbn [troot].
  split; cbn.
  - done.
  - split_and!; repeat upd.
  - exists lnd, rnd. split_and!; repeat upd.
  - rewrite <-He. by app_norm.
  - repeat upd.
Qed.

Lemma wp_ROTATE_LEFT L l p kp a q kq b R s :
  splaying L (N l p kp (N a q kq b)) R s ->
  wp (SPLAY_ROTATE_LEFT q)
    (fun _ => splaying L (N (N l p kp a) q kq b) R) s.
Proof.
  intros H. prepare H. unfold SPLAY_ROTATE_LEFT.
  eapply wp_bind, wp_SPLAY_ROOT. rewrite Hroot. cbn [troot].
  eapply wp_bind, wp_SPLAY_LEFT; [done..|].
  eapply wp_bind, wp_set_SPLAY_RIGHT; [done..|].
  eapply wp_bind, wp_SPLAY_ROOT. cbn.
  eapply wp_bind, wp_set_SPLAY_LEFT; [done|look|].
  apply wp_set_SPLAY_ROOT. cbn. rewrite Hroot. cbn [troot].
  split; cbn.
  - done.
  - split_and!; repeat upd.
  - exists lnd, rnd. split_and!; repeat upd.
  - rewrite <-He. by app_norm.
  - repeat upd.
Qed.

Lemma wp_LINKLEFT L l p kp r R s :
  splaying L (N l p kp r) R s ->
  wp (SPLAY_LINKLEFT (rtop nd R))
    (fun right' s' => right' = p /\ splaying L l ((p, kp, r) :: R) s') s.
Proof.
  intros H. unfold SPLAY_LINKLEFT.
  destruct R as [|[[q kq] b] R]; prepare H; cbn [repR] in HR.
  - eapply wp_bind, wp_SPLAY_ROOT. rewrite Hroot. cbn [troot].
    eapply wp_bind, wp_set_SPLAY_LEFT; [done..|].
    eapply wp_bind, wp_SPLAY_ROOT. eapply wp_bind, wp_SPLAY_ROOT. cbn.
    rewrite Hroot. cbn [troot].
    eapply wp_bind, wp_SPLAY_LEFT; [done|look|].
    eapply wp_bind, wp_set_SPLAY_ROOT. apply wp_ret. cbn. split; [done|].
    split; cbn.
    + done.
    + by upd.
    + exists p, rnd. unfold set_spe_left. cbn. split_and!; repeat upd.
      exists (troot l). by upd.
    + rewrite <-He. by app_norm.
    + repeat upd.
  - destruct HR as (Hq & (v & Hq' & _) & Hb & HR).
    eapply wp_bind, wp_SPLAY_ROOT. rewrite Hroot. cbn [troot].
    eapply wp_bind, wp_set_SPLAY_LEFT; [done..|].
    eapply wp_bind, wp_SPLAY_ROOT. eapply wp_bind, wp_SPLAY_ROOT. cbn.
    rewrite Hroot. cbn [troot].
    eapply wp_bind, wp_SPLAY_LEFT; [done|look|].
    eapply wp_bind, wp_set_SPLAY_ROOT. apply wp_ret. cbn. split; [done|].
    split; cbn.
    + done.
    + by upd.
    + exists lnd, rnd. unfold set_spe_left. cbn. split_and!; repeat upd.
      { exists (troot l). by upd. } exists p. by upd.
    + rewrite <-He. by app_norm.
    + repeat upd.
Qed.

Lemma wp_LINKRIGHT L l p kp r R s :
  splaying L (N l p kp r) R s ->
  wp (SPLAY_LINKRIGHT (ltop nd L))
    (fun left' s' => left' = p /\ splaying ((l, p, kp) :: L) r R s') s.
Proof.
  intros H. unfold SPLAY_LINKRIGHT.
  destruct L as [|[[b q] kq] L]; prepare H; cbn [repL] in HL.
  - eapply wp_bind, wp_SPLAY_ROOT. rewrite Hroot. cbn [troot].
    eapply wp_bind, wp_set_SPLAY_RIGHT; [done..|].
    eapply wp_bind, wp_SPLAY_ROOT. eapply wp_bind, wp_SPLAY_ROOT. cbn.
    rewrite Hroot. cbn [troot].
    eapply wp_bind, wp_SPLAY_RIGHT; [done|look|].
    eapply wp_bind, wp_set_SPLAY_ROOT. apply wp_ret. cbn. split; [done|].
    split; cbn.
    + done.
    + by upd.
    + exists lnd, p. unfold set_spe_right. cbn. split_and!; repeat upd.
      exists (troot r). by upd.
    + rewrite <-He. by app_norm.
    + repeat upd.
  - destruct HL as (Hq & (v & Hq' & _) & Hb & HL).
    eapply wp_bind, wp_SPLAY_ROOT. rewrite Hroot. cbn [troot].
    eapply wp_bind, wp_set_SPLAY_RIGHT; [done..|].
    eapply wp_bind, wp_SPLAY_ROOT. eapply wp_bind, wp_SPLAY_ROOT. cbn.
    rewrite Hroot. cbn [troot].
    eapply wp_bind, wp_SPLAY_RIGHT; [done|look|].
    eapply wp_bind, wp_set_SPLAY_ROOT. apply wp_ret. cbn. split; [done|].
    split; cbn.
    + done.
    + by upd.
    + exists lnd, rnd. unfold set_spe_right. cbn. split_and!; repeat upd.
      { exists (troot r). by upd. } exists p. by upd.
    + rewrite <-He. by app_norm.
    + repeat upd.
Qed.

(** [SPLAY_ASSEMBLE] hangs the subtrees of the root below the side trees, and
    then the side trees below the root. *)
Lemma wp_fill_left hR L t R s v :
  assembling None hR L t R s ->
  wp (set_SPLAY_RIGHT (ltop nd L) v)
    (fun _ => assembling (Some v) hR L t R) s.
Proof.
  intros H. destruct L as [|[[b q] kq] L]; prepare H; cbn [repL] in HL.
  - eapply wp_set_SPLAY_RIGHT; [done..|]. split; cbn; repeat upd.
    exists lnd, v. unfold set_spe_right. cbn. split_and!; repeat upd.
  - destruct HL as (Hq & (w & Hq' & _) & Hb & HL).
    eapply wp_set_SPLAY_RIGHT; [done..|]. split; cbn; repeat upd.
    exists lnd, rnd. unfold set_spe_right. cbn. split_and!; repeat upd.
    exists v. split; by upd.
Qed.

Lemma wp_fill_right hL L t R s v :
  assembling hL None L t R s ->
  wp (set_SPLAY_LEFT (rtop nd R) v)
    (fun _ => assembling hL (Some v) L t R) s.
Proof.
  intros H. destruct R as [|[[q kq] b] R]; prepare H; cbn [repR] in HR.
  - eapply wp_set_SPLAY_LEFT; [done..|]. split; cbn; repeat upd.
    exists v, rnd. unfold set_spe_left. cbn. split_and!; repeat upd.
  - destruct HR as (Hq & (w & Hq' & _) & Hb & HR).
    eapply wp_set_SPLAY_LEFT; [done..|]. split; cbn; repeat upd.
    exists lnd, rnd. unfold set_spe_left. cbn. split_and!; repeat upd.
    exists v. split; by upd.
Qed.

Definition assembled (t : tree K) (s : spmem K) : Prop :=
  sph_root s = troot t /\ rep (sp_store s) t /\ inorder t = es /\
  evolves (nd :: es.*1) st0 (sp_store s).

Lemma wp_ASSEMBLE L l p kp r R s :
  splaying L (N l p kp r) R s ->
  wp (SPLAY_ASSEMBLE nd (ltop nd L) (rtop nd R))
    (fun _ => assembled (N (plugL L l) p kp (plugR R r))) s.
Proof.
  intros H. unfold SPLAY_ASSEMBLE.
  pose proof H as [Hroot (Hp & Hp' & _) _ _ _].
  eapply wp_bind, wp_SPLAY_ROOT. rewrite Hroot. cbn [troot].
  eapply wp_bind, wp_SPLAY_LEFT; [done..|].
  apply wp_bind. eapply wp_mono; [by apply wp_fill_left|].
  intros [] s1 H1. clear Hroot Hp'. pose proof H1 as [Hroot (_ & Hp' & _) _ _ _].
  eapply wp_bind, wp_SPLAY_ROOT. rewrite Hroot. cbn [troot].
  eapply wp_bind, wp_SPLAY_RIGHT; [done..|].
  apply wp_bind. eapply wp_mono; [by apply wp_fill_right|].
  intros [] s2 H2. clear Hroot Hp' Hp. prepare H2.
  cbn [spe_left spe_right] in *.
  apply repL_plug in HL as [HL ->]; [|done].
  apply repR_plug in HR as [HR ->]; [|done].
  eapply wp_bind, wp_SPLAY_ROOT. rewrite Hroot. cbn [troot].
  eapply wp_bind, wp_SPLAY_RIGHT; [done..|].
  eapply wp_bind, wp_set_SPLAY_LEFT; [done..|].
  eapply wp_bind, wp_SPLAY_ROOT. cbn. rewrite Hroot. cbn [troot].
  eapply wp_bind, wp_SPLAY_LEFT; [done|look|].
  eapply wp_set_SPLAY_RIGHT; [done|look|]. cbn.
  unfold set_spe_right, set_spe_left. cbn.
  assert (p ∉ (inorder (plugL L l)).*1).
  { rewrite inorder_plugL. notin. }
  assert (p ∉ (inorder (plugR R r)).*1).
  { rewrite inorder_plugR. notin. }
  split; [done|split; [|split]]; cbn.
  - split_and!; repeat upd.
  - rewrite <-He, inorder_plugL, inorder_plugR. by app_norm.
  - repeat upd.
Qed.
End WithNode.
End Steps.
