(* ===== verification/SplayCorrect.v ===== *)
(** The functions of [SPLAY_GENERATE] and [SPLAY_PROTOTYPE]: each is proved to
    end, on every splay tree, with the result of the ordered set of [OrdSet] and
    with a splay tree again. *)

From stdpp Require Import base gmap list.
From Stdlib Require Import ZArith Lia.
From S2P Require Import Prelude OrdSet SplayTree SplayRep SplaySteps.

Lemma sp_fresh_bound {K} (st : gmap Z (spnode K)) :
  0 < sp_fresh st /\ forall p, is_Some (st !! p) -> p < sp_fresh st.
Proof.
  unfold sp_fresh.
  set (m := map_fold _ 0 st).
  enough (0 <= m /\ forall p, is_Some (st !! p) -> p <= m) as [? H].
  { split; [lia|]. intros p Hp. specialize (H p Hp). lia. }
  subst m. apply (map_fold_weak_ind (fun m st =>
    0 <= m /\ forall p, is_Some (st !! p) -> p <= m)).
  - split; [lia|]. intros p [? Hp]. by rewrite lookup_empty in Hp.
  - intros q n st' m Hq [Hm IH]. split; [lia|]. intros p Hp.
    destruct (decide (p = q)) as [->|]; [lia|].
    rewrite lookup_insert_ne in Hp by done. specialize (IH p Hp). lia.
Qed.

Lemma sp_fresh_None {K} (st : gmap Z (spnode K)) : st !! sp_fresh st = None.
Proof.
  apply eq_None_not_Some. intros H. apply sp_fresh_bound in H. lia.
Qed.

Section Correct.
Context {K : Type} (cmp : K -> K -> Z) `{!Comparator cmp} (junk : K).

(** The store of [s] holds the tree [t] below the head. *)
Record tree_at (t : tree K) (s : spmem K) : Prop := TreeAt {
  ta_root : sph_root s = troot t;
  ta_rep : rep (sp_store s) t;
  ta_nodup : NoDup (inorder t).*1;
  ta_sorted : sorted cmp (inorder t);
}.

(** The splay tree of [s] holds the entries [es]. *)
Definition splay_set (es : list (Z * K)) (s : spmem K) : Prop :=
  exists t, tree_at t s /\ inorder t = es.

(** The live object at [elm] has the key [k]. *)
Definition key_at (elm : Z) (k : K) (s : spmem K) : Prop :=
  elm <> NULL /\ sp_key <$> sp_store s !! elm = Some k.

Lemma key_at_evolves elm k X s s' :
  key_at elm k s -> evolves X (sp_store s) (sp_store s') -> key_at elm k s'.
Proof. intros [? H] [H1 _]. split; [done|]. by rewrite H1. Qed.

Lemma wp_cmp_at elm k p n Q s :
  key_at elm k s -> p <> NULL -> sp_store s !! p = Some n ->
  Q (cmp k (sp_key n)) s -> wp (sp_cmp cmp elm p) Q s.
Proof.
  intros [? H] ???. apply fmap_Some in H as (m & ? & ->).
  by eapply wp_sp_cmp.
Qed.

(** The root is the node of the key, or next to the place of the key. *)
Definition closest (k : K) (t : tree K) : Prop :=
  match t with
  | E => False
  | N l p kp r =>
      cmp k kp = 0 \/
      (cmp k kp < 0 /\ below cmp k (inorder l)) \/
      (0 < cmp k kp /\ above cmp k (inorder r))
  end.

Lemma troot_E (st : gmap Z (spnode K)) t : rep st t -> troot t = NULL -> t = E.
Proof. destruct t; [done|]. cbn. by intros [??]. Qed.

Lemma tree_at_size t s : tree_at t s -> (tsize t <= size (sp_store s))%nat.
Proof.
  intros [_ Hrep Hnd _]. rewrite tsize_length, <-(length_fmap fst).
  apply NoDup_keys_size; [done|]. intros a Ha.
  apply list_elem_of_fmap in Ha as (e & -> & He).
  destruct (rep_live _ _ _ Hrep He) as (n & -> & _). by eexists.
Qed.

Section Loop.
Context (st0 : gmap Z (spnode K)) (nd : Z) (es : list (Z * K)).
Context (Hnd : NoDup (nd :: es.*1)) (Hnd0 : nd <> NULL).
Context (Hsorted : sorted cmp es).
Context (elm : Z) (k : K) (Helm0 : elm <> NULL)
  (Helm : sp_key <$> st0 !! elm = Some k).

Abbreviation splaying := (assembling junk st0 nd es None None).

(** A round starts with the smaller keys on the left, the greater ones on the
    right, and a current tree of [n] nodes. *)
Definition SPLAY_inv (n : nat) (lr : Z * Z) (s : spmem K) : Prop :=
  exists L t R,
    splaying L t R s /\ t <> E /\ tsize t = n /\
    lr = (ltop nd L, rtop nd R) /\
    below cmp k (inorderL L) /\ above cmp k (inorderR R).

Definition SPLAY_exit (lr : Z * Z) (s : spmem K) : Prop :=
  exists L t R,
    splaying L t R s /\ closest k t /\
    lr = (ltop nd L, rtop nd R) /\
    below cmp k (inorderL L) /\ above cmp k (inorderR R).

Lemma splaying_key L t R s : splaying L t R s -> key_at elm k s.
Proof. intros [_ _ _ _ [H _]]. split; [done|]. by rewrite H. Qed.

(** The keys right of the root of the current tree are greater. *)
Lemma splaying_root L l p kp r R s :
  splaying L (N l p kp r) R s ->
  below cmp kp (inorderL L ++ inorder l) /\
  above cmp kp (inorder r ++ inorderR R).
Proof.
  intros [_ _ _ He _]. revert Hsorted. rewrite <-He. cbn.
  rewrite <-app_assoc, app_assoc. cbn. rewrite sorted_mid by done. tauto.
Qed.

(** Rounds that descend to the left, to the right. *)
Lemma above_root L l p kp r R s :
  splaying L (N l p kp r) R s -> cmp k kp < 0 ->
  above cmp k ((p, kp) :: inorder r ++ inorderR R).
Proof.
  intros H Hlt. apply splaying_root in H as [_ H].
  apply above_cons. split; [done|]. by eapply above_lt.
Qed.
Lemma below_root L l p kp r R s :
  splaying L (N l p kp r) R s -> 0 < cmp k kp ->
  below cmp k (inorderL L ++ inorder l ++ [(p, kp)]).
Proof.
  intros H Hlt. apply splaying_root in H as [H _].
  rewrite app_assoc, below_app, below_cons. apply cmp_gt in Hlt; [|done].
  split_and!; [by eapply below_lt|done|apply below_nil].
Qed.

Lemma wp_descend_left n L l p kp r R s :
  splaying L (N l p kp r) R s -> cmp k kp < 0 ->
  below cmp k (inorderL L) -> above cmp k (inorderR R) ->
  tsize (N l p kp r) = n ->
  wp (tmp ← SPLAY_LEFT p;
      if tmp =? NULL then mret (inr (ltop nd L, rtop nd R)) else
      c ← sp_cmp cmp elm tmp;
      stop ← (if c <? 0 then
                SPLAY_ROTATE_RIGHT tmp;;
                r ← SPLAY_ROOT; l ← SPLAY_LEFT r; mret (l =? NULL)
              else mret false);
      if stop : bool then mret (inr (ltop nd L, rtop nd R)) else
      right' ← SPLAY_LINKLEFT (rtop nd R);
      mret (inl (ltop nd L, right')))
    (fun lr s' =>
      match lr with
      | inl lr => exists m, (m < n)%nat /\ SPLAY_inv m lr s'
      | inr lr => SPLAY_exit lr s'
      end) s.
Proof.
  intros H Hlt HL HR Hn. pose proof (above_root _ _ _ _ _ _ _ H Hlt) as Ha.
  pose proof (sg_rep _ _ _ _ _ _ _ _ _ _ H) as (Hp & Hp' & Hl & Hr).
  eapply wp_bind, wp_SPLAY_LEFT; [done..|]. cbn [spe_left].
  destruct l as [|a q kq b]; cbn [troot].
  { apply wp_ret. exists L, (N E p kp r), R. split_and!; try done.
    right; left. split; [done|apply below_nil]. }
  destruct Hl as (Hq & Hq' & Hla & Hlb). rewrite (proj2 (Z.eqb_neq q NULL)) by done.
  eapply wp_bind, wp_cmp_at; [by eapply splaying_key|done..|]. cbn [sp_key].
  apply wp_bind. destruct (Z.ltb_spec (cmp k kq) 0).
  - apply wp_bind. eapply wp_mono; [by apply wp_ROTATE_RIGHT|].
    intros [] s1 H1. cbn beta in H1.
    pose proof (above_root _ _ _ _ _ _ _ H1 ltac:(done)) as Ha'.
    pose proof H1 as [Hroot (_ & Hq1 & Hra & _) _ _ _].
    eapply wp_bind, wp_SPLAY_ROOT. rewrite Hroot. cbn [troot].
    eapply wp_bind, wp_SPLAY_LEFT; [done..|]. apply wp_ret. cbn [spe_left].
    destruct (Z.eqb_spec (troot a) NULL) as [Ha0|Ha0].
    + apply (troot_E (sp_store s1)) in Ha0 as ->; [|done]. apply wp_ret.
      exists L, (N E q kq (N b p kp r)), R. split_and!; try done.
      right; left. split; [done|apply below_nil].
    + apply wp_bind. eapply wp_mono; [by apply wp_LINKLEFT|].
      intros right' s2 [-> H2]. apply wp_ret. exists (tsize a). split.
      { rewrite <-Hn. cbn. lia. }
      exists L, a, ((q, kq, N b p kp r) :: R). split_and!; try done.
      intros ->. by apply Ha0.
  - apply wp_ret. apply wp_bind. eapply wp_mono; [by apply wp_LINKLEFT|].
    intros right' s2 [-> H2]. apply wp_ret. exists (tsize (N a q kq b)). split.
    { rewrite <-Hn. cbn. lia. }
    exists L, (N a q kq b), ((p, kp, r) :: R). by split_and!.
Qed.

Lemma wp_descend_right n L l p kp r R s :
  splaying L (N l p kp r) R s -> 0 < cmp k kp ->
  below cmp k (inorderL L) -> above cmp k (inorderR R) ->
  tsize (N l p kp r) = n ->
  wp (tmp ← SPLAY_RIGHT p;
      if tmp =? NULL then mret (inr (ltop nd L, rtop nd R)) else
      c ← sp_cmp cmp elm tmp;
      stop ← (if 0 <? c then
                SPLAY_ROTATE_LEFT tmp;;
                r ← SPLAY_ROOT; l ← SPLAY_RIGHT r; mret (l =? NULL)
              else mret false);
      if stop : bool then mret (inr (ltop nd L, rtop nd R)) else
      left' ← SPLAY_LINKRIGHT (ltop nd L);
      mret (inl (left', rtop nd R)))
    (fun lr s' =>
      match lr with
      | inl lr => exists m, (m < n)%nat /\ SPLAY_inv m lr s'
      | inr lr => SPLAY_exit lr s'
      end) s.
Proof.
  intros H Hgt HL HR Hn. pose proof (below_root _ _ _ _ _ _ _ H Hgt) as Hb.
  pose proof (sg_rep _ _ _ _ _ _ _ _ _ _ H) as (Hp & Hp' & Hl & Hr).
  eapply wp_bind, wp_SPLAY_RIGHT; [done..|]. cbn [spe_right].
  destruct r as [|a q kq b]; cbn [troot].
  { apply wp_ret. exists L, (N l p kp E), R. split_and!; try done.
    right; right. split; [done|apply above_nil]. }
  destruct Hr as (Hq & Hq' & Hra & Hrb). rewrite (proj2 (Z.eqb_neq q NULL)) by done.
  eapply wp_bind, wp_cmp_at; [by eapply splaying_key|done..|]. cbn [sp_key].
  apply wp_bind. destruct (Z.ltb_spec 0 (cmp k kq)).
  - apply wp_bind. eapply wp_mono; [by apply wp_ROTATE_LEFT|].
    intros [] s1 H1. cbn beta in H1.
    pose proof (below_root _ _ _ _ _ _ _ H1 ltac:(done)) as Hb'.
    pose proof H1 as [Hroot (_ & Hq1 & _ & Hrb') _ _ _].
    eapply wp_bind, wp_SPLAY_ROOT. rewrite Hroot. cbn [troot].
    eapply wp_bind, wp_SPLAY_RIGHT; [done..|]. apply wp_ret. cbn [spe_right].
    destruct (Z.eqb_spec (troot b) NULL) as [Hb0|Hb0].
    + apply (troot_E (sp_store s1)) in Hb0 as ->; [|done]. apply wp_ret.
      exists L, (N (N l p kp a) q kq E), R. split_and!; try done.
      right; right. split; [done|apply above_nil].
    + apply wp_bind. eapply wp_mono; [by apply wp_LINKRIGHT|].
      intros left' s2 [-> H2]. apply wp_ret. exists (tsize b). split.
      { rewrite <-Hn. cbn. lia. }
      exists ((N l p kp a, q, kq) :: L), b, R. split_and!; try done.
      intros ->. by apply Hb0.
  - apply wp_ret. apply wp_bind. eapply wp_mono; [by apply wp_LINKRIGHT|].
    intros left' s2 [-> H2]. apply wp_ret. exists (tsize (N a q kq b)). split.
    { rewrite <-Hn. cbn. lia. }
    exists ((l, p, kp) :: L), (N a q kq b), R. by split_and!.
Qed.

Lemma wp_SPLAY_round n lr s :
  SPLAY_inv n lr s ->
  wp (SPLAY_round cmp elm lr)
    (fun lr s' =>
      match lr with
      | inl lr => exists m, (m < n)%nat /\ SPLAY_inv m lr s'
      | inr lr => SPLAY_exit lr s'
      end) s.
Proof.
  intros (L & t & R & H & Ht & Hn & -> & HL & HR).
  destruct t as [|l p kp r]; [done|]. unfold SPLAY_round.
  pose proof H as [Hroot (Hp & Hp' & _) _ _ _].
  eapply wp_bind, wp_SPLAY_ROOT. rewrite Hroot. cbn [troot].
  eapply wp_bind, wp_cmp_at; [by eapply splaying_key|done..|]. cbn [sp_key].
  destruct (Z.eqb_spec (cmp k kp) 0).
  { apply wp_ret. exists L, (N l p kp r), R. split_and!; try done. by left. }
  destruct (Z.ltb_spec (cmp k kp) 0).
  - by eapply wp_descend_left.
  - eapply wp_descend_right; try done. lia.
Qed.
End Loop.

(** The shape of [SPLAY] and of [SPLAY_MINMAX]: a loop between the entry and the
    exit of the function. *)
Lemma wp_top_down (round : Z * Z -> M (spmem K) ((Z * Z) + (Z * Z)))
    (P : tree K -> Prop) t s :
  tree_at t s -> t <> E ->
  (forall st0 nd s1 n,
     NoDup (nd :: (inorder t).*1) -> nd <> NULL ->
     (forall a, is_Some (sp_store s !! a) ->
        sp_key <$> st0 !! a = sp_key <$> sp_store s !! a) ->
     assembling junk st0 nd (inorder t) None None [] t [] s1 -> (tsize t < n)%nat ->
     wp (loop n round (nd, nd))
       (fun lr s2 => exists L l p kp r R,
          assembling junk st0 nd (inorder t) None None L (N l p kp r) R s2 /\
          lr = (ltop nd L, rtop nd R) /\
          P (N (plugL L l) p kp (plugR R r))) s1) ->
  wp (node ← sp_alloca junk;
      set_SPLAY_RIGHT node NULL;; set_SPLAY_LEFT node NULL;;
      n ← sp_bound;
      lr ← loop n round (node, node);
      SPLAY_ASSEMBLE node lr.1 lr.2;;
      sp_leave node)
    (fun _ s' => exists t', P t' /\ tree_at t' s' /\ inorder t' = inorder t /\
       evolves (inorder t).*1 (sp_store s) (sp_store s')) s.
Proof.
  intros Hta Ht Hloop. pose proof (tree_at_size _ _ Hta) as Hsize.
  destruct Hta as [Hroot Hrep Hnd Hsorted].
  set (nd := sp_fresh (sp_store s)).
  assert (Hfresh : sp_store s !! nd = None) by apply sp_fresh_None.
  assert (Hnd0 : nd <> NULL) by (destruct (sp_fresh_bound (sp_store s)); unfold nd; lia).
  assert (Hnd' : nd ∉ (inorder t).*1).
  { intros Hin. apply list_elem_of_fmap in Hin as (e & He & Hin).
    destruct (rep_live _ _ _ Hrep Hin) as (n & Hn & _). congruence. }
  set (st0 := <[nd := SpNode NULL NULL junk]> (sp_store s)).
  apply wp_bind. unfold sp_alloca. do 2 (apply wp_bind; apply wp_get || apply wp_put).
  apply wp_ret. fold nd st0.
  eapply wp_bind, wp_set_SPLAY_RIGHT; [done|apply lookup_insert_eq|].
  eapply wp_bind, wp_set_SPLAY_LEFT; [done|apply lookup_insert_eq|].
  unfold set_spe_left, set_spe_right. cbn. unfold st0. rewrite !insert_insert_eq. fold st0.
  eapply wp_bind, wp_sp_bound. apply wp_bind. cbn [sp_store].
  assert (Hst0 : size st0 = S (size (sp_store s))) by by apply map_size_insert_None.
  eapply wp_mono; [apply (Hloop st0 nd); [by apply NoDup_cons|done| | |lia]|].
  { intros a [n Hn]. unfold st0. rewrite lookup_insert_ne; [done|congruence]. }
  { split; cbn.
    - done.
    - by apply rep_insert.
    - exists NULL, NULL. split; [apply lookup_insert_eq|done].
    - by rewrite app_nil_r.
    - apply evolves_refl. }
  intros lr s2 (L & l & p & kp & r & R & H2 & -> & HP). cbn [fst snd].
  apply wp_bind. eapply wp_mono; [eapply wp_ASSEMBLE; [by apply NoDup_cons|done..]|].
  intros [] s3 (Hroot3 & Hrep3 & Hin3 & [Hev1 Hev2]). unfold sp_leave.
  eapply wp_bind, wp_get. apply wp_put.
  eexists. split; [done|]. split; [|split; [done|]]; cbn [sp_store].
  - split; cbn [sph_root sp_store]; [done| |by rewrite Hin3..].
    apply rep_delete; [|done]. by rewrite Hin3.
  - split; intros a; destruct (decide (a = nd)) as [->|Hne].
    + by rewrite lookup_delete_eq, Hfresh.
    + rewrite lookup_delete_ne, Hev1 by done. unfold st0.
      by rewrite lookup_insert_ne.
    + by rewrite lookup_delete_eq, Hfresh.
    + intros Ha. rewrite lookup_delete_ne, Hev2 by (done || notin).
      unfold st0. by rewrite lookup_insert_ne.
Qed.

(** [SPLAY] brings the node of the key to the root, or a neighbour of its
    place, and keeps the entries. *)
Lemma wp_SPLAY elm k t s :
  tree_at t s -> t <> E -> key_at elm k s ->
  wp (SPLAY cmp junk elm)
    (fun _ s' => exists t', closest k t' /\ tree_at t' s' /\ inorder t' = inorder t /\
       evolves (inorder t).*1 (sp_store s) (sp_store s')) s.
Proof.
  intros Hta Ht [Helm0 Helm]. apply wp_top_down; [done..|].
  intros st0 nd s1 n Hnd Hnd0 Hkeys H1 Hn.
  assert (Helm' : sp_key <$> st0 !! elm = Some k).
  { rewrite Hkeys; [done|]. apply fmap_Some in Helm as (m & -> & _). by eexists. }
  eapply wp_mono.
  - eapply (wp_loop _ (SPLAY_inv st0 nd (inorder t) k)
      (SPLAY_exit st0 nd (inorder t) k)); [| |done].
    + intros m lr s' Hinv. apply wp_SPLAY_round; try done. apply Hta.
    + exists [], t, []. split_and!; try done; [apply below_nil|apply above_nil].
  - intros lr s2 (L & t2 & R & H2 & Hc & -> & HL & HR).
    destruct t2 as [|l p kp r]; [done|]. exists L, l, p, kp, r, R.
    split; [done|]. split; [done|]. unfold closest in *.
    rewrite inorder_plugL, inorder_plugR, below_app, above_app. tauto.
Qed.

Lemma tree_at_root l p kp r s :
  tree_at (N l p kp r) s ->
  sph_root s = p /\ p <> NULL /\
  sp_store s !! p = Some (SpNode (troot l) (troot r) kp).
Proof. by intros [? (?&?&_) _ _]. Qed.

Lemma tree_at_live t s e : tree_at t s -> e ∈ inorder t -> key_at e.1 e.2 s.
Proof.
  intros [_ Hrep _ _] He. destruct (rep_live _ _ _ Hrep He) as (n & Hn & Hk & ?).
  split; [done|]. by rewrite Hn, <-Hk.
Qed.

(** The place of a key in a tree with this key, or a neighbour, at its root. *)
Lemma closest_place k l p kp r s :
  tree_at (N l p kp r) s -> closest k (N l p kp r) ->
  (cmp k kp = 0 /\ below cmp k (inorder l) /\ above cmp k (inorder r)) \/
  (cmp k kp < 0 /\ below cmp k (inorder l) /\ above cmp k ((p, kp) :: inorder r)) \/
  (0 < cmp k kp /\ below cmp k (inorder l ++ [(p, kp)]) /\ above cmp k (inorder r)).
Proof.
  intros [_ _ _ Hs] Hc. cbn in Hs. apply sorted_mid in Hs as (_ & _ & Hl & Hr); [|done].
  cbn [snd] in *. destruct Hc as [Hc|[[Hc Hb]|[Hc Ha]]].
  - left. split_and!; [done|eapply below_eq|by eapply above_eq]; [done..|].
    by apply cmp_sym.
  - right; left. rewrite above_cons. split_and!; try done. by eapply above_lt.
  - right; right. rewrite below_app, below_cons. apply cmp_gt in Hc as Hc'; [|done].
    split_and!; try done; [by eapply below_lt|apply below_nil].
Qed.

Lemma wp_SPLAY_EMPTY t s Q :
  tree_at t s -> Q (match t with E => true | N _ _ _ _ => false end) s -> wp SPLAY_EMPTY Q s.
Proof.
  intros [Hroot Hrep _ _] HQ. eapply wp_bind, wp_SPLAY_ROOT. apply wp_ret.
  rewrite Hroot. destruct t as [|l p kp r]; [exact HQ|].
  destruct Hrep as [Hp _]. cbn. by rewrite (proj2 (Z.eqb_neq p NULL)).
Qed.

(** ** The operations *)

Lemma wp_SPLAY_FIND es elm k s :
  splay_set es s -> key_at elm k s ->
  wp (SPLAY_FIND cmp junk elm)
    (fun r s' => r = ptr_of (os_find cmp k es) /\ splay_set es s' /\
       evolves es.*1 (sp_store s) (sp_store s')) s.
Proof.
  intros (t & Hta & <-) Helm. unfold SPLAY_FIND.
  eapply wp_bind, wp_SPLAY_EMPTY; [done|]. destruct t as [|l0 p0 k0 r0].
  { apply wp_ret. split_and!; try done. by exists E. }
  apply wp_bind. eapply wp_mono; [by eapply wp_SPLAY|].
  intros [] s1 (t' & Hc & Hta' & Hin & Hev). rewrite <-Hin in *. clear Hin Hta.
  destruct t' as [|l p kp r]; [done|].
  destruct (tree_at_root _ _ _ _ _ Hta') as (Hroot & Hp & Hp').
  eapply wp_bind, wp_SPLAY_ROOT. rewrite Hroot.
  eapply wp_bind, wp_cmp_at; [by eapply key_at_evolves|done..|]. cbn [sp_key].
  assert (Hset : splay_set (inorder (N l p kp r)) s1) by (by eexists).
  destruct (closest_place _ _ _ _ _ _ Hta' Hc)
    as [(He & Hl & Hr)|[(He & Hl & Hr)|(He & Hl & Hr)]].
  - rewrite He. apply wp_SPLAY_ROOT. split; [|done]. cbn [inorder].
    by rewrite os_find_split.
  - destruct (Z.eqb_spec (cmp k kp) 0); [lia|]. apply wp_ret. split; [|done].
    cbn [inorder]. by rewrite os_find_none.
  - destruct (Z.eqb_spec (cmp k kp) 0); [lia|]. apply wp_ret. split; [|done].
    cbn [inorder]. by rewrite cons_middle, app_assoc, os_find_none.
Qed.


Lemma key_at_node elm k s : key_at elm k s ->
  elm <> NULL /\ exists l r, sp_store s !! elm = Some (SpNode l r k).
Proof.
  intros [? H]. apply fmap_Some in H as ([l r k'] & Hn & ->). eauto.
Qed.

(** The splay tree with a new root, between the halves [l] and [r]. *)
Lemma splay_set_new_root l elm k r s :
  sph_root s = elm -> elm <> NULL ->
  sp_store s !! elm = Some (SpNode (troot l) (troot r) k) ->
  rep (sp_store s) l -> rep (sp_store s) r ->
  NoDup (inorder l ++ inorder r).*1 -> elm ∉ (inorder l ++ inorder r).*1 ->
  sorted cmp (inorder l ++ inorder r) ->
  below cmp k (inorder l) -> above cmp k (inorder r) ->
  splay_set (os_insert cmp (elm, k) (inorder l ++ inorder r)) s.
Proof.
  intros Hroot He Hn Hl Hr Hnd Hnot Hs Hb Ha. rewrite os_insert_split by done.
  exists (N l elm k r). split; [|done]. split; cbn.
  - done.
  - done.
  - parts_in Hnd. autorewrite with parts in *. destruct_and!.
    by split_and!.
  - apply sorted_app in Hs as Hs'. apply sorted_mid; [done|]. tauto.
Qed.

(** The two ways a new node becomes the root. *)
Lemma wp_insert_above l p kp r elm k s :
  tree_at (N l p kp r) s -> key_at elm k s -> elm ∉ (inorder (N l p kp r)).*1 ->
  below cmp k (inorder l) -> above cmp k ((p, kp) :: inorder r) ->
  wp (r ← SPLAY_ROOT; v ← SPLAY_LEFT r; set_SPLAY_LEFT elm v;;
      r ← SPLAY_ROOT; set_SPLAY_RIGHT elm r;;
      r ← SPLAY_ROOT; set_SPLAY_LEFT r NULL;;
      set_SPLAY_ROOT elm;; mret NULL)
    (fun ret s' => ret = NULL /\
       splay_set (os_insert cmp (elm, k) (inorder (N l p kp r))) s' /\
       evolves (elm :: (inorder (N l p kp r)).*1) (sp_store s) (sp_store s')) s.
Proof.
  intros Hta Helm Hnot Hbl Har.
  destruct (key_at_node _ _ _ Helm) as (He0 & ll & rr & Hn).
  pose proof Hta as [Hroot (Hp & Hp' & Hl & Hr) Hnd Hs]. cbn [inorder troot] in *.
  pose proof Hnd as Hnd'. pose proof Hnot as Hnot'. parts_in Hnot. parts_in Hnd.
  eapply wp_bind, wp_SPLAY_ROOT. rewrite Hroot.
  eapply wp_bind, wp_SPLAY_LEFT; [done..|].
  eapply wp_bind, wp_set_SPLAY_LEFT; [done..|].
  eapply wp_bind, wp_SPLAY_ROOT. cbn. rewrite ?Hroot.
  eapply wp_bind, wp_set_SPLAY_RIGHT; [done|apply lookup_insert_eq|]. cbn.
  eapply wp_bind, wp_SPLAY_ROOT. cbn. rewrite ?Hroot.
  eapply wp_bind, wp_set_SPLAY_LEFT; [done|cbn; rewrite !lookup_insert_ne; done|].
  eapply wp_bind, wp_set_SPLAY_ROOT. apply wp_ret. cbn.
  unfold set_spe_left, set_spe_right. cbn. rewrite insert_insert_eq.
  split; [done|]. split.
  - apply (splay_set_new_root l elm k (N E p kp r)); cbn; try done.
    + by rewrite lookup_insert_ne, lookup_insert_eq.
    + do 2 (apply rep_insert; [notin|]). done.
    + split_and!; try done; [apply lookup_insert_eq|].
      do 2 (apply rep_insert; [notin|]). done.
  - eapply evolves_insert;
      [eapply evolves_insert; [apply evolves_refl|done|done|isin]
      |by rewrite lookup_insert_ne|done|isin].
Qed.

Lemma wp_insert_below l p kp r elm k s :
  tree_at (N l p kp r) s -> key_at elm k s -> elm ∉ (inorder (N l p kp r)).*1 ->
  below cmp k (inorder l ++ [(p, kp)]) -> above cmp k (inorder r) ->
  wp (r ← SPLAY_ROOT; v ← SPLAY_RIGHT r; set_SPLAY_RIGHT elm v;;
      r ← SPLAY_ROOT; set_SPLAY_LEFT elm r;;
      r ← SPLAY_ROOT; set_SPLAY_RIGHT r NULL;;
      set_SPLAY_ROOT elm;; mret NULL)
    (fun ret s' => ret = NULL /\
       splay_set (os_insert cmp (elm, k) (inorder (N l p kp r))) s' /\
       evolves (elm :: (inorder (N l p kp r)).*1) (sp_store s) (sp_store s')) s.
Proof.
  intros Hta Helm Hnot Hbl Har.
  destruct (key_at_node _ _ _ Helm) as (He0 & ll & rr & Hn).
  pose proof Hta as [Hroot (Hp & Hp' & Hl & Hr) Hnd Hs]. cbn [inorder troot] in *.
  assert (Happ : inorder l ++ (p, kp) :: inorder r
                 = (inorder l ++ [(p, kp)]) ++ inorder r) by by rewrite <-app_assoc.
  rewrite Happ in *.
  pose proof Hnd as Hnd'. pose proof Hnot as Hnot'. parts_in Hnot. parts_in Hnd.
  eapply wp_bind, wp_SPLAY_ROOT. rewrite Hroot.
  eapply wp_bind, wp_SPLAY_RIGHT; [done..|].
  eapply wp_bind, wp_set_SPLAY_RIGHT; [done..|].
  eapply wp_bind, wp_SPLAY_ROOT. cbn. rewrite ?Hroot.
  eapply wp_bind, wp_set_SPLAY_LEFT; [done|apply lookup_insert_eq|]. cbn.
  eapply wp_bind, wp_SPLAY_ROOT. cbn. rewrite ?Hroot.
  eapply wp_bind, wp_set_SPLAY_RIGHT; [done|cbn; rewrite !lookup_insert_ne; done|].
  eapply wp_bind, wp_set_SPLAY_ROOT. apply wp_ret. cbn.
  unfold set_spe_left, set_spe_right. cbn. rewrite insert_insert_eq.
  split; [done|]. split.
  - apply (splay_set_new_root (N l p kp E) elm k r); cbn; try done.
    + by rewrite lookup_insert_ne, lookup_insert_eq.
    + split_and!; try done; [apply lookup_insert_eq|].
      do 2 (apply rep_insert; [notin|]). done.
    + do 2 (apply rep_insert; [notin|]). done.
  - eapply evolves_insert;
      [eapply evolves_insert; [apply evolves_refl|done|done|isin]
      |by rewrite lookup_insert_ne|done|isin].
Qed.

Lemma wp_insert_empty elm k s :
  sph_root s = NULL -> key_at elm k s ->
  wp (set_SPLAY_RIGHT elm NULL;; set_SPLAY_LEFT elm NULL;;
      set_SPLAY_ROOT elm;; mret NULL)
    (fun ret s' => ret = NULL /\ splay_set [(elm, k)] s' /\
       evolves [elm] (sp_store s) (sp_store s')) s.
Proof.
  intros Hroot Helm. destruct (key_at_node _ _ _ Helm) as (He & l & r & Hn).
  eapply wp_bind, wp_set_SPLAY_RIGHT; [done..|].
  eapply wp_bind, wp_set_SPLAY_LEFT; [done|apply lookup_insert_eq|].
  eapply wp_bind, wp_set_SPLAY_ROOT. apply wp_ret. cbn.
  rewrite insert_insert_eq. split; [done|]. split.
  - apply (splay_set_new_root E elm k E); cbn; try done;
      first [apply lookup_insert_eq | constructor | apply not_elem_of_nil].
  - eapply evolves_insert; [apply evolves_refl|done..|]. isin.
Qed.

Lemma wp_SPLAY_INSERT es elm k s :
  splay_set es s -> key_at elm k s -> elm ∉ es.*1 ->
  wp (SPLAY_INSERT cmp junk elm)
    (fun r s' => r = ptr_of (os_find cmp k es) /\
       splay_set (os_insert cmp (elm, k) es) s' /\
       evolves (elm :: es.*1) (sp_store s) (sp_store s')) s.
Proof.
  intros (t & Hta & <-) Helm Hnot. unfold SPLAY_INSERT.
  eapply wp_bind, wp_SPLAY_EMPTY; [done|]. destruct t as [|l0 p0 k0 r0].
  { apply wp_insert_empty; [apply Hta|done]. }
  apply wp_bind. eapply wp_mono; [by eapply wp_SPLAY|].
  intros [] s1 (t' & Hc & Hta' & Hin & Hev). rewrite <-Hin in *. clear Hin Hta.
  destruct t' as [|l p kp r]; [done|].
  destruct (tree_at_root _ _ _ _ _ Hta') as (Hroot & Hp & Hp').
  eapply wp_bind, wp_SPLAY_ROOT. rewrite Hroot.
  assert (Helm' : key_at elm k s1) by (by eapply key_at_evolves).
  eapply wp_bind, wp_cmp_at; [done..|]. cbn [sp_key].
  assert (Hev' : evolves (elm :: (inorder (N l p kp r)).*1) (sp_store s) (sp_store s1)).
  { eapply evolves_weaken; [|done]. intros a Ha. apply elem_of_cons. by right. }
  destruct (closest_place _ _ _ _ _ _ Hta' Hc)
    as [(He & Hbl & Har)|[(He & Hbl & Har)|(He & Hbl & Har)]].
  - rewrite He. apply wp_SPLAY_ROOT. cbn [inorder] in *.
    rewrite os_find_split, os_insert_present by done. split_and!; try done.
    by exists (N l p kp r).
  - destruct (Z.ltb_spec (cmp k kp) 0); [|lia].
    eapply wp_mono; [by apply wp_insert_above|].
    intros ret s2 (-> & Hset & Hev2). cbn [inorder]. rewrite os_find_none by done.
    split_and!; [done..|]. by eapply evolves_trans.
  - destruct (Z.ltb_spec (cmp k kp) 0); [lia|].
    rewrite (proj2 (Z.ltb_lt 0 (cmp k kp))) by done.
    eapply wp_mono; [by apply wp_insert_below|].
    intros ret s2 (-> & Hset & Hev2). cbn [inorder] in *.
    rewrite cons_middle, app_assoc, os_find_none by done.
    split_and!; [done|by rewrite <-app_assoc|].
    rewrite <-app_assoc. by eapply evolves_trans.
Qed.

(** After the removed root is gone, the greatest node of its left subtree is
    splayed up and has no right child. *)
Lemma closest_greatest k t :
  below cmp k (inorder t) -> closest k t -> exists l p kp, t = N l p kp E.
Proof.
  destruct t as [|l p kp r]; [done|]. cbn [inorder]. intros Hb Hc.
  apply below_app in Hb as [_ Hb]. apply below_cons in Hb as [Hkp Hb].
  cbn in Hkp. apply cmp_opp in Hkp as Hkp'.
  destruct Hc as [?|[[? _]|[_ Ha]]]; [lia..|].
  destruct r as [|rl q kq rr]; [by eauto|]. cbn [inorder] in *.
  apply below_app in Hb as [_ Hb]. apply below_cons in Hb as [Hkq _].
  apply above_app in Ha as [_ Ha]. apply above_cons in Ha as [Hkq' _].
  cbn in *. apply cmp_opp in Hkq. lia.
Qed.

(** The two halves below a removed root, joined. *)
Lemma wp_join l p kp r elm k s :
  tree_at (N l p kp r) s -> l <> E -> key_at elm k s ->
  below cmp k (inorder l) ->
  wp (r ← SPLAY_ROOT; tmp ← SPLAY_RIGHT r;
      r ← SPLAY_ROOT; v ← SPLAY_LEFT r; set_SPLAY_ROOT v;;
      SPLAY cmp junk elm;;
      r ← SPLAY_ROOT; set_SPLAY_RIGHT r tmp)
    (fun _ s' => splay_set (inorder l ++ inorder r) s' /\
       evolves (inorder (N l p kp r)).*1 (sp_store s) (sp_store s')) s.
Proof.
  intros [Hroot (Hp & Hp' & Hl & Hr) Hnd Hs] Hne Helm Hb. cbn [inorder troot] in *.
  eapply wp_bind, wp_SPLAY_ROOT. rewrite Hroot.
  eapply wp_bind, wp_SPLAY_RIGHT; [done..|]. cbn [spe_right].
  eapply wp_bind, wp_SPLAY_ROOT. rewrite Hroot.
  eapply wp_bind, wp_SPLAY_LEFT; [done..|]. cbn [spe_left].
  eapply wp_bind, wp_set_SPLAY_ROOT.
  apply sorted_mid in Hs as (Hsl & Hsr & Hbl & Har); [|done]. cbn [snd] in *.
  pose proof Hnd as Hnd'. parts_in Hnd.
  apply wp_bind. eapply wp_mono; [eapply (wp_SPLAY elm k l); [by split|done..]|].
  intros [] s1 (t' & Hc & [Hroot1 Hrep1 Hnd1 Hs1] & Hin & Hev).
  cbn [sp_store] in *. rewrite <-Hin in Hb.
  destruct (closest_greatest k t' Hb Hc) as (l2 & q & kq & ->).
  destruct Hrep1 as (Hq & Hq' & Hl2 & _).
  eapply wp_bind, wp_SPLAY_ROOT. rewrite Hroot1. cbn [troot].
  eapply wp_set_SPLAY_RIGHT; [done..|]. unfold set_spe_right. cbn.
  assert (Hjoin : inorder (N l2 q kq r) = inorder l ++ inorder r).
  { rewrite <-Hin. by app_norm. }
  cbn [inorder] in Hin, Hnd1. rewrite <-Hin in *. clear Hin Hs1 Hb.
  parts_in Hnd1. parts_in Hnd'. autorewrite with parts in *. destruct_and!.
  assert (Hapart : apart (inorder l2).*1 (inorder r).*1) by done.
  split.
  - exists (N l2 q kq r). split; [|done]. split; [done| |rewrite Hjoin..]; cbn.
    + split_and!; [done|apply lookup_insert_eq|by apply rep_insert|].
      apply rep_insert; [done|]. eapply rep_ext; [|done].
      intros a Ha. apply Hev. intros Ha'.
      apply elem_of_app in Ha' as [Ha'|Ha'%list_elem_of_singleton].
      * by eapply (Hapart a).
      * cbn in Ha'. by subst a.
    + autorewrite with parts. tauto.
    + by eapply sorted_join.
  - eapply evolves_insert; [|done|done|isin].
    eapply evolves_weaken; [|done]. intros a. rewrite !elem_of_app. tauto.
Qed.

Lemma wp_SPLAY_REMOVE es elm k s :
  splay_set es s -> key_at elm k s ->
  wp (SPLAY_REMOVE cmp junk elm)
    (fun r s' => r = (if os_find cmp k es then elm else NULL) /\
       splay_set (os_remove cmp k es) s' /\
       evolves es.*1 (sp_store s) (sp_store s')) s.
Proof.
  intros (t & Hta & <-) Helm. unfold SPLAY_REMOVE.
  eapply wp_bind, wp_SPLAY_EMPTY; [done|]. destruct t as [|l0 p0 k0 r0].
  { apply wp_ret. split_and!; try done. by exists E. }
  apply wp_bind. eapply wp_mono; [by eapply wp_SPLAY|].
  intros [] s1 (t' & Hc & Hta' & Hin & Hev). rewrite <-Hin in *. clear Hin Hta.
  destruct t' as [|l p kp r]; [done|].
  destruct (tree_at_root _ _ _ _ _ Hta') as (Hroot & Hp & Hp').
  eapply wp_bind, wp_SPLAY_ROOT. rewrite Hroot.
  assert (Helm' : key_at elm k s1) by (by eapply key_at_evolves).
  eapply wp_bind, wp_cmp_at; [done..|]. cbn [sp_key].
  destruct (closest_place _ _ _ _ _ _ Hta' Hc)
    as [(He & Hbl & Har)|[(He & Hbl & Har)|(He & Hbl & Har)]].
  - rewrite He. cbn [inorder]. rewrite os_find_split, os_remove_split by done.
    cbn [Z.eqb]. eapply wp_bind, wp_SPLAY_ROOT. rewrite Hroot.
    eapply wp_bind, wp_SPLAY_LEFT; [done..|]. cbn [spe_left].
    destruct (Z.eqb_spec (troot l) NULL) as [Hl0|Hl0].
    + pose proof Hta' as [_ (_ & _ & Hrl & Hrr) Hnd Hs].
      apply (troot_E (sp_store s1)) in Hl0 as ->; [|done]. cbn in Hnd, Hs.
      apply NoDup_cons in Hnd as [_ Hnd]. destruct Hs as [_ Hs].
      apply wp_bind. eapply wp_bind, wp_SPLAY_ROOT. rewrite Hroot.
      eapply wp_bind, wp_SPLAY_RIGHT; [done..|]. apply wp_set_SPLAY_ROOT.
      apply wp_ret. split_and!; [done| |done]. exists r. by repeat split.
    + apply wp_bind. eapply wp_mono; [apply (wp_join l p kp r elm k); try done|].
      { intros ->. by apply Hl0. }
      intros [] s2 [Hset Hev2]. apply wp_ret. split_and!; try done.
      by eapply evolves_trans.
  - destruct (Z.eqb_spec (cmp k kp) 0); [lia|]. apply wp_ret. cbn [inorder] in *.
    rewrite os_find_none, os_remove_none by done. split_and!; try done.
    by exists (N l p kp r).
  - destruct (Z.eqb_spec (cmp k kp) 0); [lia|]. apply wp_ret. cbn [inorder] in *.
    rewrite cons_middle, app_assoc, os_find_none, os_remove_none by done.
    rewrite <-app_assoc. split_and!; try done. by exists (N l p kp r).
Qed.

(** The walk to the leftmost node of a subtree. *)
Lemma wp_leftmost (t : tree K) s n :
  t <> E -> rep (sp_store s) t -> (tsize t < n)%nat ->
  wp (loop n (fun elm => l ← SPLAY_LEFT elm;
                         mret (if negb (l =? NULL) then inl l else inr elm)) (troot t))
    (fun r s' => s' = s /\ r = ptr_of (head (inorder t))) s.
Proof.
  intros Ht Hrep Hn.
  eapply (wp_loop _ (fun m x s' => s' = s /\ exists t', t' <> E /\ rep (sp_store s) t' /\
    tsize t' = m /\ x = troot t' /\ head (inorder t') = head (inorder t))); [|eauto 10|done].
  intros m x s' (-> & t' & Ht' & Hrep' & Hm & -> & Hhead).
  destruct t' as [|l p k r]; [done|]. destruct Hrep' as (Hp & Hp' & Hl & Hr).
  eapply wp_bind, wp_SPLAY_LEFT; [done..|]. apply wp_ret. cbn [spe_left].
  destruct (Z.eqb_spec (troot l) NULL) as [Hl0|Hl0]; cbn [negb].
  - apply (troot_E (sp_store s)) in Hl0 as ->; [|done]. by rewrite <-Hhead.
  - exists (tsize l). split; [cbn in Hm; lia|]. split; [done|]. exists l.
    split_and!; try done; [by intros ->|]. rewrite <-Hhead.
    destruct l; [done|]. cbn. by destruct (inorder l1).
Qed.

(** An entry of the tree is at the root once its key is splayed. *)
Lemma closest_self elm k l p kp r s :
  tree_at (N l p kp r) s -> closest k (N l p kp r) ->
  (elm, k) ∈ inorder (N l p kp r) ->
  p = elm /\ kp = k /\ below cmp k (inorder l) /\ above cmp k (inorder r).
Proof.
  intros Hta Hc Hin. pose proof (cmp_refl k) as Hkk. cbn [inorder] in Hin.
  assert (Hb : forall l, below cmp k l -> (elm, k) ∉ l).
  { intros l' Hl' Hin'. unfold below in Hl'. rewrite Forall_forall in Hl'.
    specialize (Hl' _ Hin'). cbn in Hl'. lia. }
  assert (Ha : forall l, above cmp k l -> (elm, k) ∉ l).
  { intros l' Hl' Hin'. unfold above in Hl'. rewrite Forall_forall in Hl'.
    specialize (Hl' _ Hin'). cbn in Hl'. lia. }
  destruct (closest_place _ _ _ _ _ _ Hta Hc)
    as [(He & Hbl & Har)|[(He & Hbl & Har)|(He & Hbl & Har)]].
  - rewrite elem_of_app, elem_of_cons in Hin.
    destruct Hin as [Hin|[Heq|Hin]]; [by apply Hb in Hin| |by apply Ha in Hin].
    by injection Heq as <- <-.
  - apply elem_of_app in Hin as [Hin|Hin]; [by apply Hb in Hin|by apply Ha in Hin].
  - rewrite cons_middle, app_assoc in Hin.
    apply elem_of_app in Hin as [Hin|Hin]; [by apply Hb in Hin|by apply Ha in Hin].
Qed.

Lemma wp_SPLAY_NEXT es elm k s :
  splay_set es s -> (elm, k) ∈ es ->
  wp (SPLAY_NEXT cmp junk elm)
    (fun r s' => r = ptr_of (os_next cmp k es) /\ splay_set es s' /\
       evolves es.*1 (sp_store s) (sp_store s')) s.
Proof.
  intros (t & Hta & <-) Hin. unfold SPLAY_NEXT.
  assert (Helm : key_at elm k s) by by apply (tree_at_live t s (elm, k)).
  apply wp_bind. eapply wp_mono; [eapply wp_SPLAY; [done| |done]|].
  { intros ->. by apply elem_of_nil in Hin. }
  intros [] s1 (t' & Hc & Hta' & Hin' & Hev). rewrite <-Hin' in *. clear Hin' Hta.
  assert (Hset : splay_set (inorder t') s1) by by exists t'.
  destruct t' as [|l p kp r]; [done|].
  destruct (closest_self _ _ _ _ _ _ _ Hta' Hc Hin) as (-> & -> & Hbl & Har).
  destruct (tree_at_root _ _ _ _ _ Hta') as (Hroot & Hp & Hp').
  pose proof (ta_rep _ _ Hta') as (_ & _ & _ & Hr).
  assert (Hnext : os_next cmp k (inorder (N l elm k r)) = head (inorder r)).
  { cbn [inorder]. rewrite cons_middle, app_assoc. apply os_next_split; try done.
    intros e. rewrite elem_of_app, list_elem_of_singleton. intros [He| ->].
    - unfold below in Hbl. rewrite Forall_forall in Hbl. specialize (Hbl e He).
      cbn in Hbl. apply cmp_opp in Hbl. lia.
    - cbn. by rewrite cmp_refl. }
  rewrite Hnext. eapply wp_bind, wp_SPLAY_RIGHT; [done..|]. cbn [spe_right].
  destruct (Z.eqb_spec (troot r) NULL) as [Hr0|Hr0]; cbn [negb].
  - apply (troot_E (sp_store s1)) in Hr0 as ->; [|done]. by apply wp_ret.
  - eapply wp_bind, wp_sp_bound. eapply wp_mono; [apply wp_leftmost; [|done|]|].
    + intros ->. by apply Hr0.
    + pose proof (tree_at_size _ _ Hta') as Hsz. cbn in Hsz. lia.
    + by intros x s2 [-> ->].
Qed.

(** ** Minimum, maximum and traversal *)

Section MinMaxLoop.
Context (st0 : gmap Z (spnode K)) (nd : Z) (es : list (Z * K)).
Context (Hnd : NoDup (nd :: es.*1)) (Hnd0 : nd <> NULL).

Abbreviation splaying := (assembling junk st0 nd es None None).

Definition MIN_inv (n : nat) (lr : Z * Z) (s : spmem K) : Prop :=
  exists t R, splaying [] t R s /\ t <> E /\ tsize t = n /\ lr = (nd, rtop nd R).
Definition MIN_exit (lr : Z * Z) (s : spmem K) : Prop :=
  exists p kp r R, splaying [] (N E p kp r) R s /\ lr = (nd, rtop nd R).

Lemma wp_MIN_round comp n lr s :
  comp < 0 -> MIN_inv n lr s ->
  wp (MINMAX_round comp lr)
    (fun lr s' =>
      match lr with
      | inl lr => exists m, (m < n)%nat /\ MIN_inv m lr s'
      | inr lr => MIN_exit lr s'
      end) s.
Proof.
  intros Hcomp (t & R & H & Ht & Hn & ->). unfold MINMAX_round.
  destruct t as [|l p kp r]; [done|]. rewrite (proj2 (Z.ltb_lt comp 0)) by done.
  pose proof H as [Hroot (Hp & Hp' & Hl & Hr) _ _ _].
  eapply wp_bind, wp_SPLAY_ROOT. rewrite Hroot. cbn [troot].
  eapply wp_bind, wp_SPLAY_LEFT; [done..|]. cbn [spe_left].
  destruct l as [|a q kq b]; cbn [troot].
  { apply wp_ret. by exists p, kp, r, R. }
  destruct Hl as (Hq & Hq' & Hla & Hlb). rewrite (proj2 (Z.eqb_neq q NULL)) by done.
  apply wp_bind, wp_bind. eapply wp_mono; [by apply wp_ROTATE_RIGHT|].
  intros [] s1 H1. cbn beta in H1.
  pose proof H1 as [Hroot1 (_ & Hq1 & Hra & _) _ _ _].
  eapply wp_bind, wp_SPLAY_ROOT. rewrite Hroot1. cbn [troot].
  eapply wp_bind, wp_SPLAY_LEFT; [done..|]. apply wp_ret. cbn [spe_left].
  destruct (Z.eqb_spec (troot a) NULL) as [Ha0|Ha0].
  - apply (troot_E (sp_store s1)) in Ha0 as ->; [|done]. apply wp_ret.
    by exists q, kq, (N b p kp r), R.
  - apply wp_bind. eapply wp_mono; [by apply wp_LINKLEFT|].
    intros right' s2 [-> H2]. apply wp_ret. exists (tsize a). split.
    { rewrite <-Hn. cbn. lia. }
    exists a, ((q, kq, N b p kp r) :: R). split_and!; try done.
    intros ->. by apply Ha0.
Qed.

Definition MAX_inv (n : nat) (lr : Z * Z) (s : spmem K) : Prop :=
  exists t L, splaying L t [] s /\ t <> E /\ tsize t = n /\ lr = (ltop nd L, nd).
Definition MAX_exit (lr : Z * Z) (s : spmem K) : Prop :=
  exists l p kp L, splaying L (N l p kp E) [] s /\ lr = (ltop nd L, nd).

Lemma wp_MAX_round comp n lr s :
  0 < comp -> MAX_inv n lr s ->
  wp (MINMAX_round comp lr)
    (fun lr s' =>
      match lr with
      | inl lr => exists m, (m < n)%nat /\ MAX_inv m lr s'
      | inr lr => MAX_exit lr s'
      end) s.
Proof.
  intros Hcomp (t & L & H & Ht & Hn & ->). unfold MINMAX_round.
  destruct t as [|l p kp r]; [done|]. rewrite (proj2 (Z.ltb_ge comp 0)) by lia.
  rewrite (proj2 (Z.ltb_lt 0 comp)) by done.
  pose proof H as [Hroot (Hp & Hp' & Hl & Hr) _ _ _].
  eapply wp_bind, wp_SPLAY_ROOT. rewrite Hroot. cbn [troot].
  eapply wp_bind, wp_SPLAY_RIGHT; [done..|]. cbn [spe_right].
  destruct r as [|a q kq b]; cbn [troot].
  { apply wp_ret. by exists l, p, kp, L. }
  destruct Hr as (Hq & Hq' & Hra & Hrb). rewrite (proj2 (Z.eqb_neq q NULL)) by done.
  apply wp_bind, wp_bind. eapply wp_mono; [by apply wp_ROTATE_LEFT|].
  intros [] s1 H1. cbn beta in H1.
  pose proof H1 as [Hroot1 (_ & Hq1 & _ & Hrb') _ _ _].
  eapply wp_bind, wp_SPLAY_ROOT. rewrite Hroot1. cbn [troot].
  eapply wp_bind, wp_SPLAY_RIGHT; [done..|]. apply wp_ret. cbn [spe_right].
  destruct (Z.eqb_spec (troot b) NULL) as [Hb0|Hb0].
  - apply (troot_E (sp_store s1)) in Hb0 as ->; [|done]. apply wp_ret.
    by exists (N l p kp a), q, kq, L.
  - apply wp_bind. eapply wp_mono; [by apply wp_LINKRIGHT|].
    intros left' s2 [-> H2]. apply wp_ret. exists (tsize b). split.
    { rewrite <-Hn. cbn. lia. }
    exists b, ((N l p kp a, q, kq) :: L). split_and!; try done.
    intros ->. by apply Hb0.
Qed.
End MinMaxLoop.

(** The direction that [SPLAY_MINMAX] is given decides the end it splays. *)
Definition at_end (comp : Z) (t : tree K) : Prop :=
  match t with
  | E => False
  | N l _ _ r => (comp < 0 -> l = E) /\ (0 < comp -> r = E)
  end.

Lemma wp_SPLAY_MINMAX comp t s :
  comp <> 0 -> tree_at t s -> t <> E ->
  wp (SPLAY_MINMAX junk comp)
    (fun _ s' => exists t', at_end comp t' /\ tree_at t' s' /\ inorder t' = inorder t /\
       evolves (inorder t).*1 (sp_store s) (sp_store s')) s.
Proof.
  intros Hcomp Hta Ht. apply wp_top_down; [done..|].
  intros st0 nd s1 n Hnd Hnd0 _ H1 Hn.
  destruct (decide (comp < 0)) as [Hneg|Hpos].
  - eapply wp_mono.
    + eapply (wp_loop _ (MIN_inv st0 nd (inorder t)) (MIN_exit st0 nd (inorder t)));
        [|by exists t, []|done].
      intros m lr s' Hinv. by apply wp_MIN_round.
    + intros lr s2 (p & kp & r & R & H2 & ->). exists [], E, p, kp, r, R.
      split; [done|]. split; [done|]. split; [done|lia].
  - eapply wp_mono.
    + eapply (wp_loop _ (MAX_inv st0 nd (inorder t)) (MAX_exit st0 nd (inorder t)));
        [|by exists t, []|done].
      intros m lr s' Hinv. apply wp_MAX_round; try done. lia.
    + intros lr s2 (l & p & kp & L & H2 & ->). exists L, l, p, kp, E, [].
      split; [done|]. split; [done|]. split; [lia|done].
Qed.

Lemma wp_SPLAY_MIN es s :
  splay_set es s ->
  wp (SPLAY_MIN junk)
    (fun r s' => r = ptr_of (head es) /\ splay_set es s' /\
       evolves es.*1 (sp_store s) (sp_store s')) s.
Proof.
  intros (t & Hta & <-). unfold SPLAY_MIN.
  eapply wp_bind, wp_SPLAY_EMPTY; [done|]. destruct t as [|l0 p0 k0 r0].
  { apply wp_ret. split_and!; try done. by exists E. }
  apply wp_bind. eapply wp_mono; [by apply wp_SPLAY_MINMAX|].
  intros [] s1 (t' & Hend & Hta' & Hin & Hev). rewrite <-Hin in *. clear Hin Hta.
  assert (Hset : splay_set (inorder t') s1) by by exists t'.
  destruct t' as [|l p kp r]; [done|]. pose proof (proj1 Hend eq_refl) as ->.
  apply wp_SPLAY_ROOT. split; [apply Hta'|done].
Qed.

Lemma wp_SPLAY_MAX es s :
  splay_set es s ->
  wp (SPLAY_MAX junk)
    (fun r s' => r = ptr_of (last es) /\ splay_set es s' /\
       evolves es.*1 (sp_store s) (sp_store s')) s.
Proof.
  intros (t & Hta & <-). unfold SPLAY_MAX.
  eapply wp_bind, wp_SPLAY_EMPTY; [done|]. destruct t as [|l0 p0 k0 r0].
  { apply wp_ret. split_and!; try done. by exists E. }
  apply wp_bind. eapply wp_mono; [by apply wp_SPLAY_MINMAX|].
  intros [] s1 (t' & Hend & Hta' & Hin & Hev). rewrite <-Hin in *. clear Hin Hta.
  assert (Hset : splay_set (inorder t') s1) by by exists t'.
  destruct t' as [|l p kp r]; [done|]. pose proof (proj2 Hend eq_refl) as ->.
  apply wp_SPLAY_ROOT. split; [|done]. cbn [inorder]. rewrite last_snoc. apply Hta'.
Qed.

Lemma splay_set_sorted es s : splay_set es s -> sorted cmp es.
Proof. intros (t & [_ _ _ Hs] & <-). done. Qed.

Lemma splay_set_live es s e : splay_set es s -> e ∈ es -> e.1 <> NULL.
Proof. intros (t & Hta & <-) He. by eapply tree_at_live. Qed.

Lemma splay_set_size es s : splay_set es s -> (length es <= size (sp_store s))%nat.
Proof.
  intros (t & Hta & <-). rewrite <-tsize_length. by apply tree_at_size.
Qed.

Lemma wp_SPLAY_FOREACH es s :
  splay_set es s ->
  wp (SPLAY_FOREACH cmp junk)
    (fun r s' => r = es.*1 /\ splay_set es s' /\
       evolves es.*1 (sp_store s) (sp_store s')) s.
Proof.
  intros Hset. unfold SPLAY_FOREACH.
  apply wp_bind. eapply wp_mono; [by apply wp_SPLAY_MIN|].
  intros x s1 (-> & Hset1 & Hev1). eapply wp_bind, wp_sp_bound.
  pose proof (splay_set_size _ _ Hset1) as Hsz.
  eapply (wp_loop _ (fun m '(x, acc) s' =>
    splay_set es s' /\ evolves es.*1 (sp_store s) (sp_store s') /\
    exists done_ rest, es = done_ ++ rest /\ acc = done_.*1 /\ m = length rest /\
      x = ptr_of (head rest))); [| |].
  - intros m [x acc] s' (Hset' & Hev' & done_ & rest & Hes & -> & -> & ->).
    destruct rest as [|[p k] rest]; cbn.
    { split_and!; try done. by rewrite Hes, app_nil_r. }
    assert (Hin : (p, k) ∈ es) by (rewrite Hes; isin).
    rewrite (proj2 (Z.eqb_neq p NULL)) by by apply (splay_set_live es s' (p, k)).
    cbn [negb]. apply wp_bind. eapply wp_mono; [by eapply wp_SPLAY_NEXT|].
    intros y s2 (-> & Hset2 & Hev2). apply wp_ret.
    exists (length rest). split; [lia|]. split; [done|].
    split; [by eapply evolves_trans|].
    exists (done_ ++ [(p, k)]), rest. split_and!; try done.
    + by rewrite Hes, <-app_assoc.
    + by rewrite fmap_app.
    + apply splay_set_sorted in Hset'. rewrite Hes in *.
      by rewrite <-(os_next_mid cmp done_ p k rest).
  - split; [done|]. split; [done|]. by exists [], es.
  - lia.
Qed.
End Correct.
