(* ===== verification/RBTree.v ===== *)
(** The red-black trees of [originaldest/darwin/include/libkern/tree.h] (lines
    319 to 800): the macros and the functions that [RB_GENERATE] and
    [RB_GENERATE_PREV] write, over a store of nodes reached by pointers. The
    colour of a node is the low bit of its parent pointer, as in the source. *)

From stdpp Require Import base gmap list.
From Stdlib Require Import ZArith Lia.
From S2P Require Import Prelude OrdSet SplayTree.

Definition RB_BLACK : Z := 0.
Definition RB_RED : Z := 1.
Definition RB_PLACEHOLDER : Z := NULL.
Definition RB_NEGINF : Z := -1.
Definition RB_INF : Z := 1.

(** [uintptr_t], and the complement of one. *)
Definition uintptr_bits : Z := 64.
Definition uintptr_not (x : Z) : Z := Z.lnot x mod 2 ^ uintptr_bits.
Definition RB_COLOR_MASK : Z := 1.

Section RB.
Context {K : Type} (cmp : K -> K -> Z).

(** [RB_ENTRY(type)] in a node with the payload [rb_key]. *)
Record rbnode := RbNode {
  rbe_left : Z;
  rbe_right : Z;
  rbe_parent : Z;
  rb_key : K;
}.

(** [RB_HEAD] and the live nodes, by address. *)
Record rbmem := RbMem { rbh_root : Z; rb_store : gmap Z rbnode }.

Definition set_rbe_left (v : Z) (n : rbnode) : rbnode :=
  RbNode v (rbe_right n) (rbe_parent n) (rb_key n).
Definition set_rbe_right (v : Z) (n : rbnode) : rbnode :=
  RbNode (rbe_left n) v (rbe_parent n) (rb_key n).
Definition set_rbe_parent (v : Z) (n : rbnode) : rbnode :=
  RbNode (rbe_left n) (rbe_right n) v (rb_key n).
(** [(elm)->field = (old)->field]. *)
Definition set_rb_entry (old : rbnode) (n : rbnode) : rbnode :=
  RbNode (rbe_left old) (rbe_right old) (rbe_parent old) (rb_key n).

Definition rb_load (p : Z) : M rbmem rbnode := fun s =>
  if p =? NULL then Fault Segv
  else match rb_store s !! p with
       | Some n => Done (n, s)
       | None => Fault Segv
       end.
Definition rb_modify (f : rbnode -> rbnode) (p : Z) : M rbmem unit :=
  n ← rb_load p;
  s ← get;
  put (RbMem (rbh_root s) (<[p := f n]> (rb_store s))).

Definition RB_INIT : M rbmem unit := s ← get; put (RbMem NULL (rb_store s)).

Definition RB_LEFT (elm : Z) : M rbmem Z := n ← rb_load elm; mret (rbe_left n).
Definition RB_RIGHT (elm : Z) : M rbmem Z := n ← rb_load elm; mret (rbe_right n).
Definition _RB_PARENT (elm : Z) : M rbmem Z := n ← rb_load elm; mret (rbe_parent n).
Definition set_RB_LEFT (elm v : Z) : M rbmem unit := rb_modify (set_rbe_left v) elm.
Definition set_RB_RIGHT (elm v : Z) : M rbmem unit := rb_modify (set_rbe_right v) elm.
Definition set_RB_PARENT (elm v : Z) : M rbmem unit := rb_modify (set_rbe_parent v) elm.
Definition RB_ROOT : M rbmem Z := s ← get; mret (rbh_root s).
Definition set_RB_ROOT (v : Z) : M rbmem unit :=
  s ← get; put (RbMem v (rb_store s)).
Definition RB_EMPTY : M rbmem bool := r ← RB_ROOT; mret (r =? NULL).

Definition rb_cmp (a b : Z) : M rbmem Z :=
  na ← rb_load a; nb ← rb_load b; mret (cmp (rb_key na) (rb_key nb)).

(** [RB_AUGMENT] as the header defines it when the user does not. *)
Definition RB_AUGMENT (x : Z) : M rbmem unit := mret tt.

(** ** The parent pointer and the colour in it *)

Definition RB_GETPARENT (elm : Z) : M rbmem Z :=
  parent ← _RB_PARENT elm;
  if negb (parent =? NULL) then
    let parent := Z.land parent (uintptr_not RB_COLOR_MASK) in
    mret (if parent =? RB_PLACEHOLDER then NULL else parent)
  else mret NULL.

Definition RB_GETCOLOR (elm : Z) : M rbmem Z :=
  parent ← _RB_PARENT elm;
  mret (Z.land parent RB_COLOR_MASK).

Definition RB_SETCOLOR (elm color : Z) : M rbmem unit :=
  parent ← RB_GETPARENT elm;
  let parent := if parent =? NULL then RB_PLACEHOLDER else parent in
  set_RB_PARENT elm (Z.lor parent color).

Definition RB_SETPARENT (elm parent : Z) : M rbmem Z :=
  color ← RB_GETCOLOR elm;
  set_RB_PARENT elm parent;;
  (if negb (color =? 0) then RB_SETCOLOR elm color else mret tt);;
  RB_GETPARENT elm.

Definition RB_SET (elm parent : Z) : M rbmem unit :=
  RB_SETPARENT elm parent;;
  set_RB_RIGHT elm NULL;; set_RB_LEFT elm NULL;;
  RB_SETCOLOR elm RB_RED.

Definition RB_SET_BLACKRED (black red : Z) : M rbmem unit :=
  RB_SETCOLOR black RB_BLACK;;
  RB_SETCOLOR red RB_RED.

(** Puts [tmp] where the parent of [elm] has [elm]; shared by the rotations. *)
Definition rb_replace_child (elm tmp : Z) : M rbmem unit :=
  gp ← RB_GETPARENT elm; l ← RB_LEFT gp;
  if elm =? l then gp ← RB_GETPARENT elm; set_RB_LEFT gp tmp
  else gp ← RB_GETPARENT elm; set_RB_RIGHT gp tmp.

Definition RB_ROTATE_LEFT (elm : Z) : M rbmem unit :=
  tmp ← RB_RIGHT elm;
  v ← RB_LEFT tmp; set_RB_RIGHT elm v;;
  (if negb (v =? NULL) then
     l ← RB_LEFT tmp; RB_SETPARENT l elm;; mret tt
   else mret tt);;
  RB_AUGMENT elm;;
  gp ← RB_GETPARENT elm;
  r ← RB_SETPARENT tmp gp;
  (if negb (r =? NULL) then rb_replace_child elm tmp else set_RB_ROOT tmp);;
  set_RB_LEFT tmp elm;;
  RB_SETPARENT elm tmp;;
  RB_AUGMENT tmp;;
  gp ← RB_GETPARENT tmp;
  if negb (gp =? NULL) then gp ← RB_GETPARENT tmp; RB_AUGMENT gp else mret tt.

Definition RB_ROTATE_RIGHT (elm : Z) : M rbmem unit :=
  tmp ← RB_LEFT elm;
  v ← RB_RIGHT tmp; set_RB_LEFT elm v;;
  (if negb (v =? NULL) then
     l ← RB_RIGHT tmp; RB_SETPARENT l elm;; mret tt
   else mret tt);;
  RB_AUGMENT elm;;
  gp ← RB_GETPARENT elm;
  r ← RB_SETPARENT tmp gp;
  (if negb (r =? NULL) then rb_replace_child elm tmp else set_RB_ROOT tmp);;
  set_RB_RIGHT tmp elm;;
  RB_SETPARENT elm tmp;;
  RB_AUGMENT tmp;;
  gp ← RB_GETPARENT tmp;
  if negb (gp =? NULL) then gp ← RB_GETPARENT tmp; RB_AUGMENT gp else mret tt.

(** The bound of the loops: the live nodes and one more round. *)
Definition rb_bound : M rbmem nat := s ← get; mret (S (size (rb_store s))).

(** [tmp && name##_RB_GETCOLOR(tmp) == RB_RED]. *)
Definition rb_is_red (tmp : Z) : M rbmem bool :=
  if negb (tmp =? NULL) then c ← RB_GETCOLOR tmp; mret (c =? RB_RED)
  else mret false.
(** [tmp == NULL || name##_RB_GETCOLOR(tmp) == RB_BLACK]. *)
Definition rb_is_black (tmp : Z) : M rbmem bool :=
  if tmp =? NULL then mret true
  else c ← RB_GETCOLOR tmp; mret (c =? RB_BLACK).

(** ** Insertion *)

Definition INSERT_COLOR_left (elm parent gparent : Z) : M rbmem Z :=
  tmp ← RB_RIGHT gparent;
  red ← rb_is_red tmp;
  if red : bool then
    RB_SETCOLOR tmp RB_BLACK;;
    RB_SET_BLACKRED parent gparent;;
    mret gparent
  else
    r ← RB_RIGHT parent;
    pe ← (if r =? elm then RB_ROTATE_LEFT parent;; mret (elm, parent)
          else mret (parent, elm));
    RB_SET_BLACKRED pe.1 gparent;;
    RB_ROTATE_RIGHT gparent;;
    mret pe.2.

Definition INSERT_COLOR_right (elm parent gparent : Z) : M rbmem Z :=
  tmp ← RB_LEFT gparent;
  red ← rb_is_red tmp;
  if red : bool then
    RB_SETCOLOR tmp RB_BLACK;;
    RB_SET_BLACKRED parent gparent;;
    mret gparent
  else
    l ← RB_LEFT parent;
    pe ← (if l =? elm then RB_ROTATE_RIGHT parent;; mret (elm, parent)
          else mret (parent, elm));
    RB_SET_BLACKRED pe.1 gparent;;
    RB_ROTATE_LEFT gparent;;
    mret pe.2.

Definition INSERT_COLOR_round (elm : Z) : M rbmem (Z + unit) :=
  parent ← RB_GETPARENT elm;
  if parent =? NULL then mret (inr tt) else
  c ← RB_GETCOLOR parent;
  if negb (c =? RB_RED) then mret (inr tt) else
  gparent ← RB_GETPARENT parent;
  l ← RB_LEFT gparent;
  elm' ← (if parent =? l then INSERT_COLOR_left elm parent gparent
          else INSERT_COLOR_right elm parent gparent);
  mret (inl elm').

Definition RB_INSERT_COLOR (elm : Z) : M rbmem unit :=
  n ← rb_bound;
  loop n INSERT_COLOR_round elm;;
  root ← RB_ROOT;
  RB_SETCOLOR root RB_BLACK.

(** The descent of [RB_INSERT]: the node with the key, or the parent of the new
    node and the last comparison. *)
Definition RB_INSERT_descend (elm : Z) : M rbmem (Z + (Z * Z)) :=
  tmp ← RB_ROOT;
  n ← rb_bound;
  loop n (fun '(tmp, parent, comp) =>
    if tmp =? NULL then mret (inr (inr (parent, comp)))
    else
      let parent := tmp in
      comp ← rb_cmp elm parent;
      if comp <? 0 then tmp' ← RB_LEFT tmp; mret (inl (tmp', parent, comp))
      else if 0 <? comp then tmp' ← RB_RIGHT tmp; mret (inl (tmp', parent, comp))
      else mret (inr (inl tmp))) (tmp, NULL, 0).

Definition RB_INSERT (elm : Z) : M rbmem Z :=
  d ← RB_INSERT_descend elm;
  match d with
  | inl tmp => mret tmp
  | inr (parent, comp) =>
      RB_SET elm parent;;
      (if negb (parent =? NULL) then
         (if comp <? 0 then set_RB_LEFT parent elm else set_RB_RIGHT parent elm);;
         RB_AUGMENT parent
       else set_RB_ROOT elm);;
      RB_INSERT_COLOR elm;;
      mret NULL
  end.

(** ** Removal *)

(** The rounds of [RB_REMOVE_COLOR] on the left child and on the right child: the
    loop goes on with the pair [(parent, elm)], or stops with [elm]. The part
    after the sibling [tmp] has become black is a definition of its own. *)
Definition REMOVE_COLOR_left_black (parent tmp : Z) : M rbmem ((Z * Z) + Z) :=
  l ← RB_LEFT tmp; bl ← rb_is_black l;
  both ← (if bl : bool then r ← RB_RIGHT tmp; rb_is_black r else mret false);
  if both : bool then
    RB_SETCOLOR tmp RB_RED;;
    let elm := parent in
    parent' ← RB_GETPARENT elm;
    mret (inl (parent', elm))
  else
    r ← RB_RIGHT tmp; br ← rb_is_black r;
    tmp ← (if br : bool then
             oleft ← RB_LEFT tmp;
             (if negb (oleft =? NULL) then RB_SETCOLOR oleft RB_BLACK else mret tt);;
             RB_SETCOLOR tmp RB_RED;;
             RB_ROTATE_RIGHT tmp;;
             RB_RIGHT parent
           else mret tmp);
    c ← RB_GETCOLOR parent; RB_SETCOLOR tmp c;;
    RB_SETCOLOR parent RB_BLACK;;
    r ← RB_RIGHT tmp;
    (if negb (r =? NULL) then r ← RB_RIGHT tmp; RB_SETCOLOR r RB_BLACK else mret tt);;
    RB_ROTATE_LEFT parent;;
    root ← RB_ROOT;
    mret (inr root).

Definition REMOVE_COLOR_left (parent : Z) : M rbmem ((Z * Z) + Z) :=
  tmp ← RB_RIGHT parent;
  c ← RB_GETCOLOR tmp;
  tmp ← (if c =? RB_RED then
           RB_SET_BLACKRED tmp parent;;
           RB_ROTATE_LEFT parent;;
           RB_RIGHT parent
         else mret tmp);
  REMOVE_COLOR_left_black parent tmp.

Definition REMOVE_COLOR_right_black (parent tmp : Z) : M rbmem ((Z * Z) + Z) :=
  l ← RB_LEFT tmp; bl ← rb_is_black l;
  both ← (if bl : bool then r ← RB_RIGHT tmp; rb_is_black r else mret false);
  if both : bool then
    RB_SETCOLOR tmp RB_RED;;
    let elm := parent in
    parent' ← RB_GETPARENT elm;
    mret (inl (parent', elm))
  else
    l ← RB_LEFT tmp; bl ← rb_is_black l;
    tmp ← (if bl : bool then
             oright ← RB_RIGHT tmp;
             (if negb (oright =? NULL) then RB_SETCOLOR oright RB_BLACK else mret tt);;
             RB_SETCOLOR tmp RB_RED;;
             RB_ROTATE_LEFT tmp;;
             RB_LEFT parent
           else mret tmp);
    c ← RB_GETCOLOR parent; RB_SETCOLOR tmp c;;
    RB_SETCOLOR parent RB_BLACK;;
    l ← RB_LEFT tmp;
    (if negb (l =? NULL) then l ← RB_LEFT tmp; RB_SETCOLOR l RB_BLACK else mret tt);;
    RB_ROTATE_RIGHT parent;;
    root ← RB_ROOT;
    mret (inr root).

Definition REMOVE_COLOR_right (parent : Z) : M rbmem ((Z * Z) + Z) :=
  tmp ← RB_LEFT parent;
  c ← RB_GETCOLOR tmp;
  tmp ← (if c =? RB_RED then
           RB_SET_BLACKRED tmp parent;;
           RB_ROTATE_RIGHT parent;;
           RB_LEFT parent
         else mret tmp);
  REMOVE_COLOR_right_black parent tmp.

Definition REMOVE_COLOR_round (pe : Z * Z) : M rbmem ((Z * Z) + Z) :=
  let '(parent, elm) := pe in
  black ← rb_is_black elm;
  root ← RB_ROOT;
  if (black : bool) && negb (elm =? root) then
    l ← RB_LEFT parent;
    if l =? elm then REMOVE_COLOR_left parent else REMOVE_COLOR_right parent
  else mret (inr elm).

Definition RB_REMOVE_COLOR (parent elm : Z) : M rbmem unit :=
  n ← rb_bound;
  elm' ← loop n REMOVE_COLOR_round (parent, elm);
  if negb (elm' =? NULL) then RB_SETCOLOR elm' RB_BLACK else mret tt.

(** Puts [child] where [parent] has [elm], or at the root. *)
Definition rb_set_child (parent elm child : Z) : M rbmem unit :=
  if negb (parent =? NULL) then
    l ← RB_LEFT parent;
    (if l =? elm then set_RB_LEFT parent child else set_RB_RIGHT parent child);;
    RB_AUGMENT parent
  else set_RB_ROOT child.

Definition RB_REMOVE_leftmost (elm : Z) : M rbmem Z :=
  n ← rb_bound;
  loop n (fun elm => left_ ← RB_LEFT elm;
                     mret (if negb (left_ =? NULL) then inl left_ else inr elm)) elm.

(** [do RB_AUGMENT(left); while ((left = GETPARENT(left)) != NULL)]. *)
Definition RB_REMOVE_augment (parent : Z) : M rbmem unit :=
  n ← rb_bound;
  loop n (fun left_ => RB_AUGMENT left_;;
                       left' ← RB_GETPARENT left_;
                       mret (if negb (left' =? NULL) then inl left' else inr tt)) parent.

(** [elm] takes the place of [old], with its links and its colour. *)
Definition RB_REMOVE_replace (old elm : Z) : M rbmem unit :=
  o ← rb_load old; rb_modify (set_rb_entry o) elm;;
  (gp ← RB_GETPARENT old;
   if negb (gp =? NULL) then
     gp ← RB_GETPARENT old; l ← RB_LEFT gp;
     (if l =? old then gp ← RB_GETPARENT old; set_RB_LEFT gp elm
      else gp ← RB_GETPARENT old; set_RB_RIGHT gp elm);;
     gp ← RB_GETPARENT old; RB_AUGMENT gp
   else set_RB_ROOT elm);;
  l ← RB_LEFT old; RB_SETPARENT l elm;;
  r ← RB_RIGHT old;
  if negb (r =? NULL) then r ← RB_RIGHT old; RB_SETPARENT r elm;; mret tt
  else mret tt.

(** The removal of a node with two children: its successor takes its place.
    Returns the [color], [parent] and [child] the fix-up is called with. *)
Definition RB_REMOVE_two (old : Z) : M rbmem (Z * Z * Z) :=
  elm ← RB_RIGHT old;
  elm ← RB_REMOVE_leftmost elm;
  child ← RB_RIGHT elm;
  parent ← RB_GETPARENT elm;
  color ← RB_GETCOLOR elm;
  ((if negb (child =? NULL) then RB_SETPARENT child parent;; mret tt else mret tt);;
   rb_set_child parent elm child);;
  gp ← RB_GETPARENT elm;
  let parent := if gp =? old then elm else parent in
  RB_REMOVE_replace old elm;;
  (if negb (parent =? NULL) then RB_REMOVE_augment parent else mret tt);;
  mret (color, parent, child).

(** The removal of a node with at most one child. *)
Definition RB_REMOVE_one (elm child : Z) : M rbmem (Z * Z * Z) :=
  parent ← RB_GETPARENT elm;
  color ← RB_GETCOLOR elm;
  ((if negb (child =? NULL) then RB_SETPARENT child parent;; mret tt else mret tt);;
   rb_set_child parent elm child);;
  mret (color, parent, child).

Definition RB_REMOVE (elm : Z) : M rbmem Z :=
  let old := elm in
  l ← RB_LEFT elm;
  cpc ← (if l =? NULL then child ← RB_RIGHT elm; RB_REMOVE_one elm child
         else r ← RB_RIGHT elm;
              if r =? NULL then child ← RB_LEFT elm; RB_REMOVE_one elm child
              else RB_REMOVE_two old);
  let '(color, parent, child) := cpc in
  (if color =? RB_BLACK then RB_REMOVE_COLOR parent child else mret tt);;
  mret old.

(** ** Queries *)

Definition RB_FIND_round (elm tmp : Z) : M rbmem (Z + Z) :=
  if tmp =? NULL then mret (inr NULL)
  else
    comp ← rb_cmp elm tmp;
    if comp <? 0 then tmp' ← RB_LEFT tmp; mret (inl tmp')
    else if 0 <? comp then tmp' ← RB_RIGHT tmp; mret (inl tmp')
    else mret (inr tmp).

Definition RB_FIND (elm : Z) : M rbmem Z :=
  tmp ← RB_ROOT;
  n ← rb_bound;
  loop n (RB_FIND_round elm) tmp.

Definition RB_MINMAX (val : Z) : M rbmem Z :=
  tmp ← RB_ROOT;
  n ← rb_bound;
  loop n (fun '(tmp, parent) =>
    if tmp =? NULL then mret (inr parent)
    else
      let parent := tmp in
      tmp' ← (if val <? 0 then RB_LEFT tmp else RB_RIGHT tmp);
      mret (inl (tmp', parent))) (tmp, NULL).
Definition RB_MIN : M rbmem Z := RB_MINMAX RB_NEGINF.
Definition RB_MAX : M rbmem Z := RB_MINMAX RB_INF.

Definition RB_NEXT (elm : Z) : M rbmem Z :=
  n ← rb_bound;
  r ← RB_RIGHT elm;
  if negb (r =? NULL) then
    loop n (fun elm => l ← RB_LEFT elm;
                       mret (if negb (l =? NULL) then inl l else inr elm)) r
  else
    gp ← RB_GETPARENT elm;
    isleft ← (if negb (gp =? NULL) then l ← RB_LEFT gp; mret (elm =? l)
              else mret false);
    if isleft : bool then RB_GETPARENT elm
    else
      elm ← loop n (fun elm =>
              gp ← RB_GETPARENT elm;
              up ← (if negb (gp =? NULL) then r ← RB_RIGHT gp; mret (elm =? r)
                    else mret false);
              mret (if up : bool then inl gp else inr elm)) elm;
      RB_GETPARENT elm.

Definition RB_PREV (elm : Z) : M rbmem Z :=
  n ← rb_bound;
  l ← RB_LEFT elm;
  if negb (l =? NULL) then
    loop n (fun elm => r ← RB_RIGHT elm;
                       mret (if negb (r =? NULL) then inl r else inr elm)) l
  else
    gp ← RB_GETPARENT elm;
    isright ← (if negb (gp =? NULL) then r ← RB_RIGHT gp; mret (elm =? r)
               else mret false);
    if isright : bool then RB_GETPARENT elm
    else
      elm ← loop n (fun elm =>
              gp ← RB_GETPARENT elm;
              up ← (if negb (gp =? NULL) then l ← RB_LEFT gp; mret (elm =? l)
                    else mret false);
              mret (if up : bool then inl gp else inr elm)) elm;
      RB_GETPARENT elm.

(** The nodes that [RB_FOREACH] visits. *)
Definition RB_FOREACH : M rbmem (list Z) :=
  x ← RB_MIN;
  n ← rb_bound;
  loop n (fun '(x, acc) =>
            if negb (x =? NULL) then
              y ← RB_NEXT x; mret (inl (y, acc ++ [x]))
            else mret (inr acc)) (x, []).

(** [RB_FOREACH_FROM(x, name, y)]: it reads the successor before the body runs. *)
Definition RB_FOREACH_FROM (y : Z) : M rbmem (list Z) :=
  n ← rb_bound;
  loop n (fun '(x, acc) =>
            if negb (x =? NULL) then
              y ← RB_NEXT x; mret (inl (y, acc ++ [x]))
            else mret (inr acc)) (y, []).

(** [RB_FOREACH_REVERSE_FROM(x, name, y)], with the predecessor. *)
Definition RB_FOREACH_REVERSE_FROM (y : Z) : M rbmem (list Z) :=
  n ← rb_bound;
  loop n (fun '(x, acc) =>
            if negb (x =? NULL) then
              y ← RB_PREV x; mret (inl (y, acc ++ [x]))
            else mret (inr acc)) (y, []).

(** [RB_FOREACH_SAFE] with the body [body]. *)
Definition RB_FOREACH_SAFE (body : Z -> M rbmem unit) : M rbmem unit :=
  x ← RB_MIN;
  n ← rb_bound;
  loop n (fun x =>
            if negb (x =? NULL) then
              y ← RB_NEXT x; body x;; mret (inl y)
            else mret (inr tt)) x.
End RB.

Arguments rbnode : clear implicits.
Arguments rbmem : clear implicits.
