(* ===== verification/RBRep.v ===== *)
(** Red-black trees in the store of [RBTree]: trees with parent pointers, the
    contexts around a subtree, the colour in the parent pointer, and the runs of
    the accessors and of the rotations. *)

From stdpp Require Import base gmap list.
From Stdlib Require Import ZArith Lia.
From S2P Require Import Prelude OrdSet SplayTree RBTree.

(** * The colour bit *)

Inductive colour := Red | Black.

#[export] Instance colour_eq_dec : EqDecision colour.
Proof. solve_decision. Defined.

Definition colZ (c : colour) : Z := match c with Red => RB_RED | Black => RB_BLACK end.

(** The address of a node: not null, and with room for the colour. *)
Definition ptr_ok (p : Z) : Prop := 0 < p < 2 ^ uintptr_bits /\ Z.even p = true.
(** The parent of a node, null at the root. *)
Definition par_ok (p : Z) : Prop := p = NULL \/ ptr_ok p.

Lemma par_ok_half p : par_ok p -> exists h, p = 2 * h /\ 0 <= h < 2 ^ 63.
Proof.
  intros Hp. assert (Z.even p = true /\ 0 <= p < 2 ^ 64) as [He ?].
  { destruct Hp as [->|[? ?]]; [by vm_compute|].
    unfold uintptr_bits in *. split; [done|lia]. }
  exists (p / 2). apply Z.even_spec in He as [h ->].
  rewrite Z.mul_comm, Z.div_mul by lia. lia.
Qed.

Lemma par_land_mask p c :
  par_ok p -> Z.land (p + colZ c) (uintptr_not RB_COLOR_MASK) = p.
Proof.
  intros (h & -> & Hh)%par_ok_half.
  replace (uintptr_not RB_COLOR_MASK) with (2 * Z.ones 63) by reflexivity.
  assert (Z.land h (Z.ones 63) = h) as E.
  { rewrite Z.land_ones by lia. by apply Z.mod_small. }
  apply Z.bits_inj'. intros n Hn. rewrite Z.land_spec.
  destruct (Z.eq_dec n 0) as [->|].
  { by rewrite !Z.testbit_even_0, andb_false_r. }
  replace n with (Z.succ (n - 1)) by lia.
  rewrite !Z.testbit_even_succ by lia. rewrite <-E at 2. rewrite Z.land_spec.
  f_equal. destruct c; unfold colZ, RB_RED, RB_BLACK.
  - by rewrite Z.testbit_odd_succ by lia.
  - by rewrite Z.add_0_r, Z.testbit_even_succ by lia.
Qed.

Lemma par_land_col p c : par_ok p -> Z.land (p + colZ c) RB_COLOR_MASK = colZ c.
Proof.
  intros (h & -> & Hh)%par_ok_half. unfold RB_COLOR_MASK.
  change 1 with (Z.ones 1). rewrite Z.land_ones, Z.add_comm, Z.mul_comm by lia.
  rewrite Z.pow_1_r, Z.mod_add by lia. by destruct c.
Qed.

Lemma par_lor p c : par_ok p -> Z.lor p (colZ c) = p + colZ c.
Proof.
  intros (h & -> & Hh)%par_ok_half.
  destruct c; unfold colZ, RB_RED, RB_BLACK; [|by rewrite Z.lor_0_r, Z.add_0_r].
  destruct h; [done|done|lia].
Qed.

(** * Trees and contexts *)

Section Rep.
Context {K : Type}.

Implicit Types (st : gmap Z (rbnode K)) (s : rbmem K).

Inductive rbtree :=
  | E
  | N (c : colour) (l : rbtree) (p : Z) (k : K) (r : rbtree).

(** The nodes above a subtree, the lowest first: [LF] when the subtree is on
    the left of the node, with the right subtree of the node; [RF] dually. *)
Inductive frame :=
  | LF (c : colour) (p : Z) (k : K) (r : rbtree)
  | RF (c : colour) (l : rbtree) (p : Z) (k : K).

Abbreviation ctx := (list frame).
Implicit Types (t : rbtree) (C : ctx).

Definition troot t : Z := match t with E => NULL | N _ _ p _ _ => p end.
Definition fptr (f : frame) : Z := match f with LF _ p _ _ | RF _ _ p _ => p end.
Definition fcol (f : frame) : colour := match f with LF c _ _ _ | RF c _ _ _ => c end.
(** The parent of the subtree, null at the root. *)
Definition ctop C : Z := match C with [] => NULL | f :: _ => fptr f end.
(** The root of the tree with a subtree at [v]. *)
Fixpoint croot (v : Z) C : Z :=
  match C with [] => v | f :: C' => croot (fptr f) C' end.

Fixpoint inorder t : list (Z * K) :=
  match t with
  | E => []
  | N _ l p k r => inorder l ++ (p, k) :: inorder r
  end.
(** The entries left and right of the subtree. *)
Fixpoint zl C : list (Z * K) :=
  match C with
  | [] => []
  | LF _ _ _ _ :: C' => zl C'
  | RF _ l p k :: C' => zl C' ++ inorder l ++ [(p, k)]
  end.
Fixpoint zr C : list (Z * K) :=
  match C with
  | [] => []
  | LF _ p k r :: C' => (p, k) :: inorder r ++ zr C'
  | RF _ _ _ _ :: C' => zr C'
  end.

Definition fill (f : frame) t : rbtree :=
  match f with LF c p k r => N c t p k r | RF c l p k => N c l p k t end.
Fixpoint plug C t : rbtree :=
  match C with [] => t | f :: C' => plug C' (fill f t) end.

Fixpoint tsize t : nat :=
  match t with E => O | N _ l _ _ r => S (tsize l + tsize r) end.

(** A node as the store has it. *)
Definition mk (l r par : Z) (c : colour) (k : K) : rbnode K :=
  RbNode l r (par + colZ c) k.

Fixpoint rep st (par : Z) t : Prop :=
  match t with
  | E => True
  | N c l p k r =>
      ptr_ok p /\ st !! p = Some (mk (troot l) (troot r) par c k) /\
      rep st p l /\ rep st p r
  end.
(** The nodes above a subtree at [v]. *)
Fixpoint repC st (v : Z) C : Prop :=
  match C with
  | [] => True
  | LF c p k r :: C' =>
      ptr_ok p /\ st !! p = Some (mk v (troot r) (ctop C') c k) /\
      rep st p r /\ repC st p C'
  | RF c l p k :: C' =>
      ptr_ok p /\ st !! p = Some (mk (troot l) v (ctop C') c k) /\
      rep st p l /\ repC st p C'
  end.

Abbreviation whole C t := (zl C ++ inorder t ++ zr C).

(** The store of [s] holds below the head a tree whose part below [C] is [t]. *)
Record focus C t s : Prop := Focus {
  fo_root : rbh_root s = croot (troot t) C;
  fo_ctx : repC (rb_store s) (troot t) C;
  fo_rep : rep (rb_store s) (ctop C) t;
  fo_nodup : NoDup (whole C t).*1;
}.

(** ** Pure facts *)

Lemma whole_fill f C t : whole C (fill f t) = whole (f :: C) t.
Proof. destruct f; cbn; by rewrite <-!app_assoc. Qed.

Lemma inorder_plug C t : inorder (plug C t) = whole C t.
Proof.
  revert t. induction C as [|f C IH]; intros t; cbn; [by rewrite app_nil_r|].
  by rewrite IH, whole_fill.
Qed.

Lemma plug_app C D t : plug (C ++ D) t = plug D (plug C t).
Proof. revert t. induction C as [|f C IH]; intros t; cbn; [done|]. by rewrite IH. Qed.

Lemma zl_app C D : zl (C ++ D) = zl D ++ zl C.
Proof.
  induction C as [|[c p k r|c l p k] C IH]; cbn; [by rewrite app_nil_r|done|].
  by rewrite IH, <-!app_assoc.
Qed.
Lemma zr_app C D : zr (C ++ D) = zr C ++ zr D.
Proof.
  induction C as [|[c p k r|c l p k] C IH]; cbn; [done| |done].
  by rewrite IH, <-app_assoc.
Qed.

Lemma rb_tsize_length t : tsize t = length (inorder t).
Proof.
  induction t as [|c l IHl p k r IHr]; cbn; [done|].
  rewrite length_app, IHl, IHr. cbn. lia.
Qed.

Lemma length_ctx C t : (length C <= length (whole C t))%nat.
Proof.
  rewrite !length_app. enough (length C <= length (zl C) + length (zr C))%nat by lia.
  induction C as [|f C IH]; cbn; [done|].
  destruct f; cbn; rewrite !length_app; cbn; lia.
Qed.

Lemma par_ok_ctop st v C : repC st v C -> par_ok (ctop C).
Proof. destruct C as [|[] C]; cbn; [by left|..]; intros [? _]; by right. Qed.

Lemma ptr_ok_nonnull p : ptr_ok p -> p <> NULL.
Proof. intros [??]. lia. Qed.

Lemma rb_troot_E st par t : rep st par t -> troot t = NULL -> t = E.
Proof. destruct t; [done|]. cbn. intros [Hp _] ->. by apply ptr_ok_nonnull in Hp. Qed.

Lemma ctop_nil st v C : repC st v C -> ctop C = NULL -> C = [].
Proof.
  destruct C as [|[] C]; cbn; [done|..]; intros [Hp _] ->; by apply ptr_ok_nonnull in Hp.
Qed.

(** ** Writes elsewhere *)

Lemma rb_rep_insert st par t p n :
  p ∉ (inorder t).*1 -> rep st par t -> rep (<[p:=n]> st) par t.
Proof.
  revert par. induction t as [|c l IHl q k r IHr]; intros par; cbn; [done|].
  rewrite fmap_app, fmap_cons. cbn. intros Hp (?&?&?&?).
  split_and!; [done|rewrite lookup_insert_ne; set_solver|set_solver..].
Qed.

Lemma repC_insert st v C p n :
  p ∉ (zl C).*1 -> p ∉ (zr C).*1 -> repC st v C -> repC (<[p:=n]> st) v C.
Proof.
  revert v. induction C as [|[c q k r|c l q k] C IH]; intros v; cbn; [done|..];
    rewrite ?fmap_app, ?fmap_cons; cbn; rewrite ?fmap_app; intros Hl Hr (?&?&?&?).
  all: split_and!;
    [done|rewrite lookup_insert_ne; set_solver|apply rb_rep_insert; set_solver
    |apply IH; set_solver].
Qed.

Lemma rb_rep_ext st st' par t :
  (forall a, a ∈ (inorder t).*1 -> st' !! a = st !! a) -> rep st par t -> rep st' par t.
Proof.
  revert par. induction t as [|c l IHl q k r IHr]; intros par; cbn; [done|].
  rewrite fmap_app, fmap_cons. cbn. intros Hp (?&?&?&?).
  split_and!; [done|rewrite Hp; set_solver|apply IHl|apply IHr]; set_solver.
Qed.

Lemma repC_ext st st' v C :
  (forall a, a ∈ (zl C ++ zr C).*1 -> st' !! a = st !! a) ->
  repC st v C -> repC st' v C.
Proof.
  revert v. induction C as [|[c q k r|c l q k] C IH]; intros v; cbn; [done|..];
    rewrite ?fmap_app, ?fmap_cons; cbn; rewrite ?fmap_app; intros Hp (?&?&?&?).
  all: split_and!; [done|rewrite Hp; set_solver|eapply rb_rep_ext; [|done]|apply IH];
    set_solver.
Qed.

Lemma rb_rep_live st par t e : rep st par t -> e ∈ inorder t ->
  exists n, st !! e.1 = Some n /\ rb_key n = e.2 /\ ptr_ok e.1.
Proof.
  revert par. induction t as [|c l IHl q k r IHr]; intros par; cbn; [set_solver|].
  intros (?&?&?&?) He. rewrite elem_of_app, elem_of_cons in He.
  destruct He as [He|[->|He]]; [eauto| |eauto]. eexists. by split_and!.
Qed.

(** ** Moving the focus *)

Lemma repC_fill st f t C :
  repC st (troot (fill f t)) C /\ rep st (ctop C) (fill f t) <->
  repC st (troot t) (f :: C) /\ rep st (ctop (f :: C)) t.
Proof. destruct f; cbn; tauto. Qed.

Lemma focus_fill f C t s : focus C (fill f t) s <-> focus (f :: C) t s.
Proof.
  split; intros [H1 H2 H3 H4].
  - destruct (proj1 (repC_fill _ _ _ _) (conj H2 H3)). split; try done.
    + by destruct f.
    + by rewrite <-whole_fill.
  - destruct (proj2 (repC_fill _ _ _ _) (conj H2 H3)). split; try done.
    + by destruct f.
    + by rewrite whole_fill.
Qed.

Lemma focus_plug C D t s : focus D (plug C t) s <-> focus (C ++ D) t s.
Proof.
  revert t. induction C as [|f C IH]; intros t; cbn; [done|].
  by rewrite IH, focus_fill.
Qed.

Lemma focus_top C t s : focus [] (plug C t) s <-> focus C t s.
Proof. by rewrite focus_plug, app_nil_r. Qed.

Lemma focus_left C c l p k r s : focus C (N c l p k r) s -> focus (LF c p k r :: C) l s.
Proof. apply (focus_fill (LF c p k r)). Qed.
Lemma focus_right C c l p k r s : focus C (N c l p k r) s -> focus (RF c l p k :: C) r s.
Proof. apply (focus_fill (RF c l p k)). Qed.

(** The subtree at a node of the tree. *)
Lemma plug_split t e : e ∈ inorder t ->
  exists C c l r, plug C (N c l e.1 e.2 r) = t.
Proof.
  induction t as [|c l IHl q k r IHr]; cbn; [set_solver|].
  rewrite elem_of_app, elem_of_cons. intros [He|[->|He]].
  - destruct (IHl He) as (C & c' & l' & r' & <-).
    exists (C ++ [LF c q k r]), c', l', r'. by rewrite plug_app.
  - by exists [], c, l, r.
  - destruct (IHr He) as (C & c' & l' & r' & <-).
    exists (C ++ [RF c l q k]), c', l', r'. by rewrite plug_app.
Qed.

(** ** The rest of the memory *)

Definition evolves (X : list Z) st st' : Prop :=
  (forall a, rb_key <$> st' !! a = rb_key <$> st !! a) /\
  (forall a, a ∉ X -> st' !! a = st !! a).

Lemma rb_evolves_refl X st : evolves X st st.
Proof. done. Qed.
Lemma rb_evolves_trans X st1 st2 st3 :
  evolves X st1 st2 -> evolves X st2 st3 -> evolves X st1 st3.
Proof.
  intros [H1 H2] [H3 H4]. split; [intros a; by rewrite H3|].
  intros a Ha. by rewrite H4, H2.
Qed.
Lemma rb_evolves_weaken X Y st st' : X ⊆ Y -> evolves X st st' -> evolves Y st st'.
Proof. intros Hsub [H1 H2]. split; [done|]. intros a Ha. apply H2. set_solver. Qed.
Lemma rb_evolves_insert X st st' p n n' :
  evolves X st st' -> st' !! p = Some n -> rb_key n' = rb_key n -> p ∈ X ->
  evolves X st (<[p:=n']> st').
Proof.
  intros [H1 H2] Hp Hk HX. split.
  - intros a. rewrite <-H1. destruct (decide (a = p)) as [->|].
    + rewrite lookup_insert_eq, Hp. cbn. by rewrite Hk.
    + by rewrite lookup_insert_ne.
  - intros a Ha. rewrite lookup_insert_ne by set_solver. by apply H2.
Qed.
Lemma evolves_write X st p n n' :
  st !! p = Some n -> rb_key n' = rb_key n -> p ∈ X -> evolves X st (<[p:=n']> st).
Proof. by apply rb_evolves_insert, rb_evolves_refl. Qed.
Lemma evolves_lookup X st st' p : evolves X st st' -> p ∉ X -> st' !! p = st !! p.
Proof. intros [_ H]. apply H. Qed.
Lemma rep_evolves X st st' par t :
  rep st par t -> evolves X st st' -> apart (inorder t).*1 X -> rep st' par t.
Proof. intros Ht [_ H] Ha. eapply rb_rep_ext; [|done]. intros a Hin. by apply H, Ha. Qed.
Lemma repC_evolves X st st' v C :
  repC st v C -> evolves X st st' -> apart (zl C ++ zr C).*1 X -> repC st' v C.
Proof. intros Ht [_ H] Ha. eapply repC_ext; [|done]. intros a Hin. by apply H, Ha. Qed.
Lemma evolves_size X st st' : evolves X st st' -> size st' = size st.
Proof.
  intros [H _]. rewrite <-!size_dom. f_equal. apply set_eq. intros a.
  rewrite !elem_of_dom. specialize (H a).
  destruct (st' !! a), (st !! a); try done; split; by intros [? ?].
Qed.

Lemma focus_size C t s : focus C t s -> (length (whole C t) <= size (rb_store s))%nat.
Proof.
  rewrite <-focus_top. intros [_ _ H Hn]. rewrite <-inorder_plug.
  rewrite <-(length_fmap fst). cbn in Hn. rewrite app_nil_r in Hn.
  apply NoDup_keys_size; [done|]. intros a (e & -> & He)%list_elem_of_fmap.
  destruct (rb_rep_live _ _ _ _ H He) as (n & -> & _). by eexists.
Qed.
End Rep.

Arguments rbtree : clear implicits.
Arguments frame : clear implicits.
Arguments E {K}.
Arguments N {K} c l p k r.
