(* ===== verification/RBSteps.v ===== *)
(** The runs of the accessors of [RBTree], and the effect of the recolouring, the
    rotations and the relinking steps on the tree around the focus. *)

From stdpp Require Import base gmap list.
From Stdlib Require Import ZArith Lia.
From S2P Require Import Prelude OrdSet SplayTree RBTree RBRep.

Section Accessors.
Context {K : Type}.
Implicit Types (s : rbmem K) (k : K).

Lemma wp_rb_load p n Q s :
  p <> NULL -> rb_store s !! p = Some n -> Q n s -> wp (rb_load p) Q s.
Proof.
  intros Hp Hn HQ. unfold wp, rb_load.
  destruct (Z.eqb_spec p NULL); [done|]. by rewrite Hn.
Qed.
Lemma wp_rb_modify p f n (Q : unit -> rbmem K -> Prop) s :
  p <> NULL -> rb_store s !! p = Some n ->
  Q tt (RbMem (rbh_root s) (<[p := f n]> (rb_store s))) -> wp (rb_modify f p) Q s.
Proof. intros. eapply wp_bind, wp_rb_load; eauto. Qed.
Lemma wp_RB_LEFT p n Q s :
  p <> NULL -> rb_store s !! p = Some n -> Q (rbe_left n) s -> wp (RB_LEFT p) Q s.
Proof. intros. eapply wp_bind, wp_rb_load; eauto. Qed.
Lemma wp_RB_RIGHT p n Q s :
  p <> NULL -> rb_store s !! p = Some n -> Q (rbe_right n) s -> wp (RB_RIGHT p) Q s.
Proof. intros. eapply wp_bind, wp_rb_load; eauto. Qed.
Lemma wp_RB_ROOT Q s : Q (rbh_root s) s -> wp RB_ROOT Q s.
Proof. done. Qed.
Lemma wp_set_RB_ROOT v (Q : unit -> rbmem K -> Prop) s :
  Q tt (RbMem v (rb_store s)) -> wp (set_RB_ROOT v) Q s.
Proof. done. Qed.
Lemma wp_rb_bound (Q : nat -> rbmem K -> Prop) s :
  Q (S (size (rb_store s))) s -> wp rb_bound Q s.
Proof. done. Qed.
Lemma wp_rb_cmp (cmp : K -> K -> Z) a b na nb Q s :
  a <> NULL -> b <> NULL -> rb_store s !! a = Some na -> rb_store s !! b = Some nb ->
  Q (cmp (rb_key na) (rb_key nb)) s -> wp (rb_cmp cmp a b) Q s.
Proof.
  intros. eapply wp_bind, wp_rb_load; eauto. eapply wp_bind, wp_rb_load; eauto.
Qed.

(** The parent and the colour of a node. *)
Lemma wp_GETPARENT p l r par c k Q s :
  p <> NULL -> rb_store s !! p = Some (mk l r par c k) -> par_ok par -> Q par s ->
  wp (RB_GETPARENT p) Q s.
Proof.
  intros Hp Hn Hpar HQ. eapply wp_bind, wp_bind, wp_rb_load; [done..|].
  apply wp_ret. cbn. destruct (Z.eqb_spec (par + colZ c) NULL) as [E|]; cbn.
  - apply wp_ret. assert (par = NULL) as ->; [|done].
    apply par_ok_half in Hpar as (h & -> & ?). destruct c; unfold colZ, RB_RED, RB_BLACK in *; lia.
  - rewrite par_land_mask by done. unfold RB_PLACEHOLDER. apply wp_ret.
    destruct (Z.eqb_spec par NULL) as [->|]; done.
Qed.
Lemma wp_GETCOLOR p l r par c k Q s :
  p <> NULL -> rb_store s !! p = Some (mk l r par c k) -> par_ok par -> Q (colZ c) s ->
  wp (RB_GETCOLOR p) Q s.
Proof.
  intros Hp Hn Hpar HQ. eapply wp_bind, wp_bind, wp_rb_load; [done..|].
  apply wp_ret, wp_ret. cbn. by rewrite par_land_col.
Qed.
Lemma wp_SETCOLOR p l r par c c' k (Q : unit -> rbmem K -> Prop) s :
  p <> NULL -> rb_store s !! p = Some (mk l r par c k) -> par_ok par ->
  Q tt (RbMem (rbh_root s) (<[p := mk l r par c' k]> (rb_store s))) ->
  wp (RB_SETCOLOR p (colZ c')) Q s.
Proof.
  intros Hp Hn Hpar HQ. eapply wp_bind, wp_GETPARENT; [done..|].
  eapply wp_rb_modify; [done..|]. unfold RB_PLACEHOLDER.
  replace (if par =? NULL then NULL else par) with par
    by (destruct (Z.eqb_spec par NULL); done).
  by rewrite par_lor.
Qed.
(** The parent is written first without the colour, which comes back after. *)
Lemma wp_SETPARENT p l r par par' c k Q s :
  p <> NULL -> rb_store s !! p = Some (mk l r par c k) -> par_ok par -> par_ok par' ->
  Q par' (RbMem (rbh_root s) (<[p := mk l r par' c k]> (rb_store s))) ->
  wp (RB_SETPARENT p par') Q s.
Proof.
  intros Hp Hn Hpar Hpar' HQ. eapply wp_bind, wp_GETCOLOR; [done..|].
  eapply wp_bind, wp_rb_modify; [done..|].
  replace (set_rbe_parent par' (mk l r par c k)) with (mk l r par' Black k)
    by (unfold set_rbe_parent, mk; cbn; by rewrite Z.add_0_r).
  apply wp_bind. destruct c; cbn [colZ negb Z.eqb RB_RED RB_BLACK].
  - apply (wp_SETCOLOR _ l r par' Black Red k); [done|by cbn; rewrite lookup_insert_eq|done|].
    eapply wp_GETPARENT; [done|by cbn; rewrite lookup_insert_eq|done|].
    cbn. by rewrite insert_insert_eq.
  - apply wp_ret. eapply wp_GETPARENT; [done|by cbn; rewrite lookup_insert_eq|done|done].
Qed.
(** A node that is not in a tree yet: its parent field has any contents. *)
Lemma wp_SETPARENT_fresh p par' n Q s :
  p <> NULL -> rb_store s !! p = Some n -> par_ok par' ->
  (forall c, Q par' (RbMem (rbh_root s)
     (<[p := mk (rbe_left n) (rbe_right n) par' c (rb_key n)]> (rb_store s)))) ->
  wp (RB_SETPARENT p par') Q s.
Proof.
  intros Hp Hn Hpar' HQ. eapply wp_bind, wp_bind, wp_bind, wp_rb_load; [done..|].
  apply wp_ret, wp_ret.
  assert (exists c, Z.land (rbe_parent n) RB_COLOR_MASK = colZ c) as [c ->].
  { unfold RB_COLOR_MASK. change 1 with (Z.ones 1). rewrite Z.land_ones by lia.
    destruct (Z.mod_pos_bound (rbe_parent n) (2 ^ 1)) as [??]; [lia|].
    destruct (Z.eq_dec (rbe_parent n mod 2 ^ 1) 0) as [E|];
      [exists Black|exists Red]; unfold colZ, RB_RED, RB_BLACK in *; lia. }
  eapply wp_bind, wp_rb_modify; [done..|].
  replace (set_rbe_parent par' n) with (mk (rbe_left n) (rbe_right n) par' Black (rb_key n))
    by (unfold set_rbe_parent, mk; cbn; by rewrite Z.add_0_r).
  apply wp_bind. destruct c; cbn [colZ negb Z.eqb RB_RED RB_BLACK].
  - eapply (wp_SETCOLOR _ _ _ par' Black Red);
      [done|by cbn; rewrite lookup_insert_eq|done|].
    eapply wp_GETPARENT; [done|by cbn; rewrite lookup_insert_eq|done|].
    cbn. rewrite insert_insert_eq. apply (HQ Red).
  - apply wp_ret. eapply wp_GETPARENT;
      [done|by cbn; rewrite lookup_insert_eq|done|apply (HQ Black)].
Qed.
Lemma wp_set_RB_LEFT p l l' r par c k (Q : unit -> rbmem K -> Prop) s :
  p <> NULL -> rb_store s !! p = Some (mk l r par c k) ->
  Q tt (RbMem (rbh_root s) (<[p := mk l' r par c k]> (rb_store s))) ->
  wp (set_RB_LEFT p l') Q s.
Proof. intros. by eapply wp_rb_modify. Qed.
Lemma wp_set_RB_RIGHT p l r r' par c k (Q : unit -> rbmem K -> Prop) s :
  p <> NULL -> rb_store s !! p = Some (mk l r par c k) ->
  Q tt (RbMem (rbh_root s) (<[p := mk l r' par c k]> (rb_store s))) ->
  wp (set_RB_RIGHT p r') Q s.
Proof. intros. by eapply wp_rb_modify. Qed.
End Accessors.

(** Proves a lookup through the writes of the store. *)
Ltac look :=
  solve [ repeat (cbn [rb_store rbh_root]; first
    [ eassumption | rewrite lookup_insert_eq; reflexivity
    | rewrite lookup_insert_ne by notin
    | match goal with H : evolves _ _ ?st |- ?st !! _ = _ =>
        rewrite (evolves_lookup _ _ _ _ H) by notin end ]) ].

(** Proves that a part of the tree is still there. *)
Ltac keep :=
  repeat (cbn [rb_store rbh_root]; first
    [ assumption | apply rb_rep_insert; [notin|] | apply repC_insert; [notin|notin|]
    | match goal with
      | H : evolves _ _ ?st |- rep ?st _ _ => eapply (rep_evolves _ _ _ _ _); [|exact H|apartness]
      | H : evolves _ _ ?st |- repC ?st _ _ => eapply (repC_evolves _ _ _ _ _); [|exact H|apartness]
      end ]).

(** Proves [evolves] for a chain of writes of members of [X]. *)
Ltac evolve :=
  repeat (cbn [rb_store rbh_root]; first
    [ assumption
    | eapply rb_evolves_insert; [|solve [look]|done|done]
    | match goal with
      | H : evolves ?Y ?st1 ?st |- evolves ?X ?st0 ?st =>
          eapply (rb_evolves_trans _ _ st1); [|eapply (rb_evolves_weaken Y); [|exact H]]
      end ]).


(** * Linking a subtree below its context *)

Section Link.
Context {K : Type}.
Implicit Types (s : rbmem K) (st : gmap Z (rbnode K)) (k : K)
  (C : list (frame K)) (t : rbtree K).

Lemma repC_relink st v v' f C :
  repC st v (f :: C) -> NoDup (zl (f :: C) ++ zr (f :: C)).*1 ->
  exists n,
    st !! fptr f = Some n /\ fptr f <> NULL /\
    match f with
    | LF c p k r =>
        n = mk v (troot r) (ctop C) c k /\
        repC (<[p := mk v' (troot r) (ctop C) c k]> st) v' (f :: C)
    | RF c l p k =>
        n = mk (troot l) v (ctop C) c k /\
        repC (<[p := mk (troot l) v' (ctop C) c k]> st) v' (f :: C)
    end.
Proof.
  intros Hrep Hnd. destruct f as [c p k r|c l p k]; cbn [repC fptr] in *;
    destruct Hrep as (Hp & Hn & Ht & HC); eexists;
    (split; [done|split; [by apply ptr_ok_nonnull|split; [done|]]]);
    parts_in Hnd; (split_and!;
      [done|by rewrite lookup_insert_eq|apply rb_rep_insert; [notin|done]
      |apply repC_insert; [notin..|done]]).
Qed.

(** A subtree gets another parent. *)
Lemma wp_reparent par par' t (Q : Z -> rbmem K -> Prop) s :
  rep (rb_store s) par t -> t <> E -> par_ok par -> par_ok par' ->
  NoDup (inorder t).*1 ->
  (forall st', rep st' par' t -> evolves (inorder t).*1 (rb_store s) st' ->
     Q par' (RbMem (rbh_root s) st')) ->
  wp (RB_SETPARENT (troot t) par') Q s.
Proof.
  intros Ht Ht0 Hpar Hpar' Hnd HQ. destruct t as [|c l p k r]; [done|].
  destruct Ht as (Hp & Hn & Hl & Hr). apply ptr_ok_nonnull in Hp as Hp0.
  eapply wp_SETPARENT; [done..|].
  assert (p ∈ (inorder (N c l p k r)).*1) by isin. parts_in Hnd.
  apply HQ; [|by eapply evolves_write]. cbn.
  split_and!; [done|by rewrite lookup_insert_eq|..]; (apply rb_rep_insert; [notin|done]).
Qed.

(** The same, if the subtree is not empty. *)
Lemma wp_adopt par par' t (Q : unit -> rbmem K -> Prop) s :
  rep (rb_store s) par t -> par_ok par -> par_ok par' -> NoDup (inorder t).*1 ->
  (forall st', rep st' par' t -> evolves (inorder t).*1 (rb_store s) st' ->
     Q tt (RbMem (rbh_root s) st')) ->
  wp (if negb (troot t =? NULL) then RB_SETPARENT (troot t) par';; mret tt
      else mret tt) Q s.
Proof.
  intros Ht Hpar Hpar' Hnd HQ. destruct (Z.eqb_spec (troot t) NULL) as [E|E].
  { apply wp_ret. destruct s. apply (rb_troot_E _ _ _ Ht) in E as ->.
    by apply HQ, rb_evolves_refl. }
  eapply wp_bind, wp_reparent; [done|by intros ->|done..|].
  intros. by apply wp_ret, HQ.
Qed.

(** [read]: the expression the code reads the root of the subtree with. *)
Lemma wp_read_adopt (read : M (rbmem K) Z) par' t (Q : unit -> rbmem K -> Prop) s :
  (forall Q' : Z -> rbmem K -> Prop, Q' (troot t) s -> wp read Q' s) ->
  wp (if negb (troot t =? NULL) then RB_SETPARENT (troot t) par';; mret tt
      else mret tt) Q s ->
  wp (if negb (troot t =? NULL) then l ← read; RB_SETPARENT l par';; mret tt
      else mret tt) Q s.
Proof. intros Hread HQ. destruct (negb _); [|done]. by apply wp_bind, Hread. Qed.

(** The step of the rotations that puts [tmp] in the place of [elm], below the
    parent of [elm] or at the head. *)
Lemma wp_replace_child elm tmp l r c k C (Q : unit -> rbmem K -> Prop) s :
  elm <> NULL -> rb_store s !! elm = Some (mk l r (ctop C) c k) ->
  rbh_root s = croot elm C -> repC (rb_store s) elm C ->
  NoDup (zl C ++ zr C).*1 -> elm ∉ (zl C ++ zr C).*1 ->
  (forall root st', root = croot tmp C -> repC st' tmp C ->
     evolves (zl C ++ zr C).*1 (rb_store s) st' ->
     Q tt (RbMem root st')) ->
  wp (if negb (ctop C =? NULL) then rb_replace_child elm tmp else set_RB_ROOT tmp) Q s.
Proof.
  intros He0 He Hroot HC Hnd Hnin HQ.
  assert (par_ok (ctop C)) as Hpar by by eapply par_ok_ctop.
  destruct C as [|f C].
  { apply wp_set_RB_ROOT. by apply HQ. }
  destruct (repC_relink _ _ tmp _ _ HC Hnd) as (n & Hn & Hf & Hrel).
  replace (ctop (f :: C) =? NULL) with false by (symmetry; by apply Z.eqb_neq).
  cbn [negb]. eapply wp_bind, wp_GETPARENT; [done..|].
  destruct f as [cf p kf t|cf t p kf]; cbn [fptr ctop] in *;
    destruct Hrel as [-> Hrel]; (eapply wp_bind, wp_RB_LEFT; [done..|]); cbn [rbe_left mk].
  - rewrite Z.eqb_refl. eapply wp_bind, wp_GETPARENT; [done..|].
    eapply wp_set_RB_LEFT; [done..|].
    apply HQ; [done..|eapply evolves_write; [done..|isin]].
  - destruct (Z.eqb_spec elm (troot t)) as [E|].
    { destruct t as [|ct lt pt kt rt]; [done|]. cbn in E. subst.
      exfalso. apply Hnin. isin. }
    eapply wp_bind, wp_GETPARENT; [done..|].
    eapply wp_set_RB_RIGHT; [done..|].
    apply HQ; [done..|eapply evolves_write; [done..|isin]].
Qed.

(** The same when the parent is known and the child may be empty. *)
Lemma wp_set_child elm child C (Q : unit -> rbmem K -> Prop) s :
  elm <> NULL -> rbh_root s = croot elm C -> repC (rb_store s) elm C ->
  NoDup (zl C ++ zr C).*1 -> elm ∉ (zl C ++ zr C).*1 ->
  (forall root st', root = croot child C -> repC st' child C ->
     evolves (zl C ++ zr C).*1 (rb_store s) st' -> Q tt (RbMem root st')) ->
  wp (rb_set_child (ctop C) elm child) Q s.
Proof.
  intros He0 Hroot HC Hnd Hnin HQ. unfold rb_set_child.
  destruct C as [|f C]; [by apply wp_set_RB_ROOT, HQ|].
  destruct (repC_relink _ _ child _ _ HC Hnd) as (n & Hn & Hf & Hrel).
  cbn [ctop]. rewrite (proj2 (Z.eqb_neq (fptr f) NULL)) by done. cbn [negb].
  destruct f as [cf p kf t|cf t p kf]; cbn [fptr] in *; destruct Hrel as [-> Hrel];
    (eapply wp_bind, wp_RB_LEFT; [done..|]); cbn [rbe_left mk]; apply wp_bind.
  - rewrite Z.eqb_refl. eapply wp_set_RB_LEFT; [done..|]. apply wp_ret.
    apply HQ; [done..|eapply evolves_write; [done..|isin]].
  - destruct (Z.eqb_spec (troot t) elm) as [E|].
    { destruct t as [|ct lt pt kt rt]; [done|]. cbn in E. subst.
      exfalso. apply Hnin. isin. }
    eapply wp_set_RB_RIGHT; [done..|]. apply wp_ret.
    apply HQ; [done..|eapply evolves_write; [done..|isin]].
Qed.

(** The form [RB_REMOVE] has of [rb_replace_child], for the node [old] that
    [elm] takes the place of. *)
Lemma wp_replace_old old elm l r c k C (Q : unit -> rbmem K -> Prop) s :
  old <> NULL -> rb_store s !! old = Some (mk l r (ctop C) c k) ->
  rbh_root s = croot old C -> repC (rb_store s) old C ->
  NoDup (zl C ++ zr C).*1 -> old ∉ (zl C ++ zr C).*1 ->
  (forall root st', root = croot elm C -> repC st' elm C ->
     evolves (zl C ++ zr C).*1 (rb_store s) st' -> Q tt (RbMem root st')) ->
  wp (gp ← RB_GETPARENT old;
      if negb (gp =? NULL) then
        gp ← RB_GETPARENT old; l ← RB_LEFT gp;
        (if l =? old then gp ← RB_GETPARENT old; set_RB_LEFT gp elm
         else gp ← RB_GETPARENT old; set_RB_RIGHT gp elm);;
        gp ← RB_GETPARENT old; RB_AUGMENT gp
      else set_RB_ROOT elm) Q s.
Proof.
  intros He0 He Hroot HC Hnd Hnin HQ.
  assert (par_ok (ctop C)) as Hpar by by eapply par_ok_ctop.
  eapply wp_bind, wp_GETPARENT; [done..|].
  destruct C as [|f C]; [by apply wp_set_RB_ROOT, HQ|].
  destruct (repC_relink _ _ elm _ _ HC Hnd) as (n & Hn & Hf & Hrel).
  assert (old <> fptr f) by (intros ->; apply Hnin; destruct f; isin).
  cbn [ctop] in *. rewrite (proj2 (Z.eqb_neq (fptr f) NULL)) by done. cbn [negb].
  eapply wp_bind, wp_GETPARENT; [done..|].
  destruct f as [cf p kf t|cf t p kf]; cbn [fptr] in *; destruct Hrel as [-> Hrel];
    (eapply wp_bind, wp_RB_LEFT; [done..|]); cbn [rbe_left mk]; apply wp_bind.
  - rewrite Z.eqb_refl. eapply wp_bind, wp_GETPARENT; [done..|].
    eapply wp_set_RB_LEFT; [done..|]. eapply wp_bind, wp_GETPARENT; [done|look|done|].
    apply wp_ret, HQ; [done..|eapply evolves_write; [done..|isin]].
  - destruct (Z.eqb_spec (troot t) old) as [E|].
    { destruct t as [|ct lt pt kt rt]; [done|]. cbn in E. subst.
      exfalso. apply Hnin. isin. }
    eapply wp_bind, wp_GETPARENT; [done..|].
    eapply wp_set_RB_RIGHT; [done..|]. eapply wp_bind, wp_GETPARENT; [done|look|done|].
    apply wp_ret, HQ; [done..|eapply evolves_write; [done..|isin]].
Qed.
End Link.

(** * Steps at the focus *)

Section Zipped.
Context {K : Type}.
Implicit Types (s : rbmem K) (k : K) (C : list (frame K)) (t : rbtree K).

(** The tree of [s] has the part [t] below [C] and the entries [es]; the nodes
    outside [X] are as in [st0]. *)
Record zipped (X : list Z) (st0 : gmap Z (rbnode K)) (es : list (Z * K)) C t s
    : Prop := Zipped {
  z_focus : focus C t s;
  z_es : zl C ++ inorder t ++ zr C = es;
  z_ev : evolves X st0 (rb_store s);
  z_sub : es.*1 ⊆ X;
}.

Context (X : list Z) (st0 : gmap Z (rbnode K)) (es : list (Z * K)).
Abbreviation zip := (zipped X st0 es).

Lemma zip_fill f C t s : zip C (fill f t) s <-> zip (f :: C) t s.
Proof.
  split; intros [H1 H2 H3 H4]; (split; [|rewrite <-H2|done..]);
    [by apply focus_fill|symmetry; apply whole_fill|by apply focus_fill|apply whole_fill].
Qed.
Lemma zip_plug C D t s : zip D (plug C t) s <-> zip (C ++ D) t s.
Proof.
  revert t. induction C as [|f C IH]; intros t; cbn; [done|].
  by rewrite IH, zip_fill.
Qed.
Lemma zip_top C t s : zip [] (plug C t) s <-> zip C t s.
Proof. by rewrite zip_plug, app_nil_r. Qed.
Lemma zip_left C c l p k r s : zip C (N c l p k r) s <-> zip (LF c p k r :: C) l s.
Proof. apply (zip_fill (LF c p k r)). Qed.
Lemma zip_right C c l p k r s : zip C (N c l p k r) s <-> zip (RF c l p k :: C) r s.
Proof. apply (zip_fill (RF c l p k)). Qed.

Lemma zip_node C c l p k r s : zip C (N c l p k r) s ->
  ptr_ok p /\ p <> NULL /\ par_ok (ctop C) /\
  rb_store s !! p = Some (mk (troot l) (troot r) (ctop C) c k).
Proof.
  intros [[_ HC (?&?&_) _] _ _ _].
  split_and!; [done|by apply ptr_ok_nonnull|by eapply par_ok_ctop|done].
Qed.

Lemma zip_ptr C c l p k r s : zip C (N c l p k r) s -> p <> NULL.
Proof. intros (?&?&?&?)%zip_node. done. Qed.

Lemma zip_nodup C t s : zip C t s -> NoDup es.*1.
Proof. by intros [[_ _ _ H] <- _ _]. Qed.

Lemma zip_E C t s : zip C t s -> troot t = NULL -> t = E.
Proof. intros [[_ _ H _] _ _ _]. by eapply rb_troot_E. Qed.

Lemma zip_ctop C t s : zip C t s -> ctop C = NULL -> C = [].
Proof. intros [[_ H _ _] _ _ _]. by eapply ctop_nil. Qed.

(** Two children are different nodes. *)
Lemma zip_sib C c l p k r s :
  zip C (N c l p k r) s -> l <> E \/ r <> E -> troot l <> troot r.
Proof.
  intros Hz Hlr Heq. pose proof (proj1 (zip_left _ _ _ _ _ _ _) Hz) as Hzl.
  pose proof (proj1 (zip_right _ _ _ _ _ _ _) Hz) as Hzr.
  destruct l as [|cl ll pl kl rl].
  { symmetry in Heq. apply (zip_E _ _ _ Hzr) in Heq. naive_solver. }
  destruct r as [|cr lr pr kr rr]; [by apply (zip_E _ _ _ Hzl) in Heq|].
  destruct Hz as [[_ _ _ Hnd] _ _ _]. cbn in Heq. subst. parts_in Hnd. done.
Qed.

(** Below the root, the subtree is not the whole tree. *)
Lemma croot_in v f C : croot v (f :: C) ∈ (zl (f :: C) ++ zr (f :: C)).*1.
Proof.
  revert v f. induction C as [|g C IH]; intros v f.
  - destruct f; cbn; isin.
  - specialize (IH (fptr f) g). cbn [croot] in *. revert IH.
    destruct f; cbn [zl zr]; rewrite !fmap_app; cbn; rewrite ?fmap_app; set_solver.
Qed.
Lemma zip_root f C t s : zip (f :: C) t s -> rbh_root s <> troot t.
Proof.
  intros Hz. destruct t as [|c l p k r].
  - apply zip_top in Hz. destruct (plug (f :: C) E) as [|c l p k r] eqn:Hp.
    { apply (f_equal inorder) in Hp. rewrite inorder_plug in Hp.
      destruct f; cbn in Hp; [by destruct (zl C)|by destruct (zl C), (inorder l)]. }
    rewrite (fo_root _ _ _ (z_focus _ _ _ _ _ _ Hz)). by eapply zip_ptr.
  - destruct Hz as [[-> _ _ Hnd] _ _ _]. pose proof (croot_in (troot (N c l p k r)) f C) as Hin.
    cbn [troot inorder] in *. intros E. rewrite E, fmap_app, elem_of_app in Hin.
    revert Hin Hnd. generalize (zl (f :: C)), (zr (f :: C)). intros A B Hin Hnd.
    parts_in Hnd. destruct Hin; congruence.
Qed.

Lemma zip_bound C t s : zip C t s ->
  (length C < S (size (rb_store s)))%nat /\
  (length C + tsize t < S (size (rb_store s)))%nat.
Proof.
  intros [H _ _ _]. apply focus_size in H. rewrite rb_tsize_length.
  pose proof (length_ctx C (E : rbtree K)) as HC. cbn in HC.
  rewrite !length_app in *. lia.
Qed.

Lemma wp_LEFT_z C c l p k r s Q :
  zip C (N c l p k r) s -> Q (troot l) s -> wp (RB_LEFT p) Q s.
Proof. intros (?&?&?&?)%zip_node ?. by eapply wp_RB_LEFT. Qed.
Lemma wp_RIGHT_z C c l p k r s Q :
  zip C (N c l p k r) s -> Q (troot r) s -> wp (RB_RIGHT p) Q s.
Proof. intros (?&?&?&?)%zip_node ?. by eapply wp_RB_RIGHT. Qed.
Lemma wp_GETPARENT_z C c l p k r s Q :
  zip C (N c l p k r) s -> Q (ctop C) s -> wp (RB_GETPARENT p) Q s.
Proof. intros (?&?&?&?)%zip_node ?. by eapply wp_GETPARENT. Qed.
Lemma wp_GETCOLOR_z C c l p k r s Q :
  zip C (N c l p k r) s -> Q (colZ c) s -> wp (RB_GETCOLOR p) Q s.
Proof. intros (?&?&?&?)%zip_node ?. by eapply wp_GETCOLOR. Qed.

(** The same of the parent of the focus. *)
Lemma wp_GETPARENT_up f C t s Q :
  zip (f :: C) t s -> Q (ctop C) s -> wp (RB_GETPARENT (fptr f)) Q s.
Proof. destruct f; intros H%zip_fill; by eapply wp_GETPARENT_z. Qed.
Lemma wp_GETCOLOR_up f C t s Q :
  zip (f :: C) t s -> Q (colZ (fcol f)) s -> wp (RB_GETCOLOR (fptr f)) Q s.
Proof. destruct f; intros H%zip_fill; by eapply wp_GETCOLOR_z. Qed.
Lemma zip_fptr f C t s : zip (f :: C) t s -> fptr f <> NULL.
Proof. destruct f; intros H%zip_fill; by eapply zip_ptr. Qed.

Definition is_red t : bool := match t with N Red _ _ _ _ => true | _ => false end.

Lemma wp_rb_is_red_z C t s Q :
  zip C t s -> Q (is_red t) s -> wp (rb_is_red (troot t)) Q s.
Proof.
  intros H HQ. unfold rb_is_red. destruct t as [|c l p k r]; [by apply wp_ret|].
  cbn [troot]. rewrite (proj2 (Z.eqb_neq p NULL)) by by eapply zip_ptr.
  eapply wp_bind, wp_GETCOLOR_z; [done|]. apply wp_ret. by destruct c.
Qed.
Lemma wp_rb_is_black_z C t s Q :
  zip C t s -> Q (negb (is_red t)) s -> wp (rb_is_black (troot t)) Q s.
Proof.
  intros H HQ. unfold rb_is_black. destruct t as [|c l p k r]; [by apply wp_ret|].
  cbn [troot]. rewrite (proj2 (Z.eqb_neq p NULL)) by by eapply zip_ptr.
  eapply wp_bind, wp_GETCOLOR_z; [done|]. apply wp_ret. by destruct c.
Qed.

Lemma wp_SETCOLOR_z c' C c l p k r s (Q : unit -> rbmem K -> Prop) :
  zip C (N c l p k r) s ->
  (forall s', zip C (N c' l p k r) s' -> Q tt s') ->
  wp (RB_SETCOLOR p (colZ c')) Q s.
Proof.
  intros Hz HQ. destruct (zip_node _ _ _ _ _ _ _ Hz) as (Hp & Hp0 & Hpar & Hn).
  destruct Hz as [[H1 H2 (_&_&Hl&Hr) Hnd] Hes Hev Hsub].
  eapply wp_SETCOLOR; [done..|]. apply HQ. pose proof Hnd as Hnd'. parts_in Hnd.
  split; [|done| |done]; [split; cbn [rb_store rbh_root]|].
  - done.
  - apply repC_insert; [notin..|done].
  - cbn. split_and!; [done|by rewrite lookup_insert_eq|..]; (apply rb_rep_insert; [notin|done]).
  - done.
  - eapply rb_evolves_insert; [done..|]. apply Hsub. rewrite <-Hes. isin.
Qed.

(** The rotations keep the entries and the colours of the nodes. *)
Lemma wp_ROTATE_LEFT_z C c a p k d b q kq e s (Q : unit -> rbmem K -> Prop) :
  zip C (N c a p k (N d b q kq e)) s ->
  (forall s', zip C (N d (N c a p k b) q kq e) s' -> Q tt s') ->
  wp (RB_ROTATE_LEFT p) Q s.
Proof.
  intros Hz HQ. destruct (zip_node _ _ _ _ _ _ _ Hz) as (Hp & Hp0 & Hpar & Hnp).
  pose proof (proj1 (zip_right _ _ _ _ _ _ _) Hz) as Hz'.
  destruct (zip_node _ _ _ _ _ _ _ Hz') as (Hq & Hq0 & _ & Hnq). clear Hz'.
  destruct Hz as [[H1 H2 (_&_&Ha&(_&_&Hb&He)) Hnd] Hes Hev Hsub].
  assert (p ∈ X /\ q ∈ X /\ (inorder b).*1 ⊆ X /\ (zl C ++ zr C).*1 ⊆ X)
    as (HpX & HqX & HbX & HCX).
  { rewrite <-Hes in Hsub. revert Hsub. clear. cbn.
    autorewrite with parts. cbn. set_solver. }
  cbn [troot inorder] in *. pose proof Hnd as Hnd'. parts_in Hnd.
  assert (par_ok p /\ par_ok q) as [Hpp Hpq] by (split; by right).
  eapply wp_bind, wp_RB_RIGHT; [done..|]. cbn [rbe_right mk].
  eapply wp_bind, wp_RB_LEFT; [done..|]. cbn [rbe_left mk].
  eapply wp_bind, wp_set_RB_RIGHT; [done..|].
  apply wp_bind, wp_read_adopt; [intros Q' HQ'; eapply wp_RB_LEFT; [done|look|done]|].
  apply (wp_adopt q p b); [keep|done|done|done|intros st2 Hb2 Hev2].
  eapply wp_bind, wp_ret, wp_bind, wp_GETPARENT; [done|look|done|].
  eapply wp_bind, wp_SETPARENT; [done|look|done..|].
  eapply wp_bind, wp_replace_child; [done|look|done|keep|by autorewrite with parts; split_and!|notin|].
  intros root st4 -> HC4 Hev4.
  eapply wp_bind, wp_set_RB_LEFT; [done|look|].
  eapply wp_bind, wp_SETPARENT; [done|look|done|done|].
  eapply wp_bind, wp_ret, wp_bind, wp_GETPARENT; [done|look|done|].
  assert (zip C (N d (N c a p k b) q kq e) (RbMem (croot q C)
    (<[p:=mk (troot a) (troot b) q c k]> (<[q:=mk p (troot e) (ctop C) d kq]> st4)))) as Hz.
  { split; [split| | |]; cbn [rb_store rbh_root troot].
    - done.
    - keep.
    - cbn. split_and!; solve [done|look|keep].
    - revert Hnd'. cbn. by app_norm.
    - rewrite <-Hes. by app_norm.
    - evolve.
    - done. }
  destruct (Z.eqb_spec (ctop C) NULL); cbn [negb].
  - by apply wp_ret, HQ.
  - eapply wp_bind, wp_GETPARENT; [done|look|done|]. by apply wp_ret, HQ.
Qed.
Lemma wp_ROTATE_RIGHT_z C c e p k d b q kq a s (Q : unit -> rbmem K -> Prop) :
  zip C (N c (N d a q kq b) p k e) s ->
  (forall s', zip C (N d a q kq (N c b p k e)) s' -> Q tt s') ->
  wp (RB_ROTATE_RIGHT p) Q s.
Proof.
  intros Hz HQ. destruct (zip_node _ _ _ _ _ _ _ Hz) as (Hp & Hp0 & Hpar & Hnp).
  pose proof (proj1 (zip_left _ _ _ _ _ _ _) Hz) as Hz'.
  destruct (zip_node _ _ _ _ _ _ _ Hz') as (Hq & Hq0 & _ & Hnq). clear Hz'.
  destruct Hz as [[H1 H2 (_&_&(_&_&Ha&Hb)&He) Hnd] Hes Hev Hsub].
  assert (p ∈ X /\ q ∈ X /\ (inorder b).*1 ⊆ X /\ (zl C ++ zr C).*1 ⊆ X)
    as (HpX & HqX & HbX & HCX).
  { rewrite <-Hes in Hsub. revert Hsub. clear. cbn.
    autorewrite with parts. cbn. set_solver. }
  cbn [troot inorder] in *. pose proof Hnd as Hnd'. parts_in Hnd.
  assert (par_ok p /\ par_ok q) as [Hpp Hpq] by (split; by right).
  eapply wp_bind, wp_RB_LEFT; [done..|]. cbn [rbe_left mk].
  eapply wp_bind, wp_RB_RIGHT; [done..|]. cbn [rbe_right mk].
  eapply wp_bind, wp_set_RB_LEFT; [done..|].
  apply wp_bind, wp_read_adopt; [intros Q' HQ'; eapply wp_RB_RIGHT; [done|look|done]|].
  apply (wp_adopt q p b); [keep|done|done|done|intros st2 Hb2 Hev2].
  eapply wp_bind, wp_ret, wp_bind, wp_GETPARENT; [done|look|done|].
  eapply wp_bind, wp_SETPARENT; [done|look|done..|].
  eapply wp_bind, wp_replace_child; [done|look|done|keep|by autorewrite with parts; split_and!|notin|].
  intros root st4 -> HC4 Hev4.
  eapply wp_bind, wp_set_RB_RIGHT; [done|look|].
  eapply wp_bind, wp_SETPARENT; [done|look|done|done|].
  eapply wp_bind, wp_ret, wp_bind, wp_GETPARENT; [done|look|done|].
  assert (zip C (N d a q kq (N c b p k e)) (RbMem (croot q C)
    (<[p:=mk (troot b) (troot e) q c k]> (<[q:=mk (troot a) p (ctop C) d kq]> st4)))) as Hz.
  { split; [split| | |]; cbn [rb_store rbh_root troot].
    - done.
    - keep.
    - cbn. split_and!; solve [done|look|keep].
    - revert Hnd'. cbn. by app_norm.
    - rewrite <-Hes. by app_norm.
    - evolve.
    - done. }
  destruct (Z.eqb_spec (ctop C) NULL); cbn [negb].
  - by apply wp_ret, HQ.
  - eapply wp_bind, wp_GETPARENT; [done|look|done|]. by apply wp_ret, HQ.
Qed.
End Zipped.
