(* ===== verification/RBInv.v ===== *)
(** The red-black invariant of a tree and of the context around a subtree, and
    the tactics that step through the code of [RBTree] at the focus. *)

From stdpp Require Import base gmap list.
From Stdlib Require Import ZArith Lia.
From S2P Require Import Prelude OrdSet SplayTree RBTree RBRep RBSteps.

Section Inv.
Context {K : Type}.
Implicit Types (t : rbtree K) (C : list (frame K)).

(** The paths to the leaves of [t] have [n] black nodes each, and no red node
    has a red child. *)
Fixpoint rb t (n : nat) : Prop :=
  match t with
  | E => n = O
  | N Red l _ _ r => is_red l = false /\ is_red r = false /\ rb l n /\ rb r n
  | N Black l _ _ r =>
      match n with O => False | S m => rb l m /\ rb r m end
  end.

Definition blacken t : rbtree K :=
  match t with E => E | N _ l p k r => N Black l p k r end.

Definition fsib (f : frame K) : rbtree K :=
  match f with LF _ _ _ r => r | RF _ l _ _ => l end.

(** The node above the subtree is black. *)
Definition cblack C : Prop :=
  match C with [] => False | f :: _ => fcol f = Black end.

(** The context wants a subtree with [n] black nodes on its paths. *)
Fixpoint ctx_ok C (n : nat) : Prop :=
  match C with
  | [] => True
  | f :: C' =>
      rb (fsib f) n /\
      match fcol f with
      | Red => is_red (fsib f) = false /\ cblack C' /\ ctx_ok C' n
      | Black => ctx_ok C' (S n)
      end
  end.

Lemma rb_blacken t n : rb t n -> exists m, rb (blacken t) m.
Proof. destruct t as [|[] l p k r]; cbn; [by exists O|intros (?&?&?&?); by exists (S n)|eauto]. Qed.

Lemma is_red_blacken t : is_red (blacken t) = false.
Proof. by destruct t. Qed.

Lemma inorder_blacken t : inorder (blacken t) = inorder t.
Proof. by destruct t. Qed.

Lemma rb_plug C t n :
  rb t n -> ctx_ok C n -> is_red t = false \/ cblack C \/ C = [] ->
  exists m, rb (plug C t) m /\
    is_red (plug C t) = match C with [] => is_red t | _ => false end.
Proof.
  revert t n. induction C as [|f C IH]; intros t n Ht HC Hr; [by exists n|].
  destruct HC as [Hs HC], (fcol f) eqn:Hf.
  - destruct HC as (Hsr & HCb & HC).
    destruct (IH (fill f t) n) as (m & Hm & Hmr); [|done|auto|].
    + destruct Hr as [Hr|[Hr|Hr]]; [|cbn in Hr; congruence|done].
      by destruct f; cbn in Hf; subst.
    + exists m. split; [done|]. cbn. rewrite Hmr. by destruct C.
  - destruct (IH (fill f t) (S n)) as (m & Hm & Hmr); [|done|left|].
    + by destruct f; cbn in Hf; subst.
    + by destruct f; cbn in Hf; subst.
    + exists m. split; [done|]. cbn. rewrite Hmr.
      destruct C; [|done]. by destruct f; cbn in Hf; subst.
Qed.

Lemma rb_unplug C t m :
  rb (plug C t) m -> is_red (plug C t) = false ->
  exists n, rb t n /\ ctx_ok C n /\ (is_red t = true -> cblack C).
Proof.
  revert t. induction C as [|f C IH]; intros t Hm Hr.
  { exists m. cbn in *. split_and!; [done..|]. rewrite Hr. done. }
  destruct (IH (fill f t) Hm Hr) as (n & Hf & HC & HCb).
  destruct f as [[] p k r|[] l p k]; cbn in *.
  - destruct Hf as (H1 & H2 & H3 & H4). exists n.
    split_and!; auto. by rewrite H1.
  - destruct n as [|n]; [done|]. destruct Hf. exists n. by split_and!.
  - destruct Hf as (H1 & H2 & H3 & H4). exists n.
    split_and!; auto. by rewrite H2.
  - destruct n as [|n]; [done|]. destruct Hf. exists n. by split_and!.
Qed.

(** The longest path; its bound by the number of nodes. *)
Fixpoint height t : nat :=
  match t with E => O | N _ l _ _ r => S (height l `max` height r) end.

Lemma height_tsize t : (height t <= tsize t)%nat.
Proof. induction t; cbn; lia. Qed.

Lemma rb_height t n :
  rb t n -> (height t <= 2 * n + if is_red t then 1 else 0)%nat.
Proof.
  revert n. induction t as [|c l IHl p k r IHr]; intros n; cbn; [lia|].
  destruct c.
  - intros (Hl & Hr & Hbl & Hbr). specialize (IHl n Hbl). specialize (IHr n Hbr).
    rewrite Hl in IHl. rewrite Hr in IHr. lia.
  - destruct n as [|n]; [done|]. intros [Hbl Hbr].
    specialize (IHl n Hbl). specialize (IHr n Hbr).
    destruct (is_red l), (is_red r); lia.
Qed.
Lemma rb_tsize t n : rb t n -> (2 ^ n <= tsize t + 1)%nat.
Proof.
  revert n. induction t as [|c l IHl p k r IHr]; intros n; cbn; [by intros ->|].
  destruct c.
  - intros (_ & _ & Hl & Hr). specialize (IHl n Hl). lia.
  - destruct n as [|n]; [done|]. intros [Hl Hr].
    specialize (IHl n Hl). specialize (IHr n Hr). rewrite Nat.pow_succ_r'. lia.
Qed.
Lemma rb_height_log t n :
  rb t n -> is_red t = false -> (height t <= 2 * Nat.log2 (tsize t + 1))%nat.
Proof.
  intros Hrb Hr. pose proof (rb_height _ _ Hrb) as Hh. rewrite Hr in Hh.
  apply rb_tsize in Hrb. apply Nat.log2_le_mono in Hrb. rewrite Nat.log2_pow2 in Hrb; lia.
Qed.

Context (X : list Z) (st0 : gmap Z (rbnode K)) (es : list (Z * K)).
Lemma zip_up f C t s : zipped X st0 es (f :: C) t s -> zipped X st0 es C (fill f t) s.
Proof. apply zip_fill. Qed.
End Inv.

(** [unzip H] adds the focus on the parts of the tree that [H] shows. *)
Ltac unzip H :=
  lazymatch type of H with
  | zipped _ _ _ _ (N _ _ _ _ _) _ =>
      let L := fresh "HzL" in let R := fresh "HzR" in
      pose proof (proj1 (zip_left _ _ _ _ _ _ _ _ _ _) H) as L;
      pose proof (proj1 (zip_right _ _ _ _ _ _ _ _ _ _) H) as R;
      unzip L; unzip R
  | _ => idtac
  end.
Ltac clear_zips :=
  repeat match goal with H : zipped _ _ _ _ _ _ |- _ => clear H end.
(** Moves the only focus [H] up to the base context, and opens it again. *)
Ltac rezip H :=
  revert H; clear_zips; intros H; repeat (apply zip_up in H; cbn [fill] in H); unzip H.

(** One step of the code at the focus; [zsteps] goes on as far as it can. *)
Ltac zwrite :=
  let s := fresh "s" in let H := fresh "Hz" in
  clear_zips; intros s H; rezip H.
Ltac zcolour lem :=
  first [ eapply lem; [eassumption|]
        | eapply (lem _ _ _ _ _ (N _ _ _ _ _)); [eassumption|] ].
Ltac zstep :=
  lazymatch goal with
  | |- wp (_ ≫= _) _ _ => apply wp_bind
  | |- wp (mret _) _ _ => apply wp_ret
  | |- wp (RB_LEFT _) _ _ => eapply wp_LEFT_z; [eassumption|]
  | |- wp (RB_RIGHT _) _ _ => eapply wp_RIGHT_z; [eassumption|]
  | |- wp (RB_GETPARENT _) _ _ => eapply wp_GETPARENT_z; [eassumption|]
  | |- wp (RB_GETCOLOR _) _ _ => eapply wp_GETCOLOR_z; [eassumption|]
  | |- wp (rb_is_red _) _ _ => zcolour wp_rb_is_red_z
  | |- wp (rb_is_black _) _ _ => zcolour wp_rb_is_black_z
  | |- wp (if negb (?p =? 0) then _ else _) _ _ =>
      rewrite (proj2 (Z.eqb_neq p 0)) by (eapply zip_ptr; eassumption)
  | |- wp (RB_SET_BLACKRED _ _) _ _ => unfold RB_SET_BLACKRED
  | |- wp (RB_SETCOLOR _ RB_RED) _ _ => eapply (wp_SETCOLOR_z _ _ _ Red); [eassumption|zwrite]
  | |- wp (RB_SETCOLOR _ RB_BLACK) _ _ => eapply (wp_SETCOLOR_z _ _ _ Black); [eassumption|zwrite]
  | |- wp (RB_SETCOLOR _ (colZ _)) _ _ => eapply wp_SETCOLOR_z; [eassumption|zwrite]
  | |- wp (RB_ROTATE_LEFT _) _ _ => eapply wp_ROTATE_LEFT_z; [eassumption|zwrite]
  | |- wp (RB_ROTATE_RIGHT _) _ _ => eapply wp_ROTATE_RIGHT_z; [eassumption|zwrite]
  end.
Ltac zsteps := repeat (zstep; cbn [troot fill ctop fptr fst snd is_red negb]).
