(* ===== verification/RBQuery.v ===== *)
(** The queries of the red-black tree: [RB_FIND], [RB_MINMAX], [RB_NEXT],
    [RB_PREV] and the iterations, against the ordered set of [OrdSet]. *)

From stdpp Require Import base gmap list.
From Stdlib Require Import ZArith Lia.
From S2P Require Import Prelude OrdSet SplayTree RBTree RBRep RBSteps RBInv.

Section Query.
Context {K : Type} (cmp : K -> K -> Z).
Implicit Types (s : rbmem K) (k : K) (C : list (frame K)) (t : rbtree K).

(** The head of [s] is a red-black tree with the entries [es]. *)
Definition rb_set (es : list (Z * K)) s : Prop :=
  exists t n, focus [] t s /\ rb t n /\ is_red t = false /\
    inorder t = es /\ sorted cmp es.

(** The live object at [elm] has the key [k]. *)
Definition rb_key_at (elm : Z) k s : Prop :=
  elm <> NULL /\ rb_key <$> rb_store s !! elm = Some k.

Lemma rb_key_at_evolves elm k X s s' :
  rb_key_at elm k s -> evolves X (rb_store s) (rb_store s') -> rb_key_at elm k s'.
Proof. intros [? H] [H1 _]. split; [done|]. by rewrite H1. Qed.

Lemma rb_set_zip X es s :
  rb_set es s -> es.*1 ⊆ X ->
  exists t n, zipped X (rb_store s) es [] t s /\ rb t n /\ is_red t = false /\
    inorder t = es /\ sorted cmp es.
Proof.
  intros (t & n & Hf & Hrb & Hr & <- & Hs) HX. exists t, n. split_and!; try done.
  split; [done|by cbn; rewrite app_nil_r|apply rb_evolves_refl|done].
Qed.

Lemma zip_rb_set X st0 es t n s :
  zipped X st0 es [] t s -> rb t n -> is_red t = false -> sorted cmp es -> rb_set es s.
Proof.
  intros [Hf Hes _ _] ???. exists t, n. split_and!; try done.
  by rewrite <-Hes; cbn; rewrite app_nil_r.
Qed.

Lemma wp_cmp_z X st0 es elm k C c l p kp r Q s :
  rb_key_at elm k s -> zipped X st0 es C (N c l p kp r) s -> Q (cmp k kp) s ->
  wp (rb_cmp cmp elm p) Q s.
Proof.
  intros [? H] (_&?&_&?)%zip_node ?. apply fmap_Some in H as (m & ? & ->).
  by eapply wp_rb_cmp.
Qed.

Section Search.
Context `{!Comparator cmp}.
Context (X : list Z) (st0 : gmap Z (rbnode K)) (es : list (Z * K)) (k : K).
Context (Hs : sorted cmp es).

(** The descent for [k] has come to [t]. *)
Definition searching C t s : Prop :=
  zipped X st0 es C t s /\ below cmp k (zl C) /\ above cmp k (zr C).

Lemma searching_top t s : zipped X st0 es [] t s -> searching [] t s.
Proof. intros H. split_and!; [done|apply below_nil|apply above_nil]. Qed.

Lemma searching_sorted C c l p kp r s : searching C (N c l p kp r) s ->
  below cmp kp (zl C ++ inorder l) /\ above cmp kp (inorder r ++ zr C).
Proof.
  intros ([_ He _ _]&_). revert Hs. rewrite <-He. cbn.
  rewrite <-app_assoc, app_assoc. cbn. rewrite sorted_mid by done. tauto.
Qed.

Lemma searching_left C c l p kp r s :
  searching C (N c l p kp r) s -> cmp k kp < 0 -> searching (LF c p kp r :: C) l s.
Proof.
  intros H Hlt. pose proof (searching_sorted _ _ _ _ _ _ _ H) as [_ Ha].
  destruct H as (Hz & Hb & _). split_and!; [by apply zip_left|done|].
  apply above_cons. split; [done|]. by eapply above_lt.
Qed.
Lemma searching_right C c l p kp r s :
  searching C (N c l p kp r) s -> 0 < cmp k kp -> searching (RF c l p kp :: C) r s.
Proof.
  intros H Hlt. pose proof (searching_sorted _ _ _ _ _ _ _ H) as [Hb _].
  destruct H as (Hz & _ & Ha). split_and!; [by apply zip_right| |done].
  apply cmp_gt in Hlt; [|done]. cbn. rewrite app_assoc, below_app, below_cons.
  split_and!; [by eapply below_lt|done|apply below_nil].
Qed.
Lemma searching_found C c l p kp r s :
  searching C (N c l p kp r) s -> cmp k kp = 0 ->
  es = (zl C ++ inorder l) ++ (p, kp) :: (inorder r ++ zr C) /\
  below cmp k (zl C ++ inorder l).
Proof.
  intros H Heq. pose proof (searching_sorted _ _ _ _ _ _ _ H) as [Hb _].
  destruct H as ([_ He _ _] & _). split.
  - rewrite <-He. cbn. by rewrite <-!app_assoc.
  - eapply below_eq; [done..|by apply cmp_sym].
Qed.
Lemma searching_E C s : searching C E s ->
  es = zl C ++ zr C /\ below cmp k (zl C) /\ above cmp k (zr C).
Proof. by intros ([_ <- _ _] & ? & ?). Qed.
End Search.

Context `{!Comparator cmp}.

(** The search loop needs one round for each level of the tree. *)
Lemma wp_find_loop X st0 es elm k t s fuel :
  zipped X st0 es [] t s -> sorted cmp es -> rb_key_at elm k s ->
  (height t < fuel)%nat ->
  wp (loop fuel (RB_FIND_round cmp elm) (rbh_root s))
    (fun r s' => s' = s /\ r = ptr_of (os_find cmp k es)) s.
Proof.
  intros Hz Hs Hk Hn.
  eapply (wp_loop _ (fun n tmp s' => s' = s /\ exists C t,
    searching X st0 es k C t s /\ tmp = troot t /\ height t = n))
    with (n := height t); [|split; [done|]|done].
  - clear t Hz Hn. intros n tmp s' (-> & C & t & Hse & -> & Ht).
    unfold RB_FIND_round. destruct t as [|c l p kp r]; cbn [troot].
    { rewrite Z.eqb_refl. apply wp_ret. split; [done|].
      apply searching_E in Hse as (-> & Hb & Ha); [|done]. by rewrite os_find_none. }
    pose proof Hse as (Hz & _). rewrite (proj2 (Z.eqb_neq p NULL)) by by eapply zip_ptr.
    eapply wp_bind, wp_cmp_z; [done..|]. cbn in Ht.
    destruct (Z.ltb_spec (cmp k kp) 0); [|destruct (Z.ltb_spec 0 (cmp k kp))].
    + eapply wp_bind, wp_LEFT_z; [done|]. apply wp_ret. exists (height l).
      split; [lia|]. split; [done|]. eexists _, l.
      split; [by eapply searching_left|done].
    + eapply wp_bind, wp_RIGHT_z; [done|]. apply wp_ret. exists (height r).
      split; [lia|]. split; [done|]. eexists _, r.
      split; [by eapply searching_right|done].
    + apply wp_ret. split; [done|]. assert (cmp k kp = 0) as Hk0 by lia.
      destruct (searching_found _ _ _ _ Hs _ _ _ _ _ _ _ Hse Hk0) as (-> & Hb).
      by rewrite os_find_split.
  - exists [], t. split; [by apply searching_top|].
    split; [apply (fo_root _ _ _ (z_focus _ _ _ _ _ _ Hz))|done].
Qed.

Lemma wp_RB_FIND es elm k s :
  rb_set es s -> rb_key_at elm k s ->
  wp (RB_FIND cmp elm) (fun r s' => s' = s /\ r = ptr_of (os_find cmp k es)) s.
Proof.
  intros Hset Hk. destruct (rb_set_zip es.*1 es s Hset) as (t & n & Hz & _ & _ & _ & Hs); [done|].
  apply wp_bind, wp_RB_ROOT, wp_bind, wp_rb_bound.
  eapply wp_find_loop; [done..|]. destruct (zip_bound _ _ _ _ _ _ Hz).
  pose proof (height_tsize t). lia.
Qed.

(** ** Walks *)

Section Walk.
Context (X : list Z) (st0 : gmap Z (rbnode K)) (es : list (Z * K)).
Abbreviation zip := (zipped X st0 es).

Lemma wp_rb_leftmost C t s n :
  zip C t s -> t <> E -> (tsize t < n)%nat ->
  wp (loop n (fun elm => l ← RB_LEFT elm;
                         mret (if negb (l =? NULL) then inl l else inr elm)) (troot t))
    (fun p s' => s' = s /\ exists D c k r, plug D (N c E p k r) = t /\ zl D = []) s.
Proof.
  intros Hz Ht Hn.
  eapply (wp_loop _ (fun m x s' => s' = s /\ exists D t', plug D t' = t /\ zl D = [] /\
    t' <> E /\ x = troot t' /\ tsize t' = m)); [|split; [done|]; by exists [], t|done].
  intros m x s' (-> & D & t' & <- & HD & Ht' & -> & Hm).
  apply zip_plug in Hz. destruct t' as [|c l p k r]; [done|].
  eapply wp_bind, wp_LEFT_z; [done|]. apply wp_ret.
  apply zip_left in Hz. destruct (Z.eqb_spec (troot l) NULL) as [E|]; cbn [negb].
  - apply (zip_E _ _ _ _ _ _ Hz) in E as ->. split; [done|]. by exists D, c, k, r.
  - exists (tsize l). cbn in Hm. split; [lia|]. split; [done|].
    exists (LF c p k r :: D), l. split_and!; [done..|by intros ->|done|done].
Qed.

Lemma wp_rb_rightmost C t s n :
  zip C t s -> t <> E -> (tsize t < n)%nat ->
  wp (loop n (fun elm => r ← RB_RIGHT elm;
                         mret (if negb (r =? NULL) then inl r else inr elm)) (troot t))
    (fun p s' => s' = s /\ exists D c l k, plug D (N c l p k E) = t /\ zr D = []) s.
Proof.
  intros Hz Ht Hn.
  eapply (wp_loop _ (fun m x s' => s' = s /\ exists D t', plug D t' = t /\ zr D = [] /\
    t' <> E /\ x = troot t' /\ tsize t' = m)); [|split; [done|]; by exists [], t|done].
  intros m x s' (-> & D & t' & <- & HD & Ht' & -> & Hm).
  apply zip_plug in Hz. destruct t' as [|c l p k r]; [done|].
  eapply wp_bind, wp_RIGHT_z; [done|]. apply wp_ret.
  apply zip_right in Hz. destruct (Z.eqb_spec (troot r) NULL) as [E|]; cbn [negb].
  - apply (zip_E _ _ _ _ _ _ Hz) in E as ->. split; [done|]. by exists D, c, l, k.
  - exists (tsize r). cbn in Hm. split; [lia|]. split; [done|].
    exists (RF c l p k :: D), r. split_and!; [done..|by intros ->|done|done].
Qed.

(** Up while the node is a right child; then the parent is the successor. *)
Lemma wp_climb_right C t s n :
  zip C t s -> t <> E -> (length C < n)%nat ->
  wp (elm ← loop n (fun elm =>
        gp ← RB_GETPARENT elm;
        up ← (if negb (gp =? NULL) then r ← RB_RIGHT gp; mret (elm =? r)
              else mret false);
        mret (if up : bool then inl gp else inr elm)) (troot t);
      RB_GETPARENT elm)
    (fun p s' => s' = s /\ p = ptr_of (head (zr C))) s.
Proof.
  intros Hz Ht Hn. apply wp_bind.
  eapply (wp_loop _ (fun m x s' => s' = s /\ exists D t', zip D t' s /\ t' <> E /\
    x = troot t' /\ length D = m /\ head (zr D) = head (zr C))); [|eauto 10|done].
  intros m x s' (-> & D & t' & Hz' & Ht' & -> & Hm & <-).
  destruct t' as [|c l p k r]; [done|]. eapply wp_bind, wp_GETPARENT_z; [done|].
  destruct D as [|f D].
  { apply wp_bind, wp_ret, wp_ret. by eapply wp_GETPARENT_z. }
  cbn [ctop]. rewrite (proj2 (Z.eqb_neq (fptr f) NULL)) by by eapply zip_fptr.
  apply zip_fill in Hz' as Hf. destruct f as [cf pf kf rf|cf lf pf kf]; cbn [fill fptr negb] in *;
    eapply wp_bind, wp_bind, wp_RIGHT_z; [done| |done|]; apply wp_ret, wp_ret.
  - cbn [troot]. rewrite (proj2 (Z.eqb_neq p (troot rf))) by by (apply (zip_sib _ _ _ _ _ _ _ _ _ _ Hf); left).
    by eapply wp_GETPARENT_z.
  - cbn [troot]. rewrite Z.eqb_refl. exists (length D). cbn in Hm. split; [lia|].
    split; [done|]. eexists D, _. by split_and!.
Qed.

Lemma wp_climb_left C t s n :
  zip C t s -> t <> E -> (length C < n)%nat ->
  wp (elm ← loop n (fun elm =>
        gp ← RB_GETPARENT elm;
        up ← (if negb (gp =? NULL) then l ← RB_LEFT gp; mret (elm =? l)
              else mret false);
        mret (if up : bool then inl gp else inr elm)) (troot t);
      RB_GETPARENT elm)
    (fun p s' => s' = s /\ p = ptr_of (last (zl C))) s.
Proof.
  intros Hz Ht Hn. apply wp_bind.
  eapply (wp_loop _ (fun m x s' => s' = s /\ exists D t', zip D t' s /\ t' <> E /\
    x = troot t' /\ length D = m /\ last (zl D) = last (zl C))); [|eauto 10|done].
  intros m x s' (-> & D & t' & Hz' & Ht' & -> & Hm & <-).
  destruct t' as [|c l p k r]; [done|]. eapply wp_bind, wp_GETPARENT_z; [done|].
  destruct D as [|f D].
  { apply wp_bind, wp_ret, wp_ret. by eapply wp_GETPARENT_z. }
  cbn [ctop]. rewrite (proj2 (Z.eqb_neq (fptr f) NULL)) by by eapply zip_fptr.
  apply zip_fill in Hz' as Hf. destruct f as [cf pf kf rf|cf lf pf kf]; cbn [fill fptr negb] in *;
    eapply wp_bind, wp_bind, wp_LEFT_z; [done| |done|]; apply wp_ret, wp_ret.
  - cbn [troot]. rewrite Z.eqb_refl. exists (length D). cbn in Hm. split; [lia|].
    split; [done|]. eexists D, _. by split_and!.
  - cbn [troot]. rewrite (proj2 (Z.eqb_neq p (troot lf)))
      by by (apply not_eq_sym, (zip_sib _ _ _ _ _ _ _ _ _ _ Hf); right).
    eapply wp_GETPARENT_z; [done|]. split; [done|]. cbn [zl].
    by rewrite app_assoc, last_snoc.
Qed.
End Walk.

(** ** Neighbours *)

(** The focus on an entry of the tree. *)
Lemma zip_at X st0 es t s e :
  zipped X st0 es [] t s -> e ∈ es ->
  exists C c l r, zipped X st0 es C (N c l e.1 e.2 r) s /\ plug C (N c l e.1 e.2 r) = t.
Proof.
  intros Hz He. assert (e ∈ inorder t) as (C & c & l & r & <-)%plug_split.
  { destruct Hz as [_ <- _ _]. revert He. cbn. by rewrite app_nil_r. }
  exists C, c, l, r. split; [|done]. by apply zip_top.
Qed.

Lemma wp_RB_NEXT es elm k s :
  rb_set es s -> (elm, k) ∈ es ->
  wp (RB_NEXT elm) (fun r s' => s' = s /\ r = ptr_of (os_next cmp k es)) s.
Proof.
  intros Hset He. destruct (rb_set_zip es.*1 es s Hset) as (t & m & Hz0 & _ & _ & _ & Hs); [done|].
  destruct (zip_at _ _ _ _ _ _ Hz0 He) as (C & c & l & r & Hz & _). clear Hz0 He. cbn in Hz.
  destruct (zip_bound _ _ _ _ _ _ Hz) as [HnC Hnt].
  assert (os_next cmp k es = head (inorder r ++ zr C)) as ->.
  { destruct Hz as [_ <- _ _]. revert Hs. cbn. rewrite <-app_assoc, app_assoc.
    by apply os_next_mid. }
  apply wp_bind, wp_rb_bound. eapply wp_bind, wp_RIGHT_z; [done|].
  pose proof (proj1 (zip_right _ _ _ _ _ _ _ _ _ _) Hz) as Hzr.
  destruct (Z.eqb_spec (troot r) NULL) as [E|E]; cbn [negb].
  - apply (zip_E _ _ _ _ _ _ Hzr) in E as ->. cbn [inorder app].
    eapply wp_bind, wp_GETPARENT_z; [done|].
    destruct C as [|f C].
    { apply wp_bind, wp_ret. by eapply (wp_climb_right _ _ _ [] (N c l elm k E)). }
    cbn [ctop]. rewrite (proj2 (Z.eqb_neq (fptr f) NULL)) by by eapply zip_fptr.
    apply zip_fill in Hz as Hf. destruct f as [cf pf kf rf|cf lf pf kf]; cbn [fill fptr negb] in *;
      eapply wp_bind, wp_bind, wp_LEFT_z; [done| |done|]; apply wp_ret; cbn [troot].
    + rewrite Z.eqb_refl. by eapply wp_GETPARENT_z.
    + rewrite (proj2 (Z.eqb_neq elm (troot lf)))
        by by (apply not_eq_sym, (zip_sib _ _ _ _ _ _ _ _ _ _ Hf); right).
      eapply (wp_climb_right _ _ _ _ (N c l elm k E)); done.
  - eapply wp_mono; [eapply wp_rb_leftmost; [done|by intros ->|cbn in Hnt; lia]|].
    cbn. intros p s' (-> & D & cp & kp & rp & <- & HD). split; [done|].
    by rewrite inorder_plug, HD.
Qed.

Lemma wp_RB_PREV es elm k s :
  rb_set es s -> (elm, k) ∈ es ->
  wp (RB_PREV elm) (fun r s' => s' = s /\ r = ptr_of (os_prev cmp k es)) s.
Proof.
  intros Hset He. destruct (rb_set_zip es.*1 es s Hset) as (t & m & Hz0 & _ & _ & _ & Hs); [done|].
  destruct (zip_at _ _ _ _ _ _ Hz0 He) as (C & c & l & r & Hz & _). clear Hz0 He. cbn in Hz.
  destruct (zip_bound _ _ _ _ _ _ Hz) as [HnC Hnt].
  assert (os_prev cmp k es = last (zl C ++ inorder l)) as ->.
  { destruct Hz as [_ <- _ _]. revert Hs. cbn. rewrite <-app_assoc, app_assoc.
    by apply os_prev_mid. }
  apply wp_bind, wp_rb_bound. eapply wp_bind, wp_LEFT_z; [done|].
  pose proof (proj1 (zip_left _ _ _ _ _ _ _ _ _ _) Hz) as Hzl.
  destruct (Z.eqb_spec (troot l) NULL) as [E|E]; cbn [negb].
  - apply (zip_E _ _ _ _ _ _ Hzl) in E as ->. cbn [inorder]. rewrite app_nil_r.
    eapply wp_bind, wp_GETPARENT_z; [done|].
    destruct C as [|f C].
    { apply wp_bind, wp_ret. by eapply (wp_climb_left _ _ _ [] (N c E elm k r)). }
    cbn [ctop]. rewrite (proj2 (Z.eqb_neq (fptr f) NULL)) by by eapply zip_fptr.
    apply zip_fill in Hz as Hf. destruct f as [cf pf kf rf|cf lf pf kf]; cbn [fill fptr negb] in *;
      eapply wp_bind, wp_bind, wp_RIGHT_z; [done| |done|]; apply wp_ret; cbn [troot].
    + rewrite (proj2 (Z.eqb_neq elm (troot rf)))
        by by (apply (zip_sib _ _ _ _ _ _ _ _ _ _ Hf); left).
      eapply (wp_climb_left _ _ _ _ (N c E elm k r)); done.
    + rewrite Z.eqb_refl. eapply wp_GETPARENT_z; [done|]. split; [done|]. cbn [zl].
      by rewrite app_assoc, last_snoc.
  - eapply wp_mono; [eapply wp_rb_rightmost; [done|by intros ->|cbn in Hnt; lia]|].
    cbn. intros p s' (-> & D & cp & lp & kp & <- & HD). split; [done|].
    rewrite inorder_plug, HD. cbn. by rewrite app_nil_r, !app_assoc, last_snoc.
Qed.

(** ** The ends, and the iterations *)

Definition rb_end (val : Z) (es : list (Z * K)) : option (Z * K) :=
  if val <? 0 then head es else last es.

Lemma wp_RB_MINMAX val es s :
  rb_set es s ->
  wp (RB_MINMAX val) (fun r s' => s' = s /\ r = ptr_of (rb_end val es)) s.
Proof.
  intros Hset. destruct (rb_set_zip es.*1 es s Hset) as (t & m & Hz & _ & _ & Hes & Hs); [done|].
  destruct (zip_bound _ _ _ _ _ _ Hz) as [_ Hn]. cbn in Hn.
  apply wp_bind, wp_RB_ROOT, wp_bind, wp_rb_bound.
  rewrite (fo_root _ _ _ (z_focus _ _ _ _ _ _ Hz)). cbn [croot].
  eapply (wp_loop _ (fun n x s' => s' = s /\ exists D t', plug D t' = t /\ x = (troot t', ctop D) /\
    tsize t' = n /\ (if val <? 0 then zl D = [] else zr D = [])))
    ; [|split; [done|]; exists [], t; split_and!; try done; by destruct (val <? 0)|done].
  intros n x s' (-> & D & t' & <- & -> & <- & HD). apply zip_plug in Hz.
  destruct t' as [|c l p k r]; cbn [troot].
  - rewrite Z.eqb_refl. apply wp_ret. split; [done|]. unfold rb_end.
    rewrite <-Hes, inorder_plug. cbn [inorder]. clear -HD.
    destruct (val <? 0), D as [|[] D]; cbn in *; rewrite ?HD, ?app_nil_r; try done.
    + by destruct (zl D), (inorder l).
    + by rewrite app_assoc, last_snoc.
  - rewrite app_nil_r in Hz.
    rewrite (proj2 (Z.eqb_neq p NULL)) by by eapply zip_ptr.
    destruct (val <? 0); apply wp_bind;
      [eapply wp_LEFT_z; [done|]|eapply wp_RIGHT_z; [done|]]; apply wp_ret.
    + exists (tsize l). cbn. split; [lia|]. split; [done|]. by exists (LF c p k r :: D), l.
    + exists (tsize r). cbn. split; [lia|]. split; [done|]. by exists (RF c l p k :: D), r.
Qed.

Lemma rb_set_sorted es s : rb_set es s -> sorted cmp es.
Proof. by intros (t & n & _ & _ & _ & _ & ?). Qed.
Lemma rb_set_size es s : rb_set es s -> (length es <= size (rb_store s))%nat.
Proof.
  intros (t & n & Hf & _ & _ & <- & _). apply focus_size in Hf. cbn in Hf.
  by rewrite app_nil_r in Hf.
Qed.
Lemma rb_set_live es s e :
  rb_set es s -> e ∈ es -> ptr_ok e.1 /\ rb_key_at e.1 e.2 s.
Proof.
  intros (t & n & Hf & _ & _ & <- & _) He.
  destruct (rb_rep_live _ _ _ _ (fo_rep _ _ _ Hf) He) as (m & Hm & Hk & Hp).
  split; [done|]. split; [by apply ptr_ok_nonnull|]. by rewrite Hm, <-Hk.
Qed.
Lemma rb_set_ptr es s p k : rb_set es s -> (p, k) ∈ es -> p =? NULL = false.
Proof.
  intros H He. apply Z.eqb_neq, ptr_ok_nonnull. by apply (rb_set_live es s (p, k)).
Qed.
Lemma rb_set_nodup es s : rb_set es s -> NoDup es.*1.
Proof.
  intros (t & n & [_ _ _ Hf] & _ & _ & <- & _). cbn in Hf. by rewrite app_nil_r in Hf.
Qed.

(** The loops of the iterations, from the first entry of [rest]. *)
Lemma wp_rb_walk_next before rest acc s n :
  rb_set (before ++ rest) s -> (length rest < n)%nat ->
  wp (loop n (fun '(x, acc) =>
        if negb (x =? NULL) then y ← RB_NEXT x; mret (inl (y, acc ++ [x]))
        else mret (inr acc)) (ptr_of (head rest), acc))
    (fun r s' => s' = s /\ r = acc ++ rest.*1) s.
Proof.
  intros Hset. revert before acc Hset n. induction rest as [|e rest IH];
    intros before acc Hset n Hn; (destruct n as [|n]; [cbn in Hn; lia|]); cbn [loop].
  { by apply wp_ret, wp_ret; rewrite app_nil_r. }
  assert (e ∈ before ++ e :: rest) as He by set_solver. destruct e as [p k].
  change (ptr_of (head ((p, k) :: rest))) with p. cbn beta iota.
  rewrite (rb_set_ptr _ _ _ _ Hset He).
  apply wp_bind, wp_bind. eapply wp_mono; [by eapply wp_RB_NEXT|]. intros y s' [-> ->].
  apply wp_ret. rewrite (os_next_mid cmp before p k rest) by by eapply rb_set_sorted.
  eapply wp_mono; [eapply (IH (before ++ [(p, k)]))|].
  - by rewrite <-app_assoc.
  - cbn in Hn. lia.
  - intros r s' [-> ->]. by rewrite <-app_assoc.
Qed.

Lemma wp_rb_walk_prev rest after acc s n :
  rb_set (reverse rest ++ after) s -> (length rest < n)%nat ->
  wp (loop n (fun '(x, acc) =>
        if negb (x =? NULL) then y ← RB_PREV x; mret (inl (y, acc ++ [x]))
        else mret (inr acc)) (ptr_of (head rest), acc))
    (fun r s' => s' = s /\ r = acc ++ rest.*1) s.
Proof.
  intros Hset. revert after acc Hset n. induction rest as [|e rest IH];
    intros after acc Hset n Hn; (destruct n as [|n]; [cbn in Hn; lia|]); cbn [loop].
  { by apply wp_ret, wp_ret; rewrite app_nil_r. }
  rewrite reverse_cons, <-app_assoc in Hset. cbn in Hset.
  assert (e ∈ reverse rest ++ e :: after) as He by set_solver. destruct e as [p k].
  change (ptr_of (head ((p, k) :: rest))) with p. cbn beta iota.
  rewrite (rb_set_ptr _ _ _ _ Hset He).
  apply wp_bind, wp_bind. eapply wp_mono; [by eapply wp_RB_PREV|]. intros y s' [-> ->].
  apply wp_ret. rewrite (os_prev_mid cmp _ p k after) by by eapply rb_set_sorted.
  replace (last (reverse rest)) with (head rest)
    by (destruct rest; [done|by rewrite reverse_cons, last_snoc]).
  eapply wp_mono; [eapply IH; [done|cbn in Hn; lia]|].
  intros r s' [-> ->]. by rewrite <-app_assoc.
Qed.

Lemma wp_RB_FOREACH es s :
  rb_set es s -> wp RB_FOREACH (fun r s' => s' = s /\ r = es.*1) s.
Proof.
  intros Hset. apply wp_bind. eapply wp_mono; [by apply wp_RB_MINMAX|].
  intros x s' [-> ->]. apply wp_bind, wp_rb_bound.
  apply (wp_rb_walk_next [] es []); [done|]. apply rb_set_size in Hset. lia.
Qed.

Lemma wp_RB_FOREACH_FROM before p k rest s :
  rb_set (before ++ (p, k) :: rest) s ->
  wp (RB_FOREACH_FROM p) (fun r s' => s' = s /\ r = p :: rest.*1) s.
Proof.
  intros Hset. apply wp_bind, wp_rb_bound.
  apply (wp_rb_walk_next before ((p, k) :: rest) []); [done|].
  apply rb_set_size in Hset. rewrite length_app in Hset. lia.
Qed.

Lemma wp_RB_FOREACH_REVERSE_FROM before p k rest s :
  rb_set (before ++ (p, k) :: rest) s ->
  wp (RB_FOREACH_REVERSE_FROM p) (fun r s' => s' = s /\ r = p :: reverse before.*1) s.
Proof.
  intros Hset. apply wp_bind, wp_rb_bound. eapply wp_mono.
  - apply (wp_rb_walk_prev ((p, k) :: reverse before) rest []).
    + by rewrite reverse_cons, reverse_involutive, <-app_assoc.
    + apply rb_set_size in Hset. rewrite length_app in Hset. cbn in *.
      rewrite length_reverse. lia.
  - intros r s' [-> ->]. split; [done|]. cbn. by rewrite fmap_reverse.
Qed.

(** [RB_FOREACH_SAFE] goes on although the body takes the current node out. *)
Lemma wp_RB_FOREACH_SAFE body es s :
  rb_set es s ->
  (forall p k rest s', rb_set ((p, k) :: rest) s' ->
     wp (body p) (fun _ s'' => rb_set rest s'') s') ->
  wp (RB_FOREACH_SAFE body) (fun _ s' => rb_set [] s') s.
Proof.
  intros Hset Hbody. apply wp_bind. eapply wp_mono; [by apply wp_RB_MINMAX|].
  intros x s' [-> ->]. apply wp_bind, wp_rb_bound.
  pose proof (rb_set_size _ _ Hset) as Hn.
  eapply (wp_loop _ (fun n x s' => exists rest, rb_set rest s' /\
    x = ptr_of (head rest) /\ length rest = n)) with (n := length es); [|eauto|lia].
  clear es s Hset Hn. intros n x s (es & Hset & -> & <-).
  destruct es as [|[p k] rest]; [by apply wp_ret|].
  assert ((p, k) ∈ (p, k) :: rest) as He by set_solver.
  change (ptr_of (head ((p, k) :: rest))) with p. cbn beta iota.
  rewrite (rb_set_ptr _ _ _ _ Hset He).
  apply wp_bind. eapply wp_mono; [by eapply wp_RB_NEXT|]. intros y s' [-> ->].
  apply wp_bind. eapply wp_mono; [by eapply Hbody|]. intros [] s' Hset'. apply wp_ret.
  exists (length rest). cbn. split; [lia|]. exists rest. split_and!; [done| |done].
  f_equal. by apply (os_next_mid cmp [] p k rest), rb_set_sorted with s.
Qed.
End Query.
