(* ===== verification/RBInsert.v ===== *)
(** [RB_INSERT]: the repair loop, the descent and the linking of the new node. *)

From stdpp Require Import base gmap list.
From Stdlib Require Import ZArith Lia.
From S2P Require Import Prelude OrdSet SplayTree RBTree RBRep RBSteps RBInv RBQuery.

Section InsertColor.
Context {K : Type} (X : list Z) (st0 : gmap Z (rbnode K)) (es : list (Z * K)).
Implicit Types (s : rbmem K) (k : K) (C : list (frame K)) (t : rbtree K).
Abbreviation zip := (zipped X st0 es).

(** A red node [elm] that may have a red parent; all else is as it must be. *)
Definition INSERT_inv (n : nat) (elm : Z) s : Prop :=
  exists C l k r m,
    zip C (N Red l elm k r) s /\ rb (N Red l elm k r) m /\ ctx_ok C m /\
    length C = n.

(** The result of a round of the loop. *)
Definition INSERT_less (n : nat) (elm : Z) s : Prop :=
  exists n', (n' < n)%nat /\ INSERT_inv n' elm s.

Lemma INSERT_less_intro C l elm k r m s n :
  zip C (N Red l elm k r) s -> rb (N Red l elm k r) m -> ctx_ok C m ->
  (length C < n)%nat -> INSERT_less n elm s.
Proof. intros. exists (length C). split; [done|]. by exists C, l, k, r, m. Qed.

Lemma wp_INSERT_COLOR_left C f l elm k r g kg u m s :
  zip (f :: LF Black g kg u :: C) (N Red l elm k r) s -> fcol f = Red ->
  rb (N Red l elm k r) m -> ctx_ok (f :: LF Black g kg u :: C) m ->
  wp (INSERT_COLOR_left elm (fptr f) g) (INSERT_less (S (S (length C)))) s.
Proof.
  intros Hz Hf Hrb HC. rezip Hz.
  destruct f as [cf p kp b|cf b p kp]; cbn in Hf; subst cf; cbn in HC, Hrb; destruct_and?;
    cbn [fill fptr] in *; rezip Hz; unfold INSERT_COLOR_left; zsteps;
    destruct (is_red u) eqn:Hu.
  1, 3: destruct u as [|[] ul up uk ur]; try discriminate; cbn [troot]; rezip Hz; zsteps;
    (eapply (INSERT_less_intro _ _ _ _ _ (S m)); [eassumption|cbn in *; destruct_and?; split_and!; done|done|lia]).
  - zsteps. rewrite (proj2 (Z.eqb_neq (troot b) elm))
      by (apply not_eq_sym, (zip_sib _ _ _ _ _ _ _ _ _ _ HzL); by left).
    zsteps. eapply (INSERT_less_intro _ _ _ _ _ m); [eassumption|done|cbn; split_and!; done|cbn; lia].
  - zsteps. rewrite Z.eqb_refl. zsteps.
    eapply (INSERT_less_intro _ _ _ _ _ m); [eassumption|done|cbn; split_and!; done|cbn; lia].
Qed.

Lemma wp_INSERT_COLOR_right C f l elm k r g kg u m s :
  zip (f :: RF Black u g kg :: C) (N Red l elm k r) s -> fcol f = Red ->
  rb (N Red l elm k r) m -> ctx_ok (f :: RF Black u g kg :: C) m ->
  wp (INSERT_COLOR_right elm (fptr f) g) (INSERT_less (S (S (length C)))) s.
Proof.
  intros Hz Hf Hrb HC. rezip Hz.
  destruct f as [cf p kp b|cf b p kp]; cbn in Hf; subst cf; cbn in HC, Hrb; destruct_and?;
    cbn [fill fptr] in *; rezip Hz; unfold INSERT_COLOR_right; zsteps;
    destruct (is_red u) eqn:Hu.
  1, 3: destruct u as [|[] ul up uk ur]; try discriminate; cbn [troot]; rezip Hz; zsteps;
    (eapply (INSERT_less_intro _ _ _ _ _ (S m)); [eassumption|cbn in *; destruct_and?; split_and!; done|done|lia]).
  - zsteps. rewrite Z.eqb_refl. zsteps.
    eapply (INSERT_less_intro _ _ _ _ _ m); [eassumption|done|cbn; split_and!; done|cbn; lia].
  - zsteps. rewrite (proj2 (Z.eqb_neq (troot b) elm))
      by (apply (zip_sib _ _ _ _ _ _ _ _ _ _ HzR); by right).
    zsteps. eapply (INSERT_less_intro _ _ _ _ _ m); [eassumption|done|cbn; split_and!; done|cbn; lia].
Qed.

(** The loop has ended: only the colour of the root may be wrong. *)
Definition INSERT_done s : Prop :=
  exists c l p k r m, zip [] (N c l p k r) s /\ rb (N Black l p k r) m.

Lemma INSERT_done_intro C l elm k r m s :
  zip C (N Red l elm k r) s -> rb (N Red l elm k r) m -> ctx_ok C m ->
  cblack C \/ C = [] -> INSERT_done s.
Proof.
  intros Hz Hrb HC HCb. destruct (rb_plug C _ m Hrb HC) as (m' & Hm' & _); [auto|].
  apply zip_top in Hz. destruct (rb_blacken _ _ Hm') as (m'' & Hm'').
  destruct (plug C (N Red l elm k r)) as [|c l' p' k' r'] eqn:E.
  { apply (f_equal inorder) in E. rewrite inorder_plug in E. cbn in E.
    by destruct (zl C), (inorder l). }
  by exists c, l', p', k', r', m''.
Qed.

Lemma wp_INSERT_COLOR_round n elm s :
  INSERT_inv n elm s ->
  wp (INSERT_COLOR_round elm) (fun res s' =>
    match res with inl elm' => INSERT_less n elm' s' | inr _ => INSERT_done s' end) s.
Proof.
  intros (C & l & k & r & m & Hz & Hrb & HC & <-).
  eapply wp_bind, wp_GETPARENT_z; [exact Hz|].
  destruct C as [|f C]; [by apply wp_ret; eapply INSERT_done_intro; auto|].
  cbn [ctop]. rewrite (proj2 (Z.eqb_neq (fptr f) NULL)) by by eapply zip_fptr.
  eapply wp_bind, wp_GETCOLOR_up; [exact Hz|]. destruct (fcol f) eqn:Hf; cbn [colZ].
  2: { apply wp_ret. eapply INSERT_done_intro; eauto. }
  pose proof HC as HC'. cbn in HC'. rewrite Hf in HC'. destruct HC' as (_ & _ & HCb & _).
  destruct C as [|g C]; [done|]. cbn in HCb.
  eapply wp_bind, wp_GETPARENT_up; [exact Hz|]. cbn [ctop].
  assert (zip (g :: C) (fill f (N Red l elm k r)) s) as Hg by by apply zip_fill.
  destruct g as [cg g kg u|cg u g kg]; cbn in HCb; subst cg; cbn [fptr];
    pose proof (proj2 (zip_fill _ _ _ _ _ _ _) Hg) as Hg'; cbn [fill] in Hg';
    (eapply wp_bind, wp_LEFT_z; [exact Hg'|]).
  - replace (troot (fill f _)) with (fptr f) by by destruct f. rewrite Z.eqb_refl.
    eapply wp_bind, wp_mono; [by eapply wp_INSERT_COLOR_left|]. intros e s' H.
    by apply wp_ret.
  - rewrite (proj2 (Z.eqb_neq (fptr f) (troot u))).
    + eapply wp_bind, wp_mono; [by eapply wp_INSERT_COLOR_right|]. intros e s' H.
      by apply wp_ret.
    + apply zip_sib in Hg'; [by destruct f; apply not_eq_sym|right; by destruct f].
Qed.

Lemma wp_RB_INSERT_COLOR n elm s :
  INSERT_inv n elm s -> (n < S (size (rb_store s)))%nat ->
  wp (RB_INSERT_COLOR elm) (fun _ s' =>
    exists t m, zip [] t s' /\ rb t m /\ is_red t = false) s.
Proof.
  intros HI Hn. apply wp_bind, wp_rb_bound, wp_bind.
  eapply wp_mono; [apply (wp_loop _ INSERT_inv (fun _ => INSERT_done)) with n|];
    [|done|done|].
  - intros n' e s' H. eapply wp_mono; [by apply wp_INSERT_COLOR_round|].
    by intros [e'|[]].
  - intros [] s' (c & l & p & k & r & m & Hz & Hm). apply wp_bind, wp_RB_ROOT.
    rewrite (fo_root _ _ _ (z_focus _ _ _ _ _ _ Hz)). cbn [croot troot].
    eapply (wp_SETCOLOR_z _ _ _ Black); [exact Hz|]. intros s'' Hz'.
    by exists (N Black l p k r), m.
Qed.
End InsertColor.

Section Insert.
Context {K : Type} (cmp : K -> K -> Z) `{!Comparator cmp}.
Implicit Types (s : rbmem K) (k : K) (C : list (frame K)) (t : rbtree K).

(** The last comparison tells the side of the new node. *)
Definition side C (comp : Z) : Prop :=
  match C with [] => True | LF _ _ _ _ :: _ => comp < 0 | RF _ _ _ _ :: _ => 0 < comp end.

Lemma wp_RB_INSERT_descend X es st0 elm k t s :
  zipped X st0 es [] t s -> sorted cmp es -> rb_key_at elm k s ->
  wp (RB_INSERT_descend cmp elm) (fun d s' => s' = s /\
    match d with
    | inl p => exists kp l1 l2, es = l1 ++ (p, kp) :: l2 /\ below cmp k l1 /\ cmp k kp = 0
    | inr (parent, comp) =>
        exists C, searching cmp X st0 es k C E s /\ plug C E = t /\
          parent = ctop C /\ side C comp
    end) s.
Proof.
  intros Hz Hs Hk. destruct (zip_bound _ _ _ _ _ _ Hz) as [_ Hn]. cbn in Hn.
  apply wp_bind, wp_RB_ROOT, wp_bind, wp_rb_bound.
  rewrite (fo_root _ _ _ (z_focus _ _ _ _ _ _ Hz)). cbn [croot].
  eapply (wp_loop _ (fun n x s' => s' = s /\ exists C t' comp,
    searching cmp X st0 es k C t' s /\ plug C t' = t /\ x = (troot t', ctop C, comp) /\
    side C comp /\ tsize t' = n)) with (n := tsize t); [|split; [done|]|done].
  - intros n x s' (-> & C & t' & comp & Hse & Ht & -> & Hside & <-).
    destruct t' as [|c l p kp r]; cbn [troot].
    { rewrite Z.eqb_refl. apply wp_ret. split; [done|]. by exists C. }
    pose proof Hse as (Hz' & _). rewrite (proj2 (Z.eqb_neq p NULL)) by by eapply zip_ptr.
    eapply wp_bind, wp_cmp_z; [done..|].
    destruct (Z.ltb_spec (cmp k kp) 0); [|destruct (Z.ltb_spec 0 (cmp k kp))].
    + eapply wp_bind, wp_LEFT_z; [done|]. apply wp_ret. exists (tsize l).
      cbn. split; [lia|]. split; [done|]. exists (LF c p kp r :: C), l, (cmp k kp).
      split; [by eapply searching_left|done].
    + eapply wp_bind, wp_RIGHT_z; [done|]. apply wp_ret. exists (tsize r).
      cbn. split; [lia|]. split; [done|]. exists (RF c l p kp :: C), r, (cmp k kp).
      split; [by eapply searching_right|done].
    + apply wp_ret. split; [done|]. assert (cmp k kp = 0) as Hk0 by lia.
      destruct (searching_found _ _ _ _ _ Hs _ _ _ _ _ _ _ Hse Hk0) as (-> & Hb).
      by eexists kp, _, _.
  - exists [], t, 0. split; [by apply searching_top|done].
Qed.

(** The new node is written and linked below its parent. *)
Lemma wp_link_new X st0 es C comp elm k s (Q : unit -> rbmem K -> Prop) :
  zipped X st0 es C E s -> side C comp -> rb_key_at elm k s -> ptr_ok elm ->
  elm ∉ es.*1 -> elm ∈ X ->
  (forall s', zipped X st0 (zl C ++ (elm, k) :: zr C) C (N Red E elm k E) s' -> Q tt s') ->
  wp (RB_SET elm (ctop C);;
      if negb (ctop C =? NULL) then
        (if comp <? 0 then set_RB_LEFT (ctop C) elm else set_RB_RIGHT (ctop C) elm);;
        RB_AUGMENT (ctop C)
      else set_RB_ROOT elm) Q s.
Proof.
  intros [[Hroot HC _ Hnd] Hes Hev Hsub] Hside [He0 He] Hpe Hnot HX HQ.
  apply fmap_Some in He as (n & Hn & ->).
  assert (par_ok (ctop C)) as Hpar by by eapply par_ok_ctop.
  cbn in Hes, Hnd. rewrite <-Hes in Hnot. autorewrite with parts in Hnot. destruct Hnot.
  apply wp_bind, wp_bind. eapply wp_SETPARENT_fresh; [done..|]. intros c.
  eapply wp_bind, wp_set_RB_RIGHT; [done|look|].
  eapply wp_bind, wp_set_RB_LEFT; [done|look|].
  eapply (wp_SETCOLOR _ _ _ (ctop C) c Red); [done|look|done|].
  cbn [rb_store rbh_root]. rewrite !insert_insert_eq.
  set (st := <[elm := _]> (rb_store s)).
  assert (evolves X st0 st) as Hev' by by eapply rb_evolves_insert.
  assert (repC st NULL C) as HC' by by apply repC_insert.
  assert (st !! elm = Some (mk NULL NULL (ctop C) Red (rb_key n))) as Hst
    by apply lookup_insert_eq.
  assert (forall st', repC st' elm C -> evolves X st0 st' ->
    st' !! elm = Some (mk NULL NULL (ctop C) Red (rb_key n)) ->
    Q tt (RbMem (croot elm C) st')) as HQ'.
  { intros st' HCs Hevs Hsts. apply HQ. split; [split| | |]; cbn [rb_store rbh_root troot].
    - done.
    - done.
    - cbn. by split_and!.
    - cbn. parts_in Hnd. autorewrite with parts. cbn. split_and!; notin || done.
    - done.
    - done.
    - rewrite <-Hes in Hsub. revert Hsub HX. clear. autorewrite with parts. set_solver. }
  destruct C as [|f C]; [by apply wp_set_RB_ROOT, HQ'|].
  destruct (repC_relink _ _ elm _ _ HC' Hnd) as (m & Hm & Hf & Hrel).
  assert (fptr f ∈ X) as HfX.
  { apply Hsub. rewrite <-Hes. destruct f; isin. }
  assert (elm <> fptr f) by (intros ->; destruct f; [apply H0|apply H]; isin).
  cbn [ctop]. rewrite (proj2 (Z.eqb_neq (fptr f) NULL)) by done. cbn [negb].
  apply wp_bind. destruct f as [cf pf kf rf|cf lf pf kf]; cbn [side fptr] in *;
    destruct Hrel as [-> Hrel].
  - rewrite (proj2 (Z.ltb_lt comp 0)) by done. eapply wp_set_RB_LEFT; [done..|].
    apply wp_ret. rewrite Hroot. apply HQ'; [done|by eapply rb_evolves_insert|by look].
  - rewrite (proj2 (Z.ltb_ge comp 0)) by lia. eapply wp_set_RB_RIGHT; [done..|].
    apply wp_ret. rewrite Hroot. apply HQ'; [done|by eapply rb_evolves_insert|by look].
Qed.

Lemma wp_RB_INSERT es elm k s :
  rb_set cmp es s -> rb_key_at elm k s -> ptr_ok elm -> elm ∉ es.*1 ->
  wp (RB_INSERT cmp elm) (fun r s' =>
    r = ptr_of (os_find cmp k es) /\ rb_set cmp (os_insert cmp (elm, k) es) s' /\
    evolves (elm :: es.*1) (rb_store s) (rb_store s')) s.
Proof.
  intros Hset Hk Hpe Hnot.
  destruct (rb_set_zip _ (elm :: es.*1) es s Hset) as (t & n & Hz & Hrb & Hr & _ & Hs);
    [set_solver|].
  apply wp_bind. eapply wp_mono; [by eapply wp_RB_INSERT_descend|].
  intros [p|[parent comp]] s' [-> Hd].
  - destruct Hd as (kp & l1 & l2 & -> & Hb & Hk0). apply wp_ret.
    rewrite os_find_split, os_insert_present by done. done.
  - destruct Hd as (C & Hse & <- & -> & Hside).
    destruct (searching_E _ _ _ _ _ Hs _ _ Hse) as (Hes & Hb & Ha). destruct Hse as (HzE & _).
    destruct (rb_unplug C E n Hrb Hr) as (m & Hm & HC & _). cbn in Hm. subst m.
    rewrite Hes, os_find_none, os_insert_split by done.
    apply wp_assoc, wp_bind. eapply wp_link_new; [done..|set_solver|].
    intros s1 Hz1. apply wp_bind. eapply wp_mono.
    + eapply (wp_RB_INSERT_COLOR _ _ _ (length C)); [|apply (zip_bound _ _ _ _ _ _ Hz1)].
      by exists C, E, k, E, O.
    + intros [] s2 (t & m & Hz2 & Hm & Hrt). apply wp_ret. split_and!; [done| |].
      * eapply zip_rb_set; [done..|]. rewrite <-(os_insert_split cmp (elm, k)) by done.
        rewrite <-Hes. by apply os_insert_sorted.
      * rewrite <-Hes. apply Hz2.
Qed.
End Insert.
