(* ===== verification/RBRemove.v ===== *)
(** [RB_REMOVE]: the repair loop after the removal of a black node, the removal of
    a node with one child and of a node with two. *)

From stdpp Require Import base gmap list.
From Stdlib Require Import ZArith Lia.
From S2P Require Import Prelude OrdSet SplayTree RBTree RBRep RBSteps RBInv RBQuery.

Section RemoveColor.
Context {K : Type} (X : list Z) (st0 : gmap Z (rbnode K)) (es : list (Z * K)).
Implicit Types (s : rbmem K) (k : K) (C : list (frame K)) (t : rbtree K).
Abbreviation zip := (zipped X st0 es).

(** [t] lacks one black node on its paths, unless its root is red: then the
    colour of the root makes up for it. *)
Definition pending t (m : nat) : Prop :=
  if is_red t then rb (blacken t) (S m) else rb t m.

Definition REMOVE_inv (n : nat) (pe : Z * Z) s : Prop :=
  exists C t m,
    zip C t s /\ pe = (ctop C, troot t) /\ pending t m /\ ctx_ok C (S m) /\
    n = if is_red t then O else length C.

(** The loop has ended with [elm], which has to become black. *)
Definition REMOVE_done (elm : Z) s : Prop :=
  exists C t m, zip C t s /\ elm = troot t /\ rb (blacken t) m /\ ctx_ok C m.

Definition REMOVE_post (n : nat) (r : (Z * Z) + Z) s : Prop :=
  match r with
  | inl pe => exists n', (n' < n)%nat /\ REMOVE_inv n' pe s
  | inr elm => REMOVE_done elm s
  end.

(** What the context of the parent with the colour [c] wants. *)
Definition ctx_under (c : colour) C (m : nat) : Prop :=
  match c with Red => cblack C /\ ctx_ok C m | Black => ctx_ok C (S m) end.

Lemma REMOVE_done_root C c l p k r m s :
  zip C (N c l p k r) s -> rb l m -> rb r m -> is_red l = false -> is_red r = false ->
  ctx_under c C m -> REMOVE_done (rbh_root s) s.
Proof.
  intros Hz Hl Hr Hlr Hrr HC.
  assert (exists n, rb (N c l p k r) n /\ ctx_ok C n /\
    (is_red (N c l p k r) = false \/ cblack C \/ C = [])) as (n & Hrb & HC' & Hc).
  { destruct c; cbn in *; [exists m|exists (S m)]; naive_solver. }
  destruct (rb_plug C _ n Hrb HC' Hc) as (m' & Hm' & _).
  destruct (rb_blacken _ _ Hm') as (m'' & Hm''). apply zip_top in Hz.
  exists [], (plug C (N c l p k r)), m''.
  split_and!; [done|apply (fo_root _ _ _ (z_focus _ _ _ _ _ _ Hz))|done..].
Qed.

Lemma REMOVE_up C c l p k r m n s :
  zip C (N c l p k r) s -> rb l m -> rb r m ->
  ctx_under c C (S m) -> (length C < n)%nat \/ c = Red /\ (0 < n)%nat ->
  REMOVE_post n (inl (ctop C, p)) s.
Proof.
  intros Hz Hl Hr HC Hn. destruct c.
  - exists O. split; [lia|]. destruct HC as [_ HC].
    exists C, (N Red l p k r), m. by split_and!.
  - exists (length C). split; [naive_solver|].
    exists C, (N Black l p k r), (S m). by split_and!.
Qed.

Lemma wp_REMOVE_COLOR_left_black C c t p k a q kq b m n s :
  zip C (N c t p k (N Black a q kq b)) s -> rb t m -> rb a m -> rb b m ->
  is_red t = false -> ctx_under c C (S m) ->
  (length C < n)%nat \/ c = Red /\ (0 < n)%nat ->
  wp (REMOVE_COLOR_left_black p q) (REMOVE_post n) s.
Proof.
  intros Hz Ht Ha Hb Htr HC Hn.
  destruct (is_red b) eqn:Hbr; [destruct b as [|[] bl bp bk br]; try discriminate|];
    (destruct (is_red a) eqn:Har; [destruct a as [|[] al ap ak ar]; try discriminate|]);
    cbn in Ha, Hb; destruct_and?; rezip Hz; unfold REMOVE_COLOR_left_black;
    repeat (zsteps; rewrite ?Har, ?Hbr; cbn [negb]).
  4: by eapply REMOVE_up.
  all: apply wp_RB_ROOT, wp_ret;
    match goal with H : zipped _ _ _ _ _ _ |- _ =>
      by eapply (REMOVE_done_root _ _ _ _ _ _ (S m)); [exact H|..] end.
Qed.

Lemma wp_REMOVE_COLOR_right_black C c t p k a q kq b m n s :
  zip C (N c (N Black a q kq b) p k t) s -> rb t m -> rb a m -> rb b m ->
  is_red t = false -> ctx_under c C (S m) ->
  (length C < n)%nat \/ c = Red /\ (0 < n)%nat ->
  wp (REMOVE_COLOR_right_black p q) (REMOVE_post n) s.
Proof.
  intros Hz Ht Ha Hb Htr HC Hn.
  destruct (is_red b) eqn:Hbr; [destruct b as [|[] bl bp bk br]; try discriminate|];
    (destruct (is_red a) eqn:Har; [destruct a as [|[] al ap ak ar]; try discriminate|]);
    cbn in Ha, Hb; destruct_and?; rezip Hz; unfold REMOVE_COLOR_right_black;
    repeat (zsteps; rewrite ?Har, ?Hbr; cbn [negb]).
  4: by eapply REMOVE_up.
  all: apply wp_RB_ROOT, wp_ret;
    match goal with H : zipped _ _ _ _ _ _ |- _ =>
      by eapply (REMOVE_done_root _ _ _ _ _ _ (S m)); [exact H|..] end.
Qed.

Lemma wp_REMOVE_COLOR_left C c p k sib t m n s :
  zip (LF c p k sib :: C) t s -> rb t m -> is_red t = false ->
  ctx_ok (LF c p k sib :: C) (S m) -> (length C < n)%nat ->
  wp (REMOVE_COLOR_left p) (REMOVE_post n) s.
Proof.
  intros Hz Ht Htr [Hsib HC] Hn. cbn [fsib fcol] in *. rezip Hz.
  unfold REMOVE_COLOR_left.
  destruct sib as [|[] a q kq b]; [done|..]; rezip Hz; zsteps; cbn [colZ Z.eqb Pos.eqb RB_RED RB_BLACK].
  - destruct c; [by destruct HC|]. zsteps. destruct Hsib as (Har & Hbr & Ha & Hb).
    destruct a as [|[] a1 qa ka a2]; [done..|]. destruct Ha as [Ha1 Ha2].
    eapply wp_REMOVE_COLOR_left_black; [exact HzL|done..| |by right; split; [|lia]].
    cbn. by split_and!.
  - destruct Hsib as [Ha Hb]. eapply wp_REMOVE_COLOR_left_black; [exact Hz|done..| |by left].
    destruct c; naive_solver.
Qed.

Lemma wp_REMOVE_COLOR_right C c p k sib t m n s :
  zip (RF c sib p k :: C) t s -> rb t m -> is_red t = false ->
  ctx_ok (RF c sib p k :: C) (S m) -> (length C < n)%nat ->
  wp (REMOVE_COLOR_right p) (REMOVE_post n) s.
Proof.
  intros Hz Ht Htr [Hsib HC] Hn. cbn [fsib fcol] in *. rezip Hz.
  unfold REMOVE_COLOR_right.
  destruct sib as [|[] a q kq b]; [done|..]; rezip Hz; zsteps; cbn [colZ Z.eqb Pos.eqb RB_RED RB_BLACK].
  - destruct c; [by destruct HC|]. zsteps. destruct Hsib as (Har & Hbr & Ha & Hb).
    destruct b as [|[] a1 qa ka a2]; [done..|]. destruct Hb as [Ha1 Ha2].
    eapply wp_REMOVE_COLOR_right_black; [exact HzR|done..| |by right; split; [|lia]].
    cbn. by split_and!.
  - destruct Hsib as [Ha Hb]. eapply wp_REMOVE_COLOR_right_black; [exact Hz|done..| |by left].
    destruct c; naive_solver.
Qed.

Lemma wp_REMOVE_COLOR_round n pe s :
  REMOVE_inv n pe s -> wp (REMOVE_COLOR_round pe) (REMOVE_post n) s.
Proof.
  intros (C & t & m & Hz & -> & Ht & HC & ->). unfold REMOVE_COLOR_round.
  apply wp_bind. eapply wp_rb_is_black_z; [exact Hz|]. apply wp_bind, wp_RB_ROOT.
  destruct (is_red t) eqn:Htr; unfold pending in Ht; rewrite Htr in Ht; cbn [negb andb].
  { apply wp_ret. by exists C, t, (S m). }
  destruct C as [|f C].
  { rewrite (fo_root _ _ _ (z_focus _ _ _ _ _ _ Hz)). cbn [croot].
    rewrite Z.eqb_refl. apply wp_ret. destruct (rb_blacken _ _ Ht) as (m' & Hm').
    by exists [], t, m'. }
  pose proof (zip_root _ _ _ _ _ _ _ Hz) as Hroot.
  rewrite (proj2 (Z.eqb_neq (troot t) (rbh_root s))) by done. cbn [negb ctop].
  apply zip_fill in Hz as Hf. destruct f as [c p k sib|c sib p k]; cbn [fill fptr] in *;
    (eapply wp_bind, wp_LEFT_z; [exact Hf|]).
  - rewrite Z.eqb_refl. eapply wp_REMOVE_COLOR_left; [done..|cbn; lia].
  - rewrite (proj2 (Z.eqb_neq (troot sib) (troot t))).
    + eapply wp_REMOVE_COLOR_right; [done..|cbn; lia].
    + eapply zip_sib; [exact Hf|]. left. intros ->. by destruct HC.
Qed.

Lemma wp_RB_REMOVE_COLOR C t m s :
  zip C t s -> pending t m -> ctx_ok C (S m) ->
  wp (RB_REMOVE_COLOR (ctop C) (troot t)) (fun _ s' =>
    exists t' n, zip [] t' s' /\ rb t' n /\ is_red t' = false) s.
Proof.
  intros Hz Ht HC. destruct (zip_bound _ _ _ _ _ _ Hz) as [Hn _].
  apply wp_bind, wp_rb_bound, wp_bind. eapply wp_mono.
  - apply (wp_loop _ REMOVE_inv REMOVE_done) with (if is_red t then O else length C).
    + apply wp_REMOVE_COLOR_round.
    + by exists C, t, m.
    + destruct (is_red t); lia.
  - intros elm s' (C' & t' & m' & Hz' & -> & Hm' & HC').
    destruct (rb_plug C' _ m' Hm' HC') as (n & Hrb & Hr); [left; apply is_red_blacken|].
    assert (is_red (plug C' (blacken t')) = false) as Hr'.
    { rewrite Hr. destruct C'; [apply is_red_blacken|done]. }
    destruct t' as [|c l p k r]; cbn [troot].
    + apply wp_ret. exists (plug C' E), n. by split; [apply zip_top|].
    + zsteps.
      exists (plug C' (N Black l p k r)), n. by split; [apply zip_top|].
Qed.
End RemoveColor.

Section Remove.
Context {K : Type}.
Implicit Types (s : rbmem K) (k : K) (C : list (frame K)) (t : rbtree K).

(** The node [elm] with at most one child is taken out, its child [t] put in its
    place. The node keeps its contents. *)
Lemma wp_unlink X st0 es C c l elm k r t s (Q : unit -> rbmem K -> Prop) :
  zipped X st0 es C (N c l elm k r) s -> l = E /\ t = r \/ r = E /\ t = l ->
  (forall s', zipped X st0 (zl C ++ inorder t ++ zr C) C t s' ->
     rb_store s' !! elm = Some (mk (troot l) (troot r) (ctop C) c k) -> Q tt s') ->
  wp ((if negb (troot t =? NULL) then RB_SETPARENT (troot t) (ctop C);; mret tt
       else mret tt);;
      rb_set_child (ctop C) elm (troot t)) Q s.
Proof.
  intros Hz Ht HQ. destruct (zip_node _ _ _ _ _ _ _ _ _ _ Hz) as (Hp & Hp0 & Hpar & Hn).
  destruct Hz as [[Hroot HC (_ & _ & Hl & Hr) Hnd] Hes Hev Hsub]. cbn in Hes, Hnd.
  assert (rep (rb_store s) elm t /\ zl C ++ inorder t ++ zr C ⊆ es /\
    NoDup ((elm, k) :: zl C ++ inorder t ++ zr C).*1) as (Hrt & Hsub' & Hnd').
  { destruct Ht as [[-> ->]|[-> ->]]; (split; [done|]); (split; [rewrite <-Hes; cbn; set_solver|]);
      parts_in Hnd; cbn; autorewrite with parts; split_and!; notin. }
  assert (par_ok elm) by by right. clear Ht Hnd. cbn in Hnd'. pose proof Hnd' as Hnd.
  parts_in Hnd.
  assert (NoDup (zl C ++ zr C).*1) by (autorewrite with parts; by split_and!).
  apply wp_bind, (wp_adopt elm (ctop C) t); [done..|].
  intros st1 Ht1 Hev1. cbn [troot] in *.
  apply wp_set_child; [done|done|keep|done|notin|]. cbn [rb_store rbh_root].
  intros root st2 -> HC2 Hev2. apply HQ; [|by look].
  assert (forall Y, Y ⊆ zl C ++ inorder t ++ zr C -> Y.*1 ⊆ X) as HX.
  { intros Y HY. transitivity es.*1; [|done]. intros x (e & -> & He)%list_elem_of_fmap.
    apply list_elem_of_fmap_2. by apply Hsub', HY. }
  split; [split| | |]; cbn [rb_store rbh_root]; [done|done|keep|by apply NoDup_cons in Hnd' as [_ ?]|done| |by apply HX].
  eapply rb_evolves_trans; [exact Hev|]. eapply rb_evolves_trans;
    (eapply rb_evolves_weaken; [|done]); apply HX; set_solver.
Qed.

Lemma wp_replace X st0 es C c l old k r e n s (Q : unit -> rbmem K -> Prop) :
  zipped X st0 es C (N c l old k r) s -> l <> E ->
  rb_store s !! e = Some n -> ptr_ok e -> e ∉ es.*1 -> e ∈ X ->
  (forall s', zipped X st0 (zl C ++ inorder (N c l e (rb_key n) r) ++ zr C)
     C (N c l e (rb_key n) r) s' -> Q tt s') ->
  wp (RB_REMOVE_replace old e) Q s.
Proof.
  intros Hz Hl0 He Hpe Hnot HeX HQ.
  destruct (zip_node _ _ _ _ _ _ _ _ _ _ Hz) as (Hp & Hp0 & Hpar & Hn).
  destruct Hz as [[Hroot HC (_ & _ & Hl & Hr) Hnd] Hes Hev Hsub]. cbn in Hes, Hnd, Hroot, HC.
  rewrite <-Hes in Hnot. autorewrite with parts in Hnot. cbn in Hnot.
  autorewrite with parts in Hnot. destruct_and? Hnot. parts_in Hnd.
  assert (par_ok old /\ par_ok e) as [Ho He'] by (split; by right).
  assert (e <> NULL) by by apply ptr_ok_nonnull.
  assert (NoDup (zl C ++ zr C).*1) by (autorewrite with parts; by split_and!).
  assert (forall Y, Y ⊆ zl C ++ (inorder l ++ (old, k) :: inorder r) ++ zr C -> Y.*1 ⊆ X) as HX.
  { intros Y HY. transitivity es.*1; [|done]. intros x (a & -> & Ha)%list_elem_of_fmap.
    apply list_elem_of_fmap_2. rewrite <-Hes. by apply HY. }
  eapply wp_bind, wp_rb_load; [done..|]. eapply wp_bind, wp_rb_modify; [done..|].
  change (set_rb_entry _ n) with (mk (troot l) (troot r) (ctop C) c (rb_key n)).
  apply wp_bind. eapply wp_replace_old; [done|look|done|keep|done|notin|].
  cbn [rb_store rbh_root]. intros root st2 -> HC2 Hev2.
  eapply wp_bind, wp_RB_LEFT; [done|look|]. cbn [rbe_left mk].
  eapply wp_bind, (wp_reparent old); [keep|done..|]. intros st3 Hl3 Hev3.
  eapply wp_bind, wp_RB_RIGHT; [done|look|]. cbn [rbe_right mk].
  apply wp_read_adopt; [intros Q' HQ'; eapply wp_RB_RIGHT; [done|look|done]|].
  apply (wp_adopt old e r); [keep|done..|]. intros st4 Hr4 Hev4. cbn [rb_store rbh_root] in *.
  apply HQ. split; [split| | |]; cbn [rb_store rbh_root].
  - done.
  - keep.
  - cbn. split_and!; [done|look|keep|keep].
  - cbn. autorewrite with parts. cbn. autorewrite with parts. split_and!; notin.
  - done.
  - evolve; apply HX; set_solver.
  - cbn. rewrite !fmap_app. cbn. pose proof (HX _ (reflexivity _)) as Hall. revert Hall HeX.
    autorewrite with parts. cbn. clear. set_solver.
Qed.

(** The walk from the parent to the root; it only calls [RB_AUGMENT]. *)
Lemma wp_RB_REMOVE_augment X st0 es C t s :
  zipped X st0 es C t s -> C <> [] ->
  wp (RB_REMOVE_augment (ctop C)) (fun _ s' => s' = s) s.
Proof.
  intros Hz HC0. destruct (zip_bound _ _ _ _ _ _ Hz) as [Hn _].
  apply wp_bind, wp_rb_bound.
  eapply (wp_loop _ (fun n x s' => s' = s /\ exists f C t, zipped X st0 es (f :: C) t s /\
    x = fptr f /\ S (length C) = n)) with (n := length C); [| |done].
  - clear C t Hz HC0 Hn. intros n x s' (-> & f & C & t & Hz & -> & <-).
    eapply wp_bind, wp_ret, wp_bind, wp_GETPARENT_up; [exact Hz|]. apply wp_ret.
    destruct C as [|g C]; [done|]. cbn [ctop].
    assert (zipped X st0 es (g :: C) (fill f t) s) as Hg by by apply zip_fill.
    rewrite (proj2 (Z.eqb_neq (fptr g) NULL)) by by eapply zip_fptr. cbn [negb].
    exists (S (length C)). split; [cbn; lia|]. split; [done|]. by exists g, C, (fill f t).
  - destruct C as [|f C]; [done|]. split; [done|]. by exists f, C, t.
Qed.

(** What is left to repair after a node of the colour [c] was taken out. *)
Definition after_removal (c : colour) C t (m : nat) : Prop :=
  match c with
  | Red => rb t m /\ is_red t = false /\ ctx_ok C m
  | Black => pending t m /\ ctx_ok C (S m)
  end.

Lemma after_removal_intro c l p k r t C n :
  rb (N c l p k r) n -> ctx_ok C n -> l = E /\ t = r \/ r = E /\ t = l ->
  exists m, after_removal c C t m.
Proof.
  intros Hrb HC Ht. destruct c; cbn in Hrb.
  - exists n. naive_solver.
  - destruct n as [|m]; [done|]. exists m. split; [|done].
    assert (rb t m) as Ht' by naive_solver. unfold pending.
    destruct t as [|[] ? ? ? ?]; cbn in *; naive_solver.
Qed.

Lemma wp_fixup X st0 es c C t m s :
  zipped X st0 es C t s -> after_removal c C t m ->
  wp (if colZ c =? RB_BLACK then RB_REMOVE_COLOR (ctop C) (troot t) else mret tt)
    (fun _ s' => exists t' n, zipped X st0 es [] t' s' /\ rb t' n /\ is_red t' = false) s.
Proof.
  intros Hz Hc. destruct c; cbn [colZ RB_RED RB_BLACK Z.eqb].
  - apply wp_ret. destruct Hc as (Hrb & Hr & HC).
    destruct (rb_plug C t m Hrb HC) as (n & Hn & Hr'); [auto|].
    exists (plug C t), n. split_and!; [by apply zip_top|done|]. rewrite Hr'. by destruct C.
  - destruct Hc. by eapply wp_RB_REMOVE_COLOR.
Qed.

Lemma wp_RB_REMOVE_one X st0 es C c l elm k r t n s :
  zipped X st0 es C (N c l elm k r) s -> l = E /\ t = r \/ r = E /\ t = l ->
  rb (N c l elm k r) n -> ctx_ok C n ->
  wp (RB_REMOVE_one elm (troot t)) (fun cpc s' => exists c' C' t' m,
    cpc = (colZ c', ctop C', troot t') /\ after_removal c' C' t' m /\
    zipped X st0 (zl C ++ inorder t ++ zr C) C' t' s') s.
Proof.
  intros Hz Ht Hrb HC. destruct (after_removal_intro _ _ _ _ _ _ _ _ Hrb HC Ht) as [m Hm].
  eapply wp_bind, wp_GETPARENT_z; [exact Hz|].
  eapply wp_bind, wp_GETCOLOR_z; [exact Hz|].
  apply wp_bind. eapply wp_unlink; [exact Hz|exact Ht|]. intros s' Hz' _.
  apply wp_ret. by exists c, C, t, m.
Qed.

(** The invariant of a context does not depend on the nodes in it. *)
Lemma ctx_ok_node D c l p k p' k' C n :
  ctx_ok (D ++ RF c l p k :: C) n -> ctx_ok (D ++ RF c l p' k' :: C) n.
Proof.
  revert n. induction D as [|f D IH]; intros n; [done|]. cbn. intros [Hs Hf].
  split; [done|]. destruct (fcol f); [|by apply IH].
  destruct Hf as (? & ? & ?). split_and!; [done| |by apply IH]. by destruct D.
Qed.

Lemma after_removal_node D ce c l p k p' k' C t m :
  after_removal ce (D ++ RF c l p k :: C) t m ->
  after_removal ce (D ++ RF c l p' k' :: C) t m.
Proof. destruct ce; cbn; [intros (?&?&?)|intros (?&?)]; eauto using ctx_ok_node. Qed.

(** The parent the code computes is the one in the tree that results. *)
Lemma zip_two_parent X st0 es D c l old k e ke C t s :
  zipped X st0 es (D ++ RF c l old k :: C) t s ->
  (if ctop (D ++ RF c l old k :: C) =? old then e
   else ctop (D ++ RF c l old k :: C)) = ctop (D ++ RF c l e ke :: C).
Proof.
  intros [[_ _ _ Hnd] _ _ _]. destruct D as [|f D]; [by cbn; rewrite Z.eqb_refl|].
  cbn [app ctop]. rewrite (proj2 (Z.eqb_neq (fptr f) old)); [done|]. intros Hf.
  assert (fptr f ∈ (zl (f :: D) ++ zr (f :: D)).*1) as Hin by (destruct f; isin).
  rewrite zl_app, zr_app in Hnd. revert Hin Hnd. rewrite Hf.
  generalize (zl (f :: D)), (zr (f :: D)). intros A B Hin Hnd. cbn [zl zr] in Hnd.
  rewrite fmap_app, elem_of_app in Hin. parts_in Hnd. destruct Hin; congruence.
Qed.

Lemma wp_RB_REMOVE_two X st0 es C c l old k r n s :
  zipped X st0 es C (N c l old k r) s -> l <> E -> r <> E ->
  rb (plug C (N c l old k r)) n -> is_red (plug C (N c l old k r)) = false ->
  wp (RB_REMOVE_two old) (fun cpc s' => exists c' C' t' m,
    cpc = (colZ c', ctop C', troot t') /\ after_removal c' C' t' m /\
    zipped X st0 (zl C ++ (inorder l ++ inorder r) ++ zr C) C' t' s') s.
Proof.
  intros Hz Hl0 Hr0 Hrb Hred. eapply wp_bind, wp_RIGHT_z; [exact Hz|].
  pose proof (proj1 (zip_right _ _ _ _ _ _ _ _ _ _) Hz) as Hzr.
  apply wp_bind, wp_bind, wp_rb_bound. destruct (zip_bound _ _ _ _ _ _ Hzr) as [_ Hn].
  eapply wp_mono; [eapply wp_rb_leftmost; [exact Hzr|done|lia]|].
  intros e s' (-> & D & ce & ke & re & <- & HD). clear Hn.
  apply zip_plug in Hzr.
  eapply wp_bind, wp_RIGHT_z; [exact Hzr|]. eapply wp_bind, wp_GETPARENT_z; [exact Hzr|].
  eapply wp_bind, wp_GETCOLOR_z; [exact Hzr|].
  destruct (rb_unplug (D ++ RF c l old k :: C) (N ce E e ke re) n) as (m & Hm & HCm & _);
    [by rewrite plug_app|by rewrite plug_app|].
  destruct (after_removal_intro _ _ _ _ _ re _ _ Hm HCm) as [m' Ha]; [auto|].
  assert (e ∈ X /\ NoDup es.*1) as [HeX Hnd].
  { split; [|by eapply zip_nodup]. destruct Hzr as [_ Hes _ Hsub]. apply Hsub.
    rewrite <-Hes. isin. }
  assert (ptr_ok e) as Hpe by by eapply zip_node.
  apply wp_bind. eapply wp_unlink; [exact Hzr|by left|]. intros s1 Hz1 He1.
  assert (e ∉ (zl (D ++ RF c l old k :: C) ++ inorder re ++ zr (D ++ RF c l old k :: C)).*1) as Hnot.
  { destruct Hzr as [_ Hes _ _]. rewrite <-Hes in Hnd.
    revert Hnd. generalize (zl (D ++ RF c l old k :: C)), (zr (D ++ RF c l old k :: C)).
    intros A B Hnd. parts_in Hnd. notin. }
  eapply wp_bind, wp_GETPARENT; [by apply ptr_ok_nonnull|exact He1|by eapply zip_node|].
  rewrite (zip_two_parent _ _ _ _ _ _ _ _ e ke _ _ _ Hz1).
  apply zip_plug, zip_right in Hz1. apply wp_bind.
  eapply wp_replace; [exact Hz1|done|exact He1|done|exact Hnot|done|]. cbn [rb_key mk].
  intros s2 Hz2. pose proof (proj1 (zip_right _ _ _ _ _ _ _ _ _ _) Hz2) as Hz2'.
  apply zip_plug in Hz2'.
  assert (ctop (D ++ RF c l e ke :: C) <> NULL) as Hc.
  { destruct D as [|f D]; cbn [app ctop]; by eapply zip_fptr. }
  rewrite (proj2 (Z.eqb_neq _ _) Hc). cbn [negb]. apply wp_bind.
  eapply wp_mono; [eapply wp_RB_REMOVE_augment; [exact Hz2'|by destruct D]|].
  intros [] s3 ->. apply wp_ret.
  exists ce, (D ++ RF c l e ke :: C), re, m'. split; [done|].
  split; [by eapply after_removal_node|]. revert Hz2'.
  cbn [inorder]. rewrite !inorder_plug, HD. cbn. by app_norm.
Qed.
End Remove.

Section RemoveSet.
Context {K : Type} (cmp : K -> K -> Z) `{!Comparator cmp}.

Lemma wp_RB_REMOVE es elm k (s : rbmem K) :
  rb_set cmp es s -> (elm, k) ∈ es ->
  wp (RB_REMOVE elm) (fun r s' =>
    r = elm /\ rb_set cmp (os_remove cmp k es) s' /\
    evolves es.*1 (rb_store s) (rb_store s')) s.
Proof.
  intros Hset He.
  destruct (rb_set_zip cmp es.*1 es s Hset) as (t & n & Hz0 & Hrb & Hr & _ & Hs); [done|].
  destruct (zip_at _ _ _ _ _ _ Hz0 He) as (C & c & l & r & Hz & <-). clear Hz0 He.
  cbn [fst snd] in *. destruct (rb_unplug C _ n Hrb Hr) as (m & Hm & HC & _).
  assert (os_remove cmp k es = zl C ++ (inorder l ++ inorder r) ++ zr C) as ->.
  { destruct Hz as [_ <- _ _]. revert Hs. cbn. rewrite <-!app_assoc, app_assoc. cbn.
    intros Hs. rewrite os_remove_mid by done. by rewrite <-app_assoc. }
  assert (sorted cmp (zl C ++ (inorder l ++ inorder r) ++ zr C)) as Hs'.
  { rewrite <-(proj1 (conj (z_es _ _ _ _ _ _ Hz) I)) in Hs. revert Hs. cbn.
    rewrite <-!app_assoc, app_assoc, (app_assoc (zl C)). cbn.
    intros (? & ? & ? & ?)%sorted_mid; [|done]. by eapply sorted_join. }
  eapply wp_bind, wp_LEFT_z; [exact Hz|]. apply wp_bind.
  eapply (wp_mono _ (fun cpc s' => exists c' C' t' m',
    cpc = (colZ c', ctop C', troot t') /\ after_removal c' C' t' m' /\
    zipped es.*1 (rb_store s) (zl C ++ (inorder l ++ inorder r) ++ zr C) C' t' s')).
  - pose proof (proj1 (zip_left _ _ _ _ _ _ _ _ _ _) Hz) as Hzl.
    pose proof (proj1 (zip_right _ _ _ _ _ _ _ _ _ _) Hz) as Hzr.
    destruct (Z.eqb_spec (troot l) NULL) as [El|El].
    { apply (zip_E _ _ _ _ _ _ Hzl) in El as ->.
      eapply wp_bind, wp_RIGHT_z; [exact Hz|].
      eapply wp_RB_REMOVE_one; [exact Hz|by left|done..]. }
    eapply wp_bind, wp_RIGHT_z; [exact Hz|].
    destruct (Z.eqb_spec (troot r) NULL) as [Er|Er].
    { apply (zip_E _ _ _ _ _ _ Hzr) in Er as ->. cbn [inorder]. rewrite app_nil_r.
      eapply wp_bind, wp_LEFT_z; [exact Hz|].
      eapply wp_RB_REMOVE_one; [exact Hz|by right|done..]. }
    eapply wp_RB_REMOVE_two; [exact Hz|by intros ->|by intros ->|done..].
  - intros cpc s' (c' & C' & t' & m' & -> & Ha & Hz'). apply wp_bind.
    eapply wp_mono; [by eapply wp_fixup|]. intros [] s'' (T & h & Hz'' & Hh & Hhr).
    apply wp_ret. split_and!; [done|by eapply zip_rb_set|apply Hz''].
Qed.
End RemoveSet.
