(* ===== verification/TreeSet.v ===== *)
(** What [libkern/tree.h] promises to its users, as an interface: the operations of
    an ordered set of objects, with their laws. The splay tree and the red-black
    tree are its two instances; a client that runs a sequence of operations is
    verified against the interface alone. *)

From stdpp Require Import base gmap list.
From Stdlib Require Import ZArith Lia.
From S2P Require Import Prelude OrdSet SplayTree SplayRep SplayCorrect.
From S2P Require RBTree RBRep RBQuery RBInsert RBRemove.

(** The operations, over the memory [S]; an object is given by its address. *)
Class SetOps (S : Type) := {
  set_insert : Z -> M S Z;
  set_remove : Z -> M S Z;
  set_find : Z -> M S Z;
  set_next : Z -> M S Z;
  set_min : M S Z;
  set_max : M S Z;
}.

(** [holds es s]: the head of [s] is a tree with the entries [es]; [live elm k s]:
    there is an object with the key [k] at [elm]. *)
Class OrderedSet {K S} (cmp : K -> K -> Z) (ops : SetOps S) := {
  holds : list (Z * K) -> S -> Prop;
  live : Z -> K -> S -> Prop;
  holds_sorted es s : holds es s -> sorted cmp es;
  holds_nodup es s : holds es s -> NoDup es.*1;
  insert_law es elm k s :
    holds es s -> live elm k s -> elm ∉ es.*1 ->
    wp (set_insert elm) (fun r s' => r = ptr_of (os_find cmp k es) /\
      holds (os_insert cmp (elm, k) es) s' /\ (forall e k', live e k' s -> live e k' s')) s;
  remove_law es elm k s :
    holds es s -> live elm k s -> (elm, k) ∈ es ->
    wp (set_remove elm) (fun r s' => r = elm /\
      holds (os_remove cmp k es) s' /\ (forall e k', live e k' s -> live e k' s')) s;
  find_law es elm k s :
    holds es s -> live elm k s ->
    wp (set_find elm) (fun r s' => r = ptr_of (os_find cmp k es) /\
      holds es s' /\ (forall e k', live e k' s -> live e k' s')) s;
  next_law es elm k s :
    holds es s -> (elm, k) ∈ es ->
    wp (set_next elm) (fun r s' => r = ptr_of (os_next cmp k es) /\
      holds es s' /\ (forall e k', live e k' s -> live e k' s')) s;
  min_law es s :
    holds es s ->
    wp set_min (fun r s' => r = ptr_of (head es) /\
      holds es s' /\ (forall e k', live e k' s -> live e k' s')) s;
  max_law es s :
    holds es s ->
    wp set_max (fun r s' => r = ptr_of (last es) /\
      holds es s' /\ (forall e k', live e k' s -> live e k' s')) s;
}.

(** ** The splay tree *)

Section SplaySet.
Context {K : Type} (cmp : K -> K -> Z) `{!Comparator cmp} (junk : K).

#[global] Instance splay_ops : SetOps (spmem K) := {
  set_insert := SPLAY_INSERT cmp junk;
  set_remove := SPLAY_REMOVE cmp junk;
  set_find := SPLAY_FIND cmp junk;
  set_next := SPLAY_NEXT cmp junk;
  set_min := SPLAY_MIN junk;
  set_max := SPLAY_MAX junk;
}.

#[global] Program Instance splay_ordered : OrderedSet cmp splay_ops := {
  holds := splay_set cmp;
  live := key_at;
}.
Next Obligation. by apply splay_set_sorted. Qed.
Next Obligation. by intros es s (t & [_ _ ? _] & <-). Qed.
Next Obligation.
  intros es elm k s Hset Hk Hnot. eapply wp_mono; [by eapply wp_SPLAY_INSERT|].
  intros r s' (-> & ? & ?). eauto using key_at_evolves.
Qed.
Next Obligation.
  intros es elm k s Hset Hk Hin. eapply wp_mono; [by eapply wp_SPLAY_REMOVE|].
  intros r s' (-> & ? & ?). split_and!; [|done|eauto using key_at_evolves].
  apply splay_set_sorted in Hset. apply list_elem_of_split in Hin as (l1 & l2 & ->).
  apply sorted_mid in Hset as (_ & _ & ? & _); [|done].
  rewrite os_find_split; [done..|]. by apply cmp_refl.
Qed.
Next Obligation.
  intros es elm k s Hset Hk. eapply wp_mono; [by eapply wp_SPLAY_FIND|].
  intros r s' (-> & ? & ?). eauto using key_at_evolves.
Qed.
Next Obligation.
  intros es elm k s Hset Hin. eapply wp_mono; [by eapply wp_SPLAY_NEXT|].
  intros r s' (-> & ? & ?). eauto using key_at_evolves.
Qed.
Next Obligation.
  intros es s Hset. eapply wp_mono; [by eapply wp_SPLAY_MIN|].
  intros r s' (-> & ? & ?). eauto using key_at_evolves.
Qed.
Next Obligation.
  intros es s Hset. eapply wp_mono; [by eapply wp_SPLAY_MAX|].
  intros r s' (-> & ? & ?). eauto using key_at_evolves.
Qed.
End SplaySet.

(** ** The red-black tree *)

Section RBSet.
Import RBTree RBRep RBQuery RBInsert RBRemove.
Context {K : Type} (cmp : K -> K -> Z) `{!Comparator cmp}.

#[global] Instance rb_ops : SetOps (rbmem K) := {
  set_insert := RB_INSERT cmp;
  set_remove := RB_REMOVE;
  set_find := RB_FIND cmp;
  set_next := RB_NEXT;
  set_min := RB_MIN;
  set_max := RB_MAX;
}.

Definition rb_live (elm : Z) (k : K) (s : rbmem K) : Prop :=
  ptr_ok elm /\ rb_key_at elm k s.

#[global] Program Instance rb_ordered : OrderedSet cmp rb_ops := {
  holds := rb_set cmp;
  live := rb_live;
}.
Next Obligation. by eapply rb_set_sorted. Qed.
Next Obligation. by eapply rb_set_nodup. Qed.
Next Obligation.
  intros es elm k s Hset [Hp Hk] Hnot. eapply wp_mono; [by eapply wp_RB_INSERT|].
  intros r s' (-> & ? & ?). split_and!; [done..|].
  intros e k' []. split; eauto using rb_key_at_evolves.
Qed.
Next Obligation.
  intros es elm k s Hset [Hp Hk] Hin. eapply wp_mono; [by eapply wp_RB_REMOVE|].
  intros r s' (-> & ? & ?). split_and!; [done..|].
  intros e k' []. split; eauto using rb_key_at_evolves.
Qed.
Next Obligation.
  intros es elm k s Hset [Hp Hk]. eapply wp_mono; [by eapply wp_RB_FIND|].
  by intros r s' (-> & ->).
Qed.
Next Obligation.
  intros es elm k s Hset Hin. eapply wp_mono; [by eapply wp_RB_NEXT|].
  by intros r s' (-> & ->).
Qed.
Next Obligation.
  intros es s Hset. eapply wp_mono; [by eapply wp_RB_MINMAX|].
  by intros r s' (-> & ->).
Qed.
Next Obligation.
  intros es s Hset. eapply wp_mono; [by eapply wp_RB_MINMAX|].
  by intros r s' (-> & ->).
Qed.
End RBSet.

(** ** A client: any sequence of operations *)

Inductive set_op :=
  | Insert (elm : Z)
  | Remove (elm : Z)
  | Find (elm : Z)
  | Next (elm : Z)
  | Min
  | Max.

Section Client.
Context {K S : Type} (cmp : K -> K -> Z) `{!Comparator cmp}.
Context (ops : SetOps S) `{!OrderedSet cmp ops}.

Definition run_op (o : set_op) : M S Z :=
  match o with
  | Insert elm => set_insert elm
  | Remove elm => set_remove elm
  | Find elm => set_find elm
  | Next elm => set_next elm
  | Min => set_min
  | Max => set_max
  end.

Fixpoint run_ops (os : list set_op) : M S (list Z) :=
  match os with
  | [] => mret []
  | o :: os' => r ← run_op o; rs ← run_ops os'; mret (r :: rs)
  end.
End Client.

Section Spec.
Context {K : Type} (cmp : K -> K -> Z) (key : Z -> option K).

(** An operation on the ordered set: its result and the new set, or [None] where
    the caller breaks the rules of the macros: an object that is not live, one
    that is inserted twice, the removal or the successor of one that is not in
    the set. *)
Definition spec_op (o : set_op) (es : list (Z * K)) : option (Z * list (Z * K)) :=
  match o with
  | Insert elm =>
      k ← key elm;
      if bool_decide (elm ∈ es.*1) then None
      else Some (ptr_of (os_find cmp k es), os_insert cmp (elm, k) es)
  | Remove elm =>
      k ← key elm;
      if bool_decide (elm ∈ es.*1) then Some (elm, os_remove cmp k es) else None
  | Find elm => k ← key elm; Some (ptr_of (os_find cmp k es), es)
  | Next elm =>
      k ← key elm;
      if bool_decide (elm ∈ es.*1) then Some (ptr_of (os_next cmp k es), es) else None
  | Min => Some (ptr_of (head es), es)
  | Max => Some (ptr_of (last es), es)
  end.

Fixpoint spec_ops (os : list set_op) (es : list (Z * K)) : option (list Z * list (Z * K)) :=
  match os with
  | [] => Some ([], es)
  | o :: os' =>
      '(r, es1) ← spec_op o es;
      '(rs, es2) ← spec_ops os' es1;
      Some (r :: rs, es2)
  end.

Definition keyed (es : list (Z * K)) : Prop := forall e k, (e, k) ∈ es -> key e = Some k.

Context `{!Comparator cmp} {S : Type} (ops : SetOps S) `{!OrderedSet cmp ops}.
Implicit Types s : S.

Definition all_live s : Prop := forall e k, key e = Some k -> live e k s.

Lemma keyed_in es elm k : keyed es -> key elm = Some k -> elm ∈ es.*1 -> (elm, k) ∈ es.
Proof.
  intros Hk He Hin. apply list_elem_of_fmap in Hin as ([e k'] & -> & Hin).
  assert (key e = Some k') by by apply Hk. cbn in *. by simplify_eq.
Qed.

Lemma wp_run_op o es s r es' :
  holds es s -> all_live s -> keyed es -> spec_op o es = Some (r, es') ->
  keyed es' /\
  wp (run_op ops o) (fun r' s' => r' = r /\ holds es' s' /\ all_live s') s.
Proof.
  intros Hh Hl Hk Ho. destruct o as [elm|elm|elm|elm| |]; cbn in Ho;
    try (destruct (key elm) as [k|] eqn:He; cbn in Ho; [|done]);
    try (case_bool_decide as Hin; cbn in Ho; [|try done]; try done); simplify_eq.
  - split.
    + intros e k' [?|?]%(os_insert_in cmp); [by simplify_eq|by apply Hk].
    + eapply wp_mono; [by apply (insert_law es elm k); auto|].
      intros r s' (-> & ? & ?). unfold all_live. auto.
  - split; [intros e k' ?%(os_remove_in cmp); by apply Hk|].
    eapply wp_mono; [by eapply (remove_law es r k); auto using keyed_in|].
    intros r' s' (-> & ? & ?). unfold all_live. auto.
  - split; [done|]. eapply wp_mono; [by eapply (find_law es' elm k); auto|].
    intros r s' (-> & ? & ?). unfold all_live. auto.
  - split; [done|]. eapply wp_mono; [by eapply (next_law es' elm k); auto using keyed_in|].
    intros r s' (-> & ? & ?). unfold all_live. auto.
  - split; [done|]. eapply wp_mono; [by eapply min_law|].
    intros r s' (-> & ? & ?). unfold all_live. auto.
  - split; [done|]. eapply wp_mono; [by eapply max_law|].
    intros r s' (-> & ? & ?). unfold all_live. auto.
Qed.

Lemma wp_run_ops os es s rs es' :
  holds es s -> all_live s -> keyed es -> spec_ops os es = Some (rs, es') ->
  wp (run_ops ops os) (fun rs' s' => rs' = rs /\ holds es' s') s.
Proof.
  revert es s rs. induction os as [|o os IH]; intros es s rs Hh Hl Hk Hos; cbn in Hos.
  { simplify_eq. by apply wp_ret. }
  destruct (spec_op o es) as [[r es1]|] eqn:Ho; [|done]. cbn in Hos.
  destruct (spec_ops os es1) as [[rs1 es2]|] eqn:Hos'; [|done]. cbn in Hos. simplify_eq.
  destruct (wp_run_op o es s r es1 Hh Hl Hk Ho) as [Hk1 Hwp].
  apply wp_bind. eapply wp_mono; [exact Hwp|]. intros r' s' (-> & Hh' & Hl').
  apply wp_bind. eapply wp_mono; [by eapply IH|]. intros rs' s'' [-> ?].
  by apply wp_ret.
Qed.
End Spec.
