(* ===== verification/TreeProps.v ===== *)
(** The theorems on [libkern/tree.h]: every operation of the splay tree and of the
    red-black tree ends with the result of the ordered set and leaves the set it
    should; the search of the red-black tree takes a logarithmic number of rounds;
    the two trees cannot be told apart by their results. *)

From stdpp Require Import base gmap list.
From Stdlib Require Import ZArith Lia.
From S2P Require Import Prelude OrdSet SplayTree SplayRep SplayCorrect.
From S2P Require RBTree RBRep RBInv RBSteps RBQuery RBInsert RBRemove.
From S2P Require Import TreeSet.

(** * The red-black tree *)

Module RB.
  Import RBTree RBRep RBInv RBQuery RBInsert RBRemove.

  (** Three nodes in a tree, and a fourth one that is in none. *)
Definition mem3 : rbmem Z :=
  RbMem 16 {[ 16 := RbNode 32 48 0 5; 32 := RbNode 0 0 17 3;
              48 := RbNode 0 0 17 8; 64 := RbNode 7 9 3 4 ]}.
Definition entries3 : list (Z * Z) := [(32, 3); (16, 5); (48, 8)].

Lemma mem3_set : rb_set Zcmp entries3 mem3.
Proof.
  exists (N Black (N Red E 32 3 E) 16 5 (N Red E 48 8 E)), 1%nat.
  split_and!; [|done|done|done|by cbn; repeat split; repeat constructor].
  split; [done|done| |by_compute].
  cbn. unfold ptr_ok, uintptr_bits. repeat split; done.
Defined.

Lemma mem3_key elm k :
  bool_decide ((elm, k) ∈ (64, 4) :: entries3) = true -> rb_key_at elm k mem3.
Proof.
  rewrite bool_decide_eq_true. unfold entries3.
  rewrite !elem_of_cons, elem_of_nil.
  intros [?|[?|[?|[?|[]]]]]; simplify_eq; by split.
Defined.

Lemma mem3_ptr : ptr_ok 64.
Proof. done. Defined.

(** C2: [RB_INSERT] of an object that is not in the tree ends; it returns the
    node that has the key already, or null; it leaves a red-black tree with the
    new entry at its place (and the same tree when the key is taken), and writes
    no other memory. The contents of the fields of the new object do not matter. *)
Theorem RB_INSERT_correct {K} (cmp : K -> K -> Z) `{!Comparator cmp}
    es elm k (s : rbmem K)
    (Hset : rb_set cmp es s) (Hkey : rb_key_at elm k s) (Hptr : ptr_ok elm)
    (Hnew : elm ∉ es.*1) :
  exists s',
    RB_INSERT cmp elm s = Done (ptr_of (os_find cmp k es), s') /\
    rb_set cmp (os_insert cmp (elm, k) es) s' /\
    (forall a, rb_key <$> rb_store s' !! a = rb_key <$> rb_store s !! a) /\
    (forall a, a ∉ elm :: es.*1 -> rb_store s' !! a = rb_store s !! a).
Proof.
  destruct (wp_run _ _ _ (wp_RB_INSERT cmp es elm k s Hset Hkey Hptr Hnew))
    as (r & s' & Hrun & -> & Hset' & Hkeys & Hframe). eauto.
Qed.

Lemma RB_INSERT_correct_witness :
  exists s', RB_INSERT Zcmp 64 mem3 = Done (NULL, s') /\
    rb_set Zcmp [(32, 3); (64, 4); (16, 5); (48, 8)] s'.
Proof.
  destruct (RB_INSERT_correct Zcmp entries3 64 4 mem3 mem3_set
    (mem3_key 64 4 eq_refl) mem3_ptr ltac:(by_compute)) as (s' & ? & ? & _).
  exists s'. by split.
Defined.

(** C1: [RB_REMOVE] of an object of the tree ends and returns it; it leaves a
    red-black tree with the other entries, in all the cases of the repair, and
    writes only the nodes of the tree. *)
Theorem RB_REMOVE_correct {K} (cmp : K -> K -> Z) `{!Comparator cmp}
    es elm k (s : rbmem K) (Hset : rb_set cmp es s) (Hin : (elm, k) ∈ es) :
  exists s',
    RB_REMOVE elm s = Done (elm, s') /\
    rb_set cmp (os_remove cmp k es) s' /\
    (forall a, rb_key <$> rb_store s' !! a = rb_key <$> rb_store s !! a) /\
    (forall a, a ∉ es.*1 -> rb_store s' !! a = rb_store s !! a).
Proof.
  destruct (wp_run _ _ _ (wp_RB_REMOVE cmp es elm k s Hset Hin))
    as (r & s' & Hrun & -> & Hset' & Hkeys & Hframe). eauto.
Qed.

Lemma RB_REMOVE_correct_witness :
  exists s', RB_REMOVE 16 mem3 = Done (16, s') /\ rb_set Zcmp [(32, 3); (48, 8)] s'.
Proof.
  destruct (RB_REMOVE_correct Zcmp entries3 16 5 mem3 mem3_set ltac:(by_compute))
    as (s' & ? & ? & _).
  exists s'. by split.
Defined.

(** C21: the search loop of [RB_FIND] ends after at most 2 lg (n + 1) + 1 rounds
    with the node of the key, or null: the bound the header states for the height
    of a red-black tree. *)
Theorem RB_FIND_logarithmic {K} (cmp : K -> K -> Z) `{!Comparator cmp}
    es elm k (s : rbmem K) (Hset : rb_set cmp es s) (Hkey : rb_key_at elm k s) :
  loop (S (2 * Nat.log2 (length es + 1))) (RB_FIND_round cmp elm) (rbh_root s) s
    = Done (ptr_of (os_find cmp k es), s) /\
  RB_FIND cmp elm s = Done (ptr_of (os_find cmp k es), s).
Proof.
  destruct (wp_run _ _ _ (wp_RB_FIND cmp es elm k s Hset Hkey)) as (? & ? & -> & -> & ->).
  split; [|done].
  destruct (rb_set_zip cmp es.*1 es s Hset) as (t & n & Hz & Hrb & Hr & Hes & Hs); [done|].
  apply (rb_height_log t n Hrb) in Hr. rewrite rb_tsize_length, Hes in Hr.
  edestruct (wp_run _ _ _ (wp_find_loop cmp _ _ es elm k t s
    (S (2 * Nat.log2 (length es + 1))) Hz Hs Hkey ltac:(lia))) as (? & ? & -> & -> & ->).
  done.
Qed.

Lemma RB_FIND_logarithmic_witness :
  loop 5 (RB_FIND_round Zcmp 48) 16 mem3 = Done (48, mem3) /\
  RB_FIND Zcmp 64 mem3 = Done (NULL, mem3).
Proof.
  split.
  - apply (RB_FIND_logarithmic Zcmp entries3 48 8 mem3 mem3_set (mem3_key 48 8 eq_refl)).
  - apply (RB_FIND_logarithmic Zcmp entries3 64 4 mem3 mem3_set (mem3_key 64 4 eq_refl)).
Defined.

(** [RB_NEXT] and [RB_PREV] of a node give its neighbours in the order of the
    keys, null at the ends, and [RB_MIN] and [RB_MAX] the two ends. *)
Theorem RB_neighbours_correct {K} (cmp : K -> K -> Z) `{!Comparator cmp}
    before elm k after (s : rbmem K)
    (Hset : rb_set cmp (before ++ (elm, k) :: after) s) :
  RB_NEXT elm s = Done (ptr_of (head after), s) /\
  RB_PREV elm s = Done (ptr_of (last before), s) /\
  RB_MIN s = Done (ptr_of (head (before ++ [(elm, k)])), s) /\
  RB_MAX s = Done (ptr_of (last ((elm, k) :: after)), s).
Proof.
  pose proof (rb_set_sorted _ _ _ Hset) as Hs.
  assert ((elm, k) ∈ before ++ (elm, k) :: after) as Hin by set_solver.
  destruct (wp_run _ _ _ (wp_RB_NEXT cmp _ _ _ _ Hset Hin)) as (? & ? & -> & -> & ->).
  destruct (wp_run _ _ _ (wp_RB_PREV cmp _ _ _ _ Hset Hin)) as (? & ? & -> & -> & ->).
  unfold RB_MIN, RB_MAX.
  destruct (wp_run _ _ _ (wp_RB_MINMAX cmp RB_NEGINF _ _ Hset)) as (? & ? & -> & -> & ->).
  destruct (wp_run _ _ _ (wp_RB_MINMAX cmp RB_INF _ _ Hset)) as (? & ? & -> & -> & ->).
  rewrite os_next_mid, os_prev_mid by done. split_and!; [done..| |].
  - by destruct before.
  - cbn [rb_end RB_INF Z.ltb]. do 3 f_equal. unfold rb_end. cbn.
    by rewrite last_app; destruct (last (_ :: _)) eqn:El; [|by apply last_None in El].
Qed.

Lemma RB_neighbours_correct_witness :
  RB_NEXT 32 mem3 = Done (16, mem3) /\ RB_PREV 32 mem3 = Done (NULL, mem3) /\
  RB_MIN mem3 = Done (32, mem3) /\ RB_MAX mem3 = Done (48, mem3).
Proof. apply (RB_neighbours_correct Zcmp [] 32 3 [(16, 5); (48, 8)] mem3 mem3_set). Defined.

(** The iterations: [RB_FOREACH] visits the nodes in the order of the keys,
    [RB_FOREACH_FROM] those from a node on, [RB_FOREACH_REVERSE_FROM] those from a
    node down; none of them writes the memory. *)
Theorem RB_FOREACH_correct {K} (cmp : K -> K -> Z) `{!Comparator cmp}
    before elm k after (s : rbmem K)
    (Hset : rb_set cmp (before ++ (elm, k) :: after) s) :
  RB_FOREACH s = Done (before.*1 ++ elm :: after.*1, s) /\
  RB_FOREACH_FROM elm s = Done (elm :: after.*1, s) /\
  RB_FOREACH_REVERSE_FROM elm s = Done (elm :: reverse before.*1, s).
Proof.
  destruct (wp_run _ _ _ (wp_RB_FOREACH cmp _ _ Hset)) as (? & ? & -> & -> & ->).
  destruct (wp_run _ _ _ (wp_RB_FOREACH_FROM cmp _ _ _ _ _ Hset)) as (? & ? & -> & -> & ->).
  destruct (wp_run _ _ _ (wp_RB_FOREACH_REVERSE_FROM cmp _ _ _ _ _ Hset))
    as (? & ? & -> & -> & ->).
  by rewrite fmap_app.
Qed.

Lemma RB_FOREACH_correct_witness :
  RB_FOREACH mem3 = Done ([32; 16; 48], mem3) /\
  RB_FOREACH_FROM 16 mem3 = Done ([16; 48], mem3) /\
  RB_FOREACH_REVERSE_FROM 16 mem3 = Done ([16; 32], mem3).
Proof. apply (RB_FOREACH_correct Zcmp [(32, 3)] 16 5 [(48, 8)] mem3 mem3_set). Defined.

(** C22: [RB_FOREACH_SAFE] may remove the node it is at: with [RB_REMOVE] as its
    body it ends, and empties the tree. *)
Theorem RB_FOREACH_SAFE_removes_all {K} (cmp : K -> K -> Z) `{!Comparator cmp}
    es (s : rbmem K) (Hset : rb_set cmp es s) :
  exists s',
    RB_FOREACH_SAFE (fun x => RB_REMOVE x;; mret tt) s = Done (tt, s') /\
    rbh_root s' = NULL /\ rb_set cmp [] s'.
Proof.
  assert (wp (RB_FOREACH_SAFE (fun x => RB_REMOVE x;; mret tt))
    (fun _ s' => rb_set cmp [] s') s) as Hwp.
  { eapply wp_RB_FOREACH_SAFE; [done..|]. intros p k rest s' Hs'.
    apply wp_bind. eapply wp_mono.
    { apply (wp_RB_REMOVE cmp ((p, k) :: rest) p k); [done|set_solver]. }
    intros _p s'' (-> & Hs'' & _). apply wp_ret.
    assert (os_remove cmp k ((p, k) :: rest) = rest) as <-; [|done].
    by apply (os_remove_mid cmp [] p k rest), rb_set_sorted with s'. }
  destruct (wp_run _ _ _ Hwp) as ([] & s' & Hrun & Hset').
  exists s'. split_and!; [done| |done]. destruct Hset' as (t & n & Hf & _ & _ & Ht & _).
  rewrite (fo_root _ _ _ Hf). destruct t as [|c l p k r]; [done|].
  cbn in Ht. by destruct (inorder l).
Qed.

Lemma RB_FOREACH_SAFE_removes_all_witness :
  exists s', RB_FOREACH_SAFE (fun x => RB_REMOVE x;; mret tt) mem3 = Done (tt, s') /\
    rbh_root s' = NULL.
Proof.
  destruct (RB_FOREACH_SAFE_removes_all Zcmp entries3 mem3 mem3_set) as (s' & ? & ? & _).
  exists s'. by split.
Defined.
End RB.

(** * The splay tree *)

Module Splay.

(** Three nodes in a tree, and a fourth one that is in none. *)
Definition mem3 : spmem Z :=
  SpMem 16 {[ 16 := SpNode 32 48 5; 32 := SpNode 0 0 3;
              48 := SpNode 0 0 8; 64 := SpNode 7 9 4 ]}.
Definition entries3 : list (Z * Z) := [(32, 3); (16, 5); (48, 8)].
Definition tree3 : tree Z := N (N E 32 3 E) 16 5 (N E 48 8 E).

Lemma smem3_tree : tree_at Zcmp tree3 mem3.
Proof.
  split; [done| |by_compute|by cbn; repeat split; repeat constructor].
  cbn. repeat split; done.
Defined.

Lemma smem3_set : splay_set Zcmp entries3 mem3.
Proof. exists tree3. split; [apply smem3_tree|done]. Defined.

Lemma smem3_key elm k :
  bool_decide ((elm, k) ∈ (64, 4) :: entries3) = true -> key_at elm k mem3.
Proof.
  rewrite bool_decide_eq_true. unfold entries3. rewrite !elem_of_cons, elem_of_nil.
  intros [?|[?|[?|[?|[]]]]]; simplify_eq; by split.
Defined.

(** C23: the splay: on a non-empty tree it ends, keeps the entries and their order,
    and the root is then the node of the key, or next to the place of the key. *)
Theorem SPLAY_correct {K} (cmp : K -> K -> Z) `{!Comparator cmp} (junk : K)
    elm k t (s : spmem K)
    (Htree : tree_at cmp t s) (Hne : t <> E) (Hkey : key_at elm k s) :
  exists s' t',
    SPLAY cmp junk elm s = Done (tt, s') /\
    tree_at cmp t' s' /\ inorder t' = inorder t /\ closest cmp k t' /\
    (forall a, a ∉ (inorder t).*1 -> sp_store s' !! a = sp_store s !! a).
Proof.
  destruct (wp_run _ _ _ (wp_SPLAY cmp junk elm k t s Htree Hne Hkey))
    as ([] & s' & Hrun & t' & ? & ? & ? & ? & ?). exists s', t'. by split_and!.
Qed.

Lemma SPLAY_correct_witness :
  exists s' t', SPLAY Zcmp 0 48 mem3 = Done (tt, s') /\
    tree_at Zcmp t' s' /\ inorder t' = entries3 /\ closest Zcmp 8 t'.
Proof.
  destruct (SPLAY_correct Zcmp 0 48 8 tree3 mem3 smem3_tree ltac:(discriminate)
    (smem3_key 48 8 eq_refl)) as (s' & t' & ? & ? & ? & ? & _).
  exists s', t'. by split_and!.
Defined.

(** C24: [SPLAY_INSERT] of an object that is not in the tree: it returns the node
    that has the key already, or null; the new tree has the new entry at its place
    (the same entries when the key is taken). *)
Theorem SPLAY_INSERT_correct {K} (cmp : K -> K -> Z) `{!Comparator cmp} (junk : K)
    es elm k (s : spmem K)
    (Hset : splay_set cmp es s) (Hkey : key_at elm k s) (Hnew : elm ∉ es.*1) :
  exists s',
    SPLAY_INSERT cmp junk elm s = Done (ptr_of (os_find cmp k es), s') /\
    splay_set cmp (os_insert cmp (elm, k) es) s' /\
    (forall a, sp_key <$> sp_store s' !! a = sp_key <$> sp_store s !! a) /\
    (forall a, a ∉ elm :: es.*1 -> sp_store s' !! a = sp_store s !! a).
Proof.
  destruct (wp_run _ _ _ (wp_SPLAY_INSERT cmp junk es elm k s Hset Hkey Hnew))
    as (r & s' & Hrun & -> & Hset' & Hkeys & Hframe). eauto.
Qed.

Lemma SPLAY_INSERT_correct_witness :
  exists s', SPLAY_INSERT Zcmp 0 64 mem3 = Done (NULL, s') /\
    splay_set Zcmp [(32, 3); (64, 4); (16, 5); (48, 8)] s'.
Proof.
  destruct (SPLAY_INSERT_correct Zcmp 0 entries3 64 4 mem3 smem3_set
    (smem3_key 64 4 eq_refl) ltac:(by_compute)) as (s' & ? & ? & _).
  exists s'. by split.
Defined.

(** C25: [SPLAY_REMOVE] takes the node that compares equal to its argument out of
    the tree; it returns its argument (not the node it took out) when there was
    one, and null when there was none. *)
Theorem SPLAY_REMOVE_correct {K} (cmp : K -> K -> Z) `{!Comparator cmp} (junk : K)
    es elm k (s : spmem K) (Hset : splay_set cmp es s) (Hkey : key_at elm k s) :
  exists s',
    SPLAY_REMOVE cmp junk elm s =
      Done (if os_find cmp k es then elm else NULL, s') /\
    splay_set cmp (os_remove cmp k es) s' /\
    (forall a, a ∉ es.*1 -> sp_store s' !! a = sp_store s !! a).
Proof.
  destruct (wp_run _ _ _ (wp_SPLAY_REMOVE cmp junk es elm k s Hset Hkey))
    as (r & s' & Hrun & -> & Hset' & Hkeys & Hframe). eauto.
Qed.

Lemma SPLAY_REMOVE_correct_witness :
  exists s', SPLAY_REMOVE Zcmp 0 16 mem3 = Done (16, s') /\
    splay_set Zcmp [(32, 3); (48, 8)] s'.
Proof.
  destruct (SPLAY_REMOVE_correct Zcmp 0 entries3 16 5 mem3 smem3_set (smem3_key 16 5 eq_refl))
    as (s' & ? & ? & _). exists s'. by split.
Defined.

(** [SPLAY_FIND], [SPLAY_NEXT], [SPLAY_MIN], [SPLAY_MAX] and
    [SPLAY_FOREACH] give the entries of the ordered set; each of them may
    restructure the tree, and keeps its entries. *)
Theorem SPLAY_queries_correct {K} (cmp : K -> K -> Z) `{!Comparator cmp} (junk : K)
    es elm k (s : spmem K) (Hset : splay_set cmp es s) (Hin : (elm, k) ∈ es) :
  (exists s', SPLAY_FIND cmp junk elm s = Done (elm, s') /\ splay_set cmp es s') /\
  (exists s', SPLAY_NEXT cmp junk elm s = Done (ptr_of (os_next cmp k es), s') /\
     splay_set cmp es s') /\
  (exists s', SPLAY_MIN junk s = Done (ptr_of (head es), s') /\ splay_set cmp es s') /\
  (exists s', SPLAY_MAX junk s = Done (ptr_of (last es), s') /\ splay_set cmp es s') /\
  (exists s', SPLAY_FOREACH cmp junk s = Done (es.*1, s') /\ splay_set cmp es s').
Proof.
  assert (Hkey : key_at elm k s).
  { destruct Hset as (t & Ht & <-). by apply (tree_at_live cmp t s (elm, k)). }
  assert (Hfind : os_find cmp k es = Some (elm, k)).
  { apply splay_set_sorted in Hset. apply list_elem_of_split in Hin as (l1 & l2 & ->).
    apply sorted_mid in Hset as (_ & _ & ? & _); [|done].
    apply os_find_split; [done..|apply cmp_refl]. }
  destruct (wp_run _ _ _ (wp_SPLAY_FIND cmp junk es elm k s Hset Hkey))
    as (? & ? & ? & -> & ? & _).
  destruct (wp_run _ _ _ (wp_SPLAY_NEXT cmp junk es elm k s Hset Hin))
    as (? & ? & ? & -> & ? & _).
  destruct (wp_run _ _ _ (wp_SPLAY_MIN cmp junk es s Hset)) as (? & ? & ? & -> & ? & _).
  destruct (wp_run _ _ _ (wp_SPLAY_MAX cmp junk es s Hset)) as (? & ? & ? & -> & ? & _).
  destruct (wp_run _ _ _ (wp_SPLAY_FOREACH cmp junk es s Hset)) as (? & ? & ? & -> & ? & _).
  rewrite Hfind in *. eauto 20.
Qed.

Lemma SPLAY_queries_correct_witness :
  exists s', SPLAY_FOREACH Zcmp 0 mem3 = Done ([32; 16; 48], s') /\
    splay_set Zcmp entries3 s'.
Proof.
  apply (SPLAY_queries_correct Zcmp 0 entries3 16 5 mem3 smem3_set ltac:(by_compute)).
Defined.
End Splay.

(** * The two trees *)

Section Agree.
Context {K : Type} (cmp : K -> K -> Z) `{!Comparator cmp} (junk : K).

(** C20: a client cannot tell the trees apart: for every sequence of operations
    that keeps to the rules of the macros, from empty trees over the same objects,
    both give the results of the ordered set, and hold the same entries after. *)
Theorem trees_agree (key : Z -> option K) (os : list set_op) rs es
    (s1 : spmem K) (s2 : RBTree.rbmem K)
    (Hempty1 : sph_root s1 = NULL) (Hempty2 : RBTree.rbh_root s2 = NULL)
    (Hlive1 : all_live cmp key (splay_ops cmp junk) s1)
    (Hlive2 : all_live cmp key (rb_ops cmp) s2)
    (Hspec : spec_ops cmp key os [] = Some (rs, es)) :
  exists s1' s2',
    run_ops (splay_ops cmp junk) os s1 = Done (rs, s1') /\
    run_ops (rb_ops cmp) os s2 = Done (rs, s2') /\
    splay_set cmp es s1' /\ RBQuery.rb_set cmp es s2'.
Proof.
  assert (splay_set cmp [] s1) as H1.
  { exists E. split; [|done]. split; [done|done|constructor|done]. }
  assert (RBQuery.rb_set cmp [] s2) as H2.
  { exists RBRep.E, O. split_and!; try done. split; [done|done|done|constructor]. }
  destruct (wp_run _ _ _ (wp_run_ops cmp key _ (OrderedSet0 := splay_ordered cmp junk) os [] s1 rs es
    H1 Hlive1 ltac:(intros ?? []%elem_of_nil) Hspec)) as (? & s1' & -> & -> & ?).
  destruct (wp_run _ _ _ (wp_run_ops cmp key _ (OrderedSet0 := rb_ordered cmp) os [] s2 rs es
    H2 Hlive2 ltac:(intros ?? []%elem_of_nil) Hspec)) as (? & s2' & -> & -> & ?).
  by exists s1', s2'.
Qed.
End Agree.

Definition objects : gmap Z Z := {[ 16 := 5; 32 := 3; 48 := 8 ]}.
Definition history : list set_op :=
  [Insert 16; Insert 32; Insert 48; Next 32; Remove 16; Find 16; Min; Max].

Lemma trees_agree_witness :
  exists s1 s2,
    run_ops (splay_ops Zcmp 0) history
      (SpMem NULL ((fun k => SpNode 7 7 k) <$> objects)) =
      Done ([0; 0; 0; 16; 16; 0; 32; 48], s1) /\
    run_ops (rb_ops Zcmp) history
      (RBTree.RbMem NULL ((fun k => RBTree.RbNode 7 7 7 k) <$> objects)) =
      Done ([0; 0; 0; 16; 16; 0; 32; 48], s2).
Proof.
  assert (forall e k, objects !! e = Some k -> RBRep.ptr_ok e) as Hptr.
  { intros e k. unfold objects. rewrite !lookup_insert_Some, lookup_singleton_Some.
    intros [[<- _]|[_ [[<- _]|[_ [<- _]]]]]; done. }
  destruct (trees_agree Zcmp 0 (fun e => objects !! e) history
    [0; 0; 0; 16; 16; 0; 32; 48] [(32, 3); (48, 8)]
    (SpMem NULL ((fun k => SpNode 7 7 k) <$> objects))
    (RBTree.RbMem NULL ((fun k => RBTree.RbNode 7 7 7 k) <$> objects)))
    as (s1 & s2 & ? & ? & _);
    [reflexivity|reflexivity| | |vm_compute; reflexivity|exists s1, s2; split; assumption].
  - intros e k He. split; [by apply RBRep.ptr_ok_nonnull, (Hptr e k)|].
    cbn. by rewrite lookup_fmap, He.
  - intros e k He. split; [by apply (Hptr e k)|].
    split; [by apply RBRep.ptr_ok_nonnull, (Hptr e k)|].
    cbn. by rewrite lookup_fmap, He.
Defined.
