(* ===== verification/CLayout.v ===== *)
(** The layout of C structures and unions: sizes, alignments and offsets as the
    compilers of Darwin compute them, with [packed] and [aligned] attributes, for
    the data models that [pfvar.h] is compiled for; and the numbers that the
    [_IO], [_IOR] and [_IOWR] macros give to ioctl requests. *)

From stdpp Require Import base list strings.
From Stdlib Require Import ZArith Lia.
From S2P Require Import Prelude.

(** The size of pointers and longs, and the alignment of 8-byte integers. *)
Record abi := Abi { abi_ptr : Z; abi_align64 : Z }.

#[export] Instance abi_eq_dec : EqDecision abi.
Proof. solve_decision. Defined.

(** [__LP64__]; the 32-bit models of i386 and of arm. *)
Definition LP64 : abi := Abi 8 8.
Definition ILP32_i386 : abi := Abi 4 4.
Definition ILP32_arm : abi := Abi 4 8.
Definition is_LP64 (a : abi) : bool := abi_ptr a =? 8.

Inductive agg := Struct | Union.

(** [TAgg k packed al fs]: a structure or union; [al] is the argument of its own
    [aligned] attribute (0 for none); a member is a name, the argument of its
    [aligned] attribute, and a type. *)
Inductive ctype :=
  | TInt (bytes : Z)
  | TInt64
  | TPtr
  | TArr (t : ctype) (n : Z)
  | TAgg (k : agg) (packed : bool) (al : Z) (fs : list (string * (Z * ctype))).

Abbreviation member := (string * (Z * ctype))%type.

(** Members without and with an [aligned] attribute. *)
Definition fld (name : string) (t : ctype) : member := (name, (0, t)).
Definition fld_al (name : string) (al : Z) (t : ctype) : member := (name, (al, t)).
Definition struct (fs : list member) : ctype := TAgg Struct false 0 fs.
Definition struct_packed (fs : list member) : ctype := TAgg Struct true 0 fs.
Definition union (fs : list member) : ctype := TAgg Union false 0 fs.
Definition union_al (al : Z) (fs : list member) : ctype := TAgg Union false al fs.

Definition align_up (x al : Z) : Z := (x + al - 1) / al * al.

(** The alignment a member has in an aggregate. *)
Definition member_align (packed : bool) (al natural : Z) : Z :=
  Z.max al (if packed then 1 else natural).

(** The place of the next member, and the running values of the whole: offset of
    the next free byte (the largest size, for a union) and alignment. *)
Definition place (k : agg) (packed : bool) (al : Z) (lay : Z * Z) (acc : Z * Z) : Z * (Z * Z) :=
  let '(size, natural) := lay in
  let '(off, amax) := acc in
  let am := member_align packed al natural in
  let at_ := match k with Struct => align_up off am | Union => 0 end in
  let next := match k with Struct => at_ + size | Union => Z.max off size end in
  (at_, (next, Z.max amax am)).

(** The size and the alignment of a type. *)
Fixpoint layout (a : abi) (t : ctype) : Z * Z :=
  match t with
  | TInt n => (n, n)
  | TInt64 => (8, abi_align64 a)
  | TPtr => (abi_ptr a, abi_ptr a)
  | TArr t n => let '(size, al) := layout a t in (n * size, al)
  | TAgg k packed al fs =>
      let fix go (fs : list member) (acc : Z * Z) : Z * Z :=
        match fs with
        | [] => acc
        | (_, (mal, mt)) :: fs' => go fs' (place k packed mal (layout a mt) acc).2
        end in
      let '(off, amax) := go fs (0, 1) in
      let amax := Z.max al amax in
      (align_up off amax, amax)
  end.

Definition sizeof (a : abi) (t : ctype) : Z := (layout a t).1.
Definition alignof (a : abi) (t : ctype) : Z := (layout a t).2.

(** The members of an aggregate with their offsets. *)
Fixpoint offsets (a : abi) (k : agg) (packed : bool) (fs : list member) (acc : Z * Z)
    : list (string * Z * ctype) :=
  match fs with
  | [] => []
  | (name, (mal, mt)) :: fs' =>
      let '(at_, acc') := place k packed mal (layout a mt) acc in
      (name, at_, mt) :: offsets a k packed fs' acc'
  end.

Definition members (a : abi) (t : ctype) : list (string * Z * ctype) :=
  match t with
  | TAgg k packed _ fs => offsets a k packed fs (0, 1)
  | _ => []
  end.

(** [offsetof(t, path)] and the type of the member. *)
Definition member_at (a : abi) (t : ctype) (name : string) : option (Z * ctype) :=
  '(_, (_, off, mt)) ← list_find (fun m => m.1.1 = name) (members a t); Some (off, mt).
Fixpoint offsetof (a : abi) (t : ctype) (path : list string) : option (Z * ctype) :=
  match path with
  | [] => Some (0, t)
  | name :: path' =>
      '(off, mt) ← member_at a t name;
      '(off', t') ← offsetof a mt path';
      Some (off + off', t')
  end.

(** The integers a program and the kernel exchange in an object: the name of each
    integer and array, with its offset and size; for an array the first element
    too. Pointers and the members named as padding are left out. *)
Definition is_pad (name : string) : bool :=
  bool_decide (name = "_pad"%string) || bool_decide (name = "__pad"%string).

Fixpoint ints (a : abi) (path : string) (off : Z) (t : ctype) : list (string * Z * Z) :=
  match t with
  | TInt _ | TInt64 => [(path, off, sizeof a t)]
  | TPtr => []
  | TArr t' _ => (path, off, sizeof a t) :: ints a (path +:+ "[0]") off t'
  | TAgg k packed _ fs =>
      let fix go (fs : list member) (acc : Z * Z) : list (string * Z * Z) :=
        match fs with
        | [] => []
        | (nm, (mal, mt)) :: fs' =>
            let '(at_, acc') := place k packed mal (layout a mt) acc in
            (if is_pad nm then [] else ints a (path +:+ "." +:+ nm) (off + at_) mt)
              ++ go fs' acc'
        end in
      go fs (0, 1)
  end.

(** * Requests of [ioctl]

    The encoding of [sys/ioccom.h]: the direction in the upper three bits, the size
    of the parameter in thirteen bits, the group and the number in one byte each. *)

Definition IOCPARM_MASK : Z := 0x1fff.
Definition IOC_VOID : Z := 0x20000000.
Definition IOC_OUT : Z := 0x40000000.
Definition IOC_IN : Z := 0x80000000.
Definition IOC_INOUT : Z := Z.lor IOC_IN IOC_OUT.

Definition _IOC (inout group num len : Z) : Z :=
  Z.lor (Z.lor (Z.lor inout (Z.shiftl (Z.land len IOCPARM_MASK) 16)) (Z.shiftl group 8)) num.
Definition _IO (g n : Z) : Z := _IOC IOC_VOID g n 0.
Definition _IOR (a : abi) (g n : Z) (t : ctype) : Z := _IOC IOC_OUT g n (sizeof a t).
Definition _IOWR (a : abi) (g n : Z) (t : ctype) : Z := _IOC IOC_INOUT g n (sizeof a t).

Definition IOCPARM_LEN (x : Z) : Z := Z.land (Z.shiftr x 16) IOCPARM_MASK.
Definition IOCGROUP (x : Z) : Z := Z.land (Z.shiftr x 8) 0xff.
Definition IOCNUM (x : Z) : Z := Z.land x 0xff.

(** * Facts of every layout *)

Lemma align_up_spec x al : 0 < al ->
  x <= align_up x al < x + al /\ (al | align_up x al).
Proof.
  intros Hal. unfold align_up. split; [|by apply Z.divide_factor_r].
  pose proof (Z.div_mod (x + al - 1) al ltac:(lia)).
  pose proof (Z.mod_pos_bound (x + al - 1) al Hal). nia.
Qed.

Lemma align_up_id x al : 0 < al -> (al | x) -> align_up x al = x.
Proof.
  intros Hal [q ->]. unfold align_up.
  replace (q * al + al - 1) with (al - 1 + q * al) by lia.
  rewrite Z.div_add by lia. rewrite Z.div_small by lia. lia.
Qed.
