(* ===== verification/Pfvar.v ===== *)
(** The structures, the constants and the requests of
    [originaldest/darwin/include/net/pfvar.h]. A structure is a value of [ctype];
    the members that the header has only without [__LP64__] are there only in the
    data models that are not [LP64]. *)

From stdpp Require Import base list strings.
From Stdlib Require Import ZArith Lia.
From S2P Require Import Prelude CLayout.

#[local] Open Scope string_scope.

(** * What the header takes from the headers of the system *)

Record sysdefs := Sys {
  IFNAMSIZ : Z;
  MAXPATHLEN : Z;
  t_in_addr : ctype;
  t_in6_addr : ctype;
  t_sa_family_t : ctype;
  t_uid_t : ctype;
  t_pid_t : ctype;
  t_TAILQ_ENTRY : ctype;
  t_TAILQ_HEAD : ctype;
  t_SLIST_ENTRY : ctype;
  t_SLIST_HEAD : ctype;
  t_user32_addr_t : ctype;
  t_user64_addr_t : ctype;
}.

(** The definitions of [net/if.h], [sys/param.h], [netinet/in.h], [sys/types.h],
    [sys/queue.h] and [machine/types.h] of Darwin. *)
Record Darwin (sys : sysdefs) : Prop := {
  darwin_ifnamsiz : IFNAMSIZ sys = 16;
  darwin_maxpathlen : MAXPATHLEN sys = 1024;
  darwin_in_addr : t_in_addr sys = struct [fld "s_addr" (TInt 4)];
  darwin_in6_addr :
    t_in6_addr sys =
      struct [fld "__u6_addr" (union [fld "__u6_addr8" (TArr (TInt 1) 16);
                                      fld "__u6_addr16" (TArr (TInt 2) 8);
                                      fld "__u6_addr32" (TArr (TInt 4) 4)])];
  darwin_sa_family_t : t_sa_family_t sys = TInt 1;
  darwin_uid_t : t_uid_t sys = TInt 4;
  darwin_pid_t : t_pid_t sys = TInt 4;
  darwin_tailq_entry : t_TAILQ_ENTRY sys = struct [fld "tqe_next" TPtr; fld "tqe_prev" TPtr];
  darwin_tailq_head : t_TAILQ_HEAD sys = struct [fld "tqh_first" TPtr; fld "tqh_last" TPtr];
  darwin_slist_entry : t_SLIST_ENTRY sys = struct [fld "sle_next" TPtr];
  darwin_slist_head : t_SLIST_HEAD sys = struct [fld "slh_first" TPtr];
  darwin_user32_addr_t : t_user32_addr_t sys = TInt 4;
  darwin_user64_addr_t : t_user64_addr_t sys = TInt64;
}.

(** * Constants *)

Definition PF_INOUT : Z := 0.
Definition PF_IN : Z := 1.
Definition PF_OUT : Z := 2.

Definition PF_MD5_DIGEST_LENGTH : Z := 16.
Definition PF_RULESET_MAX : Z := 6.
Definition PFTM_MAX : Z := 26.
Definition PF_TABLE_NAME_SIZE : Z := 32.
Definition RTLABEL_LEN : Z := 32.
Definition PF_OSFP_LEN : Z := 32.
Definition PF_ANCHOR_NAME_SIZE : Z := 64.
Definition PF_SKIP_COUNT : Z := 8.
Definition PF_RULE_LABEL_SIZE : Z := 64.
Definition PF_QNAME_SIZE : Z := 64.
Definition PF_TAG_NAME_SIZE : Z := 64.
Definition PF_OWNER_NAME_SIZE : Z := 64.
Definition PFR_DIR_MAX : Z := 2.
Definition PFR_OP_ADDR_MAX : Z := 2.
Definition PFR_OP_TABLE_MAX : Z := 3.
Definition PFR_REFCNT_MAX : Z := 2.
Definition PFRES_MAX : Z := 16.
Definition LCNT_MAX : Z := 7.
Definition FCNT_MAX : Z := 3.
Definition SCNT_MAX : Z := 3.
Definition PFTOK_PROCNAME_LEN : Z := 64.

(** The enumerations that index arrays, as the list of their names: an enumerator
    is its place in the list. *)
Definition PFTM_names : list string :=
  ["TCP_FIRST_PACKET"; "TCP_OPENING"; "TCP_ESTABLISHED"; "TCP_CLOSING"; "TCP_FIN_WAIT";
   "TCP_CLOSED"; "UDP_FIRST_PACKET"; "UDP_SINGLE"; "UDP_MULTIPLE"; "ICMP_FIRST_PACKET";
   "ICMP_ERROR_REPLY"; "GREv1_FIRST_PACKET"; "GREv1_INITIATING"; "GREv1_ESTABLISHED";
   "ESP_FIRST_PACKET"; "ESP_INITIATING"; "ESP_ESTABLISHED"; "OTHER_FIRST_PACKET";
   "OTHER_SINGLE"; "OTHER_MULTIPLE"; "FRAG"; "INTERVAL"; "ADAPTIVE_START"; "ADAPTIVE_END";
   "SRC_NODE"; "TS_DIFF"; "MAX"; "PURGE"; "UNLINKED"].
Definition PF_RULESET_names : list string :=
  ["SCRUB"; "FILTER"; "NAT"; "BINAT"; "RDR"; "DUMMYNET"; "MAX"].
Definition PFRES_NAMES : list string :=
  ["match"; "bad-offset"; "fragment"; "short"; "normalize"; "memory"; "bad-timestamp";
   "congestion"; "ip-option"; "proto-cksum"; "state-mismatch"; "state-insert";
   "state-limit"; "src-limit"; "synproxy"; "dummynet"].
Definition LCNT_NAMES : list string :=
  ["max states per rule"; "max-src-states"; "max-src-nodes"; "max-src-conn";
   "max-src-conn-rate"; "overload table insertion"; "overload flush states"].

Definition u8 : ctype := TInt 1.
Definition u16 : ctype := TInt 2.
Definition u32 : ctype := TInt 4.
Definition u64 : ctype := TInt64.
Definition int : ctype := TInt 4.
Definition chars (n : Z) : ctype := TArr (TInt 1) n.

Section Pfvar.
Context (sys : sysdefs) (a : abi).

(** [#if !defined(__LP64__)]. *)
Definition not_LP64 (fs : list member) : list member := if is_LP64 a then [] else fs.

(** The entries and heads of the trees of [libkern/tree.h]. *)
Definition RB_ENTRY : ctype :=
  struct [fld "rbe_left" TPtr; fld "rbe_right" TPtr; fld "rbe_parent" TPtr].
Definition RB_HEAD : ctype := struct [fld "rbh_root" TPtr].

(** * Addresses and rules *)

Definition pf_addr : ctype :=
  struct
  [fld "pfa" (union [fld "_v4addr" (t_in_addr sys); fld "_v6addr" (t_in6_addr sys); fld "_addr8" (TArr u8 16); fld "_addr16" (TArr u16 8); fld "_addr32" (TArr u32 4)])].
Definition pf_addr_wrap : ctype :=
  struct
  [fld "v" (union [fld "a" (struct [fld "addr" pf_addr; fld "mask" pf_addr]); fld "ifname" (chars (IFNAMSIZ sys)); fld "tblname" (chars PF_TABLE_NAME_SIZE); fld "rtlabelname" (chars RTLABEL_LEN); fld "rtlabel" u32]);
   fld_al "p" 8 (union [fld_al "dyn" 8 TPtr; fld_al "tbl" 8 TPtr; fld_al "dyncnt" 8 int; fld_al "tblcnt" 8 int]);
   fld "type" u8;
   fld "iflags" u8].
Definition pf_port_range : ctype :=
  struct
  [fld "port" (TArr u16 2);
   fld "op" u8].
Definition pf_rule_xport : ctype :=
  union
  [fld "range" pf_port_range;
   fld "call_id" u16;
   fld "spi" u32].
Definition pfi_dynaddr : ctype :=
  struct
  [fld "entry" (t_TAILQ_ENTRY sys);
   fld "pfid_addr4" pf_addr;
   fld "pfid_mask4" pf_addr;
   fld "pfid_addr6" pf_addr;
   fld "pfid_mask6" pf_addr;
   fld "pfid_kt" TPtr;
   fld "pfid_kif" TPtr;
   fld "pfid_hook_cookie" TPtr;
   fld "pfid_net" int;
   fld "pfid_acnt4" int;
   fld "pfid_acnt6" int;
   fld "pfid_af" (t_sa_family_t sys);
   fld "pfid_iflags" u8].
Definition pf_rule_uid : ctype :=
  struct
  [fld "uid" (TArr (t_uid_t sys) 2);
   fld "op" u8;
   fld "_pad" (TArr u8 3)].
Definition pf_rule_gid : ctype :=
  struct
  [fld "gid" (TArr (t_uid_t sys) 2);
   fld "op" u8;
   fld "_pad" (TArr u8 3)].
Definition pf_rule_addr : ctype :=
  struct
  [fld "addr" pf_addr_wrap;
   fld "xport" pf_rule_xport;
   fld "neg" u8].
Definition pf_pooladdr : ctype :=
  struct
  ([fld "addr" pf_addr_wrap;
   fld "entries" (t_TAILQ_ENTRY sys)] ++
  not_LP64 [fld "_pad" (TArr u32 2)] ++
  [fld "ifname" (chars (IFNAMSIZ sys));
   fld_al "kif" 8 TPtr]).
(** [TAILQ_HEAD(pf_palist, pf_pooladdr)]. *)
Definition pf_palist : ctype :=
  struct
  [fld "head" (t_TAILQ_HEAD sys)].
Definition pf_poolhashkey : ctype :=
  struct
  [fld "pfk" (union [fld "key8" (TArr u8 16); fld "key16" (TArr u16 8); fld "key32" (TArr u32 4)])].
Definition pf_pool : ctype :=
  struct
  ([fld "list" pf_palist] ++
  not_LP64 [fld "_pad" (TArr u32 2)] ++
  [fld_al "cur" 8 TPtr;
   fld_al "key" 8 pf_poolhashkey;
   fld "counter" pf_addr;
   fld "tblidx" int;
   fld "proxy_port" (TArr u16 2);
   fld "port_op" u8;
   fld "opts" u8;
   fld "af" (t_sa_family_t sys)]).
Definition pf_osfp_entry : ctype :=
  struct
  ([fld "fp_entry" (t_SLIST_ENTRY sys)] ++
  not_LP64 [fld "_pad" u32] ++
  [fld "fp_os" u32;
   fld "fp_enflags" int;
   fld "fp_class_nm" (chars PF_OSFP_LEN);
   fld "fp_version_nm" (chars PF_OSFP_LEN);
   fld "fp_subtype_nm" (chars PF_OSFP_LEN)]).
Definition pf_os_fingerprint : ctype :=
  struct
  [fld "fp_oses" (t_SLIST_HEAD sys);
   fld "fp_tcpopts" u64;
   fld "fp_wsize" u16;
   fld "fp_psize" u16;
   fld "fp_mss" u16;
   fld "fp_flags" u16;
   fld "fp_optcnt" u8;
   fld "fp_wscale" u8;
   fld "fp_ttl" u8;
   fld "fp_next" (t_SLIST_ENTRY sys)].
Definition pf_osfp_ioctl : ctype :=
  struct
  [fld "fp_os" pf_osfp_entry;
   fld "fp_tcpopts" u64;
   fld "fp_wsize" u16;
   fld "fp_psize" u16;
   fld "fp_mss" u16;
   fld "fp_flags" u16;
   fld "fp_optcnt" u8;
   fld "fp_wscale" u8;
   fld "fp_ttl" u8;
   fld "fp_getnum" int].
Definition pf_rule_ptr : ctype :=
  union_al 8
  [fld_al "ptr" 8 TPtr;
   fld_al "nr" 8 u32].
Definition pf_rule : ctype :=
  struct
  ([fld "src" pf_rule_addr;
   fld "dst" pf_rule_addr;
   fld "skip" (TArr pf_rule_ptr PF_SKIP_COUNT);
   fld "label" (chars PF_RULE_LABEL_SIZE);
   fld "ifname" (chars (IFNAMSIZ sys));
   fld "qname" (chars PF_QNAME_SIZE);
   fld "pqname" (chars PF_QNAME_SIZE);
   fld "tagname" (chars PF_TAG_NAME_SIZE);
   fld "match_tagname" (chars PF_TAG_NAME_SIZE);
   fld "overload_tblname" (chars PF_TABLE_NAME_SIZE);
   fld "entries" (t_TAILQ_ENTRY sys)] ++
  not_LP64 [fld "_pad" (TArr u32 2)] ++
  [fld "rpool" pf_pool;
   fld "evaluations" u64;
   fld "packets" (TArr u64 2);
   fld "bytes" (TArr u64 2);
   fld "ticket" u64;
   fld "owner" (chars PF_OWNER_NAME_SIZE);
   fld "priority" u32;
   fld_al "kif" 8 TPtr;
   fld_al "anchor" 8 TPtr;
   fld_al "overload_tbl" 8 TPtr;
   fld_al "os_fingerprint" 8 u32;
   fld "rtableid" u32;
   fld "timeout" (TArr u32 PFTM_MAX);
   fld "states" u32;
   fld "max_states" u32;
   fld "src_nodes" u32;
   fld "max_src_nodes" u32;
   fld "max_src_states" u32;
   fld "max_src_conn" u32;
   fld "max_src_conn_rate" (struct [fld "limit" u32; fld "seconds" u32]);
   fld "qid" u32;
   fld "pqid" u32;
   fld "rt_listid" u32;
   fld "nr" u32;
   fld "prob" u32;
   fld "cuid" (t_uid_t sys);
   fld "cpid" (t_pid_t sys);
   fld "return_icmp" u16;
   fld "return_icmp6" u16;
   fld "max_mss" u16;
   fld "tag" u16;
   fld "match_tag" u16;
   fld "uid" pf_rule_uid;
   fld "gid" pf_rule_gid;
   fld "rule_flag" u32;
   fld "action" u8;
   fld "direction" u8;
   fld "log" u8;
   fld "logif" u8;
   fld "quick" u8;
   fld "ifnot" u8;
   fld "match_tag_not" u8;
   fld "natpass" u8;
   fld "keep_state" u8;
   fld "af" (t_sa_family_t sys);
   fld "proto" u8;
   fld "type" u8;
   fld "code" u8;
   fld "flags" u8;
   fld "flagset" u8;
   fld "min_ttl" u8;
   fld "allow_opts" u8;
   fld "rt" u8;
   fld "return_ttl" u8;
   fld "tos" u8;
   fld "anchor_relative" u8;
   fld "anchor_wildcard" u8;
   fld "flush" u8;
   fld "proto_variant" u8;
   fld "extfilter" u8;
   fld "extmap" u8;
   fld "dnpipe" u32;
   fld "dntype" u32]).
(** * States *)

Definition pf_threshold : ctype :=
  struct
  [fld "limit" u32;
   fld "seconds" u32;
   fld "count" u32;
   fld "last" u32].
Definition pf_src_node : ctype :=
  struct
  [fld "entry" RB_ENTRY;
   fld "addr" pf_addr;
   fld "raddr" pf_addr;
   fld "rule" pf_rule_ptr;
   fld "kif" TPtr;
   fld "bytes" (TArr u64 2);
   fld "packets" (TArr u64 2);
   fld "states" u32;
   fld "conn" u32;
   fld "conn_rate" pf_threshold;
   fld "creation" u64;
   fld "expire" u64;
   fld "af" (t_sa_family_t sys);
   fld "ruletype" u8].
Definition pf_state_xport : ctype :=
  union
  [fld "port" u16;
   fld "call_id" u16;
   fld "spi" u32].
Definition pf_state_host : ctype :=
  struct
  [fld "addr" pf_addr;
   fld "xport" pf_state_xport].
Definition pf_state_peer : ctype :=
  struct
  [fld "seqlo" u32;
   fld "seqhi" u32;
   fld "seqdiff" u32;
   fld "max_win" u16;
   fld "state" u8;
   fld "wscale" u8;
   fld "mss" u16;
   fld "tcp_est" u8;
   fld "scrub" TPtr;
   fld "pad" (TArr u8 3)].
Definition pf_state_key_cmp : ctype :=
  struct
  [fld "lan" pf_state_host;
   fld "gwy" pf_state_host;
   fld "ext_lan" pf_state_host;
   fld "ext_gwy" pf_state_host;
   fld "af_lan" (t_sa_family_t sys);
   fld "af_gwy" (t_sa_family_t sys);
   fld "proto" u8;
   fld "direction" u8;
   fld "proto_variant" u8;
   fld "app_state" TPtr].
Definition pf_state_key : ctype :=
  struct
  [fld "lan" pf_state_host;
   fld "gwy" pf_state_host;
   fld "ext_lan" pf_state_host;
   fld "ext_gwy" pf_state_host;
   fld "af_lan" (t_sa_family_t sys);
   fld "af_gwy" (t_sa_family_t sys);
   fld "proto" u8;
   fld "direction" u8;
   fld "proto_variant" u8;
   fld "app_state" TPtr;
   fld "flowsrc" u32;
   fld "flowhash" u32;
   fld "entry_lan_ext" RB_ENTRY;
   fld "entry_ext_gwy" RB_ENTRY;
   fld "states" (t_TAILQ_HEAD sys);
   fld "refcnt" u32].
Definition pf_state_cmp : ctype :=
  struct
  [fld "id" u64;
   fld "creatorid" u32;
   fld "pad" u32].
Definition pf_flowhash_key : ctype :=
  struct
  [fld "ap1" pf_state_host;
   fld "ap2" pf_state_host;
   fld "af" u32;
   fld "proto" u32].
Definition pf_state : ctype :=
  struct
  [fld "id" u64;
   fld "creatorid" u32;
   fld "pad" u32;
   fld "entry_list" (t_TAILQ_ENTRY sys);
   fld "next" (t_TAILQ_ENTRY sys);
   fld "entry_id" RB_ENTRY;
   fld "src" pf_state_peer;
   fld "dst" pf_state_peer;
   fld "rule" pf_rule_ptr;
   fld "anchor" pf_rule_ptr;
   fld "nat_rule" pf_rule_ptr;
   fld "rt_addr" pf_addr;
   fld "unlink_hooks" (t_TAILQ_HEAD sys);
   fld "state_key" TPtr;
   fld "kif" TPtr;
   fld "rt_kif" TPtr;
   fld "src_node" TPtr;
   fld "nat_src_node" TPtr;
   fld "packets" (TArr u64 2);
   fld "bytes" (TArr u64 2);
   fld "creation" u64;
   fld "expire" u64;
   fld "pfsync_time" u64;
   fld "tag" u16;
   fld "log" u8;
   fld "allow_opts" u8;
   fld "timeout" u8;
   fld "sync_flags" u8].
(** * States as the kernel gives them to programs, packed *)

Definition pfsync_state_scrub : ctype :=
  struct_packed
  [fld "pfss_flags" u16;
   fld "pfss_ttl" u8;
   fld "scrub_flag" u8;
   fld "pfss_ts_mod" u32].
Definition pfsync_state_host : ctype :=
  struct_packed
  [fld "addr" pf_addr;
   fld "xport" pf_state_xport;
   fld "pad" (TArr u16 2)].
Definition pfsync_state_peer : ctype :=
  struct_packed
  [fld "scrub" pfsync_state_scrub;
   fld "seqlo" u32;
   fld "seqhi" u32;
   fld "seqdiff" u32;
   fld "max_win" u16;
   fld "mss" u16;
   fld "state" u8;
   fld "wscale" u8;
   fld "pad" (TArr u8 6)].
Definition pfsync_state : ctype :=
  struct_packed
  ([fld "id" (TArr u32 2);
   fld "ifname" (chars (IFNAMSIZ sys));
   fld "lan" pfsync_state_host;
   fld "gwy" pfsync_state_host;
   fld "ext_lan" pfsync_state_host;
   fld "ext_gwy" pfsync_state_host;
   fld "src" pfsync_state_peer;
   fld "dst" pfsync_state_peer;
   fld "rt_addr" pf_addr;
   fld "unlink_hooks" (t_TAILQ_HEAD sys)] ++
  not_LP64 [fld "_pad" (TArr u32 2)] ++
  [fld "rule" u32;
   fld "anchor" u32;
   fld "nat_rule" u32;
   fld "creation" u64;
   fld "expire" u64;
   fld "packets" (TArr (TArr u32 2) 2);
   fld "bytes" (TArr (TArr u32 2) 2);
   fld "creatorid" u32;
   fld "tag" u16;
   fld "af_lan" (t_sa_family_t sys);
   fld "af_gwy" (t_sa_family_t sys);
   fld "proto" u8;
   fld "direction" u8;
   fld "log" u8;
   fld "allow_opts" u8;
   fld "timeout" u8;
   fld "sync_flags" u8;
   fld "updates" u8;
   fld "proto_variant" u8;
   fld "__pad" u8;
   fld "flowhash" u32]).
(** * Rule sets, anchors, tables, interfaces *)

(** The anonymous structure of [active] and [inactive]. *)
Definition ruleset_part : ctype :=
  struct [fld "ptr" TPtr; fld "ptr_array" TPtr; fld "rcount" u32; fld "ticket" u32; fld "open" int].
Definition pf_ruleset : ctype :=
  struct
  [fld "rules" (TArr (struct [fld "queues" (TArr (t_TAILQ_HEAD sys) 2); fld "active" ruleset_part; fld "inactive" ruleset_part]) PF_RULESET_MAX);
   fld "anchor" TPtr;
   fld "tticket" u32;
   fld "tables" int;
   fld "topen" int].
Definition pf_anchor : ctype :=
  struct
  [fld "entry_global" RB_ENTRY;
   fld "entry_node" RB_ENTRY;
   fld "parent" TPtr;
   fld "children" RB_HEAD;
   fld "name" (chars PF_ANCHOR_NAME_SIZE);
   fld "path" (chars (MAXPATHLEN sys));
   fld "ruleset" pf_ruleset;
   fld "refcnt" int;
   fld "match" int;
   fld "owner" (chars PF_OWNER_NAME_SIZE)].
Definition pfr_table : ctype :=
  struct
  [fld "pfrt_anchor" (chars (MAXPATHLEN sys));
   fld "pfrt_name" (chars PF_TABLE_NAME_SIZE);
   fld "pfrt_flags" u32;
   fld "pfrt_fback" u8].
Definition pfr_addr : ctype :=
  struct
  [fld "pfra_u" (union [fld "_pfra_ip4addr" (t_in_addr sys); fld "_pfra_ip6addr" (t_in6_addr sys)]);
   fld "pfra_af" u8;
   fld "pfra_net" u8;
   fld "pfra_not" u8;
   fld "pfra_fback" u8].
Definition pfr_astats : ctype :=
  struct
  ([fld "pfras_a" pfr_addr] ++
  not_LP64 [fld "_pad" u32] ++
  [fld "pfras_packets" (TArr (TArr u64 PFR_OP_ADDR_MAX) PFR_DIR_MAX);
   fld "pfras_bytes" (TArr (TArr u64 PFR_OP_ADDR_MAX) PFR_DIR_MAX);
   fld "pfras_tzero" u64]).
Definition pfr_tstats : ctype :=
  struct
  ([fld "pfrts_t" pfr_table;
   fld "pfrts_packets" (TArr (TArr u64 PFR_OP_TABLE_MAX) PFR_DIR_MAX);
   fld "pfrts_bytes" (TArr (TArr u64 PFR_OP_TABLE_MAX) PFR_DIR_MAX);
   fld "pfrts_match" u64;
   fld "pfrts_nomatch" u64;
   fld "pfrts_tzero" u64;
   fld "pfrts_cnt" int;
   fld "pfrts_refcnt" (TArr int PFR_REFCNT_MAX)] ++
  not_LP64 [fld "_pad" u32]).
Definition pfi_kif_cmp : ctype :=
  struct
  [fld "pfik_name" (chars (IFNAMSIZ sys))].
(** [struct pfi_kif] of the kernel; programs have [pfi_uif] under this name. *)
Definition pfi_kif_kernel : ctype :=
  struct
  [fld "pfik_name" (chars (IFNAMSIZ sys));
   fld "pfik_tree" RB_ENTRY;
   fld "pfik_packets" (TArr (TArr (TArr u64 2) 2) 2);
   fld "pfik_bytes" (TArr (TArr (TArr u64 2) 2) 2);
   fld "pfik_tzero" u64;
   fld "pfik_flags" int;
   fld "pfik_ah_cookie" TPtr;
   fld "pfik_ifp" TPtr;
   fld "pfik_states" int;
   fld "pfik_rules" int;
   fld "pfik_dynaddrs" (t_TAILQ_HEAD sys)].
Definition pfi_uif : ctype :=
  struct
  ([fld "pfik_name" (chars (IFNAMSIZ sys));
   fld "pfik_packets" (TArr (TArr (TArr u64 2) 2) 2);
   fld "pfik_bytes" (TArr (TArr (TArr u64 2) 2) 2);
   fld "pfik_tzero" u64;
   fld "pfik_flags" int;
   fld "pfik_states" int;
   fld "pfik_rules" int] ++
  not_LP64 [fld "_pad" u32]).
(** * Status and queues *)

Definition pf_status : ctype :=
  struct
  [fld "counters" (TArr u64 PFRES_MAX);
   fld "lcounters" (TArr u64 LCNT_MAX);
   fld "fcounters" (TArr u64 FCNT_MAX);
   fld "scounters" (TArr u64 SCNT_MAX);
   fld "pcounters" (TArr (TArr (TArr u64 3) 2) 2);
   fld "bcounters" (TArr (TArr u64 2) 2);
   fld "stateid" u64;
   fld "running" u32;
   fld "states" u32;
   fld "src_nodes" u32;
   fld_al "since" 8 u64;
   fld "debug" u32;
   fld "hostid" u32;
   fld "ifname" (chars (IFNAMSIZ sys));
   fld "pf_chksum" (TArr u8 PF_MD5_DIGEST_LENGTH)].
Definition cbq_opts : ctype :=
  struct
  [fld "minburst" u32;
   fld "maxburst" u32;
   fld "pktsize" u32;
   fld "maxpktsize" u32;
   fld "ns_per_byte" u32;
   fld "maxidle" u32;
   fld "minidle" int;
   fld "offtime" u32;
   fld "flags" u32].
Definition priq_opts : ctype :=
  struct
  [fld "flags" u32].
Definition qfq_opts : ctype :=
  struct
  [fld "flags" u32;
   fld "lmax" u32].
Definition hfsc_opts : ctype :=
  struct
  ([fld "rtsc_m1" u64;
   fld "rtsc_d" u64;
   fld "rtsc_m2" u64;
   fld "rtsc_fl" u32] ++
  not_LP64 [fld "_pad" u32] ++
  [fld "lssc_m1" u64;
   fld "lssc_d" u64;
   fld "lssc_m2" u64;
   fld "lssc_fl" u32] ++
  not_LP64 [fld "__pad" u32] ++
  [fld "ulsc_m1" u64;
   fld "ulsc_d" u64;
   fld "ulsc_m2" u64;
   fld "ulsc_fl" u32;
   fld "flags" u32]).
Definition fairq_opts : ctype :=
  struct
  [fld "nbuckets" u32;
   fld "flags" u32;
   fld "hogs_m1" u64;
   fld "lssc_m1" u64;
   fld "lssc_d" u64;
   fld "lssc_m2" u64].
Definition pf_altq : ctype :=
  struct
  ([fld "ifname" (chars (IFNAMSIZ sys));
   fld_al "altq_disc" 8 TPtr;
   fld_al "entries" 8 (t_TAILQ_ENTRY sys)] ++
  not_LP64 [fld "_pad" (TArr u32 2)] ++
  [fld "aflags" u32;
   fld "bwtype" u32;
   fld "scheduler" u32;
   fld "tbrsize" u32;
   fld "ifbandwidth" u64;
   fld "qname" (chars PF_QNAME_SIZE);
   fld "parent" (chars PF_QNAME_SIZE);
   fld "parent_qid" u32;
   fld "qrflags" u32;
   fld "" (union [fld "priority" u32; fld "weight" u32]);
   fld "qlimit" u32;
   fld "flags" u32] ++
  not_LP64 [fld "__pad" u32] ++
  [fld "bandwidth" u64;
   fld "pq_u" (union [fld "cbq_opts" cbq_opts; fld "priq_opts" priq_opts; fld "hfsc_opts" hfsc_opts; fld "fairq_opts" fairq_opts; fld "qfq_opts" qfq_opts]);
   fld "qid" u32]).
Definition pf_tagname : ctype :=
  struct
  [fld "entries" (t_TAILQ_ENTRY sys);
   fld "name" (chars PF_TAG_NAME_SIZE);
   fld "tag" u16;
   fld "ref" int].
(** * Parameters of the requests; the variants [_32] and [_64] are those the
    kernel has for programs of the other data model *)

Definition pfioc_pooladdr : ctype :=
  struct
  [fld "action" u32;
   fld "ticket" u32;
   fld "nr" u32;
   fld "r_num" u32;
   fld "r_action" u8;
   fld "r_last" u8;
   fld "af" u8;
   fld "anchor" (chars (MAXPATHLEN sys));
   fld "addr" pf_pooladdr].
Definition pfioc_rule : ctype :=
  struct
  [fld "action" u32;
   fld "ticket" u32;
   fld "pool_ticket" u32;
   fld "nr" u32;
   fld "anchor" (chars (MAXPATHLEN sys));
   fld "anchor_call" (chars (MAXPATHLEN sys));
   fld "rule" pf_rule].
Definition pfioc_natlook : ctype :=
  struct
  [fld "saddr" pf_addr;
   fld "daddr" pf_addr;
   fld "rsaddr" pf_addr;
   fld "rdaddr" pf_addr;
   fld "sxport" pf_state_xport;
   fld "dxport" pf_state_xport;
   fld "rsxport" pf_state_xport;
   fld "rdxport" pf_state_xport;
   fld "af" (t_sa_family_t sys);
   fld "proto" u8;
   fld "proto_variant" u8;
   fld "direction" u8].
Definition pfioc_state : ctype :=
  struct
  [fld "state" pfsync_state].
Definition pfioc_src_node_kill : ctype :=
  struct
  [fld "psnk_af" (t_sa_family_t sys);
   fld "psnk_src" pf_rule_addr;
   fld "psnk_dst" pf_rule_addr].
Definition pfioc_state_addr_kill : ctype :=
  struct
  [fld "addr" pf_addr_wrap;
   fld "reserved_" (TArr u8 3);
   fld "neg" u8;
   fld "xport" pf_rule_xport].
Definition pfioc_state_kill : ctype :=
  struct
  [fld "psk_af" (t_sa_family_t sys);
   fld "psk_proto" u8;
   fld "psk_proto_variant" u8;
   fld "_pad" u8;
   fld "psk_src" pfioc_state_addr_kill;
   fld "psk_dst" pfioc_state_addr_kill;
   fld "psk_ifname" (chars (IFNAMSIZ sys));
   fld "psk_ownername" (chars PF_OWNER_NAME_SIZE)].
Definition pfioc_states : ctype :=
  struct
  [fld "ps_len" int;
   fld_al "ps_u" 8 (union [fld "psu_buf" TPtr; fld "psu_states" TPtr])].
Definition pfioc_states_32 : ctype :=
  struct
  [fld "ps_len" int;
   fld_al "ps_u" 8 (union [fld "psu_buf" (t_user32_addr_t sys); fld "psu_states" (t_user32_addr_t sys)])].
Definition pfioc_states_64 : ctype :=
  struct
  [fld "ps_len" int;
   fld_al "ps_u" 8 (union [fld "psu_buf" (t_user64_addr_t sys); fld "psu_states" (t_user64_addr_t sys)])].
Definition pfioc_token : ctype :=
  struct_packed
  [fld "token_value" u64;
   fld "timestamp" u64;
   fld "pid" (t_pid_t sys);
   fld "proc_name" (chars PFTOK_PROCNAME_LEN)].
Definition pfioc_kernel_token : ctype :=
  struct
  [fld "next" (t_SLIST_ENTRY sys);
   fld "token" pfioc_token].
Definition pfioc_remove_token : ctype :=
  struct
  [fld "token_value" u64;
   fld "refcount" u64].
Definition pfioc_tokens : ctype :=
  struct
  [fld "size" int;
   fld_al "pgt_u" 8 (union [fld "pgtu_buf" TPtr; fld "pgtu_tokens" TPtr])].
Definition pfioc_tokens_32 : ctype :=
  struct
  [fld "size" int;
   fld_al "pgt_u" 8 (union [fld "pgtu_buf" (t_user32_addr_t sys); fld "pgtu_tokens" (t_user32_addr_t sys)])].
Definition pfioc_tokens_64 : ctype :=
  struct
  [fld "size" int;
   fld_al "pgt_u" 8 (union [fld "pgtu_buf" (t_user64_addr_t sys); fld "pgtu_tokens" (t_user64_addr_t sys)])].
Definition pfioc_src_nodes : ctype :=
  struct
  [fld "psn_len" int;
   fld_al "psn_u" 8 (union [fld "psu_buf" TPtr; fld "psu_src_nodes" TPtr])].
Definition pfioc_src_nodes_32 : ctype :=
  struct
  [fld "psn_len" int;
   fld_al "psn_u" 8 (union [fld "psu_buf" (t_user32_addr_t sys); fld "psu_src_nodes" (t_user32_addr_t sys)])].
Definition pfioc_src_nodes_64 : ctype :=
  struct
  [fld "psn_len" int;
   fld_al "psn_u" 8 (union [fld "psu_buf" (t_user64_addr_t sys); fld "psu_src_nodes" (t_user64_addr_t sys)])].
Definition pfioc_if : ctype :=
  struct
  [fld "ifname" (chars (IFNAMSIZ sys))].
Definition pfioc_tm : ctype :=
  struct
  [fld "timeout" int;
   fld "seconds" int].
Definition pfioc_limit : ctype :=
  struct
  [fld "index" int;
   fld "limit" u32].
Definition pfioc_altq : ctype :=
  struct
  [fld "action" u32;
   fld "ticket" u32;
   fld "nr" u32;
   fld_al "altq" 8 pf_altq].
Definition pfioc_qstats : ctype :=
  struct
  [fld "ticket" u32;
   fld "nr" u32;
   fld_al "buf" 8 TPtr;
   fld_al "nbytes" 8 int;
   fld "scheduler" u8].
Definition pfioc_ruleset : ctype :=
  struct
  [fld "nr" u32;
   fld "path" (chars (MAXPATHLEN sys));
   fld "name" (chars PF_ANCHOR_NAME_SIZE)].
Definition pfioc_trans_e : ctype :=
  struct
  [fld "rs_num" int;
   fld "anchor" (chars (MAXPATHLEN sys));
   fld "ticket" u32].
Definition pfioc_trans : ctype :=
  struct
  [fld "size" int;
   fld "esize" int;
   fld_al "array" 8 TPtr].
Definition pfioc_trans_32 : ctype :=
  struct
  [fld "size" int;
   fld "esize" int;
   fld_al "array" 8 (t_user32_addr_t sys)].
Definition pfioc_trans_64 : ctype :=
  struct
  [fld "size" int;
   fld "esize" int;
   fld_al "array" 8 (t_user64_addr_t sys)].
Definition pfioc_table : ctype :=
  struct
  [fld "pfrio_table" pfr_table;
   fld_al "pfrio_buffer" 8 TPtr;
   fld_al "pfrio_esize" 8 int;
   fld "pfrio_size" int;
   fld "pfrio_size2" int;
   fld "pfrio_nadd" int;
   fld "pfrio_ndel" int;
   fld "pfrio_nchange" int;
   fld "pfrio_flags" int;
   fld "pfrio_ticket" u32].
Definition pfioc_table_32 : ctype :=
  struct
  [fld "pfrio_table" pfr_table;
   fld_al "pfrio_buffer" 8 (t_user32_addr_t sys);
   fld_al "pfrio_esize" 8 int;
   fld "pfrio_size" int;
   fld "pfrio_size2" int;
   fld "pfrio_nadd" int;
   fld "pfrio_ndel" int;
   fld "pfrio_nchange" int;
   fld "pfrio_flags" int;
   fld "pfrio_ticket" u32].
Definition pfioc_table_64 : ctype :=
  struct
  [fld "pfrio_table" pfr_table;
   fld_al "pfrio_buffer" 8 (t_user64_addr_t sys);
   fld_al "pfrio_esize" 8 int;
   fld "pfrio_size" int;
   fld "pfrio_size2" int;
   fld "pfrio_nadd" int;
   fld "pfrio_ndel" int;
   fld "pfrio_nchange" int;
   fld "pfrio_flags" int;
   fld "pfrio_ticket" u32].
Definition pfioc_iface : ctype :=
  struct
  [fld "pfiio_name" (chars (IFNAMSIZ sys));
   fld_al "pfiio_buffer" 8 TPtr;
   fld_al "pfiio_esize" 8 int;
   fld "pfiio_size" int;
   fld "pfiio_nzero" int;
   fld "pfiio_flags" int].
Definition pfioc_iface_32 : ctype :=
  struct
  [fld "pfiio_name" (chars (IFNAMSIZ sys));
   fld_al "pfiio_buffer" 8 (t_user32_addr_t sys);
   fld_al "pfiio_esize" 8 int;
   fld "pfiio_size" int;
   fld "pfiio_nzero" int;
   fld "pfiio_flags" int].
Definition pfioc_iface_64 : ctype :=
  struct
  [fld "pfiio_name" (chars (IFNAMSIZ sys));
   fld_al "pfiio_buffer" 8 (t_user64_addr_t sys);
   fld_al "pfiio_esize" 8 int;
   fld "pfiio_size" int;
   fld "pfiio_nzero" int;
   fld "pfiio_flags" int].
Definition pf_ifspeed : ctype :=
  struct
  [fld "ifname" (chars (IFNAMSIZ sys));
   fld "baudrate" u64].

(** * The requests of [/dev/pf] *)

(** ['D']. *)
Definition group_D : Z := 0x44.

(** The macro a request is defined with, and the type of its parameter. *)
Inductive request := R_IO | R_IOR (t : ctype) | R_IOWR (t : ctype).
Definition request_number (num : Z) (r : request) : Z :=
  match r with
  | R_IO => _IO group_D num
  | R_IOR t => _IOR a group_D num t
  | R_IOWR t => _IOWR a group_D num t
  end.

Definition requests : list (string * (Z * request)) :=
  [("DIOCSTART", (1, R_IO));
   ("DIOCSTOP", (2, R_IO));
   ("DIOCADDRULE", (4, R_IOWR pfioc_rule));
   ("DIOCGETSTARTERS", (5, R_IOWR pfioc_tokens));
   ("DIOCGETRULES", (6, R_IOWR pfioc_rule));
   ("DIOCGETRULE", (7, R_IOWR pfioc_rule));
   ("DIOCSTARTREF", (8, R_IOR u64));
   ("DIOCSTOPREF", (9, R_IOWR pfioc_remove_token));
   ("DIOCCLRSTATES", (18, R_IOWR pfioc_state_kill));
   ("DIOCGETSTATE", (19, R_IOWR pfioc_state));
   ("DIOCSETSTATUSIF", (20, R_IOWR pfioc_if));
   ("DIOCGETSTATUS", (21, R_IOWR pf_status));
   ("DIOCCLRSTATUS", (22, R_IO));
   ("DIOCNATLOOK", (23, R_IOWR pfioc_natlook));
   ("DIOCSETDEBUG", (24, R_IOWR u32));
   ("DIOCGETSTATES", (25, R_IOWR pfioc_states));
   ("DIOCCHANGERULE", (26, R_IOWR pfioc_rule));
   ("DIOCINSERTRULE", (27, R_IOWR pfioc_rule));
   ("DIOCDELETERULE", (28, R_IOWR pfioc_rule));
   ("DIOCSETTIMEOUT", (29, R_IOWR pfioc_tm));
   ("DIOCGETTIMEOUT", (30, R_IOWR pfioc_tm));
   ("DIOCADDSTATE", (37, R_IOWR pfioc_state));
   ("DIOCCLRRULECTRS", (38, R_IO));
   ("DIOCGETLIMIT", (39, R_IOWR pfioc_limit));
   ("DIOCSETLIMIT", (40, R_IOWR pfioc_limit));
   ("DIOCKILLSTATES", (41, R_IOWR pfioc_state_kill));
   ("DIOCSTARTALTQ", (42, R_IO));
   ("DIOCSTOPALTQ", (43, R_IO));
   ("DIOCADDALTQ", (45, R_IOWR pfioc_altq));
   ("DIOCGETALTQS", (47, R_IOWR pfioc_altq));
   ("DIOCGETALTQ", (48, R_IOWR pfioc_altq));
   ("DIOCCHANGEALTQ", (49, R_IOWR pfioc_altq));
   ("DIOCGETQSTATS", (50, R_IOWR pfioc_qstats));
   ("DIOCBEGINADDRS", (51, R_IOWR pfioc_pooladdr));
   ("DIOCADDADDR", (52, R_IOWR pfioc_pooladdr));
   ("DIOCGETADDRS", (53, R_IOWR pfioc_pooladdr));
   ("DIOCGETADDR", (54, R_IOWR pfioc_pooladdr));
   ("DIOCCHANGEADDR", (55, R_IOWR pfioc_pooladdr));
   ("DIOCGETRULESETS", (58, R_IOWR pfioc_ruleset));
   ("DIOCGETRULESET", (59, R_IOWR pfioc_ruleset));
   ("DIOCRCLRTABLES", (60, R_IOWR pfioc_table));
   ("DIOCRADDTABLES", (61, R_IOWR pfioc_table));
   ("DIOCRDELTABLES", (62, R_IOWR pfioc_table));
   ("DIOCRGETTABLES", (63, R_IOWR pfioc_table));
   ("DIOCRGETTSTATS", (64, R_IOWR pfioc_table));
   ("DIOCRCLRTSTATS", (65, R_IOWR pfioc_table));
   ("DIOCRCLRADDRS", (66, R_IOWR pfioc_table));
   ("DIOCRADDADDRS", (67, R_IOWR pfioc_table));
   ("DIOCRDELADDRS", (68, R_IOWR pfioc_table));
   ("DIOCRSETADDRS", (69, R_IOWR pfioc_table));
   ("DIOCRGETADDRS", (70, R_IOWR pfioc_table));
   ("DIOCRGETASTATS", (71, R_IOWR pfioc_table));
   ("DIOCRCLRASTATS", (72, R_IOWR pfioc_table));
   ("DIOCRTSTADDRS", (73, R_IOWR pfioc_table));
   ("DIOCRSETTFLAGS", (74, R_IOWR pfioc_table));
   ("DIOCRINADEFINE", (77, R_IOWR pfioc_table));
   ("DIOCOSFPFLUSH", (78, R_IO));
   ("DIOCOSFPADD", (79, R_IOWR pf_osfp_ioctl));
   ("DIOCOSFPGET", (80, R_IOWR pf_osfp_ioctl));
   ("DIOCXBEGIN", (81, R_IOWR pfioc_trans));
   ("DIOCXCOMMIT", (82, R_IOWR pfioc_trans));
   ("DIOCXROLLBACK", (83, R_IOWR pfioc_trans));
   ("DIOCGETSRCNODES", (84, R_IOWR pfioc_src_nodes));
   ("DIOCCLRSRCNODES", (85, R_IO));
   ("DIOCSETHOSTID", (86, R_IOWR u32));
   ("DIOCIGETIFACES", (87, R_IOWR pfioc_iface));
   ("DIOCSETIFFLAG", (89, R_IOWR pfioc_iface));
   ("DIOCCLRIFFLAG", (90, R_IOWR pfioc_iface));
   ("DIOCKILLSRCNODES", (91, R_IOWR pfioc_src_node_kill));
   ("DIOCGIFSPEED", (92, R_IOWR pf_ifspeed))].

Definition request_numbers : list (string * Z) :=
  (fun '(name, (num, r)) => (name, request_number num r)) <$> requests.

Definition DIOCNATLOOK : Z := _IOWR a group_D 23 pfioc_natlook.

(** The types of the objects that a program and the kernel exchange: the parameters
    of the requests, by the names of these, and the elements of the arrays that
    parameters point to. *)
Definition parameters : list (string * ctype) :=
  omap (fun '(name, (_, r)) => match r with R_IO => None | R_IOR t | R_IOWR t => Some (name, t) end) requests.
Definition array_elements : list (string * ctype) :=
  [("pfsync_state", pfsync_state); ("pfioc_token", pfioc_token); ("pf_src_node", pf_src_node);
   ("pfioc_trans_e", pfioc_trans_e); ("pfr_table", pfr_table); ("pfr_addr", pfr_addr);
   ("pfr_astats", pfr_astats); ("pfr_tstats", pfr_tstats); ("pfi_kif", pfi_uif)].
Definition exchanged : list (string * ctype) := (parameters ++ array_elements)%list.
End Pfvar.
