(* ===== verification/PfMacros.v ===== *)
(** The macros of [originaldest/darwin/include/net/pfvar.h] that compute: address
    comparison and masking, the packed fingerprints of operating systems, the
    conversions between the states of the kernel and those of [pfsync], and the
    statistics of [REASON_SET]. Unsigned C integers are [Z] in their range. *)

From stdpp Require Import base list strings.
From Stdlib Require Import ZArith Lia.
From S2P Require Import Prelude CLayout Pfvar.

(** * Byte order *)

Inductive byte_order := LittleEndian | BigEndian.

(** The bytes of an integer in the opposite order. *)
Definition bswap16 (x : Z) : Z := x mod 2 ^ 8 * 2 ^ 8 + x / 2 ^ 8 mod 2 ^ 8.
Definition bswap32 (x : Z) : Z :=
  x mod 2 ^ 8 * 2 ^ 24 + x / 2 ^ 8 mod 2 ^ 8 * 2 ^ 16 +
  x / 2 ^ 16 mod 2 ^ 8 * 2 ^ 8 + x / 2 ^ 24 mod 2 ^ 8.
Definition ntohs (o : byte_order) (x : Z) : Z :=
  match o with LittleEndian => bswap16 x | BigEndian => x end.
Definition ntohl (o : byte_order) (x : Z) : Z :=
  match o with LittleEndian => bswap32 x | BigEndian => x end.
Definition htonl : byte_order -> Z -> Z := ntohl.

(** * Addresses *)

(** [struct pf_addr], seen as [addr32]. *)
Record addr := Addr { addr32_0 : Z; addr32_1 : Z; addr32_2 : Z; addr32_3 : Z }.

#[export] Instance addr_eq_dec : EqDecision addr.
Proof. solve_decision. Defined.

Definition addr_ok (a : addr) : Prop :=
  0 <= addr32_0 a < 2 ^ 32 /\ 0 <= addr32_1 a < 2 ^ 32 /\
  0 <= addr32_2 a < 2 ^ 32 /\ 0 <= addr32_3 a < 2 ^ 32.

Section Addresses.
(** [AF_INET] of [sys/socket.h]. *)
Context (AF_INET : Z).
Implicit Types a b c d : addr.

(** With both families ([PF_INET_INET6]); programs always have this variant. *)
Definition PF_AEQ a b (f : Z) : bool :=
  ((f =? AF_INET) && (addr32_0 a =? addr32_0 b)) ||
  ((addr32_3 a =? addr32_3 b) && (addr32_2 a =? addr32_2 b) &&
   (addr32_1 a =? addr32_1 b) && (addr32_0 a =? addr32_0 b)).
Definition PF_ANEQ a b (f : Z) : bool :=
  ((f =? AF_INET) && negb (addr32_0 a =? addr32_0 b)) ||
  (negb (addr32_3 a =? addr32_3 b) || negb (addr32_2 a =? addr32_2 b) ||
   negb (addr32_1 a =? addr32_1 b) || negb (addr32_0 a =? addr32_0 b)).
Definition PF_ALEQ a b (f : Z) : bool :=
  ((f =? AF_INET) && (addr32_0 a <=? addr32_0 b)) ||
  ((addr32_3 a <=? addr32_3 b) && (addr32_2 a <=? addr32_2 b) &&
   (addr32_1 a <=? addr32_1 b) && (addr32_0 a <=? addr32_0 b)).
Definition PF_AZERO a (f : Z) : bool :=
  ((f =? AF_INET) && (addr32_0 a =? 0)) ||
  ((addr32_0 a =? 0) && (addr32_1 a =? 0) && (addr32_2 a =? 0) && (addr32_3 a =? 0)).

(** Only IPv6 ([PF_INET6_ONLY]). *)
Definition PF_AEQ_6 a b : bool :=
  (addr32_3 a =? addr32_3 b) && (addr32_2 a =? addr32_2 b) &&
  (addr32_1 a =? addr32_1 b) && (addr32_0 a =? addr32_0 b).
Definition PF_ANEQ_6 a b : bool :=
  negb (addr32_3 a =? addr32_3 b) || negb (addr32_2 a =? addr32_2 b) ||
  negb (addr32_1 a =? addr32_1 b) || negb (addr32_0 a =? addr32_0 b).
Definition PF_ALEQ_6 a b : bool :=
  (addr32_3 a <=? addr32_3 b) && (addr32_2 a <=? addr32_2 b) &&
  (addr32_1 a <=? addr32_1 b) && (addr32_0 a <=? addr32_0 b).
Definition PF_AZERO_6 a : bool :=
  (addr32_0 a =? 0) && (addr32_1 a =? 0) && (addr32_2 a =? 0) && (addr32_3 a =? 0).

(** Only IPv4 ([PF_INET_ONLY]). *)
Definition PF_AEQ_4 a b : bool := addr32_0 a =? addr32_0 b.
Definition PF_ANEQ_4 a b : bool := negb (addr32_0 a =? addr32_0 b).
Definition PF_ALEQ_4 a b : bool := addr32_0 a <=? addr32_0 b.
Definition PF_AZERO_4 a : bool := addr32_0 a =? 0.
Definition set_addr32_0 (v : Z) a : addr := Addr v (addr32_1 a) (addr32_2 a) (addr32_3 a).
Definition PF_AINC_4 (o : byte_order) a : addr :=
  set_addr32_0 (htonl o ((ntohl o (addr32_0 a) + 1) mod 2 ^ 32)) a.
Definition PF_POOLMASK_4 a b c d : addr :=
  set_addr32_0
    (Z.lor (Z.land (addr32_0 b) (addr32_0 c))
       (Z.land (Z.lxor (addr32_0 c) 0xffffffff) (addr32_0 d))) a.

(** ** [PF_MISMATCHAW] *)

(** [type] of [struct pf_addr_wrap]. *)
Inductive addr_type :=
  | PF_ADDR_ADDRMASK | PF_ADDR_NOROUTE | PF_ADDR_DYNIFTL | PF_ADDR_TABLE
  | PF_ADDR_RTLABEL | PF_ADDR_URPFFAILED | PF_ADDR_RANGE.

#[export] Instance addr_type_eq_dec : EqDecision addr_type.
Proof. solve_decision. Defined.

(** [struct pf_addr_wrap]: the members of [v.a], and the pointers of [p]. *)
Record addr_wrap := AddrWrap {
  aw_type : addr_type; aw_addr : addr; aw_mask : addr; aw_tbl : Z; aw_dyn : Z
}.

(** The functions of the kernel that the macro calls; an interface is a pointer. *)
Context (pf_routable : addr -> Z -> Z -> bool)
  (pf_rtlabel_match : addr -> Z -> addr_wrap -> bool)
  (pfr_match_addr : Z -> addr -> Z -> bool)
  (pfi_match_addr : Z -> addr -> Z -> bool)
  (pf_match_addr_range : addr -> addr -> addr -> Z -> bool)
  (pf_match_addr : bool -> addr -> addr -> addr -> Z -> bool).

Definition bool_int (b : bool) : Z := if b then 1 else 0.

Definition PF_MISMATCHAW (aw : addr_wrap) (x : addr) (af neg ifp : Z) : bool :=
  let ty t := bool_decide (aw_type aw = t) in
  negb (bool_int
    ((ty PF_ADDR_NOROUTE && pf_routable x af NULL) ||
     (ty PF_ADDR_URPFFAILED && negb (ifp =? NULL) && pf_routable x af ifp) ||
     (ty PF_ADDR_RTLABEL && negb (pf_rtlabel_match x af aw)) ||
     (ty PF_ADDR_TABLE && negb (pfr_match_addr (aw_tbl aw) x af)) ||
     (ty PF_ADDR_DYNIFTL && negb (pfi_match_addr (aw_dyn aw) x af)) ||
     (ty PF_ADDR_RANGE && negb (pf_match_addr_range (aw_addr aw) (aw_mask aw) x af)) ||
     (ty PF_ADDR_ADDRMASK && negb (PF_AZERO (aw_mask aw) af) &&
      negb (pf_match_addr false (aw_addr aw) (aw_mask aw) x af))) =? neg).
End Addresses.

(** * Fingerprints of operating systems *)

Definition PF_OSFP_ANY : Z := 0.
Definition PF_OSFP_UNKNOWN : Z := -1 mod 2 ^ 32.
Definition PF_OSFP_NOMATCH : Z := -2 mod 2 ^ 32.
Definition _FP_CLASS_BITS : Z := 10.
Definition _FP_VERSION_BITS : Z := 10.
Definition _FP_SUBTYPE_BITS : Z := 10.

(** The class, the version and the subtype. *)
Definition PF_OSFP_UNPACK (osfp : Z) : Z * Z * Z :=
  (Z.land (Z.shiftr osfp (_FP_VERSION_BITS + _FP_SUBTYPE_BITS)) (Z.shiftl 1 _FP_CLASS_BITS - 1),
   Z.land (Z.shiftr osfp _FP_SUBTYPE_BITS) (Z.shiftl 1 _FP_VERSION_BITS - 1),
   Z.land osfp (Z.shiftl 1 _FP_SUBTYPE_BITS - 1)).
Definition PF_OSFP_PACK (class version subtype : Z) : Z :=
  let osfp := Z.shiftl (Z.land class (Z.shiftl 1 _FP_CLASS_BITS - 1))
                (_FP_VERSION_BITS + _FP_SUBTYPE_BITS) in
  let osfp := Z.lor osfp (Z.shiftl (Z.land version (Z.shiftl 1 _FP_VERSION_BITS - 1))
                _FP_SUBTYPE_BITS) in
  Z.lor osfp (Z.land subtype (Z.shiftl 1 _FP_SUBTYPE_BITS - 1)).

(** * Copies of states for [pfsync] *)

Definition PFSS_TIMESTAMP : Z := 0x0001.
Definition PFSYNC_SCRUB_FLAG_VALID : Z := 0x01.

(** The members of [struct pf_state_scrub], [struct pf_state_peer] and
    [struct pfsync_state_peer] that the macros read or write. *)
Record state_scrub := StateScrub { pfss_flags : Z; pfss_ttl : Z; pfss_ts_mod : Z }.
Record state_peer := StatePeer {
  seqlo : Z; seqhi : Z; seqdiff : Z; max_win : Z; mss : Z; state : Z; wscale : Z;
  scrub : option state_scrub
}.
Record pfsync_scrub := PfsyncScrub {
  sync_flags : Z; sync_ttl : Z; sync_scrub_flag : Z; sync_ts_mod : Z
}.
Record pfsync_peer := PfsyncPeer {
  sync_seqlo : Z; sync_seqhi : Z; sync_seqdiff : Z; sync_max_win : Z; sync_mss : Z;
  sync_state : Z; sync_wscale : Z; sync_scrub : pfsync_scrub
}.

Definition pf_state_peer_to_pfsync (s : state_peer) (d : pfsync_peer) : pfsync_peer :=
  PfsyncPeer (seqlo s) (seqhi s) (seqdiff s) (max_win s) (mss s) (state s) (wscale s)
    match scrub s with
    | Some sc =>
        PfsyncScrub (Z.land (pfss_flags sc) PFSS_TIMESTAMP) (pfss_ttl sc)
          PFSYNC_SCRUB_FLAG_VALID (pfss_ts_mod sc)
    | None => sync_scrub d
    end.

Definition pf_state_peer_from_pfsync (o : byte_order) (s : pfsync_peer) (d : state_peer)
    : state_peer :=
  StatePeer (sync_seqlo s) (sync_seqhi s) (sync_seqdiff s) (sync_max_win s)
    (ntohs o (sync_mss s)) (sync_state s) (sync_wscale s)
    match scrub d with
    | Some sc =>
        if sync_scrub_flag (sync_scrub s) =? PFSYNC_SCRUB_FLAG_VALID then
          Some (StateScrub (Z.land (ntohs o (sync_flags (sync_scrub s))) PFSS_TIMESTAMP)
                  (sync_ttl (sync_scrub s)) (sync_ts_mod (sync_scrub s)))
        else Some sc
    | None => None
    end.

(** A 64-bit counter as two 32-bit words, the high one first. *)
Definition pf_state_counter_to_pfsync (s : Z) : Z * Z :=
  (Z.land (Z.shiftr s 32) 0xffffffff, Z.land s 0xffffffff).
Definition pf_state_counter_from_pfsync (s : Z * Z) : Z :=
  Z.lor (Z.shiftl s.1 32 mod 2 ^ 64) s.2.

(** * [ACTION_SET] and [REASON_SET]: [*a = x] unless [a] is null, and the count of
    the reason; the location [a] points to is an [option]. *)

Definition ACTION_SET (a : option Z) (x : Z) : option Z := (fun _ => x) <$> a.
Definition REASON_SET (a : option Z) (x : Z) (counters : list Z) : option Z * list Z :=
  ((fun _ => x) <$> a,
   if x <? PFRES_MAX then alter (fun c => (c + 1) mod 2 ^ 64) (Z.to_nat x) counters
   else counters).

(** * Facts of the bit operations *)

Lemma lor_shiftl_add a b n :
  0 <= n -> 0 <= b < 2 ^ n -> Z.lor (Z.shiftl a n) b = a * 2 ^ n + b.
Proof.
  intros Hn Hb. rewrite <-Z.shiftl_mul_pow2 by done.
  assert (Z.land (Z.shiftl a n) b = 0) as H0.
  { apply Z.bits_inj'. intros i Hi. rewrite Z.land_spec, Z.bits_0.
    destruct (Z.lt_ge_cases i n).
    - by rewrite Z.shiftl_spec_low by done.
    - replace b with (b mod 2 ^ n) by (by apply Z.mod_small).
      rewrite Z.mod_pow2_bits_high by lia. apply andb_false_r. }
  by rewrite Z.add_nocarry_lxor, Z.lxor_lor.
Qed.

Lemma bswap16_range x : 0 <= bswap16 x < 2 ^ 16.
Proof.
  unfold bswap16.
  pose proof (Z.mod_pos_bound x (2 ^ 8)). pose proof (Z.mod_pos_bound (x / 2 ^ 8) (2 ^ 8)). lia.
Qed.

Lemma bswap16_involutive x : 0 <= x < 2 ^ 16 -> bswap16 (bswap16 x) = x.
Proof. unfold bswap16. intros. Z.to_euclidean_division_equations. lia. Qed.

Lemma bswap32_bytes b0 b1 b2 b3 :
  0 <= b0 < 2 ^ 8 -> 0 <= b1 < 2 ^ 8 -> 0 <= b2 < 2 ^ 8 -> 0 <= b3 < 2 ^ 8 ->
  bswap32 (b3 * 2 ^ 24 + b2 * 2 ^ 16 + b1 * 2 ^ 8 + b0) =
    b0 * 2 ^ 24 + b1 * 2 ^ 16 + b2 * 2 ^ 8 + b3.
Proof.
  intros. unfold bswap32.
  set (x := b3 * 2 ^ 24 + b2 * 2 ^ 16 + b1 * 2 ^ 8 + b0).
  assert (x / 2 ^ 24 = b3) as -> by (symmetry; apply (Z.div_unique_pos _ _ _ (b2 * 2 ^ 16 + b1 * 2 ^ 8 + b0)); lia).
  assert (x / 2 ^ 16 = b3 * 2 ^ 8 + b2) as ->
    by (symmetry; apply (Z.div_unique_pos _ _ _ (b1 * 2 ^ 8 + b0)); lia).
  assert (x / 2 ^ 8 = (b3 * 2 ^ 8 + b2) * 2 ^ 8 + b1) as ->
    by (symmetry; apply (Z.div_unique_pos _ _ _ b0); lia).
  assert (x mod 2 ^ 8 = b0) as ->
    by (symmetry; apply (Z.mod_unique_pos _ _ ((b3 * 2 ^ 8 + b2) * 2 ^ 8 + b1)); lia).
  rewrite (Z.mod_small b3), !(Z.add_comm (_ * 2 ^ 8)), !Z.mod_add by lia.
  rewrite !Z.mod_small by lia. lia.
Qed.

Lemma bytes_of x : 0 <= x < 2 ^ 32 ->
  exists b0 b1 b2 b3, x = b3 * 2 ^ 24 + b2 * 2 ^ 16 + b1 * 2 ^ 8 + b0 /\
    0 <= b0 < 2 ^ 8 /\ 0 <= b1 < 2 ^ 8 /\ 0 <= b2 < 2 ^ 8 /\ 0 <= b3 < 2 ^ 8.
Proof.
  intros Hx. exists (x mod 2 ^ 8), (x / 2 ^ 8 mod 2 ^ 8), (x / 2 ^ 16 mod 2 ^ 8), (x / 2 ^ 24).
  Z.to_euclidean_division_equations. lia.
Qed.

Lemma bswap32_involutive x : 0 <= x < 2 ^ 32 -> bswap32 (bswap32 x) = x.
Proof.
  intros (b0 & b1 & b2 & b3 & -> & ? & ? & ? & ?)%bytes_of.
  by rewrite !bswap32_bytes by done.
Qed.

Lemma bswap32_range x : 0 <= x < 2 ^ 32 -> 0 <= bswap32 x < 2 ^ 32.
Proof.
  intros (b0 & b1 & b2 & b3 & -> & ? & ? & ? & ?)%bytes_of.
  rewrite bswap32_bytes by done. lia.
Qed.

Lemma ntohl_htonl o x : 0 <= x < 2 ^ 32 -> ntohl o (htonl o x) = x.
Proof. destruct o; [apply bswap32_involutive|done]. Qed.
