(* ===== verification/PfProps.v ===== *)
(** The theorems on [net/pfvar.h]: the layouts and the numbers of the requests do
    not depend on the data model, the variants for the other data model fit, and
    the macros compute what they should (or what they do). *)

From stdpp Require Import base list strings.
From Stdlib Require Import ZArith Lia.
From S2P Require Import Prelude CLayout Pfvar PfMacros.

#[local] Open Scope string_scope.

(** * Layouts *)

(** The system headers of Darwin. *)
Definition darwin : sysdefs := {|
  IFNAMSIZ := 16;
  MAXPATHLEN := 1024;
  t_in_addr := struct [fld "s_addr" (TInt 4)];
  t_in6_addr :=
    struct [fld "__u6_addr" (union [fld "__u6_addr8" (TArr (TInt 1) 16);
                                    fld "__u6_addr16" (TArr (TInt 2) 8);
                                    fld "__u6_addr32" (TArr (TInt 4) 4)])];
  t_sa_family_t := TInt 1;
  t_uid_t := TInt 4;
  t_pid_t := TInt 4;
  t_TAILQ_ENTRY := struct [fld "tqe_next" TPtr; fld "tqe_prev" TPtr];
  t_TAILQ_HEAD := struct [fld "tqh_first" TPtr; fld "tqh_last" TPtr];
  t_SLIST_ENTRY := struct [fld "sle_next" TPtr];
  t_SLIST_HEAD := struct [fld "slh_first" TPtr];
  t_user32_addr_t := TInt 4;
  t_user64_addr_t := TInt64;
|}.

Lemma darwin_ok : Darwin darwin.
Proof. by split. Defined.

Lemma darwin_unique sys : Darwin sys -> sys = darwin.
Proof. destruct sys. intros []. cbn in *. by subst. Qed.

(** The data models the header is compiled for. *)
Definition data_models : list abi := [LP64; ILP32_i386; ILP32_arm].

(** What two data models have to agree on: the name of a type, its size, and the
    integers in it. *)
Definition shared_layout (sys : sysdefs) (a : abi) : list (string * Z * list (string * Z * Z)) :=
  (fun '(name, t) => (name, sizeof a t, ints a name 0 t)) <$>
    filter (fun e => e.1 <> "pf_src_node") (exchanged sys a).

Lemma src_node_exchanged sys a : ("pf_src_node", pf_src_node sys) ∈ exchanged sys a.
Proof. unfold exchanged. apply elem_of_app. right. do 2 right. by left. Qed.

(** C34: the objects that programs exchange with the kernel, which are the parameters
    of all requests and the elements of the arrays these point to, have the same size,
    and the same integers at the same offsets, in the data models of 32 and 64 bits:
    the [_pad] members and the [aligned] attributes of the header do what they are
    there for. The exception is [struct pf_src_node], the element of the array of
    [DIOCGETSRCNODES], which begins with pointers and has neither: it has 152 bytes, or
    136 or 144, and its address comes after 24 bytes, or after 12. *)
Theorem layouts_agree sys a
    (Hsys : Darwin sys) (Ha : a ∈ data_models) :
  shared_layout sys a = shared_layout sys LP64 /\
  ("pf_src_node", pf_src_node sys) ∈ exchanged sys a /\
  (a, sizeof a (pf_src_node sys), fst <$> offsetof a (pf_src_node sys) ["addr"]) ∈
    [(LP64, 152, Some 24); (ILP32_i386, 136, Some 12); (ILP32_arm, 144, Some 12)].
Proof.
  apply darwin_unique in Hsys as ->. revert Ha. unfold data_models.
  rewrite !elem_of_cons, elem_of_nil.
  intros [->|[->|[->|[]]]]; (split; [vm_compute; reflexivity|]); (split; [by apply src_node_exchanged|]);
    vm_compute; auto.
Qed.

Lemma layouts_agree_witness :
  shared_layout darwin ILP32_i386 = shared_layout darwin LP64 /\
  ("pf_src_node", pf_src_node darwin) ∈ exchanged darwin ILP32_i386.
Proof. destruct (layouts_agree darwin ILP32_i386 darwin_ok ltac:(by_compute)) as (H & He & _). by split. Defined.

(** The members with their offsets and sizes. *)
Definition member_table (a : abi) (t : ctype) : list (string * Z * Z) :=
  (fun '(name, off, mt) => (name, off, sizeof a mt)) <$> members a t.
Definition same_table (a1 : abi) (t1 : ctype) (a2 : abi) (t2 : ctype) : Prop :=
  sizeof a1 t1 = sizeof a2 t2 /\ member_table a1 t1 = member_table a2 t2.

(** The structures with variants, each with the one of 32 and the one of 64 bits. *)
Definition variants (sys : sysdefs) : list (ctype * ctype * ctype) :=
  [(pfioc_states, pfioc_states_32 sys, pfioc_states_64 sys);
   (pfioc_tokens, pfioc_tokens_32 sys, pfioc_tokens_64 sys);
   (pfioc_src_nodes, pfioc_src_nodes_32 sys, pfioc_src_nodes_64 sys);
   (pfioc_trans, pfioc_trans_32 sys, pfioc_trans_64 sys);
   (pfioc_table sys, pfioc_table_32 sys, pfioc_table_64 sys);
   (pfioc_iface sys, pfioc_iface_32 sys, pfioc_iface_64 sys)].

(** The variants [_32] and [_64] of a structure with a pointer, as a kernel of
    64 bits compiles them, have the members of the structure where programs of 32
    and of 64 bits have them, pointers included. *)
Theorem variants_fit sys (Hsys : Darwin sys) :
  Forall (fun '(t, t32, t64) =>
    same_table ILP32_i386 t LP64 t32 /\ same_table ILP32_arm t LP64 t32 /\
    same_table LP64 t LP64 t64) (variants sys).
Proof.
  apply darwin_unique in Hsys as ->.
  repeat constructor; vm_compute; reflexivity.
Qed.

Lemma variants_fit_witness :
  same_table ILP32_i386 (pfioc_table darwin) LP64 (pfioc_table_32 darwin).
Proof.
  pose proof (variants_fit darwin darwin_ok) as H. unfold variants in H. rewrite !Forall_cons in H. apply H.
Defined.

(** The structures that the header says to keep in step, because a lookup in
    a tree passes the smaller one for the larger one: the smaller one is a prefix. *)
Theorem compare_keys_are_prefixes sys a
    (Hsys : Darwin sys) (Ha : a ∈ data_models) :
  member_table a (pf_state_key_cmp sys) `prefix_of` member_table a (pf_state_key sys) /\
  member_table a pf_state_cmp `prefix_of` member_table a (pf_state sys) /\
  member_table a (pfi_kif_cmp sys) `prefix_of` member_table a (pfi_kif_kernel sys).
Proof.
  apply darwin_unique in Hsys as ->. revert Ha. unfold data_models.
  rewrite !elem_of_cons, elem_of_nil.
  intros [->|[->|[->|[]]]]; split_and!; eexists; vm_compute; reflexivity.
Qed.

Lemma compare_keys_are_prefixes_witness :
  member_table LP64 pf_state_cmp `prefix_of` member_table LP64 (pf_state darwin).
Proof. apply (compare_keys_are_prefixes darwin LP64 darwin_ok ltac:(by_compute)). Defined.

(** What the number of a request says of it. *)
Definition request_decodes (a : abi) (num : Z) (r : request) : Prop :=
  let x := request_number a num r in
  IOCGROUP x = group_D /\ IOCNUM x = num /\
  match r with
  | R_IO => Z.land x IOC_INOUT = 0 /\ IOCPARM_LEN x = 0
  | R_IOR t => Z.land x IOC_INOUT = IOC_OUT /\ IOCPARM_LEN x = sizeof a t
  | R_IOWR t => Z.land x IOC_INOUT = IOC_INOUT /\ IOCPARM_LEN x = sizeof a t
  end.

#[local] Instance request_decodes_dec a num r : Decision (request_decodes a num r).
Proof. unfold request_decodes. destruct r; apply _. Defined.
#[local] Instance request_entry_dec a (e : string * (Z * request)) :
  Decision ((fun '(_, (num, r)) => request_decodes a num r) e).
Proof. destruct e as [? [num r]]. apply _. Defined.

(** C35: the seventy requests of the device have different numbers, the same in all
    data models; the number of each gives back its group, its number in the group,
    its direction, and the size of its parameter, which fits the thirteen bits. *)
Theorem requests_decode sys a
    (Hsys : Darwin sys) (Ha : a ∈ data_models) :
  length (requests sys a) = 70%nat /\
  NoDup (request_numbers sys a).*2 /\
  request_numbers sys a = request_numbers sys LP64 /\
  Forall (fun '(_, (num, r)) => request_decodes a num r) (requests sys a).
Proof.
  apply darwin_unique in Hsys as ->. revert Ha. unfold data_models.
  rewrite !elem_of_cons, elem_of_nil.
  intros [->|[->|[->|[]]]]; (split; [reflexivity|]); (split; [by_compute|]);
    (split; [vm_compute; reflexivity|]); by_compute.
Qed.

Lemma requests_decode_witness :
  NoDup (request_numbers darwin ILP32_arm).*2 /\
  request_numbers darwin ILP32_arm = request_numbers darwin LP64.
Proof.
  destruct (requests_decode darwin ILP32_arm darwin_ok ltac:(by_compute)) as (_ & ? & ? & _).
  split; assumption.
Defined.

(** * Macros *)

#[local] Open Scope Z_scope.

Lemma addr_eqb (a b : addr) :
  (addr32_3 a =? addr32_3 b) && (addr32_2 a =? addr32_2 b) &&
  (addr32_1 a =? addr32_1 b) && (addr32_0 a =? addr32_0 b) = bool_decide (a = b).
Proof.
  apply eq_bool_prop_intro. rewrite !andb_True, !Is_true_true, !Z.eqb_eq, bool_decide_eq_true.
  destruct a, b. cbn. naive_solver.
Qed.

Lemma addr_zerob (a : addr) :
  (addr32_0 a =? 0) && (addr32_1 a =? 0) && (addr32_2 a =? 0) && (addr32_3 a =? 0)
    = bool_decide (a = Addr 0 0 0 0).
Proof.
  apply eq_bool_prop_intro. rewrite !andb_True, !Is_true_true, !Z.eqb_eq, bool_decide_eq_true.
  destruct a. cbn. naive_solver.
Qed.

(** Address comparison. For IPv6 the macros are equality, inequality and the
    test for the zero address. For IPv4, [PF_AEQ] and [PF_AZERO] look at the first
    word only, but [PF_ANEQ] looks at all four: it is not the negation of
    [PF_AEQ], and of two addresses both can hold. *)
Theorem address_comparison (AF_INET : Z) (a b : addr) (f : Z) :
  (f <> AF_INET ->
    PF_AEQ AF_INET a b f = bool_decide (a = b) /\
    PF_ANEQ AF_INET a b f = negb (PF_AEQ AF_INET a b f) /\
    PF_AZERO AF_INET a f = bool_decide (a = Addr 0 0 0 0)) /\
  PF_AEQ AF_INET a b AF_INET = (addr32_0 a =? addr32_0 b) /\
  PF_AZERO AF_INET a AF_INET = (addr32_0 a =? 0) /\
  PF_ANEQ AF_INET a b AF_INET = bool_decide (a <> b) /\
  (PF_AEQ AF_INET a b AF_INET && PF_ANEQ AF_INET a b AF_INET = true <->
    addr32_0 a = addr32_0 b /\ a <> b).
Proof.
  unfold PF_AEQ, PF_ANEQ, PF_AZERO.
  rewrite (addr_zerob a), <-!negb_andb, (addr_eqb a b), Z.eqb_refl.
  assert (a = b -> addr32_0 a = addr32_0 b) as H0 by congruence.
  assert (a = Addr 0 0 0 0 -> addr32_0 a = 0) as Hz by by intros ->.
  split_and!.
  - intros Hf. by rewrite (proj2 (Z.eqb_neq f AF_INET) Hf).
  - destruct (Z.eqb_spec (addr32_0 a) (addr32_0 b)); [done|].
    rewrite bool_decide_false by auto. done.
  - destruct (Z.eqb_spec (addr32_0 a) 0); [done|].
    rewrite bool_decide_false by auto. done.
  - rewrite bool_decide_not.
    destruct (Z.eqb_spec (addr32_0 a) (addr32_0 b)); [done|].
    rewrite bool_decide_false by auto. done.
  - cbn [andb]. rewrite andb_true_iff, !orb_true_iff, !negb_true_iff,
      bool_decide_eq_true, bool_decide_eq_false, Z.eqb_eq, Z.eqb_neq. naive_solver.
Qed.

Lemma address_comparison_witness :
  PF_AEQ 2 (Addr 1 0 0 0) (Addr 1 5 0 0) 2 = true /\
  PF_ANEQ 2 (Addr 1 0 0 0) (Addr 1 5 0 0) 2 = true /\
  PF_AEQ 2 (Addr 1 0 0 0) (Addr 1 5 0 0) 30 = false.
Proof.
  destruct (address_comparison 2 (Addr 1 0 0 0) (Addr 1 5 0 0) 30)
    as (H6 & -> & _ & -> & _).
  destruct H6 as (-> & _); [discriminate|]. split_and!; reflexivity.
Defined.

(** With IPv4 only, [PF_POOLMASK] takes each bit of the first word from [b]
    where the mask [c] has a one and from [d] where it has a zero; [PF_AINC] adds
    one to the address in host order, modulo 2^32, whatever the byte order; both
    keep the other words. *)
Theorem ipv4_arithmetic (o : byte_order) (a b c d : addr)
    (Ha : addr_ok a) (Hc : addr_ok c) :
  (forall i, 0 <= i < 32 ->
    Z.testbit (addr32_0 (PF_POOLMASK_4 a b c d)) i =
      if Z.testbit (addr32_0 c) i then Z.testbit (addr32_0 b) i
      else Z.testbit (addr32_0 d) i) /\
  ntohl o (addr32_0 (PF_AINC_4 o a)) = (ntohl o (addr32_0 a) + 1) mod 2 ^ 32 /\
  (forall x, x = PF_POOLMASK_4 a b c d \/ x = PF_AINC_4 o a ->
    addr32_1 x = addr32_1 a /\ addr32_2 x = addr32_2 a /\ addr32_3 x = addr32_3 a).
Proof.
  split_and!.
  - intros i Hi. cbn. change 4294967295 with (Z.ones 32).
    rewrite Z.lor_spec, !Z.land_spec, Z.lxor_spec, Z.testbit_ones_nonneg by lia.
    rewrite (proj2 (Z.ltb_lt i 32)) by lia.
    by destruct (Z.testbit (addr32_0 b) i), (Z.testbit (addr32_0 c) i),
      (Z.testbit (addr32_0 d) i).
  - cbn. apply ntohl_htonl. apply Z.mod_pos_bound. lia.
  - by intros x [->| ->].
Qed.

Lemma ipv4_arithmetic_witness :
  ntohl LittleEndian (addr32_0 (PF_AINC_4 LittleEndian (Addr 0xff00000a 0 0 0))) = 0x0a000100.
Proof.
  destruct (ipv4_arithmetic LittleEndian (Addr 0xff00000a 0 0 0) (Addr 0 0 0 0)
    (Addr 0 0 0 0) (Addr 0 0 0 0)) as (_ & -> & _);
    [unfold addr_ok; cbn; lia|unfold addr_ok; cbn; lia|reflexivity].
Defined.

(** Packing and unpacking a fingerprint are inverse to each other on fields
    of ten bits; a packed value never is one of the special values, and wider
    arguments are cut, not mixed. *)
Theorem osfp_roundtrip (class version subtype osfp : Z) (Hosfp : 0 <= osfp < 2 ^ 30) :
  PF_OSFP_UNPACK (PF_OSFP_PACK class version subtype)
    = (class mod 2 ^ 10, version mod 2 ^ 10, subtype mod 2 ^ 10) /\
  (let '(c, v, s) := PF_OSFP_UNPACK osfp in PF_OSFP_PACK c v s = osfp) /\
  0 <= PF_OSFP_PACK class version subtype < PF_OSFP_NOMATCH /\
  PF_OSFP_NOMATCH < PF_OSFP_UNKNOWN.
Proof.
  assert (forall c v s, PF_OSFP_PACK c v s =
    (c mod 2 ^ 10 * 2 ^ 10 + v mod 2 ^ 10) * 2 ^ 10 + s mod 2 ^ 10) as Hpack.
  { intros c v s. unfold PF_OSFP_PACK, _FP_CLASS_BITS, _FP_VERSION_BITS, _FP_SUBTYPE_BITS.
    change (Z.shiftl 1 10 - 1) with (Z.ones 10). rewrite !Z.land_ones by lia.
    pose proof (Z.mod_pos_bound v (2 ^ 10)). pose proof (Z.mod_pos_bound s (2 ^ 10)).
    replace (10 + 10) with (10 + 10) by lia.
    rewrite <-(Z.shiftl_shiftl _ 10 10), <-Z.shiftl_lor by lia.
    rewrite lor_shiftl_add by lia. rewrite lor_shiftl_add by lia. done. }
  assert (forall x, PF_OSFP_UNPACK x =
    (x / 2 ^ 20 mod 2 ^ 10, x / 2 ^ 10 mod 2 ^ 10, x mod 2 ^ 10)) as Hunpack.
  { intros x. unfold PF_OSFP_UNPACK, _FP_CLASS_BITS, _FP_VERSION_BITS, _FP_SUBTYPE_BITS.
    change (Z.shiftl 1 10 - 1) with (Z.ones 10). rewrite !Z.land_ones by lia.
    by rewrite !Z.shiftr_div_pow2 by lia. }
  rewrite !Hunpack, !Hpack.
  pose proof (Z.mod_pos_bound class (2 ^ 10)). pose proof (Z.mod_pos_bound version (2 ^ 10)).
  pose proof (Z.mod_pos_bound subtype (2 ^ 10)).
  set (c := class mod 2 ^ 10) in *. set (v := version mod 2 ^ 10) in *.
  set (s := subtype mod 2 ^ 10) in *. clearbody c v s. split_and!.
  - f_equal; [f_equal|]; Z.to_euclidean_division_equations; lia.
  - rewrite !Z.mod_mod by lia. Z.to_euclidean_division_equations. lia.
  - lia.
  - change PF_OSFP_NOMATCH with (2 ^ 32 - 2). lia.
  - by compute.
Qed.

Lemma osfp_roundtrip_witness :
  PF_OSFP_UNPACK (PF_OSFP_PACK 3 1029 7) = (3, 5, 7).
Proof. apply (osfp_roundtrip 3 1029 7 0). lia. Defined.

(** A 64-bit counter comes back from its two words, and the words from the
    counter; the words have 32 bits. *)
Theorem counter_roundtrip (s hi lo : Z)
    (Hs : 0 <= s < 2 ^ 64) (Hhi : 0 <= hi < 2 ^ 32) (Hlo : 0 <= lo < 2 ^ 32) :
  pf_state_counter_from_pfsync (pf_state_counter_to_pfsync s) = s /\
  pf_state_counter_to_pfsync (pf_state_counter_from_pfsync (hi, lo)) = (hi, lo) /\
  0 <= (pf_state_counter_to_pfsync s).1 < 2 ^ 32 /\
  0 <= (pf_state_counter_to_pfsync s).2 < 2 ^ 32.
Proof.
  assert (forall x, pf_state_counter_to_pfsync x = (x / 2 ^ 32 mod 2 ^ 32, x mod 2 ^ 32)) as Hto.
  { intros x. unfold pf_state_counter_to_pfsync. change 4294967295 with (Z.ones 32).
    by rewrite !Z.land_ones, Z.shiftr_div_pow2 by lia. }
  assert (forall h l, 0 <= h < 2 ^ 32 -> 0 <= l < 2 ^ 32 ->
    pf_state_counter_from_pfsync (h, l) = h * 2 ^ 32 + l) as Hfrom.
  { intros h l Hh Hl. unfold pf_state_counter_from_pfsync. cbn [fst snd].
    rewrite Z.mod_small by (rewrite Z.shiftl_mul_pow2; lia). by rewrite lor_shiftl_add by lia. }
  pose proof (Z.mod_pos_bound s (2 ^ 32)). pose proof (Z.mod_pos_bound (s / 2 ^ 32) (2 ^ 32)).
  rewrite !Hto, !Hfrom by lia. cbn [fst snd]. split_and!; try lia.
  - Z.to_euclidean_division_equations. lia.
  - f_equal; Z.to_euclidean_division_equations; lia.
Qed.

Lemma counter_roundtrip_witness :
  pf_state_counter_from_pfsync (pf_state_counter_to_pfsync 0x123456789abcdef0) = 0x123456789abcdef0.
Proof. apply (counter_roundtrip 0x123456789abcdef0 0 0); lia. Defined.



(** [PF_MISMATCHAW] negates the outcome of the match of the address when
    [neg] is one, keeps it when [neg] is zero, and is true for every other value of
    [neg]; a wrapper for a mask that is zero matches every address. *)
Theorem mismatch_negation (AF_INET : Z) routable rtlabel table dyn range masked
    (aw : addr_wrap) (x : addr) (af neg ifp : Z) :
  let mismatch := PF_MISMATCHAW AF_INET routable rtlabel table dyn range masked aw x af in
  mismatch 1 ifp = negb (mismatch 0 ifp) /\
  (neg <> 0 -> neg <> 1 -> mismatch neg ifp = true) /\
  (aw_type aw = PF_ADDR_ADDRMASK -> PF_AZERO AF_INET (aw_mask aw) af = true ->
     mismatch 0 ifp = false) /\
  (aw_type aw = PF_ADDR_TABLE -> mismatch 0 ifp = negb (table (aw_tbl aw) x af)).
Proof.
  cbv zeta. unfold PF_MISMATCHAW.
  set (b := _ || _). split_and!.
  - by destruct b.
  - intros H0 H1. apply negb_true_iff, Z.eqb_neq. destruct b; unfold bool_int; lia.
  - subst b. intros -> ->. rewrite !bool_decide_false by done.
    by rewrite bool_decide_true.
  - subst b. intros ->. rewrite (bool_decide_true (PF_ADDR_TABLE = PF_ADDR_TABLE)) by done.
    rewrite !bool_decide_false by done. cbn. rewrite !orb_false_r.
    by destruct (table _ _ _).
Qed.

Lemma mismatch_negation_witness :
  PF_MISMATCHAW 2 (fun _ _ _ => false) (fun _ _ _ => false) (fun t _ _ => t =? 7)
    (fun _ _ _ => false) (fun _ _ _ _ => false) (fun _ _ _ _ _ => false)
    (AddrWrap PF_ADDR_TABLE (Addr 0 0 0 0) (Addr 0 0 0 0) 7 0) (Addr 1 2 3 4) 2 5 0 = true.
Proof. apply mismatch_negation; discriminate. Defined.

(** [REASON_SET] writes the reason where the caller wants it and counts it in
    the one counter that is its own, modulo 2^64; the reasons have names, one
    each, and so have the counters of the limits. *)
Theorem REASON_SET_counts (a : option Z) (x : Z) (counters : list Z)
    (Hlen : Z.of_nat (length counters) = PFRES_MAX) (Hx : 0 <= x) :
  let '(a', counters') := REASON_SET a x counters in
  (a' = None <-> a = None) /\ (forall v, a' = Some v -> v = x) /\
  length counters' = length counters /\
  (forall i c, counters !! i = Some c ->
     counters' !! i = Some (if Z.of_nat i =? x then (c + 1) mod 2 ^ 64 else c)) /\
  Z.of_nat (length PFRES_NAMES) = PFRES_MAX /\ NoDup PFRES_NAMES /\
  Z.of_nat (length LCNT_NAMES) = LCNT_MAX /\ NoDup LCNT_NAMES.
Proof.
  unfold REASON_SET. split_and!; [| | | |reflexivity|by_compute|reflexivity|by_compute].
  - by destruct a.
  - intros v. destruct a; cbn; congruence.
  - destruct (x <? PFRES_MAX); [apply length_alter|done].
  - intros i c Hi. destruct (Z.ltb_spec x PFRES_MAX).
    + destruct (Z.eqb_spec (Z.of_nat i) x) as [<-|Hne].
      * by rewrite Nat2Z.id, list_lookup_alter_eq, Hi.
      * rewrite list_lookup_alter_ne by lia. done.
    + apply lookup_lt_Some in Hi as Hlt.
      by rewrite (proj2 (Z.eqb_neq (Z.of_nat i) x)) by lia.
Qed.

Lemma REASON_SET_counts_witness :
  (REASON_SET (Some 0) 3 (replicate 16 9)).2 !! 3%nat = Some 10.
Proof.
  pose proof (REASON_SET_counts (Some 0) 3 (replicate 16 9) eq_refl ltac:(lia)) as H.
  destruct (REASON_SET (Some 0) 3 (replicate 16 9)) as [a' c'].
  destruct H as (_ & _ & _ & H & _). apply (H 3%nat 9). reflexivity.
Defined.
