(* ===== verification/Decimal.v ===== *)
(** Decimal numbers and strings: what the components share on the text of numbers.
    [pretty] is how numbers are printed; [digits] reads them back. *)

From stdpp Require Import base list strings pretty.
From Stdlib Require Import ZArith Lia Ascii.
From S2P Require Import Prelude.

#[local] Open Scope string_scope.
#[local] Open Scope Z_scope.

Definition digit_value (c : ascii) : option Z :=
  let n := Z.of_nat (nat_of_ascii c) in
  if (48 <=? n) && (n <=? 57) then Some (n - 48) else None.
Fixpoint digits (acc : Z) (s : string) : Z :=
  match s with
  | "" => acc
  | String c s => match digit_value c with Some d => digits (acc * 10 + d) s | None => acc end
  end.

(** * Numbers *)

Lemma digit_value_pretty (d : N) :
  (d < 10)%N -> digit_value (pretty_N_char d) = Some (Z.of_N d).
Proof.
  intros Hd. assert (d = 0 \/ d = 1 \/ d = 2 \/ d = 3 \/ d = 4 \/ d = 5 \/ d = 6 \/ d = 7 \/
    d = 8 \/ d = 9)%N as H by lia.
  by repeat (destruct H as [-> | H] || subst d).
Qed.

Lemma digits_pretty_go (x : N) (s : string) :
  digits 0 (pretty_N_go x s) = digits (Z.of_N x) s.
Proof.
  revert s. induction (N.lt_wf_0 x) as [x _ IH]. intros s.
  destruct (N.eq_0_gt_0_cases x) as [->|Hx]; [done|].
  rewrite pretty_N_go_step by done. rewrite IH by (apply N.div_lt; lia).
  cbn [digits]. rewrite digit_value_pretty by (apply N.mod_lt; lia).
  f_equal. rewrite N2Z.inj_div, N2Z.inj_mod.
  pose proof (Z.div_mod (Z.of_N x) 10). change (Z.of_N 10) with 10. lia.
Qed.

Lemma pretty_N_go_app (x : N) (s r : string) : pretty_N_go x (s ++ r) = pretty_N_go x s ++ r.
Proof.
  revert s. induction (N.lt_wf_0 x) as [x _ IH]. intros s.
  destruct (N.eq_0_gt_0_cases x) as [->|Hx]; [done|].
  rewrite (pretty_N_go_step x s), (pretty_N_go_step x (s ++ r)) by done.
  by apply (IH (x / 10)%N (N.div_lt x 10 Hx eq_refl) (String _ s)).
Qed.

(** Text that does not go on with a digit. *)
Definition no_digit (r : string) : Prop :=
  match r with "" => True | String c _ => digit_value c = None end.

Lemma digits_pretty (n : Z) (r : string) :
  0 <= n -> no_digit r -> digits 0 (pretty n ++ r) = n.
Proof.
  intros Hn Hr.
  assert (forall a, digits a r = a) as Hr'
    by (destruct r as [|c r]; cbn in *; intros; by rewrite ?Hr).
  destruct n as [|p|p]; [apply Hr'|..|lia].
  change (pretty (Z.pos p)) with (pretty_N_go (N.pos p) "").
  rewrite <-pretty_N_go_app, digits_pretty_go. apply Hr'.
Qed.

Lemma pretty_N_go_head (x : N) (s : string) :
  (0 < x)%N -> exists c s', pretty_N_go x s = String c s' /\ is_Some (digit_value c).
Proof.
  revert s. induction (N.lt_wf_0 x) as [x _ IH]. intros s Hx.
  rewrite pretty_N_go_step by done.
  destruct (N.eq_0_gt_0_cases (x / 10)) as [->|Hx'].
  - do 2 eexists. split; [done|]. rewrite digit_value_pretty by (apply N.mod_lt; lia). eauto.
  - by apply IH; [apply N.div_lt|].
Qed.

Lemma pretty_head (n : Z) :
  0 <= n -> exists c s, pretty n = String c s /\ is_Some (digit_value c).
Proof.
  intros Hn. destruct n as [|p|p]; [by do 2 eexists|by apply pretty_N_go_head|lia].
Qed.

(** * Strings *)

Lemma prefix_app (p r : string) : String.prefix p (p ++ r) = true.
Proof.
  induction p as [|c p IH]; [by destruct r|].
  change (String c p ++ r) with (String c (p ++ r)). cbn. by destruct (ascii_dec c c).
Qed.

Lemma prefix_inv (p s : string) : String.prefix p s = true -> exists r, s = p ++ r.
Proof.
  revert s. induction p as [|c p IH]; intros s H; [by exists s|].
  destruct s as [|c' s]; cbn in H; [done|]. destruct (ascii_dec c c') as [->|]; [|done].
  destruct (IH s H) as [r ->]. by exists r.
Qed.

Lemma substring_all (s : string) (n : nat) :
  (String.length s <= n)%nat -> String.substring 0 n s = s.
Proof.
  revert n. induction s as [|c s IH]; intros [|n]; cbn; intros; [done..|lia|].
  f_equal. apply IH. lia.
Qed.

Lemma substring_app (p r : string) :
  String.substring (String.length p) (String.length (p ++ r) - String.length p) (p ++ r) = r.
Proof.
  induction p as [|c p IH].
  - apply substring_all. change ("" ++ r) with r. cbn. lia.
  - apply IH.
Qed.

Lemma string_length_app (s r : string) :
  String.length (s ++ r) = (String.length s + String.length r)%nat.
Proof.
  induction s as [|c s IH]; [done|].
  change (String c s ++ r) with (String c (s ++ r)). cbn. lia.
Qed.

Lemma length_pretty_go (k : nat) (x : N) (s : string) :
  (Z.of_N x < 10 ^ Z.of_nat k) -> (String.length (pretty_N_go x s) <= k + String.length s)%nat.
Proof.
  revert x s. induction k as [|k IH]; intros x s Hx.
  { assert (x = 0%N) as -> by (cbn in Hx; lia). by rewrite pretty_N_go_0. }
  destruct (N.eq_0_gt_0_cases x) as [->|Hx0]; [rewrite pretty_N_go_0; lia|].
  rewrite pretty_N_go_step by done. etransitivity; [apply IH|cbn; lia].
  rewrite N2Z.inj_div. apply Z.div_lt_upper_bound; [done|].
  rewrite Nat2Z.inj_succ, Z.pow_succ_r in Hx by lia. lia.
Qed.

Lemma length_pretty (k : nat) (n : Z) :
  (0 < k)%nat -> 0 <= n < 10 ^ Z.of_nat k -> (String.length (pretty n) <= k)%nat.
Proof.
  intros Hk Hn. destruct n as [|p|p]; [cbn; lia| |lia].
  etransitivity; [apply (length_pretty_go k (N.pos p))|cbn; lia]. apply Hn.
Qed.

Lemma string_app_nil (s : string) : s ++ "" = s.
Proof. induction s as [|c s IH]; [done|]. change (String c s ++ "") with (String c (s ++ "")). by rewrite IH. Qed.

Lemma string_app_assoc (s t r : string) : (s ++ t) ++ r = s ++ t ++ r.
Proof.
  induction s as [|c s IH]; [done|].
  change (String c (s ++ t) ++ r = String c (s ++ t ++ r)).
  change (String c ((s ++ t) ++ r) = String c (s ++ t ++ r)). by rewrite IH.
Qed.

Lemma string_app_cons c (s r : string) : String c s ++ r = String c (s ++ r).
Proof. done. Qed.
Lemma string_nil_app (r : string) : "" ++ r = r.
Proof. done. Qed.
