(* ===== verification/ClientHook.v ===== *)
(** [client-hook/client-hook.cpp]: the library that is preloaded into a program
    and sends its connections through the HTTP proxy of the tunnel. [__init__] is
    the constructor, [HttpClient] the class, [my_connect] and [my_getaddrinfo] the
    functions that take the place of those of the C library. The system calls act
    on [world], which keeps what the peer will send, the status flags of the open
    files and the calls made so far; their results are parameters. Only the
    messages of [trace] are left out. *)

From stdpp Require Import base gmap list strings pretty.
From Stdlib Require Import ZArith Lia Ascii.
From S2P Require Import Prelude Decimal PfMacros.

#[local] Open Scope string_scope.
#[local] Open Scope Z_scope.

(** * Characters and strings of C *)

Definition NUL : ascii := "000".
Definition LF : ascii := "010".
Definition CR : ascii := "013".
Definition COLON : ascii := ":".

Notation bytes := String.list_ascii_of_string.

(** The string that starts at an offset of a buffer; [None] when no byte of the
    buffer ends it. *)
Fixpoint cstring (buf : list ascii) : option string :=
  match buf with
  | [] => None
  | c :: buf => if bool_decide (c = NUL) then Some "" else String c <$> cstring buf
  end.

(** [snprintf(buf, size, "%s", s)]: at most [size - 1] characters. *)
Definition snprintf (size : nat) (s : string) : string := String.substring 0 (size - 1) s.

(** [atoi], through [strtol] of a 64-bit [long]: blanks, a sign, digits; the value
    is cut to an [int]. *)
Definition is_blank (c : ascii) : bool :=
  let n := nat_of_ascii c in (n =? 32)%nat || ((9 <=? n)%nat && (n <=? 13)%nat).
Fixpoint skip_blanks (s : string) : string :=
  match s with
  | String c s' => if is_blank c then skip_blanks s' else s
  | "" => ""
  end.
Definition strtol (s : string) : Z :=
  let v := match skip_blanks s with
    | String "-" s => - digits 0 s
    | String "+" s => digits 0 s
    | s => digits 0 s
    end in
  Z.max (- 2 ^ 63) (Z.min v (2 ^ 63 - 1)).
Definition to_int (x : Z) : Z := (x + 2 ^ 31) mod 2 ^ 32 - 2 ^ 31.
Definition atoi (s : string) : Z := to_int (strtol s).

(** [inet_ntop] for [AF_INET]: the four bytes in decimal, if the buffer has room;
    it was empty. *)
Definition inet_ntop (a : list Z) (size : nat) : string :=
  let s := String.concat "." (pretty <$> a) in
  if (String.length s <? size)%nat then s else "".

(** * The world of the process *)

(** [struct sockaddr_in]; the port is in network byte order. *)
Record sockaddr := Sockaddr { sa_family : Z; sin_port : Z; sin_addr : list Z }.

#[export] Instance sockaddr_eq_dec : EqDecision sockaddr.
Proof. solve_decision. Defined.

Inductive call :=
  | Csocket
  | Cconnect (fd : Z) (addr : sockaddr)
  | Csend (fd : Z) (data : string)
  | Csetfl (fd : Z) (fl : Z)
  | Cclose (fd : Z)
  | Cgetaddrinfo (node service : option string).

(** What the connection gives after the last byte: the end of the file, or an
    error, again and again. *)
Inductive tail := Eof | ReadError.

(** [input] is what the peer still sends, [flags] the status flags of the open
    files, [calls] the calls made so far, in their order. *)
Record world := World {
  input : list ascii; input_end : tail; flags : gmap Z Z; calls : list call
}.

Record http_client := HttpClient {
  m_fd : Z; m_dont_close : bool; m_connected : bool; m_old_flags : Z;
  m_buffer : list ascii;          (* char m_buffer[1024] *)
  m_keys : list (option Z);       (* offsets in m_buffer; None is NULL *)
  m_values : list (option Z);
  m_nvalues : Z
}.

Definition BUFFER_SIZE : nat := 1024.
Definition MAX_VALUES : nat := 32.

Record st := St { cl : http_client; wo : world }.

Definition modify_cl (f : http_client -> http_client) : M st unit :=
  modify (fun σ => St (f (cl σ)) (wo σ)).
Definition modify_wo (f : world -> world) : M st unit :=
  modify (fun σ => St (cl σ) (f (wo σ))).

Definition set_fd (fd : Z) c := HttpClient fd (m_dont_close c) (m_connected c)
  (m_old_flags c) (m_buffer c) (m_keys c) (m_values c) (m_nvalues c).
Definition set_connected (b : bool) c := HttpClient (m_fd c) (m_dont_close c) b
  (m_old_flags c) (m_buffer c) (m_keys c) (m_values c) (m_nvalues c).
Definition set_old_flags (fl : Z) c := HttpClient (m_fd c) (m_dont_close c) (m_connected c)
  fl (m_buffer c) (m_keys c) (m_values c) (m_nvalues c).
Definition set_buffer (b : list ascii) c := HttpClient (m_fd c) (m_dont_close c)
  (m_connected c) (m_old_flags c) b (m_keys c) (m_values c) (m_nvalues c).
Definition set_table ks vs (n : Z) c := HttpClient (m_fd c) (m_dont_close c)
  (m_connected c) (m_old_flags c) (m_buffer c) ks vs n.

Definition log (c : call) (w : world) : world :=
  World (input w) (input_end w) (flags w) (calls w ++ [c])%list.

(** * The class [HttpClient] *)

Definition HttpClient_init (fd : Z) : http_client :=
  HttpClient fd (0 <=? fd) false 0 (replicate BUFFER_SIZE NUL)
    (replicate MAX_VALUES None) (replicate MAX_VALUES None) 0.

(** The accesses to the arrays of the object; an index out of bounds faults. *)
Definition store (p : Z) (c : ascii) : M st unit :=
  b ← gets (m_buffer ∘ cl);
  if (0 <=? p) && (p <? Z.of_nat (length b)) then modify_cl (set_buffer (<[Z.to_nat p := c]> b))
  else fail Panic.
Definition load (p : Z) : M st ascii :=
  b ← gets (m_buffer ∘ cl);
  if p <? 0 then fail Panic
  else match b !! Z.to_nat p with Some c => mret c | None => fail Panic end.
(** [*q] for a pointer [q] of one of the tables. *)
Definition deref (q : option Z) : M st ascii :=
  match q with Some p => load p | None => fail Segv end.
Definition entry (tab : http_client -> list (option Z)) (i : Z) : M st (option Z) :=
  t ← gets (tab ∘ cl);
  match t !! Z.to_nat i with Some q => mret q | None => fail Panic end.
Definition set_key (i : Z) (p : Z) : M st unit :=
  c ← gets cl;
  if i <? Z.of_nat (length (m_keys c)) then
    modify_cl (set_table (<[Z.to_nat i := Some p]> (m_keys c)) (m_values c) (m_nvalues c))
  else fail Panic.
Definition set_value (i : Z) (p : Z) : M st unit :=
  c ← gets cl;
  if i <? Z.of_nat (length (m_values c)) then
    modify_cl (set_table (m_keys c) (<[Z.to_nat i := Some p]> (m_values c)) (m_nvalues c))
  else fail Panic.
Definition set_nvalues (n : Z) : M st unit :=
  modify_cl (fun c => set_table (m_keys c) (m_values c) n c).
(** The string a pointer points to. *)
Definition string_at (q : option Z) : M st string :=
  match q with
  | None => fail Segv
  | Some p =>
      b ← gets (m_buffer ∘ cl);
      match cstring (drop (Z.to_nat p) b) with Some s => mret s | None => fail Panic end
  end.

(** [read(m_fd, p, 1)]. *)
Definition read1 (p : Z) : M st Z :=
  w ← gets wo;
  match input w with
  | c :: rest =>
      store p c;;
      modify_wo (fun w => World rest (input_end w) (flags w) (calls w));;
      mret 1
  | [] => mret match input_end w with Eof => 0 | ReadError => -1 end
  end.

(** The [switch] of the loop of [Request]: the pointer after it. *)
Definition parse_char (p : Z) (c : ascii) : M st Z :=
  n ← gets (m_nvalues ∘ cl);
  if bool_decide (c = LF) then
    store p NUL;; set_nvalues (n + 1);; set_key (n + 1) (p + 1);; mret p
  else if bool_decide (c = COLON) then
    v ← entry m_values n;
    (if v is None then store p NUL;; set_value n (p + 2) else mret tt);;
    mret p
  else if bool_decide (c = CR) then mret (p - 1)
  else mret p.

(** The test for the empty line that ends the headers. *)
Definition headers_end : M st bool :=
  n ← gets (m_nvalues ∘ cl);
  if 1 <? n then
    k ← entry m_keys (n - 1);
    c ← deref k;
    mret (bool_decide (c = NUL))
  else mret false.

Definition parse_round (p : Z) : M st (Z + unit) :=
  if negb (p <? Z.of_nat BUFFER_SIZE - 1) then mret (inr tt)
  else
    r ← read1 p;
    if r =? 0 then mret (inr tt)
    else
      c ← load p;
      p ← parse_char p c;
      stop ← headers_end;
      if (stop : bool) then mret (inr tt) else mret (inl (p + 1)).

Definition parse (fuel : nat) : M st unit := loop fuel parse_round 0.

Section Platform.
(** Constants of the platform, and what its calls return: [socket], [connect],
    [getsockopt] ([None] when it fails), [getaddrinfo]. *)
Context (o : byte_order) (AF_INET SOCK_STREAM O_NONBLOCK : Z).
Context {addrinfo : Type}.
Context (socket : Z) (connect : Z -> sockaddr -> Z)
  (so_type : Z -> option Z) (getaddrinfo : option string -> option string -> addrinfo)
  (inet_pton : string -> option (list Z)).
(** What [printf] writes for a null string. *)
Context (null_text : string).

Definition sys_connect (fd : Z) (addr : sockaddr) : M st Z :=
  modify_wo (log (Cconnect fd addr));; mret (connect fd addr).
Definition sys_getaddrinfo (node service : option string) : M st addrinfo :=
  modify_wo (log (Cgetaddrinfo node service));; mret (getaddrinfo node service).
Definition fcntl_getfl (fd : Z) : M st Z := gets (fun σ => default (-1) (flags (wo σ) !! fd)).
Definition fcntl_setfl (fd fl : Z) : M st unit :=
  modify_wo (fun w => log (Csetfl fd fl)
    (World (input w) (input_end w) (alter (fun _ => fl) fd (flags w)) (calls w))).

(** ** The static variables and the constructor *)

Record statics := Statics {
  s_active : bool; s_port : Z; s_debug : bool; s_serv_addr : sockaddr
}.
Definition statics_init : statics := Statics false 0 false (Sockaddr 0 0 [0; 0; 0; 0]).

Definition __init__ (debug proxy : option string) (s : statics) : statics :=
  let s_debug := bool_decide (debug = Some "1") in
  let s_port :=
    match proxy with
    | Some proxy =>
        if String.prefix "http://localhost:" proxy || String.prefix "http://127.0.0.1:" proxy
        then atoi (String.substring 17 (String.length proxy - 17) proxy)
        else s_port s
    | None => s_port s
    end in
  if 0 <? s_port then
    let addr := Sockaddr AF_INET (ntohs o (s_port mod 2 ^ 16)) (sin_addr (s_serv_addr s)) in
    match inet_pton "127.0.0.1" with
    | None => Statics (s_active s) s_port s_debug addr
    | Some a => Statics true s_port s_debug (Sockaddr AF_INET (sin_port addr) a)
    end
  else Statics (s_active s) s_port s_debug (s_serv_addr s).

(** ** The methods that call the system *)

Section Methods.
Context (s : statics).

Definition HttpClient_destroy : M st unit :=
  c ← gets cl;
  (if Z.land (m_old_flags c) O_NONBLOCK =? 0 then mret tt
   else fcntl_setfl (m_fd c) (m_old_flags c));;
  if m_dont_close c then mret tt
  else if 0 <=? m_fd c then modify_wo (log (Cclose (m_fd c))) else mret tt.

Definition SocketMakeBlocking : M st unit :=
  c ← gets cl;
  fl ← fcntl_getfl (m_fd c);
  modify_cl (set_old_flags fl);;
  if Z.land fl O_NONBLOCK =? 0 then mret tt
  else fcntl_setfl (m_fd c) (Z.land fl (Z.lnot O_NONBLOCK)).

Definition Connect : M st bool :=
  c ← gets cl;
  ok ← (if m_fd c <? 0 then
          modify_wo (log Csocket);;
          modify_cl (set_fd socket);;
          mret (negb (socket <? 0))
        else mret true);
  if negb ok then mret false
  else
    c ← gets cl;
    if m_connected c then mret true
    else
      rc ← sys_connect (m_fd c) (s_serv_addr s);
      if rc <? 0 then mret false
      else modify_cl (set_connected true);; mret true.

(** The loop is given one round for each byte of the input and for each byte of
    the buffer, and one more. *)
Definition Request (method path hostname : string) : M st Z :=
  ok ← Connect;
  if negb ok then mret (-1)
  else
    let text := snprintf BUFFER_SIZE
      (method ++ " " ++ path ++ " HTTP/1.1" ++ String CR (String LF "Host: ") ++ hostname
       ++ String CR (String LF (String CR (String LF "")))) in
    modify_cl (set_table (replicate MAX_VALUES None) (replicate MAX_VALUES None) 0);;
    c ← gets cl;
    modify_wo (log (Csend (m_fd c) text));;
    modify_cl (set_buffer (replicate BUFFER_SIZE NUL));;
    w ← gets wo;
    parse (length (input w) + BUFFER_SIZE + 1);;
    mret 0.

(** The loop of [GetHeader] from the index [i], with [k] entries to go; [None] is
    the null pointer. *)
Fixpoint GetHeader_from (key : string) (i : Z) (k : nat) : M st (option string) :=
  match k with
  | O => mret None
  | S k =>
      q ← entry m_keys i;
      name ← string_at q;
      if bool_decide (name = key) then
        v ← entry m_values i;
        c ← deref v;
        if bool_decide (c = NUL) then mret None else t ← string_at v; mret (Some t)
      else GetHeader_from key (i + 1) k
  end.
Definition GetHeader (key : string) : M st (option string) :=
  c ← gets cl; GetHeader_from key 1 (Z.to_nat (m_nvalues c - 1)).

(** ** The functions that replace those of the C library *)

Definition in_world {A} (c : http_client) (m : M st A) : M world A := fun w =>
  match m (St c w) with
  | Done (a, σ) => Done (a, wo σ)
  | Fault f => Fault f
  end.

Definition socket_get_type (fd : Z) : Z := default (-1) (so_type fd).

Definition my_getaddrinfo (node service : option string) : M world addrinfo :=
  in_world (HttpClient_init (-1)) (
    if negb (s_active s) then sys_getaddrinfo node service
    else
      Request "RESOLVE" "*" (default null_text node);;
      ip ← GetHeader "Host";
      r ← sys_getaddrinfo (match ip with Some _ => ip | None => node end) service;
      HttpClient_destroy;;
      mret r).

Definition my_connect (fd : Z) (addr : sockaddr) : M world Z :=
  in_world (HttpClient_init fd) (
    if negb (s_active s) then sys_connect fd addr
    else if negb (sa_family addr =? AF_INET) || negb (socket_get_type fd =? SOCK_STREAM) then
      sys_connect fd addr
    else
      let szHostIP := inet_ntop (sin_addr addr) 31 in
      let szHostPort := snprintf 63 (szHostIP ++ ":" ++ pretty (ntohs o (sin_port addr))) in
      SocketMakeBlocking;;
      r ← Request "CONNECT" szHostPort szHostPort;
      HttpClient_destroy;;
      mret r).
End Methods.
End Platform.
