(* ===== verification/HookParse.v ===== *)
(** How the loop of [HttpClient::Request] runs: one round for each byte, lines of
    text, and the table of the headers it builds. *)

From stdpp Require Import base gmap list strings.
From Stdlib Require Import ZArith Lia Ascii.
From S2P Require Import Prelude PfMacros ClientHook.

#[local] Open Scope Z_scope.

(** The buffer after the bytes [pre] have been kept. *)
Definition filled (pre : list ascii) : list ascii :=
  pre ++ replicate (BUFFER_SIZE - length pre) NUL.

Lemma length_filled pre : (length pre <= BUFFER_SIZE)%nat -> length (filled pre) = BUFFER_SIZE.
Proof. intros. unfold filled. rewrite length_app, length_replicate. lia. Qed.

Lemma filled_insert pre c : (length pre < BUFFER_SIZE)%nat ->
  <[length pre := c]> (filled pre) = pre ++ c :: replicate (BUFFER_SIZE - S (length pre)) NUL.
Proof.
  intros. unfold filled.
  replace (BUFFER_SIZE - length pre)%nat with (S (BUFFER_SIZE - S (length pre))) by lia.
  cbn [replicate]. rewrite insert_app_r_alt, Nat.sub_diag by lia. done.
Qed.

Lemma filled_snoc pre c : (length pre < BUFFER_SIZE)%nat ->
  <[length pre := c]> (filled pre) = filled (pre ++ [c]).
Proof.
  intros. rewrite filled_insert by done. unfold filled. rewrite length_app, <-app_assoc.
  cbn. by rewrite Nat.add_1_r.
Qed.

(** * Responses *)

Definition is_text (c : ascii) : Prop := c <> LF /\ c <> CR.

Definition crlf : list ascii := [CR; LF].

(** A header on the wire, and what is left of it in the buffer. *)
Definition header_bytes (h : string * string) : list ascii :=
  bytes h.1 ++ COLON :: " "%char :: bytes h.2 ++ crlf.
Definition header_image (h : string * string) : list ascii :=
  bytes h.1 ++ NUL :: " "%char :: bytes h.2 ++ [NUL].

(** A header the table can hold: a key with no colon, text with no NUL. *)
Definition header_ok (h : string * string) : Prop :=
  h.1 <> ""%string /\ NUL ∉ bytes h.1 /\ COLON ∉ bytes h.1 /\ Forall is_text (bytes h.1) /\
  NUL ∉ bytes h.2 /\ Forall is_text (bytes h.2).

(** [pre] holds the C string [s] at the offset [off]. *)
Definition text_at (pre : list ascii) (off : nat) (s : string) : Prop :=
  exists x y, pre = x ++ bytes s ++ NUL :: y /\ length x = off.

Lemma text_at_app pre off s z : text_at pre off s -> text_at (pre ++ z) off s.
Proof. intros (x & y & -> & <-). exists x, (y ++ z). by rewrite <-!app_assoc. Qed.

Lemma cstring_text s y : NUL ∉ bytes s -> cstring (bytes s ++ NUL :: y) = Some s.
Proof.
  induction s as [|c s IH]; cbn; intros Hs; [by rewrite bool_decide_true|].
  rewrite bool_decide_false by set_solver. by rewrite IH by set_solver.
Qed.

Section Run.
(** What the loop does not change. *)
Context (fd : Z) (dont_close connected : bool) (old_flags : Z) (tl : tail)
  (fls : gmap Z Z) (trace : list call).

(** The state of the loop: the buffer, the two tables, the number of values, and
    the bytes to come. *)
Definition at_ (b : list ascii) (ks vs : list (option Z)) (n : Z) (inp : list ascii) : st :=
  St (HttpClient fd dont_close connected old_flags b ks vs n) (World inp tl fls trace).

Implicit Types (b pre : list ascii) (ks vs : list (option Z)) (n : Z) (rest : list ascii).

(** The line before the current one is not empty. *)
Definition ongoing b ks n : Prop :=
  n <= 1 \/ exists k c, ks !! Z.to_nat (n - 1) = Some (Some k) /\ 0 <= k /\
    b !! Z.to_nat k = Some c /\ c <> NUL.

Lemma store_at b ks vs n inp p c :
  0 <= p < Z.of_nat (length b) ->
  store p c (at_ b ks vs n inp) = Done (tt, at_ (<[Z.to_nat p := c]> b) ks vs n inp).
Proof.
  intros. unfold store. autorewrite with run. cbn.
  by rewrite (proj2 (Z.leb_le 0 p)), (proj2 (Z.ltb_lt p _)) by lia.
Qed.

Lemma load_at b ks vs n inp p c :
  0 <= p -> b !! Z.to_nat p = Some c -> load p (at_ b ks vs n inp) = Done (c, at_ b ks vs n inp).
Proof.
  intros Hp Hc. unfold load. autorewrite with run. cbn.
  rewrite (proj2 (Z.ltb_ge p 0)) by lia. by rewrite Hc.
Qed.

Lemma entry_at tab b ks vs n inp i q :
  tab (cl (at_ b ks vs n inp)) !! Z.to_nat i = Some q ->
  entry tab i (at_ b ks vs n inp) = Done (q, at_ b ks vs n inp).
Proof. intros Hq. unfold entry. autorewrite with run. cbn in *. by rewrite Hq. Qed.

Lemma set_key_at b ks vs n inp i p :
  i < Z.of_nat (length ks) ->
  set_key i p (at_ b ks vs n inp) = Done (tt, at_ b (<[Z.to_nat i := Some p]> ks) vs n inp).
Proof.
  intros Hi. unfold set_key. autorewrite with run. cbn [cl at_ m_keys].
  by rewrite (proj2 (Z.ltb_lt i _) Hi).
Qed.

Lemma set_value_at b ks vs n inp i p :
  i < Z.of_nat (length vs) ->
  set_value i p (at_ b ks vs n inp) = Done (tt, at_ b ks (<[Z.to_nat i := Some p]> vs) n inp).
Proof.
  intros Hi. unfold set_value. autorewrite with run. cbn [cl at_ m_values].
  by rewrite (proj2 (Z.ltb_lt i _) Hi).
Qed.

Lemma set_nvalues_at b ks vs n inp m :
  set_nvalues m (at_ b ks vs n inp) = Done (tt, at_ b ks vs m inp).
Proof. done. Qed.

(** The first byte of the line before the current one. *)
Lemma headers_end_at b ks vs n inp k c :
  1 < n -> ks !! Z.to_nat (n - 1) = Some (Some k) -> 0 <= k -> b !! Z.to_nat k = Some c ->
  headers_end (at_ b ks vs n inp) = Done (bool_decide (c = NUL), at_ b ks vs n inp).
Proof.
  intros Hn Hk H0 Hc. unfold headers_end. autorewrite with run. cbn [m_nvalues cl at_ compose].
  rewrite (proj2 (Z.ltb_lt 1 n)) by lia.
  erewrite run_bind by (by apply entry_at). cbn [deref].
  by erewrite run_bind by (by apply load_at).
Qed.

Lemma headers_end_ongoing b ks vs n inp :
  ongoing b ks n -> headers_end (at_ b ks vs n inp) = Done (false, at_ b ks vs n inp).
Proof.
  destruct (Z.lt_ge_cases 1 n) as [Hn|Hn].
  - intros [|(k & c & Hk & H0 & Hc & Hne)]; [lia|].
    erewrite headers_end_at by done. by rewrite bool_decide_false.
  - intros _. unfold headers_end. autorewrite with run. cbn.
    by rewrite (proj2 (Z.ltb_ge 1 n)) by lia.
Qed.

(** The rest of a round that read a byte. *)
Definition finish_round (p : Z) : M st (Z + unit) :=
  stop ← headers_end;
  if (stop : bool) then mret (inr tt) else mret (inl (p + 1)).

Lemma parse_round_byte b ks vs n c rest p :
  length b = BUFFER_SIZE -> 0 <= p < Z.of_nat BUFFER_SIZE - 1 ->
  parse_round p (at_ b ks vs n (c :: rest)) =
    (p' ← parse_char p c; finish_round p') (at_ (<[Z.to_nat p := c]> b) ks vs n rest).
Proof.
  intros Hb Hp. unfold parse_round. rewrite (proj2 (Z.ltb_lt p _)) by lia. cbn [negb].
  assert (read1 p (at_ b ks vs n (c :: rest)) =
    Done (1, at_ (<[Z.to_nat p := c]> b) ks vs n rest)) as Hread.
  { unfold read1. autorewrite with run. cbn [input wo at_].
    by erewrite run_bind by (apply store_at; lia). }
  erewrite run_bind by done. cbn [Z.eqb].
  erewrite run_bind; [done|]. apply load_at; [lia|].
  by rewrite list_lookup_insert_eq by lia.
Qed.

Lemma parse_round_eof b ks vs n p :
  tl = Eof -> parse_round p (at_ b ks vs n []) = Done (inr tt, at_ b ks vs n []).
Proof.
  intros Htl. unfold parse_round, at_. destruct (negb (p <? _)); [done|].
  unfold read1. autorewrite with run. cbn. by rewrite Htl.
Qed.

Lemma parse_round_full b ks vs n rest p :
  Z.of_nat BUFFER_SIZE - 1 <= p ->
  parse_round p (at_ b ks vs n rest) = Done (inr tt, at_ b ks vs n rest).
Proof. intros Hp. unfold parse_round. by rewrite (proj2 (Z.ltb_ge p _)) by lia. Qed.

(** ** Lines *)

Implicit Types (fuel : nat).

Lemma parse_round_ongoing p b ks vs n c rest p' b' ks' vs' n' :
  length b = BUFFER_SIZE -> 0 <= p < Z.of_nat BUFFER_SIZE - 1 ->
  parse_char p c (at_ (<[Z.to_nat p := c]> b) ks vs n rest) =
    Done (p', at_ b' ks' vs' n' rest) ->
  ongoing b' ks' n' ->
  parse_round p (at_ b ks vs n (c :: rest)) = Done (inl (p' + 1), at_ b' ks' vs' n' rest).
Proof.
  intros Hb Hp Hc Hon. rewrite parse_round_byte by done.
  rewrite (run_bind _ _ _ _ _ Hc). unfold finish_round.
  by rewrite (run_bind _ _ _ _ _ (headers_end_ongoing _ _ _ _ _ Hon)).
Qed.

Lemma loop_round fuel p b ks vs n c rest p' b' ks' vs' n' :
  length b = BUFFER_SIZE -> 0 <= p < Z.of_nat BUFFER_SIZE - 1 ->
  parse_char p c (at_ (<[Z.to_nat p := c]> b) ks vs n rest) =
    Done (p', at_ b' ks' vs' n' rest) ->
  ongoing b' ks' n' ->
  loop (S fuel) parse_round p (at_ b ks vs n (c :: rest)) =
    loop fuel parse_round (p' + 1) (at_ b' ks' vs' n' rest).
Proof.
  intros. rewrite run_loop.
  by rewrite (run_bind _ _ _ _ _ (parse_round_ongoing _ _ _ _ _ _ _ _ _ _ _ _ H H0 H1 H2)).
Qed.

Lemma ongoing_app pre x ks n : ongoing pre ks n -> ongoing (pre ++ x) ks n.
Proof.
  intros [H|(k & c & Hk & H0 & Hc & Hne)]; [by left|right].
  exists k, c. split_and!; try done. by apply lookup_app_l_Some.
Qed.

Lemma ongoing_filled pre ks n : ongoing pre ks n -> ongoing (filled pre) ks n.
Proof. apply ongoing_app. Qed.

(** One byte of a line that is kept: text, a colon only after the key. *)
Lemma loop_text1 fuel pre ks vs n c rest :
  (S (length pre) < BUFFER_SIZE)%nat -> is_text c ->
  (c <> COLON \/ exists v, vs !! Z.to_nat n = Some (Some v)) -> ongoing pre ks n ->
  loop (S fuel) parse_round (Z.of_nat (length pre)) (at_ (filled pre) ks vs n (c :: rest)) =
    loop fuel parse_round (Z.of_nat (length (pre ++ [c]))) (at_ (filled (pre ++ [c])) ks vs n rest).
Proof.
  intros Hlen [Hlf Hcr] Hcol Hon.
  replace (Z.of_nat (length (pre ++ [c]))) with (Z.of_nat (length pre) + 1)
    by (rewrite length_app; cbn; lia).
  apply loop_round; [apply length_filled; lia|lia| |by apply ongoing_filled, ongoing_app].
  rewrite Nat2Z.id, filled_snoc by lia.
  unfold parse_char. autorewrite with run. cbn [m_nvalues cl at_ compose].
  rewrite bool_decide_false by done.
  destruct (decide (c = COLON)) as [->|Hne].
  - rewrite bool_decide_true by done. destruct Hcol as [|(v & Hv)]; [done|].
    rewrite (run_bind _ _ _ _ _ (entry_at m_values _ _ _ _ _ _ _ Hv)). done.
  - by rewrite !bool_decide_false by done.
Qed.

Lemma loop_text fuel t pre ks vs n rest :
  (length pre + length t < BUFFER_SIZE)%nat -> Forall is_text t ->
  (COLON ∉ t \/ exists v, vs !! Z.to_nat n = Some (Some v)) -> ongoing pre ks n ->
  loop (length t + fuel) parse_round (Z.of_nat (length pre)) (at_ (filled pre) ks vs n (t ++ rest)) =
    loop fuel parse_round (Z.of_nat (length (pre ++ t))) (at_ (filled (pre ++ t)) ks vs n rest).
Proof.
  revert pre. induction t as [|c t IH]; intros pre Hlen Ht Hcol Hon; [by rewrite app_nil_r|].
  apply Forall_cons in Ht as [Hc Ht]. cbn in Hlen.
  cbn [length Nat.add app]. rewrite loop_text1; [|lia|done| |done].
  - rewrite IH, <-app_assoc; [done|rewrite length_app; cbn; lia|done| |by apply ongoing_app].
    destruct Hcol as [Hcol|]; [left; set_solver|by right].
  - destruct Hcol as [Hcol|]; [left; set_solver|by right].
Qed.

(** The colon that ends a key. *)
Lemma loop_colon fuel pre ks vs n rest :
  (S (length pre) < BUFFER_SIZE)%nat -> 0 <= n ->
  vs !! Z.to_nat n = Some None -> ongoing pre ks n ->
  loop (S fuel) parse_round (Z.of_nat (length pre)) (at_ (filled pre) ks vs n (COLON :: rest)) =
    loop fuel parse_round (Z.of_nat (length (pre ++ [NUL])))
      (at_ (filled (pre ++ [NUL])) ks
         (<[Z.to_nat n := Some (Z.of_nat (length pre) + 2)]> vs) n rest).
Proof.
  intros Hlen Hn Hv Hon.
  replace (Z.of_nat (length (pre ++ [NUL]))) with (Z.of_nat (length pre) + 1)
    by (rewrite length_app; cbn; lia).
  apply loop_round; [apply length_filled; lia|lia| |by apply ongoing_filled, ongoing_app].
  rewrite Nat2Z.id. unfold parse_char. autorewrite with run. cbn [m_nvalues cl at_ compose].
  rewrite bool_decide_false, bool_decide_true by done.
  rewrite (run_bind _ _ _ _ _ (entry_at m_values _ _ _ _ _ _ _ Hv)).
  rewrite run_assoc.
  erewrite run_bind; [|apply store_at; rewrite length_insert, length_filled; lia].
  rewrite Nat2Z.id, list_insert_insert_eq, filled_snoc by lia.
  apply lookup_lt_Some in Hv. by erewrite run_bind by (apply set_value_at; lia).
Qed.

(** The end of a line; the carriage return leaves its byte for the next one. *)
Lemma loop_crlf fuel pre ks vs n rest :
  (S (length pre) < BUFFER_SIZE)%nat -> 0 <= n -> n + 1 < Z.of_nat (length ks) ->
  ongoing pre ks n ->
  loop (S (S fuel)) parse_round (Z.of_nat (length pre)) (at_ (filled pre) ks vs n (CR :: LF :: rest)) =
    (r ← finish_round (Z.of_nat (length pre));
     match r with inl p => loop fuel parse_round p | inr b => mret b end)
      (at_ (filled (pre ++ [NUL]))
         (<[Z.to_nat (n + 1) := Some (Z.of_nat (length pre) + 1)]> ks) vs (n + 1) rest).
Proof.
  intros Hlen Hn Hks Hon.
  assert (parse_char (Z.of_nat (length pre)) CR
      (at_ (<[length pre := CR]> (filled pre)) ks vs n (LF :: rest)) =
    Done (Z.of_nat (length pre) - 1, at_ (<[length pre := CR]> (filled pre)) ks vs n (LF :: rest)))
    as Hcr by done.
  erewrite loop_round; [|apply length_filled; lia|lia| |].
  2: { rewrite Nat2Z.id. apply Hcr. }
  2: { rewrite filled_insert by lia. by apply ongoing_app. }
  rewrite Z.sub_add, run_loop. apply run_congr.
  rewrite parse_round_byte; [|rewrite length_insert; apply length_filled; lia|lia].
  rewrite Nat2Z.id, list_insert_insert_eq.
  unfold parse_char. autorewrite with run. cbn [m_nvalues cl at_ compose].
  rewrite bool_decide_true, run_assoc by done.
  erewrite run_bind; [|apply store_at; rewrite length_insert, length_filled; lia].
  rewrite Nat2Z.id, list_insert_insert_eq, filled_snoc by lia.
  rewrite run_assoc, (run_bind _ _ _ _ _ (set_nvalues_at _ _ _ _ _ _)).
  by rewrite run_assoc, (run_bind _ _ _ _ _ (set_key_at _ _ _ _ _ _ _ Hks)).
Qed.

(** ** Headers *)

Implicit Types (hs : list (string * string)).

(** The state at the start of the line after the headers [hs]. *)
Definition table_ok pre ks vs hs : Prop :=
  length ks = MAX_VALUES /\ length vs = MAX_VALUES /\
  ks !! S (length hs) = Some (Some (Z.of_nat (length pre))) /\
  (forall j, (S (length hs) <= j < MAX_VALUES)%nat -> vs !! j = Some None) /\
  (forall i k v, hs !! i = Some (k, v) -> exists ko vo,
     ks !! S i = Some (Some (Z.of_nat ko)) /\ text_at pre ko k /\
     vs !! S i = Some (Some (Z.of_nat vo)) /\ text_at pre vo v).

Lemma table_ongoing pre ks vs hs :
  Forall header_ok hs -> table_ok pre ks vs hs -> ongoing pre ks (Z.of_nat (S (length hs))).
Proof.
  intros Hok (_ & _ & _ & _ & Ht).
  destruct hs as [|h hs _] using rev_ind; [by left|right].
  destruct h as [k v]. destruct (Ht (length hs) k v) as (ko & _ & Hk & Hat & _).
  { by rewrite lookup_app_r, Nat.sub_diag by lia. }
  apply Forall_app in Hok as [_ Hh%Forall_inv]. destruct Hh as (Hne & Hk0 & _). cbn in Hne, Hk0.
  destruct k as [|c k]; [done|].
  exists (Z.of_nat ko), c. rewrite length_app, Nat.add_1_r.
  replace (Z.to_nat _) with (S (length hs)) by lia. split_and!; [done|lia| |].
  - rewrite Nat2Z.id. destruct Hat as (x & y & -> & <-).
    by rewrite lookup_app_r, Nat.sub_diag by lia.
  - cbn in Hk0. set_solver.
Qed.

(** The tables after one more header. *)
Lemma table_snoc pre ks vs hs k v :
  let n := S (length hs) in
  table_ok pre ks vs hs -> (S n < MAX_VALUES)%nat ->
  table_ok (pre ++ header_image (k, v))
    (<[S n := Some (Z.of_nat (length (pre ++ header_image (k, v))))]> ks)
    (<[n := Some (Z.of_nat (length (pre ++ bytes k)) + 2)]> vs) (hs ++ [(k, v)]).
Proof.
  intros n (Hks & Hvs & Hcur & Hnone & Ht) Hn.
  unfold table_ok. rewrite !length_insert, length_app, Nat.add_1_r. fold n. cbn [length].
  split_and!; [done|done| | |].
  - by rewrite list_lookup_insert_eq by lia.
  - intros j Hj. rewrite list_lookup_insert_ne by lia. apply Hnone. lia.
  - intros i k' v' Hi. apply lookup_snoc_Some in Hi as [[Hlt Hi]|[-> [= <- <-]]].
    + destruct (Ht _ _ _ Hi) as (ko & vo & Hko & Htk & Hvo & Htv). exists ko, vo.
      rewrite !list_lookup_insert_ne by lia. split_and!; try done; by apply text_at_app.
    + exists (length pre), (length (pre ++ bytes k) + 2)%nat. fold n.
      rewrite list_lookup_insert_ne, list_lookup_insert_eq by lia. split_and!.
      * done.
      * exists pre, (" "%char :: bytes v ++ [NUL]). done.
      * do 2 f_equal. lia.
      * exists (pre ++ bytes k ++ [NUL; " "%char]), []. unfold header_image. cbn [fst snd].
        rewrite !length_app, <-!app_assoc. cbn. split; [done|lia].
Qed.

(** The run over a header, the end of its line apart. *)
Lemma loop_key_value fuel pre ks vs n k v rest :
  header_ok (k, v) -> 0 <= n -> ongoing pre ks n -> vs !! Z.to_nat n = Some None ->
  (length pre + length (header_image (k, v)) < BUFFER_SIZE)%nat ->
  let pre' := pre ++ bytes k ++ NUL :: " "%char :: bytes v in
  loop (length (bytes k) + S (S (length (bytes v))) + fuel) parse_round
    (Z.of_nat (length pre))
    (at_ (filled pre) ks vs n (bytes k ++ COLON :: " "%char :: bytes v ++ rest)) =
  loop fuel parse_round (Z.of_nat (length pre'))
    (at_ (filled pre') ks
      (<[Z.to_nat n := Some (Z.of_nat (length (pre ++ bytes k)) + 2)]> vs) n rest).
Proof.
  intros (Hne & Hk0 & Hkc & Hkt & Hv0 & Hvt) Hn Hon Hv Hlen pre'.
  unfold header_image in Hlen. cbn [fst snd] in *.
  rewrite length_app in Hlen. cbn in Hlen. rewrite length_app in Hlen. cbn in Hlen.
  rewrite <-Nat.add_assoc, loop_text; [|lia|done|by left|done].
  cbn [Nat.add]. rewrite loop_colon; [|rewrite length_app; lia|done|done|by apply ongoing_app].
  change (" "%char :: bytes v ++ rest) with ((" "%char :: bytes v) ++ rest).
  change (S (length (bytes v) + fuel)) with (length (" "%char :: bytes v) + fuel)%nat.
  rewrite loop_text.
  - by rewrite <-!app_assoc.
  - rewrite !length_app. cbn. lia.
  - by constructor.
  - right. rewrite list_lookup_insert_eq; eauto using lookup_lt_Some.
  - by do 2 apply ongoing_app.
Qed.

Lemma loop_header fuel pre ks vs hs h rest :
  header_ok h -> Forall header_ok hs -> table_ok pre ks vs hs ->
  (S (S (length hs)) < MAX_VALUES)%nat ->
  (length pre + length (header_image h) < BUFFER_SIZE)%nat ->
  exists ks' vs', table_ok (pre ++ header_image h) ks' vs' (hs ++ [h]) /\
    loop (length (header_bytes h) + fuel) parse_round (Z.of_nat (length pre))
      (at_ (filled pre) ks vs (Z.of_nat (S (length hs))) (header_bytes h ++ rest)) =
    loop fuel parse_round (Z.of_nat (length (pre ++ header_image h)))
      (at_ (filled (pre ++ header_image h)) ks' vs' (Z.of_nat (S (length (hs ++ [h])))) rest).
Proof.
  destruct h as [k v]. intros Hh Hhs Ht Hn Hlen.
  do 2 eexists. split; [by apply table_snoc|].
  assert (Forall header_ok (hs ++ [(k, v)])) as Hhs' by (apply Forall_app; split; [done|by apply Forall_singleton]).
  pose proof (table_ongoing _ _ _ _ Hhs Ht) as Hon.
  pose proof (table_ongoing _ _ _ _ Hhs' (table_snoc _ _ _ _ k v Ht Hn)) as Hon'.
  destruct Ht as (Hks & Hvs & Hcur & Hnone & _).
  assert (header_image (k, v) = (bytes k ++ NUL :: " "%char :: bytes v) ++ [NUL]) as Himg
    by (unfold header_image; by rewrite <-app_assoc).
  assert (length (header_bytes (k, v)) + fuel =
    length (bytes k) + S (S (length (bytes v))) + S (S fuel))%nat as Hfuel.
  { unfold header_bytes. cbn [fst snd]. rewrite length_app. cbn. rewrite length_app. cbn. lia. }
  rewrite Hfuel. unfold header_bytes. cbn [fst snd]. rewrite <-app_assoc. cbn [app].
  rewrite <-app_assoc. rewrite loop_key_value; [|done|lia|done| |done].
  2: { apply Hnone. lia. }
  rewrite Nat2Z.id. cbn [app crlf].
  rewrite Himg in *. rewrite length_app in Hlen. cbn [length] in Hlen.
  set (x := bytes k ++ NUL :: " "%char :: bytes v) in *.
  rewrite loop_crlf; [|rewrite length_app; lia|lia|lia|by apply ongoing_app].
  rewrite app_assoc, !length_app in *. cbn [length] in *.
  replace (Z.of_nat (S (length hs)) + 1) with (Z.of_nat (S (length hs + 1))) by lia.
  replace (Z.to_nat (Z.of_nat (S (length hs + 1)))) with (S (S (length hs))) by lia.
  replace (Z.of_nat (length pre + length x) + 1) with (Z.of_nat (length pre + length x + 1)) by lia.
  unfold finish_round. rewrite run_assoc.
  rewrite (run_bind _ _ _ _ _ (headers_end_ongoing _ _ _ _ _ (ongoing_filled _ _ _ Hon'))).
  rewrite run_ret. do 2 f_equal. lia.
Qed.

(** The whole response: a status line, headers, an empty line. *)
Definition response (status : string) hs : list ascii :=
  bytes status ++ crlf ++ concat (header_bytes <$> hs) ++ crlf.
Definition response_image (status : string) hs : list ascii :=
  bytes status ++ NUL :: concat (header_image <$> hs).

Lemma loop_headers fuel pre ks vs hs0 hs rest :
  Forall header_ok hs -> Forall header_ok hs0 -> table_ok pre ks vs hs0 ->
  (S (length (hs0 ++ hs)) < MAX_VALUES)%nat ->
  (length pre + length (concat (header_image <$> hs)) < BUFFER_SIZE)%nat ->
  let pre' := pre ++ concat (header_image <$> hs) in
  exists ks' vs', table_ok pre' ks' vs' (hs0 ++ hs) /\
    loop (length (concat (header_bytes <$> hs)) + fuel) parse_round (Z.of_nat (length pre))
      (at_ (filled pre) ks vs (Z.of_nat (S (length hs0))) (concat (header_bytes <$> hs) ++ rest)) =
    loop fuel parse_round (Z.of_nat (length pre'))
      (at_ (filled pre') ks' vs' (Z.of_nat (S (length (hs0 ++ hs)))) rest).
Proof.
  revert pre ks vs hs0. induction hs as [|h hs IH]; intros pre ks vs hs0 Hhs Hhs0 Ht Hn Hlen; cbn.
  { rewrite !app_nil_r. eauto. }
  apply Forall_cons in Hhs as [Hh Hhs]. cbn in Hlen.
  rewrite length_app in Hn, Hlen. cbn in Hn.
  destruct (loop_header (length (concat (header_bytes <$> hs)) + fuel) pre ks vs hs0 h
    (concat (header_bytes <$> hs) ++ rest)) as (ks1 & vs1 & Ht1 & Hrun1); try done; [lia|lia|].
  destruct (IH (pre ++ header_image h) ks1 vs1 (hs0 ++ [h])) as (ks2 & vs2 & Ht2 & Hrun2);
    try done.
  { apply Forall_app. split; [done|by apply Forall_singleton]. }
  { rewrite !length_app. cbn. lia. }
  { rewrite length_app. lia. }
  exists ks2, vs2. rewrite <-(app_assoc pre), <-(app_assoc hs0) in *. split; [done|].
  by rewrite length_app, <-Nat.add_assoc, <-app_assoc, Hrun1, Hrun2.
Qed.

(** A response the buffer and the tables have room for. *)
Definition fits (status : string) hs : Prop :=
  Forall is_text (bytes status) /\ COLON ∉ bytes status /\ Forall header_ok hs /\
  (S (S (length hs)) < MAX_VALUES)%nat /\
  (S (length (response_image status hs)) < BUFFER_SIZE)%nat.

Lemma loop_status fuel status rest :
  Forall is_text (bytes status) -> COLON ∉ bytes status ->
  (S (length (bytes status)) < BUFFER_SIZE)%nat ->
  let pre := bytes status ++ [NUL] in
  exists ks, table_ok pre ks (replicate MAX_VALUES None) [] /\
    loop (length (bytes status) + S (S fuel)) parse_round 0
      (at_ (filled []) (replicate MAX_VALUES None) (replicate MAX_VALUES None) 0
        (bytes status ++ CR :: LF :: rest)) =
    loop fuel parse_round (Z.of_nat (length pre))
      (at_ (filled pre) ks (replicate MAX_VALUES None) 1 rest).
Proof.
  intros Ht Hcol Hlen pre.
  exists (<[1%nat := Some (Z.of_nat (length pre))]> (replicate MAX_VALUES None)). split.
  - split_and!; [done|done|done| |done]. intros j Hj. cbn in Hj.
    apply lookup_replicate. split; [done|lia].
  - change 0 with (Z.of_nat (length (@nil ascii))) at 1.
    rewrite loop_text; [|cbn; lia|done|by left|by left]. cbn [app].
    rewrite loop_crlf; [|lia|lia|done|by left].
    unfold finish_round. rewrite run_assoc.
    erewrite run_bind by (apply headers_end_ongoing; by left).
    cbn beta iota. rewrite run_ret. subst pre. rewrite length_app. cbn [length].
    by rewrite Nat2Z.inj_add.
Qed.

Lemma loop_response fuel status hs rest :
  fits status hs ->
  let pre := response_image status hs in
  exists ks vs, table_ok pre ks vs hs /\
    loop (length (response status hs) + fuel) parse_round 0
      (at_ (filled []) (replicate MAX_VALUES None) (replicate MAX_VALUES None) 0
        (response status hs ++ rest)) =
    Done (tt, at_ (filled (pre ++ [NUL]))
      (<[S (S (length hs)) := Some (Z.of_nat (length pre) + 1)]> ks) vs
      (Z.of_nat (S (S (length hs)))) rest).
Proof.
  intros (Ht & Hcol & Hhs & Hn & Hlen) pre.
  unfold response_image in Hlen. rewrite length_app in Hlen. cbn [length] in Hlen.
  destruct (loop_status (length (concat (header_bytes <$> hs)) + S (S fuel)) status
    (concat (header_bytes <$> hs) ++ CR :: LF :: rest)) as (ks1 & Hks1 & Hrun1); [done|done|lia|].
  destruct (loop_headers (S (S fuel)) (bytes status ++ [NUL]) ks1 (replicate MAX_VALUES None) [] hs
    (CR :: LF :: rest)) as (ks2 & vs2 & Hks2 & Hrun2); [done|by constructor|done|cbn; lia| |].
  { rewrite length_app. cbn. lia. }
  cbn [app] in *. rewrite <-app_assoc in *. cbn [app] in *. fold (response_image status hs) in *.
  fold pre in Hks2, Hrun2. exists ks2, vs2. split; [done|].
  assert (length (response status hs) + fuel =
    length (bytes status) + S (S (length (concat (header_bytes <$> hs)) + S (S fuel))))%nat as ->.
  { unfold response. rewrite !length_app. cbn. lia. }
  unfold response. rewrite <-!app_assoc. cbn [app crlf].
  change (Z.of_nat (S (length []))) with 1 in Hrun2. rewrite Hrun1, Hrun2.
  pose proof (table_ongoing _ _ _ _ Hhs Hks2) as Hon.
  destruct Hks2 as (Hks & _ & Hcur & _).
  rewrite loop_crlf; [|subst pre; unfold response_image; rewrite length_app; cbn [length]; lia
                      |lia|lia|done].
  unfold finish_round. rewrite run_assoc.
  replace (Z.of_nat (S (length hs)) + 1) with (Z.of_nat (S (S (length hs)))) by lia.
  rewrite Nat2Z.id. erewrite run_bind; [|eapply headers_end_at; [lia| |apply Nat2Z.is_nonneg|]].
  - by rewrite bool_decide_true.
  - replace (Z.to_nat (Z.of_nat (S (S (length hs))) - 1)) with (S (length hs)) by lia.
    rewrite list_lookup_insert_ne by lia. apply Hcur.
  - rewrite Nat2Z.id. unfold filled. rewrite <-app_assoc.
    by rewrite lookup_app_r, Nat.sub_diag by lia.
Qed.

(** ** Look-ups *)

(** The value of the first header with the key; an empty one counts as none. *)
Fixpoint header_value (key : string) hs : option string :=
  match hs with
  | [] => None
  | (k, v) :: hs =>
      if bool_decide (k = key) then (if bool_decide (v = ""%string) then None else Some v)
      else header_value key hs
  end.

Lemma string_at_text pre ks vs n inp off s z :
  text_at pre off s -> NUL ∉ bytes s ->
  string_at (Some (Z.of_nat off)) (at_ (pre ++ z) ks vs n inp) = Done (s, at_ (pre ++ z) ks vs n inp).
Proof.
  intros (x & y & -> & <-) Hs. unfold string_at. autorewrite with run. cbn [m_buffer cl at_ compose].
  rewrite Nat2Z.id, <-!app_assoc, drop_app_length. cbn [app]. by rewrite cstring_text.
Qed.

Lemma deref_text pre ks vs n inp off s z :
  text_at pre off s -> NUL ∉ bytes s ->
  deref (Some (Z.of_nat off)) (at_ (pre ++ z) ks vs n inp) =
    Done (match s with ""%string => NUL | String c _ => c end, at_ (pre ++ z) ks vs n inp).
Proof.
  intros (x & y & -> & <-) Hs. apply load_at; [lia|].
  rewrite Nat2Z.id, <-!app_assoc, lookup_app_r, Nat.sub_diag by lia. by destruct s.
Qed.

Lemma GetHeader_from_table key hs0 hs pre ks vs n inp z :
  key <> ""%string -> Forall header_ok hs ->
  (forall i k v, (hs0 ++ hs) !! i = Some (k, v) -> exists ko vo,
     ks !! S i = Some (Some (Z.of_nat ko)) /\ text_at pre ko k /\
     vs !! S i = Some (Some (Z.of_nat vo)) /\ text_at pre vo v) ->
  (exists ko, ks !! S (length (hs0 ++ hs)) = Some (Some (Z.of_nat ko)) /\ text_at pre ko "") ->
  GetHeader_from key (Z.of_nat (S (length hs0))) (S (length hs)) (at_ (pre ++ z) ks vs n inp) =
    Done (header_value key hs, at_ (pre ++ z) ks vs n inp).
Proof.
  intros Hkey. revert hs0. induction hs as [|[k v] hs IH]; intros hs0 Hhs Ht Hend.
  - destruct Hend as (ko & Hko & Htk). rewrite app_nil_r in Hko. cbn [GetHeader_from length].
    erewrite run_bind; [|apply entry_at; rewrite Nat2Z.id; apply Hko].
    erewrite run_bind; [|apply string_at_text; [apply Htk|apply not_elem_of_nil]].
    by rewrite bool_decide_false.
  - apply Forall_cons in Hhs as [(Hne & Hk0 & _ & _ & Hv0 & _) Hhs].
    destruct (Ht (length hs0) k v) as (ko & vo & Hko & Htk & Hvo & Htv).
    { by rewrite lookup_app_r, Nat.sub_diag by lia. }
    cbn [GetHeader_from length]. cbn [fst snd] in *.
    erewrite run_bind; [|apply entry_at; rewrite Nat2Z.id; apply Hko].
    erewrite run_bind; [|by apply string_at_text].
    cbn [header_value]. destruct (bool_decide_reflect (k = key)).
    + erewrite run_bind; [|apply entry_at; rewrite Nat2Z.id; apply Hvo].
      erewrite run_bind; [|by apply deref_text].
      destruct v as [|c v]; [done|].
      rewrite !bool_decide_false by (done || (cbn in Hv0; set_solver)).
      by erewrite run_bind by (by apply string_at_text).
    + replace (Z.of_nat (S (length hs0)) + 1) with (Z.of_nat (S (length (hs0 ++ [(k, v)]))))
        by (rewrite length_app; cbn; lia).
      apply IH; rewrite <-?app_assoc; done.
Qed.

(** ** Any input *)

(** What every round keeps: the pointers are in the buffer, and there is room for
    the lines to come. *)
Definition safe_at (p : Z) (b : list ascii) ks vs n inp : Prop :=
  length b = BUFFER_SIZE /\ length ks = MAX_VALUES /\ length vs = MAX_VALUES /\
  0 <= p < Z.of_nat BUFFER_SIZE /\ 0 <= n /\
  n + Z.of_nat (length (filter (LF =.) inp)) < Z.of_nat MAX_VALUES /\
  (forall i, 1 <= i <= n -> exists k, ks !! Z.to_nat i = Some (Some k) /\
     0 <= k < Z.of_nat BUFFER_SIZE).

Lemma finish_round_safe p b ks vs n inp :
  safe_at (p + 1) b ks vs n inp ->
  exists r, finish_round p (at_ b ks vs n inp) = Done (r, at_ b ks vs n inp) /\
    (r = inr tt \/ r = inl (p + 1)).
Proof.
  intros (Hb & Hks & Hvs & Hp & Hn & Hcnt & Hk). unfold finish_round.
  destruct (Z.lt_ge_cases 1 n) as [Hn1|Hn1].
  - destruct (Hk (n - 1)) as (k & Hkn & Hk0); [lia|].
    destruct (lookup_lt_is_Some_2 b (Z.to_nat k)) as [c Hc]; [lia|].
    rewrite (run_bind _ _ _ _ _ (headers_end_at _ _ _ _ _ _ _ Hn1 Hkn (proj1 Hk0) Hc)).
    destruct (bool_decide _); eauto.
  - erewrite run_bind by (apply headers_end_ongoing; by left). eauto.
Qed.

Lemma parse_char_safe p c b ks vs n inp :
  p < Z.of_nat BUFFER_SIZE - 1 -> safe_at p b ks vs n (c :: inp) ->
  exists p' b' ks' vs' n',
    parse_char p c (at_ (<[Z.to_nat p := c]> b) ks vs n inp) =
      Done (p', at_ b' ks' vs' n' inp) /\
    safe_at (p' + 1) b' ks' vs' n' inp.
Proof.
  intros Hp1 (Hb & Hks & Hvs & Hp & Hn & Hcnt & Hk).
  unfold parse_char. autorewrite with run. cbn [m_nvalues cl at_ compose].
  rewrite filter_cons in Hcnt.
  case_decide as Hlf; [rewrite bool_decide_true by done|rewrite bool_decide_false by done].
  - cbn [length] in Hcnt.
    erewrite run_bind; [|apply store_at; rewrite length_insert; lia].
    rewrite list_insert_insert_eq, (run_bind _ _ _ _ _ (set_nvalues_at _ _ _ _ _ _)).
    erewrite run_bind by (apply set_key_at; lia).
    do 5 eexists. split; [reflexivity|]. split_and!; rewrite ?length_insert; try done; [lia..|].
    intros i Hi. destruct (decide (i = n + 1)) as [->|Hne].
    + rewrite list_lookup_insert_eq by lia. eexists. split; [done|lia].
    + rewrite list_lookup_insert_ne by lia. apply Hk. lia.
  - case_bool_decide as Hcol.
    + destruct (lookup_lt_is_Some_2 vs (Z.to_nat n)) as [v Hv]; [lia|].
      rewrite (run_bind _ _ _ _ _ (entry_at m_values _ _ _ _ _ _ _ Hv)).
      destruct v as [v|].
      * do 5 eexists. split; [reflexivity|].
        split_and!; rewrite ?length_insert; done || lia.
      * rewrite run_assoc.
        erewrite run_bind; [|apply store_at; rewrite length_insert; lia].
        rewrite list_insert_insert_eq. erewrite run_bind by (apply set_value_at; lia).
        do 5 eexists. split; [reflexivity|].
        split_and!; rewrite ?length_insert; done || lia.
    + case_bool_decide; do 5 eexists; (split; [reflexivity|]);
        split_and!; rewrite ?length_insert; done || lia.
Qed.

Lemma parse_round_safe p b ks vs n inp :
  tl = Eof -> safe_at p b ks vs n inp ->
  exists r b' ks' vs' n' inp', parse_round p (at_ b ks vs n inp) = Done (r, at_ b' ks' vs' n' inp') /\
    match r with
    | inl p' => (length inp' < length inp)%nat /\ safe_at p' b' ks' vs' n' inp'
    | inr _ => True
    end.
Proof.
  intros Htl Hsafe. destruct (Z.lt_ge_cases p (Z.of_nat BUFFER_SIZE - 1)) as [Hp|Hp].
  2: { rewrite parse_round_full by done. do 6 eexists. by split. }
  destruct inp as [|c inp]; [rewrite parse_round_eof by done; do 6 eexists; by split|].
  rewrite parse_round_byte by (unfold safe_at in Hsafe; lia).
  destruct (parse_char_safe p c b ks vs n inp) as (p' & b' & ks' & vs' & n' & Hrun & Hsafe');
    [done|done|].
  rewrite (run_bind _ _ _ _ _ Hrun).
  destruct (finish_round_safe p' b' ks' vs' n' inp Hsafe') as (r & Hr & Hcase).
  rewrite Hr. do 6 eexists. split; [reflexivity|].
  destruct Hcase as [-> | ->]; [done|]. split; [cbn; lia|done].
Qed.

(** With the end of the file after the input, and not more lines than the tables
    have room for, the loop ends and no access is out of bounds. *)
Lemma loop_safe fuel p b ks vs n inp :
  tl = Eof -> safe_at p b ks vs n inp -> (length inp < fuel)%nat ->
  exists b' ks' vs' n' inp',
    loop fuel parse_round p (at_ b ks vs n inp) = Done (tt, at_ b' ks' vs' n' inp').
Proof.
  intros Htl. revert p b ks vs n inp. induction fuel as [|fuel IH]; intros p b ks vs n inp Hs Hf;
    [lia|].
  destruct (parse_round_safe p b ks vs n inp Htl Hs) as (r & b' & ks' & vs' & n' & inp' & Hr & Hc).
  rewrite run_loop, (run_bind _ _ _ _ _ Hr). destruct r as [p'|[]].
  - apply IH; [naive_solver|lia].
  - do 5 eexists. reflexivity.
Qed.

(** ** Too many headers *)

Lemma loop_crlf_panic fuel pre ks vs n rest :
  (S (length pre) < BUFFER_SIZE)%nat -> 0 <= n -> Z.of_nat (length ks) <= n + 1 ->
  ongoing pre ks n ->
  loop (S (S fuel)) parse_round (Z.of_nat (length pre)) (at_ (filled pre) ks vs n (CR :: LF :: rest)) =
    Fault Panic.
Proof.
  intros Hlen Hn Hks Hon.
  assert (parse_char (Z.of_nat (length pre)) CR
      (at_ (<[length pre := CR]> (filled pre)) ks vs n (LF :: rest)) =
    Done (Z.of_nat (length pre) - 1, at_ (<[length pre := CR]> (filled pre)) ks vs n (LF :: rest)))
    as Hcr by done.
  erewrite loop_round; [|apply length_filled; lia|lia| |].
  2: { rewrite Nat2Z.id. apply Hcr. }
  2: { rewrite filled_insert by lia. by apply ongoing_app. }
  rewrite Z.sub_add, run_loop. apply run_fault.
  rewrite parse_round_byte; [|rewrite length_insert; apply length_filled; lia|lia].
  apply run_fault. rewrite Nat2Z.id, list_insert_insert_eq.
  unfold parse_char. autorewrite with run. cbn [m_nvalues cl at_ compose].
  rewrite bool_decide_true by done.
  erewrite run_bind; [|apply store_at; rewrite length_insert, length_filled; lia].
  unfold set_nvalues, modify_cl, set_key. autorewrite with run. cbn [cl at_ m_keys set_table].
  by rewrite (proj2 (Z.ltb_ge (n + 1) (Z.of_nat (length ks)))) by lia.
Qed.

(** A connection that fails after a carriage return: the round finds the same byte
    for ever. *)
Lemma loop_stuck fuel pre ks vs n :
  tl = ReadError -> (S (length pre) < BUFFER_SIZE)%nat -> ongoing pre ks n ->
  loop fuel parse_round (Z.of_nat (length pre))
    (at_ (<[length pre := CR]> (filled pre)) ks vs n []) = Fault Diverges.
Proof.
  intros Htl Hlen Hon.
  set (σ := at_ (<[length pre := CR]> (filled pre)) ks vs n []).
  enough (parse_round (Z.of_nat (length pre)) σ = Done (inl (Z.of_nat (length pre)), σ)) as Hround.
  { induction fuel as [|fuel IH]; [done|]. by rewrite run_loop, (run_bind _ _ _ _ _ Hround). }
  assert (length (<[length pre := CR]> (filled pre)) = BUFFER_SIZE) as Hb
    by (rewrite length_insert; apply length_filled; lia).
  unfold parse_round. rewrite (proj2 (Z.ltb_lt (Z.of_nat (length pre)) _)) by lia. cbn [negb].
  assert (read1 (Z.of_nat (length pre)) σ = Done (-1, σ)) as Hread.
  { unfold read1, σ, at_. autorewrite with run. cbn. by rewrite Htl. }
  rewrite (run_bind _ _ _ _ _ Hread). cbn [Z.eqb].
  erewrite run_bind; [|apply load_at; [lia|]].
  2: { rewrite Nat2Z.id. apply list_lookup_insert_eq. rewrite length_filled; lia. }
  assert (parse_char (Z.of_nat (length pre)) CR σ = Done (Z.of_nat (length pre) - 1, σ)) as Hc
    by done.
  rewrite (run_bind _ _ _ _ _ Hc).
  erewrite run_bind; [|apply headers_end_ongoing; rewrite filled_insert by lia; by apply ongoing_app].
  cbv iota. by rewrite Z.sub_add.
Qed.

Lemma loop_hangs fuel t pre ks vs n :
  tl = ReadError -> (S (length pre + length t) < BUFFER_SIZE)%nat ->
  Forall is_text t -> COLON ∉ t -> ongoing pre ks n ->
  loop fuel parse_round (Z.of_nat (length pre)) (at_ (filled pre) ks vs n (t ++ [CR])) =
    Fault Diverges.
Proof.
  intros Htl. revert pre fuel. induction t as [|c t IH]; intros pre fuel Hlen Ht Hcol Hon;
    (destruct fuel as [|fuel]; [done|]); cbn [length app] in *.
  - erewrite loop_round.
    + rewrite Z.sub_add. apply (loop_stuck fuel pre ks vs n); [done|lia|done].
    + apply length_filled. lia.
    + lia.
    + by rewrite Nat2Z.id.
    + rewrite filled_insert by lia. by apply ongoing_app.
  - apply Forall_cons in Ht as [Hc Ht]. apply not_elem_of_cons in Hcol as [Hne Hcol].
    rewrite loop_text1; [|lia|done|by left|done].
    apply IH; [rewrite length_app; cbn; lia|done|done|by apply ongoing_app].
Qed.

Lemma loop_overflow fuel pre ks vs hs0 hs rest :
  S (S (length hs0)) = MAX_VALUES -> Forall header_ok hs0 -> Forall header_ok hs ->
  table_ok pre ks vs hs0 ->
  (S (length pre + length (concat (header_image <$> hs))) < BUFFER_SIZE)%nat ->
  (length (concat (header_bytes <$> hs)) + 2 <= fuel)%nat ->
  loop fuel parse_round (Z.of_nat (length pre))
    (at_ (filled pre) ks vs (Z.of_nat (S (length hs0)))
      (concat (header_bytes <$> hs) ++ CR :: LF :: rest)) = Fault Panic.
Proof.
  intros Hn Hhs0 Hhs Ht Hlen Hfuel.
  pose proof (table_ongoing _ _ _ _ Hhs0 Ht) as Hon.
  destruct Ht as (Hks & Hvs & _ & Hnone & _).
  destruct hs as [|[k v] hs]; cbn [fmap list_fmap concat] in *.
  - replace fuel with (S (S (fuel - 2))) by (cbn in Hfuel; lia).
    apply loop_crlf_panic; [lia|lia|lia|done].
  - apply Forall_cons in Hhs as [Hh _].
    assert (length (header_bytes (k, v)) = length (bytes k) + S (S (length (bytes v))) + 2)%nat as Hb.
    { unfold header_bytes. cbn. rewrite length_app. cbn. rewrite length_app. cbn. lia. }
    assert (length (header_image (k, v)) = length (bytes k) + S (S (length (bytes v))) + 1)%nat as Hi.
    { unfold header_image. cbn. rewrite length_app. cbn. rewrite length_app. cbn. lia. }
    rewrite length_app in Hlen, Hfuel.
    replace fuel with (length (bytes k) + S (S (length (bytes v))) +
      S (S (fuel - length (header_bytes (k, v)))))%nat by lia.
    unfold header_bytes at 2. cbn [fst snd]. rewrite <-!app_assoc. cbn [app]. rewrite <-!app_assoc.
    rewrite loop_key_value; [|done|lia|done|rewrite Nat2Z.id; apply Hnone; lia|lia].
    cbn [crlf app]. apply loop_crlf_panic; [|lia|lia|by apply ongoing_app].
    rewrite length_app, length_app. cbn [length]. lia.
Qed.

(** ** A line without a colon *)

(** The end of a line that is not empty, and of one that is. *)
Lemma loop_crlf_next fuel pre ks vs n rest :
  (S (length pre) < BUFFER_SIZE)%nat -> 0 <= n -> n + 1 < Z.of_nat (length ks) ->
  ongoing pre ks n ->
  ongoing (pre ++ [NUL]) (<[Z.to_nat (n + 1) := Some (Z.of_nat (length pre) + 1)]> ks) (n + 1) ->
  loop (S (S fuel)) parse_round (Z.of_nat (length pre)) (at_ (filled pre) ks vs n (CR :: LF :: rest)) =
    loop fuel parse_round (Z.of_nat (length (pre ++ [NUL]))) (at_ (filled (pre ++ [NUL]))
      (<[Z.to_nat (n + 1) := Some (Z.of_nat (length pre) + 1)]> ks) vs (n + 1) rest).
Proof.
  intros Hlen Hn Hks Hon Hon'. rewrite loop_crlf by done. unfold finish_round. rewrite run_assoc.
  rewrite (run_bind _ _ _ _ _ (headers_end_ongoing _ _ _ _ _ (ongoing_filled _ _ _ Hon'))).
  rewrite run_ret, length_app. cbn [length]. by rewrite Nat2Z.inj_add.
Qed.

Lemma loop_crlf_end fuel pre ks vs n rest :
  (S (length pre) < BUFFER_SIZE)%nat -> 1 <= n -> n + 1 < Z.of_nat (length ks) ->
  ongoing pre ks n -> ks !! Z.to_nat n = Some (Some (Z.of_nat (length pre))) ->
  loop (S (S fuel)) parse_round (Z.of_nat (length pre)) (at_ (filled pre) ks vs n (CR :: LF :: rest)) =
    Done (tt, at_ (filled (pre ++ [NUL]))
      (<[Z.to_nat (n + 1) := Some (Z.of_nat (length pre) + 1)]> ks) vs (n + 1) rest).
Proof.
  intros Hlen Hn Hks Hon Hcur. rewrite loop_crlf by (done || lia).
  unfold finish_round. rewrite run_assoc.
  erewrite run_bind; [|eapply headers_end_at; [lia| |apply Nat2Z.is_nonneg|]].
  - by rewrite bool_decide_true.
  - rewrite Z.add_simpl_r, list_lookup_insert_ne by lia. apply Hcur.
  - rewrite Nat2Z.id. unfold filled. rewrite <-app_assoc.
    by rewrite lookup_app_r, Nat.sub_diag by lia.
Qed.

Lemma GetHeader_no_colon pre ks vs n inp ko key z :
  1 < n -> ks !! 1%nat = Some (Some (Z.of_nat ko)) -> text_at pre ko key -> NUL ∉ bytes key ->
  vs !! 1%nat = Some None ->
  GetHeader key (at_ (pre ++ z) ks vs n inp) = Fault Segv.
Proof.
  intros Hn Hk Ht H0 Hv. unfold GetHeader. rewrite run_gets. cbn [cl m_nvalues at_].
  destruct (Z.to_nat (n - 1)) as [|k] eqn:Hk'; [lia|]. cbn [GetHeader_from].
  erewrite run_bind; [|by apply entry_at].
  erewrite run_bind; [|by apply string_at_text].
  rewrite bool_decide_true by done.
  erewrite run_bind; [|by apply entry_at]. done.
Qed.
End Run.
