(* ===== verification/HookProps.v ===== *)
(** The theorems on the client hook. *)

From stdpp Require Import base gmap list strings pretty.
From Stdlib Require Import ZArith Lia Ascii.
From S2P Require Import Prelude Decimal PfMacros ClientHook HookParse.

#[local] Open Scope string_scope.
#[local] Open Scope Z_scope.

(** * Numbers *)

Lemma digit_not_blank c : is_Some (digit_value c) -> is_blank c = false /\ c <> "-"%char /\ c <> "+"%char.
Proof.
  intros [d Hd]. split; [|split; intros ->; done].
  unfold digit_value in Hd. unfold is_blank.
  destruct ((48 <=? _) && _) eqn:Hc; [|done].
  apply andb_true_iff in Hc as [Hc%Z.leb_le _].
  apply orb_false_iff. split; [apply Nat.eqb_neq; lia|].
  apply andb_false_iff. right. apply Nat.leb_gt. lia.
Qed.

Lemma atoi_pretty (n : Z) (r : string) :
  0 <= n < 2 ^ 31 -> no_digit r -> atoi (pretty n ++ r) = n.
Proof.
  intros Hn Hr. pose proof (digits_pretty n r (proj1 Hn) Hr) as Hd.
  destruct (pretty_head n (proj1 Hn)) as (c & s & Hs & Hc%digit_not_blank).
  destruct Hc as (Hb & Hm & Hp). rewrite Hs in *.
  change (String c s ++ r) with (String c (s ++ r)) in *.
  assert (strtol (String c (s ++ r)) = n) as Hl.
  { unfold strtol. cbn [skip_blanks]. rewrite Hb.
    transitivity (Z.max (- 2 ^ 63) (Z.min n (2 ^ 63 - 1))); [|lia]. rewrite <-Hd. do 2 f_equal.
    destruct c as [[] [] [] [] [] [] [] []]; done. }
  unfold atoi, to_int. rewrite Hl, Z.mod_small by lia. lia.
Qed.

Lemma snprintf_fits size s : (String.length s < size)%nat -> snprintf size s = s.
Proof. intros. apply substring_all. lia. Qed.


(** * Requests *)

Section Requests.
Context (o : byte_order) (AF_INET SOCK_STREAM O_NONBLOCK : Z) {addrinfo : Type}.
Context (socket : Z) (connect : Z -> sockaddr -> Z) (so_type : Z -> option Z)
  (getaddrinfo : option string -> option string -> addrinfo) (s : statics).

Definition empty_table : list (option Z) := replicate MAX_VALUES None.

Definition request_text (method path hostname : string) : string :=
  method ++ " " ++ path ++ " HTTP/1.1" ++ String CR (String LF "Host: ") ++ hostname
  ++ String CR (String LF (String CR (String LF ""))).

(** A request of a client that is not connected yet. *)
Lemma Request_run method path hostname fd dc fl b ks vs n w :
  let fd' := if fd <? 0 then socket else fd in
  let pre := if fd <? 0 then [Csocket] else [] in
  let σ c cs := at_ fd' dc c fl (input_end w) (flags w) (calls w ++ pre ++ cs) in
  Request socket connect s method path hostname (St (HttpClient fd dc false fl b ks vs n) w) =
    if fd' <? 0 then Done (-1, St (HttpClient fd' dc false fl b ks vs n)
      (World (input w) (input_end w) (flags w) (calls w ++ pre)))
    else if connect fd' (s_serv_addr s) <? 0 then
      Done (-1, σ false [Cconnect fd' (s_serv_addr s)] b ks vs n (input w))
    else
      (parse (length (input w) + BUFFER_SIZE + 1);; mret 0)
        (σ true [Cconnect fd' (s_serv_addr s);
                 Csend fd' (snprintf BUFFER_SIZE (request_text method path hostname))]
           (filled []) empty_table empty_table 0 (input w)).
Proof.
  intros fd' pre σ. unfold Request, Connect. rewrite run_assoc, run_gets. cbn [cl m_fd].
  assert (forall X (k : bool -> M st X), ((if fd <? 0 then
      modify_wo (log Csocket);; modify_cl (set_fd socket);; mret (negb (socket <? 0))
    else mret true) ≫= k) (St (HttpClient fd dc false fl b ks vs n) w) =
    k (negb (fd' <? 0)) (St (HttpClient fd' dc false fl b ks vs n)
      (World (input w) (input_end w) (flags w) (calls w ++ pre)))) as Hsock.
  { intros X k. subst fd' pre. destruct (Z.ltb_spec fd 0) as [Hlt|Hge].
    - by rewrite run_assoc.
    - rewrite run_ret, app_nil_r. rewrite (proj2 (Z.ltb_ge fd 0)) by lia. by destruct w. }
  rewrite run_assoc, Hsock. destruct (fd' <? 0) eqn:Hneg; cbn [negb]; [by rewrite run_ret|].
  rewrite run_assoc, run_gets. cbn [cl m_connected m_fd].
  unfold sys_connect, modify_wo, modify_cl. autorewrite with run.
  destruct (connect fd' (s_serv_addr s) <? 0) eqn:Hc; autorewrite with run.
  - subst σ. unfold at_, log. cbn. by rewrite <-app_assoc.
  - cbn [negb]. autorewrite with run. cbn [negb]. autorewrite with run.
    subst σ. unfold at_, log.
    cbn [cl wo set_connected set_table set_buffer m_fd m_dont_close m_connected m_old_flags
      m_buffer m_keys m_values m_nvalues input input_end flags calls].
    rewrite <-!app_assoc. reflexivity.
Qed.
End Requests.

(** A response that fits is parsed, and its headers are found. *)
Lemma response_parsed fd dc conn fl tl fls trace fuel status hs rest key :
  fits status hs -> key <> "" -> (length (response status hs) <= fuel)%nat ->
  let start := at_ fd dc conn fl tl fls trace (filled []) empty_table empty_table 0
                 (response status hs ++ rest) in
  exists b ks vs n,
    let final := at_ fd dc conn fl tl fls trace b ks vs n rest in
    parse fuel start = Done (tt, final) /\
    GetHeader key final = Done (header_value key hs, final).
Proof.
  intros Hfits Hkey Hfuel start.
  destruct (loop_response fd dc conn fl tl fls trace (fuel - length (response status hs))
    status hs rest Hfits) as (ks & vs & Ht & Hrun).
  do 4 eexists. split.
  { unfold parse, start. replace fuel with
      (length (response status hs) + (fuel - length (response status hs)))%nat by lia.
    apply Hrun. }
  destruct Hfits as (_ & _ & Hhs & Hn & _). destruct Ht as (Hks & _ & Hcur & _ & Ht).
  unfold GetHeader. rewrite run_gets. cbn [cl m_nvalues at_].
  replace (Z.to_nat (Z.of_nat (S (S (length hs))) - 1)) with (S (length hs)) by lia.
  change 1 with (Z.of_nat (S (length (@nil (string * string))))). unfold filled.
  set (pre := response_image status hs) in *.
  apply GetHeader_from_table; [done|done| |].
  - intros i k v Hi. destruct (Ht i k v Hi) as (ko & vo & Hko & Htk & Hvo & Htv).
    exists ko, vo. apply lookup_lt_Some in Hi. cbn [app] in Hi.
    rewrite list_lookup_insert_ne by lia. split_and!; try done; by apply text_at_app.
  - exists (length pre). cbn [app]. rewrite list_lookup_insert_ne by lia. split; [done|].
    by exists pre, [].
Qed.

(** * The properties *)

(** The constructor switches the hook on exactly when [SSHTUNNEL_PROXY] is the
    URL of a proxy on this host with a positive port; it then connects to that port
    on the loopback address, for every port and whatever follows it. Ports above
    65535 are cut to 16 bits. *)
Theorem init_activates (o : byte_order) (AF_INET : Z) (inet_pton : string -> option (list Z))
    (loopback : list Z) (debug proxy : option string)
    (Hpton : inet_pton "127.0.0.1" = Some loopback) :
  let s := __init__ o AF_INET inet_pton debug proxy statics_init in
  let url host rest := (host = "http://localhost:" \/ host = "http://127.0.0.1:") /\
    proxy = Some (host ++ rest) in
  (s_active s = true <-> exists host rest, url host rest /\ 0 < atoi rest) /\
  (s_active s = true -> sin_addr (s_serv_addr s) = loopback /\
     sa_family (s_serv_addr s) = AF_INET /\
     ntohs o (sin_port (s_serv_addr s)) = s_port s mod 2 ^ 16) /\
  (forall host port rest, url host (pretty port ++ rest) -> no_digit rest ->
     0 < port < 2 ^ 31 -> s_active s = true /\ s_port s = port).
Proof.
  intros s url.
  assert (forall host rest, url host rest -> s_port s = atoi rest) as Hport.
  { intros host rest [Hhost ->]. unfold s, __init__.
    assert (String.prefix "http://localhost:" (host ++ rest) ||
      String.prefix "http://127.0.0.1:" (host ++ rest) = true) as ->.
    { destruct Hhost as [-> | ->]; rewrite prefix_app; by rewrite ?orb_true_r. }
    assert (String.substring 17 (String.length (host ++ rest) - 17) (host ++ rest) = rest) as ->.
    { destruct Hhost as [-> | ->];
        [apply (substring_app "http://localhost:")|apply (substring_app "http://127.0.0.1:")]. }
    rewrite Hpton. by destruct (0 <? atoi rest). }
  assert (s_active s = bool_decide (0 < s_port s)) as Hact.
  { unfold s, __init__. rewrite Hpton.
    set (p := match proxy with Some _ => _ | None => _ end).
    destruct (Z.ltb_spec 0 p); cbn; symmetry; fold p;
      [by apply bool_decide_true|apply bool_decide_false; lia]. }
  assert (0 < s_port s -> exists host rest, url host rest) as Hurl.
  { unfold s, __init__, url. destruct proxy as [p|]; [|done]. rewrite Hpton.
    destruct (String.prefix "http://localhost:" p) eqn:Hp1; cbn [orb];
      [destruct (prefix_inv _ _ Hp1) as [r ->]; eauto|].
    destruct (String.prefix "http://127.0.0.1:" p) eqn:Hp2;
      [destruct (prefix_inv _ _ Hp2) as [r ->]; eauto|done]. }
  rewrite Hact, bool_decide_eq_true. split_and!.
  - split.
    + intros H0. destruct (Hurl H0) as (host & rest & Hu). exists host, rest.
      by rewrite <-(Hport _ _ Hu).
    + intros (host & rest & Hu & H0). by rewrite (Hport _ _ Hu).
  - unfold s, __init__. rewrite Hpton. set (p := match proxy with Some _ => _ | None => _ end).
    destruct (0 <? p) eqn:H0; [|intros H1; cbn in H1; lia]. intros _. cbn. split_and!; [done..|].
    destruct o; [|done]. apply bswap16_involutive. by apply Z.mod_pos_bound.
  - intros host port rest Hu Hr Hp. rewrite (Hport _ _ Hu), atoi_pretty by (done || lia).
    rewrite bool_decide_true; [done|lia].
Qed.

Lemma init_activates_witness :
  s_port (__init__ LittleEndian 2 (fun _ => Some [127; 0; 0; 1]) None
    (Some "http://127.0.0.1:8080/") statics_init) = 8080.
Proof.
  apply (init_activates LittleEndian 2 (fun _ => Some [127; 0; 0; 1]) [127; 0; 0; 1] None
    (Some "http://127.0.0.1:8080/") eq_refl) with (host := "http://127.0.0.1:") (rest := "/").
  - split; [by right|reflexivity].
  - reflexivity.
  - lia.
Defined.

(** C8: [Request] and [GetHeader] find the headers of a response: when the
    response has a status line and at most 29 headers with text that fits in the
    buffer, reading it byte by byte ends with the empty line, what follows it is left
    on the connection, and [GetHeader] gives the value of the first header with the
    key, or null if there is none or it is empty. *)
Theorem headers_found (fd fl : Z) (dc conn : bool) (tl : tail) (fls : gmap Z Z) (trace : list call)
    (fuel : nat) (status : string) (hs : list (string * string)) (rest : list ascii) (key : string)
    (Hfits : fits status hs) (Hkey : key <> "")
    (Hfuel : (length (response status hs) <= fuel)%nat) :
  let client := HttpClient fd dc conn fl (replicate BUFFER_SIZE NUL)
    (replicate MAX_VALUES None) (replicate MAX_VALUES None) 0 in
  exists client',
    parse fuel (St client (World (response status hs ++ rest) tl fls trace)) =
      Done (tt, St client' (World rest tl fls trace)) /\
    GetHeader key (St client' (World rest tl fls trace)) =
      Done (header_value key hs, St client' (World rest tl fls trace)).
Proof.
  intros client.
  destruct (response_parsed fd dc conn fl tl fls trace fuel status hs rest key Hfits Hkey Hfuel)
    as (b & ks & vs & n & Hparse & Hget).
  eexists. split; [exact Hparse|exact Hget].
Qed.

Lemma headers_found_witness :
  exists client',
    parse 60 (St (HttpClient 3 false true 0 (replicate BUFFER_SIZE NUL)
        (replicate MAX_VALUES None) (replicate MAX_VALUES None) 0)
      (World (response "HTTP/1.1 200 OK" [("A", "b:c"); ("Host", "10.1.2.3")] ++ bytes "body")
         Eof ∅ [])) = Done (tt, St client' (World (bytes "body") Eof ∅ [])) /\
    GetHeader "Host" (St client' (World (bytes "body") Eof ∅ [])) =
      Done (Some "10.1.2.3", St client' (World (bytes "body") Eof ∅ [])).
Proof.
  assert (fits "HTTP/1.1 200 OK" [("A", "b:c"); ("Host", "10.1.2.3")]) as Hfits.
  { unfold fits, header_ok, is_text. split_and!; by_compute. }
  apply (headers_found 3 0 false true Eof ∅ [] 60 "HTTP/1.1 200 OK"
    [("A", "b:c"); ("Host", "10.1.2.3")] (bytes "body") "Host" Hfits);
    [discriminate|cbv; lia].
Defined.

Section Connections.
Context (o : byte_order) (AF_INET SOCK_STREAM O_NONBLOCK : Z) {addrinfo : Type}.
Context (socket : Z) (connect : Z -> sockaddr -> Z) (so_type : Z -> option Z)
  (getaddrinfo : option string -> option string -> addrinfo) (null_text : string)
  (s : statics).

(** The calls that make a connection blocking, and undo it. *)
Definition nonblocking (fl : Z) : bool := negb (Z.land fl O_NONBLOCK =? 0).
Definition set_calls (fd fl fl' : Z) : list call := if nonblocking fl then [Csetfl fd fl'] else [].

(** "a.b.c.d:port". *)
Definition host_port (addr : sockaddr) : string :=
  String.concat "." (pretty <$> sin_addr addr) ++ ":" ++ pretty (ntohs o (sin_port addr)).

Definition addr_bytes (addr : sockaddr) : Prop :=
  length (sin_addr addr) = 4%nat /\ Forall (fun x => 0 <= x < 256) (sin_addr addr) /\
  0 <= sin_port addr < 2 ^ 16.

Lemma length_host addr : addr_bytes addr ->
  (String.length (String.concat "." (pretty <$> sin_addr addr)) <= 15)%nat.
Proof.
  intros (Hlen & Hb & _).
  destruct (sin_addr addr) as [|b1 [|b2 [|b3 [|b4 [|]]]]]; try done.
  rewrite !Forall_cons in Hb. destruct Hb as (H1 & H2 & H3 & H4 & _).
  change (fmap pretty [b1; b2; b3; b4]) with [pretty b1; pretty b2; pretty b3; pretty b4].
  change (String.concat "." [pretty b1; pretty b2; pretty b3; pretty b4]) with
    (pretty b1 ++ "." ++ pretty b2 ++ "." ++ pretty b3 ++ "." ++ pretty b4).
  rewrite !string_length_app.
  pose proof (length_pretty 3 b1 ltac:(lia) ltac:(lia)).
  pose proof (length_pretty 3 b2 ltac:(lia) ltac:(lia)).
  pose proof (length_pretty 3 b3 ltac:(lia) ltac:(lia)).
  pose proof (length_pretty 3 b4 ltac:(lia) ltac:(lia)). cbn [String.length]. lia.
Qed.

(** The text of the hook is not cut. *)
Lemma host_port_text addr : addr_bytes addr ->
  snprintf 63 (inet_ntop (sin_addr addr) 31 ++ ":" ++ pretty (ntohs o (sin_port addr))) =
    host_port addr /\ (String.length (host_port addr) <= 21)%nat.
Proof.
  intros Ha. pose proof (length_host addr Ha) as Hh. destruct Ha as (_ & _ & Hp).
  assert (0 <= ntohs o (sin_port addr) < 2 ^ 16) as Hport.
  { destruct o; cbn [ntohs]; [apply bswap16_range|done]. }
  pose proof (length_pretty 5 (ntohs o (sin_port addr)) ltac:(lia) ltac:(lia)) as Hl.
  unfold inet_ntop. rewrite (proj2 (Nat.ltb_lt _ 31)) by lia. fold (host_port addr).
  assert (String.length (host_port addr) <= 21)%nat as H21.
  { unfold host_port. rewrite !string_length_app. cbn [String.length]. lia. }
  split; [apply snprintf_fits; lia|done].
Qed.

Lemma in_world_done {A} c (m : M st A) w a σ :
  m (St c w) = Done (a, σ) -> in_world c m w = Done (a, wo σ).
Proof. unfold in_world. by intros ->. Qed.

(** The run up to the request, with the flags of the connection. *)
Lemma SocketMakeBlocking_run c w :
  let fl := default (-1) (flags w !! m_fd c) in
  SocketMakeBlocking O_NONBLOCK (St c w) =
    Done (tt, St (set_old_flags fl c)
      (World (input w) (input_end w)
         (if nonblocking fl then alter (fun _ => Z.land fl (Z.lnot O_NONBLOCK)) (m_fd c) (flags w)
          else flags w)
         (calls w ++ set_calls (m_fd c) fl (Z.land fl (Z.lnot O_NONBLOCK))))).
Proof.
  intros fl. unfold SocketMakeBlocking, fcntl_getfl, fcntl_setfl, modify_cl, modify_wo.
  autorewrite with run. cbn [cl wo]. fold fl. unfold set_calls, nonblocking.
  destruct (Z.land fl O_NONBLOCK =? 0); cbn [negb].
  - rewrite app_nil_r. by destruct w.
  - reflexivity.
Qed.

Lemma HttpClient_destroy_run c w :
  m_dont_close c = true ->
  HttpClient_destroy O_NONBLOCK (St c w) =
    Done (tt, St c (World (input w) (input_end w)
      (if nonblocking (m_old_flags c) then alter (fun _ => m_old_flags c) (m_fd c) (flags w)
       else flags w)
      (calls w ++ set_calls (m_fd c) (m_old_flags c) (m_old_flags c)))).
Proof.
  intros Hdc. unfold HttpClient_destroy, fcntl_setfl, modify_wo. autorewrite with run.
  cbn [cl]. unfold set_calls, nonblocking.
  destruct (Z.land (m_old_flags c) O_NONBLOCK =? 0); cbn [negb]; autorewrite with run; rewrite Hdc.
  - rewrite app_nil_r. by destruct w.
  - reflexivity.
Qed.

Lemma flags_restored (fls : gmap Z Z) fd x :
  let fl := default (-1) (fls !! fd) in
  alter (fun _ => fl) fd (alter (fun _ => x) fd fls) = fls.
Proof.
  intros fl. apply map_eq. intros i.
  destruct (decide (i = fd)) as [->|Hne]; [|by rewrite !lookup_alter_ne].
  rewrite !lookup_alter_eq. unfold fl. by destruct (fls !! fd).
Qed.

(** What [my_connect] puts around a request [m]: the flags are as before. *)
Lemma around_request (m : M st Z) fd w r c' w2 :
  let fl := default (-1) (flags w !! fd) in
  let w1 := World (input w) (input_end w)
    (if nonblocking fl then alter (fun _ => Z.land fl (Z.lnot O_NONBLOCK)) fd (flags w)
     else flags w)
    (calls w ++ set_calls fd fl (Z.land fl (Z.lnot O_NONBLOCK))) in
  0 <= fd ->
  m (St (HttpClient fd true false fl (filled []) empty_table empty_table 0) w1) =
    Done (r, St c' w2) ->
  flags w2 = flags w1 -> m_fd c' = fd -> m_dont_close c' = true -> m_old_flags c' = fl ->
  in_world (HttpClient_init fd)
    (SocketMakeBlocking O_NONBLOCK;; r ← m; HttpClient_destroy O_NONBLOCK;; mret r) w =
    Done (r, World (input w2) (input_end w2) (flags w) (calls w2 ++ set_calls fd fl fl)).
Proof.
  intros fl w1 Hfd Hm Hfls Hfd' Hdc Hold.
  eapply eq_trans; [apply in_world_done|].
  - rewrite (run_bind _ _ _ _ _ (SocketMakeBlocking_run _ w)).
    change (m_fd (HttpClient_init fd)) with fd. fold fl w1.
    unfold HttpClient_init. rewrite (proj2 (Z.leb_le 0 fd) Hfd).
    rewrite (run_bind _ _ _ _ _ Hm).
    by rewrite (run_bind _ _ _ _ _ (HttpClient_destroy_run c' w2 Hdc)).
  - cbn [wo]. rewrite Hold, Hfd', Hfls. subst w1. cbn [flags].
    destruct (nonblocking fl); [|done]. unfold fl. by rewrite flags_restored.
Qed.

(** What [my_getaddrinfo] does after its request [m]. *)
Lemma after_request (m : M st Z) (node service : option string) w r c w2 ip :
  m (St (HttpClient_init (-1)) w) = Done (r, St c w2) ->
  GetHeader "Host" (St c w2) = Done (ip, St c w2) ->
  m_dont_close c = false -> m_old_flags c = 0 ->
  let node' := match ip with Some _ => ip | None => node end in
  in_world (HttpClient_init (-1))
    (m;; ip ← GetHeader "Host";
     r ← sys_getaddrinfo getaddrinfo (match ip with Some _ => ip | None => node end) service;
     HttpClient_destroy O_NONBLOCK;; mret r) w =
    Done (getaddrinfo node' service, World (input w2) (input_end w2) (flags w2)
      (calls w2 ++ Cgetaddrinfo node' service :: if 0 <=? m_fd c then [Cclose (m_fd c)] else [])).
Proof.
  intros Hm Hget Hdc Hold node'. unfold in_world.
  rewrite (run_bind _ _ _ _ _ Hm), (run_bind _ _ _ _ _ Hget).
  unfold sys_getaddrinfo, HttpClient_destroy, fcntl_setfl, modify_wo. autorewrite with run.
  cbn [cl]. rewrite Hold, Z.land_0_l. cbn [Z.eqb]. autorewrite with run. rewrite Hdc. fold node'.
  destruct (0 <=? m_fd c); autorewrite with run; unfold log; cbn; [|done].
  by rewrite <-app_assoc.
Qed.

(** The rounds of [parse] on any input that ends and has few lines. *)
Lemma parse_safe fd dc conn fl tl fls trace inp :
  tl = Eof -> Z.of_nat (length (filter (LF =.) inp)) < Z.of_nat MAX_VALUES ->
  exists b ks vs n inp',
    parse (length inp + BUFFER_SIZE + 1)
        (at_ fd dc conn fl tl fls trace (filled []) empty_table empty_table 0 inp) =
      Done (tt, at_ fd dc conn fl tl fls trace b ks vs n inp').
Proof.
  intros Htl Hlf. apply loop_safe; [done| |lia].
  unfold safe_at. split_and!; try done. intros i Hi. lia.
Qed.
End Connections.

(** C3: [my_connect] on a stream socket of IPv4, when the hook is active: it
    connects to the proxy instead, asks it with CONNECT for the address in full,
    and gives the socket back with the status flags it had. The result is 0
    whatever the proxy answers, a refusal too, provided that the answer ends and
    has less than 32 lines; it is -1 if the proxy cannot be reached. Every other
    connection is the one the program asked for. *)
Theorem my_connect_spec (o : byte_order) (AF_INET SOCK_STREAM O_NONBLOCK socket : Z)
    (connect : Z -> sockaddr -> Z) (so_type : Z -> option Z) (s : statics)
    (fd : Z) (addr : sockaddr) (w : world) (Hfd : 0 <= fd) (Haddr : addr_bytes addr) :
  let run := my_connect o AF_INET SOCK_STREAM O_NONBLOCK socket connect so_type s fd addr w in
  let proxied := s_active s && (sa_family addr =? AF_INET) &&
    (default (-1) (so_type fd) =? SOCK_STREAM) in
  let fl := default (-1) (flags w !! fd) in
  let around cs := (calls w ++ set_calls O_NONBLOCK fd fl (Z.land fl (Z.lnot O_NONBLOCK)) ++
    Cconnect fd (s_serv_addr s) :: cs ++ set_calls O_NONBLOCK fd fl fl)%list in
  (proxied = false -> run = Done (connect fd addr, log (Cconnect fd addr) w)) /\
  (proxied = true -> connect fd (s_serv_addr s) < 0 ->
     run = Done (-1, World (input w) (input_end w) (flags w) (around []))) /\
  (proxied = true -> 0 <= connect fd (s_serv_addr s) -> input_end w = Eof ->
     Z.of_nat (length (filter (LF =.) (input w))) < Z.of_nat MAX_VALUES ->
     exists inp, run = Done (0, World inp Eof (flags w)
       (around [Csend fd (request_text "CONNECT" (host_port o addr) (host_port o addr))]))).
Proof.
  intros run proxied fl around.
  assert (proxied = true -> run = in_world (HttpClient_init fd) (
    SocketMakeBlocking O_NONBLOCK;;
    r ← Request socket connect s "CONNECT" (host_port o addr) (host_port o addr);
    HttpClient_destroy O_NONBLOCK;;
    mret r) w) as Hrun.
  { unfold proxied, run, my_connect, socket_get_type. intros Hp.
    rewrite !andb_true_iff in Hp. destruct Hp as [[-> ->] ->]. cbn [negb orb].
    by rewrite (proj1 (host_port_text o addr Haddr)). }
  split_and!.
  - unfold proxied, run, my_connect, socket_get_type. clear. intros Hp.
    destruct (s_active s); cbn [negb]; [|reflexivity].
    cbn [andb] in Hp. by rewrite <-negb_andb, Hp.
  - intros Hp Hc. rewrite (Hrun Hp). eapply eq_trans; [eapply around_request; [done|..]|].
    + rewrite Request_run. cbv zeta. rewrite !(proj2 (Z.ltb_ge fd 0) Hfd), (proj2 (Z.ltb_lt _ 0) Hc).
      reflexivity.
    + done.
    + done.
    + done.
    + done.
    + cbn. by rewrite <-!app_assoc.
  - intros Hp Hc Heof Hlines. 
    destruct (parse_safe fd true true fl Eof
      (if nonblocking O_NONBLOCK fl then alter (fun _ => Z.land fl (Z.lnot O_NONBLOCK)) fd (flags w)
       else flags w)
      ((calls w ++ set_calls O_NONBLOCK fd fl (Z.land fl (Z.lnot O_NONBLOCK))) ++
       [Cconnect fd (s_serv_addr s);
        Csend fd (request_text "CONNECT" (host_port o addr) (host_port o addr))])
      (input w) eq_refl Hlines) as (b & ks & vs & n & inp & Hparse).
    exists inp. rewrite (Hrun Hp). eapply eq_trans; [eapply around_request; [done|..]|].
    + rewrite Request_run. cbv zeta. rewrite !(proj2 (Z.ltb_ge fd 0) Hfd), (proj2 (Z.ltb_ge _ 0) Hc).
      cbn [app input input_end flags calls]. rewrite Heof, snprintf_fits.
      * by rewrite (run_bind _ _ _ _ _ Hparse).
      * pose proof (proj2 (host_port_text o addr Haddr)). unfold request_text.
        rewrite !string_length_app. cbn [String.length]. unfold BUFFER_SIZE. lia.
    + done.
    + done.
    + done.
    + done.
    + cbn. by rewrite <-!app_assoc.
Qed.

Lemma my_connect_spec_witness :
  exists inp,
    my_connect LittleEndian 2 1 2048 (-1) (fun _ _ => 0) (fun _ => Some 1)
      (Statics true 8080 false (Sockaddr 2 36895 [127; 0; 0; 1])) 5 (Sockaddr 2 0xbb01 [10; 0; 0; 1])
      (World (bytes "HTTP/1.1 403 Forbidden") Eof {[ 5 := 2050 ]} []) =
    Done (0, World inp Eof {[ 5 := 2050 ]}
      [Csetfl 5 2; Cconnect 5 (Sockaddr 2 36895 [127; 0; 0; 1]);
       Csend 5 (request_text "CONNECT" "10.0.0.1:443" "10.0.0.1:443"); Csetfl 5 2050]).
Proof.
  destruct (my_connect_spec LittleEndian 2 1 2048 (-1) (fun _ _ => 0) (fun _ => Some 1)
    (Statics true 8080 false (Sockaddr 2 36895 [127; 0; 0; 1])) 5 (Sockaddr 2 0xbb01 [10; 0; 0; 1])
    (World (bytes "HTTP/1.1 403 Forbidden") Eof {[ 5 := 2050 ]} [])) as (_ & _ & H).
  - lia.
  - split_and!; [reflexivity|repeat constructor; lia|cbn; lia|cbn; lia].
  - destruct H as [inp H]; [reflexivity|reflexivity|reflexivity|reflexivity|].
    exists inp. exact H.
Defined.

(** C4: [my_getaddrinfo] with every outcome of the socket and the connection, and with
    a proxy whose answer is well formed. When the hook is active and the proxy can be
    reached, it asks for the name, in a request that is cut to the 1023 bytes that
    [snprintf] leaves of its buffer. If the answer is a status line without a colon
    and at most 29 headers, each a key without a colon and a value, in one line and
    without zero bytes, that fit the buffer, it looks up
    the address in the [Host] header, or the name itself when there is none; the socket
    is closed. When there is no socket or no connection, the name itself is looked up;
    when the hook is not active, only the C library is called. Of other answers nothing
    is said here: see [malformed_answers]. *)
Theorem my_getaddrinfo_spec (O_NONBLOCK socket : Z) (connect : Z -> sockaddr -> Z)
    {addrinfo : Type} (getaddrinfo : option string -> option string -> addrinfo)
    (null_text : string) (s : statics) (node service : option string) (w : world) :
  let run := my_getaddrinfo O_NONBLOCK socket connect getaddrinfo null_text s node service w in
  let server := s_serv_addr s in
  let ends node' inp cs := run = Done (getaddrinfo node' service,
    World inp (input_end w) (flags w) (calls w ++ cs)%list) in
  (s_active s = false -> ends node (input w) [Cgetaddrinfo node service]) /\
  (s_active s = true -> socket < 0 ->
     ends node (input w) [Csocket; Cgetaddrinfo node service]) /\
  (s_active s = true -> 0 <= socket -> connect socket server < 0 ->
     ends node (input w)
       [Csocket; Cconnect socket server; Cgetaddrinfo node service; Cclose socket]) /\
  (s_active s = true -> 0 <= socket -> 0 <= connect socket server ->
     forall status hs rest, fits status hs -> input w = (response status hs ++ rest)%list ->
     let node' := match header_value "Host" hs with Some ip => Some ip | None => node end in
     ends node' rest
       [Csocket; Cconnect socket server;
        Csend socket (snprintf 1024 (request_text "RESOLVE" "*" (default null_text node)));
        Cgetaddrinfo node' service; Cclose socket]).
Proof.
  intros run server ends. unfold ends, run, my_getaddrinfo. subst server. clear ends run.
  destruct (s_active s); cbn [negb]; (split; [try done; reflexivity|]); [|done].
  assert (forall n c w', m_nvalues c = 0 -> GetHeader "Host" (St c w') = Done (n, St c w') <-> n = None)
    as Hnone.
  { intros n c w' Hc. unfold GetHeader. rewrite run_gets. cbn [cl]. rewrite Hc. cbn.
    split; [by intros [= ->]|by intros ->]. }
  split_and!.
  - intros _ Hs. eapply eq_trans; [eapply after_request|].
    + unfold HttpClient_init. rewrite Request_run. cbv zeta. change (-1 <? 0) with true. cbv iota.
      by rewrite (proj2 (Z.ltb_lt socket 0) Hs).
    + by apply Hnone.
    + done.
    + done.
    + cbn. rewrite (proj2 (Z.leb_gt 0 socket) Hs). by rewrite <-app_assoc.
  - intros _ Hs Hc. eapply eq_trans; [eapply after_request|].
    + unfold HttpClient_init. rewrite Request_run. cbv zeta. change (-1 <? 0) with true. cbv iota.
      by rewrite (proj2 (Z.ltb_ge socket 0) Hs), (proj2 (Z.ltb_lt _ 0) Hc).
    + by apply Hnone.
    + done.
    + done.
    + cbn. rewrite (proj2 (Z.leb_le 0 socket) Hs). by rewrite <-app_assoc.
  - intros _ Hs Hc status hs rest Hfits Hw.
    destruct (response_parsed socket false true 0 (input_end w) (flags w)
      (calls w ++ [Csocket; Cconnect socket (s_serv_addr s);
        Csend socket (snprintf BUFFER_SIZE (request_text "RESOLVE" "*" (default null_text node)))])
      (length (input w) + BUFFER_SIZE + 1) status hs rest "Host" Hfits)
      as (b & ks & vs & n & Hparse & Hget); [done|rewrite Hw, length_app; lia|].
    eapply eq_trans; [eapply after_request|].
    + unfold HttpClient_init. rewrite Request_run. cbv zeta. change (-1 <? 0) with true. cbv iota.
      rewrite (proj2 (Z.ltb_ge socket 0) Hs), (proj2 (Z.ltb_ge _ 0) Hc).
      rewrite <-Hw in Hparse. by rewrite (run_bind _ _ _ _ _ Hparse).
    + exact Hget.
    + done.
    + done.
    + cbn [at_ m_fd]. rewrite (proj2 (Z.leb_le 0 socket) Hs).
      cbn [wo at_ input input_end flags calls]. rewrite <-app_assoc.
      by destruct (header_value "Host" hs).
Qed.

Lemma my_getaddrinfo_spec_witness :
  exists w',
    my_getaddrinfo 2048 9 (fun _ _ => 0) (fun node _ => node) "(null)"
      (Statics true 8080 false (Sockaddr 2 36895 [127; 0; 0; 1])) (Some "db") None
      (World (response "HTTP/1.1 200 OK" [("Host", "10.1.2.3")]) Eof ∅ []) =
    Done (Some "10.1.2.3", w').
Proof.
  destruct (my_getaddrinfo_spec 2048 9 (fun _ _ => 0) (fun node _ => node) "(null)"
    (Statics true 8080 false (Sockaddr 2 36895 [127; 0; 0; 1])) (Some "db") None
    (World (response "HTTP/1.1 200 OK" [("Host", "10.1.2.3")]) Eof ∅ [])) as (_ & _ & _ & H).
  eexists. apply (H eq_refl ltac:(lia) ltac:(lia) "HTTP/1.1 200 OK" [("Host", "10.1.2.3")] []).
  - unfold fits, header_ok, is_text. split_and!; by_compute.
  - reflexivity.
Defined.

Section Malformed.
Context (fd fl : Z) (dc conn : bool) (tl : tail) (fls : gmap Z Z) (trace : list call) (status : string).
Context (Htext : Forall is_text (bytes status)) (Hcol : COLON ∉ bytes status)
  (Hlen : (S (length (bytes status)) < BUFFER_SIZE)%nat).

Definition start_client (inp : list ascii) : st :=
  St (HttpClient fd dc conn fl (replicate BUFFER_SIZE NUL)
    (replicate MAX_VALUES None) (replicate MAX_VALUES None) 0) (World inp tl fls trace).

Lemma headers_overflow hs rest fuel :
  Forall header_ok hs -> (30 <= length hs)%nat ->
  (S (length (response_image status hs)) < BUFFER_SIZE)%nat ->
  (length (response status hs) <= fuel)%nat ->
  parse fuel (start_client (response status hs ++ rest)%list) = Fault Panic.
Proof.
  intros Hhs Hn Hlen' Hfuel. unfold parse.
  rewrite <-(take_drop 30 hs) in Hhs, Hlen', Hfuel |- *.
  set (hs1 := take 30 hs) in *. set (hs2 := drop 30 hs) in *.
  assert (length hs1 = 30)%nat as Hhs1 by (apply length_take_le; lia).
  apply Forall_app in Hhs as [Hok1 Hok2].
  unfold response, response_image in *. rewrite fmap_app, concat_app in *.
  rewrite !length_app in *. cbn [length] in *. rewrite !length_app in *. cbn [length crlf] in *.
  destruct (loop_status fd dc conn fl tl fls trace (fuel - length (bytes status) - 2) status
    (concat (header_bytes <$> hs1) ++ concat (header_bytes <$> hs2) ++ CR :: LF :: rest))
    as (ks1 & Ht1 & Hrun1); [done|done|lia|].
  replace fuel with (length (bytes status) + S (S (fuel - length (bytes status) - 2)))%nat by lia.
  rewrite <-!app_assoc. eapply eq_trans; [apply Hrun1|].
  destruct (loop_headers fd dc conn fl tl fls trace
    (fuel - length (bytes status) - 2 - length (concat (header_bytes <$> hs1)))
    (bytes status ++ [NUL]) ks1 empty_table [] hs1
    (concat (header_bytes <$> hs2) ++ CR :: LF :: rest)) as (ks2 & vs2 & Ht2 & Hrun2);
    [done|by constructor|done|cbn; unfold MAX_VALUES; lia|rewrite length_app; cbn; lia|].
  cbn [app] in Ht2, Hrun2. replace (fuel - length (bytes status) - 2)%nat with
    (length (concat (header_bytes <$> hs1)) +
     (fuel - length (bytes status) - 2 - length (concat (header_bytes <$> hs1))))%nat by lia.
  eapply eq_trans; [apply Hrun2|]. apply loop_overflow; try done.
  + rewrite Hhs1. done.
  + rewrite !length_app. cbn. lia.
  + lia.
Qed.

Lemma no_colon_faults key rest fuel :
  header_ok (key, "") ->
  (length (bytes status) + length (bytes key) + 3 < BUFFER_SIZE)%nat ->
  (length (bytes status) + length (bytes key) + 6 <= fuel)%nat ->
  exists σ, parse fuel (start_client (bytes status ++ crlf ++ bytes key ++ crlf ++ crlf ++ rest)%list) =
    Done (tt, σ) /\ GetHeader key σ = Fault Segv.
Proof.
  intros (Hne & Hk0 & Hkc & Hkt & _) Hlen' Hfuel. cbn [fst snd] in *.
  destruct (loop_status fd dc conn fl tl fls trace (fuel - length (bytes status) - 2) status
    (bytes key ++ CR :: LF :: CR :: LF :: rest)) as (ks1 & Ht1 & Hrun1); [done|done|lia|].
  destruct Ht1 as (Hks1 & _ & Hcur1 & _). cbn [length] in Hcur1.
  set (pre := (bytes status ++ [NUL])%list) in *.
  assert (length pre = length (bytes status) + 1)%nat as Hpre by (subst pre; by rewrite length_app).
  set (ks2 := <[2%nat := Some (Z.of_nat (length (pre ++ bytes key)%list) + 1)]> ks1).
  assert (ongoing (pre ++ bytes key)%list ks2 2) as Hon.
  { right. destruct key as [|c key]; [done|]. exists (Z.of_nat (length pre)), c.
    split_and!; [by unfold ks2; rewrite list_lookup_insert_ne|lia| |cbn in Hk0; set_solver].
    by rewrite Nat2Z.id, lookup_app_r, Nat.sub_diag by lia. }
  eexists. split.
  + unfold parse. replace fuel with
      (length (bytes status) + S (S (fuel - length (bytes status) - 2)))%nat by lia.
    eapply eq_trans; [apply Hrun1|].
    replace (fuel - length (bytes status) - 2)%nat with (length (bytes key) +
      S (S (S (S (fuel - length (bytes status) - length (bytes key) - 6)))))%nat by lia.
    rewrite loop_text; [|lia|done|by left|by left].
    rewrite loop_crlf_next; [|rewrite length_app; lia|done|rewrite Hks1; done|by left|].
    2: { by apply ongoing_app. }
    change (Z.to_nat (1 + 1)) with 2%nat. fold ks2.
    apply loop_crlf_end; [rewrite !length_app; cbn; lia|done| |by apply ongoing_app|].
    * unfold ks2. rewrite length_insert, Hks1. done.
    * unfold ks2. rewrite list_lookup_insert_eq by (rewrite Hks1; cbv; lia).
      rewrite (length_app _ [NUL]). cbn. by rewrite Nat2Z.inj_add.
  + unfold filled. apply (GetHeader_no_colon _ _ _ _ _ _ _ _ _ _ _ _ (length pre)); [done| | |done|done].
    * unfold ks2. rewrite !list_lookup_insert_ne by done. apply Hcur1.
    * exists pre, [NUL]. by rewrite <-!app_assoc.
Qed.
End Malformed.

(** C11: answers that break the client. With 30 headers or more [m_keys] is written
    out of its bounds; when reading fails after a carriage return the loop never
    ends, whatever bound it is given; a header line without a colon that is equal to
    the key makes [GetHeader] read through a null pointer. *)
Theorem malformed_answers (fd fl : Z) (dc conn : bool) (tl : tail) (fls : gmap Z Z)
    (trace : list call) (status : string)
    (Htext : Forall is_text (bytes status)) (Hcol : COLON ∉ bytes status)
    (Hlen : (S (length (bytes status)) < BUFFER_SIZE)%nat) :
  let client := HttpClient fd dc conn fl (replicate BUFFER_SIZE NUL)
    (replicate MAX_VALUES None) (replicate MAX_VALUES None) 0 in
  let start inp := St client (World inp tl fls trace) in
  (forall hs rest fuel, Forall header_ok hs -> (30 <= length hs)%nat ->
     (S (length (response_image status hs)) < BUFFER_SIZE)%nat ->
     (length (response status hs) <= fuel)%nat ->
     parse fuel (start (response status hs ++ rest)%list) = Fault Panic) /\
  (forall fuel, tl = ReadError ->
     parse fuel (start (bytes status ++ [CR])%list) = Fault Diverges) /\
  (forall key rest fuel, header_ok (key, "") ->
     (length (bytes status) + length (bytes key) + 3 < BUFFER_SIZE)%nat ->
     (length (bytes status) + length (bytes key) + 6 <= fuel)%nat ->
     exists σ, parse fuel (start (bytes status ++ crlf ++ bytes key ++ crlf ++ crlf ++ rest)%list) =
       Done (tt, σ) /\ GetHeader key σ = Fault Segv).
Proof.
  intros client start. split_and!.
  - intros. by apply headers_overflow.
  - intros fuel Htl. apply (loop_hangs fd dc conn fl tl fls trace fuel (bytes status) []);
      [done|cbn; lia|done|done|by left].
  - intros. by apply no_colon_faults.
Qed.

Lemma malformed_answers_witness :
  parse 99 (St (HttpClient 3 true true 0 (replicate BUFFER_SIZE NUL)
      (replicate MAX_VALUES None) (replicate MAX_VALUES None) 0)
    (World (bytes "HTTP/1.1 200 OK" ++ [CR])%list ReadError ∅ [])) = Fault Diverges.
Proof.
  apply (malformed_answers 3 0 true true ReadError ∅ [] "HTTP/1.1 200 OK");
    [by_compute|by_compute|cbv; lia|reflexivity].
Defined.
