(* ===== verification/NetIP.v ===== *)
(** What [rules/rules.go] uses of Go's packages [net] and [net/netip]: addresses and
    masks as slices of bytes, [ParseCIDR], and [Contains] and [String] of networks. A
    nil slice is the empty list. *)

From stdpp Require Import base list strings pretty.
From Stdlib Require Import ZArith Lia Ascii.
From S2P Require Import Prelude Decimal.

#[local] Open Scope string_scope.
#[local] Open Scope Z_scope.

Abbreviation IP := (list Z).
Record IPNet := mkIPNet { net_IP : IP; net_Mask : IP }.

#[export] Instance IPNet_eq_dec : EqDecision IPNet.
Proof. solve_decision. Defined.

(** * Text *)

(** [s[:i]] and [s[i+1:]] for the first [c] of [s]. *)
Fixpoint cut (c : ascii) (s : string) : option (string * string) :=
  match s with
  | "" => None
  | String c' s =>
      if bool_decide (c' = c) then Some ("", s) else '(a, b) ← cut c s; Some (String c' a, b)
  end.

(** [parseIPv4Fields]: [start] when the octet has just begun, [len] digits of it read
    with the value [val]; [fields] are the octets before it. *)
Fixpoint parseIPv4Fields (s : string) (start : bool) (val len : Z) (fields : list Z)
    : option (list Z) :=
  match s with
  | "" => if (length fields <? 3)%nat then None else Some (fields ++ [val])%list
  | String c s' =>
      match digit_value c with
      | Some d =>
          if (len =? 1) && (val =? 0) then None
          else if 255 <? val * 10 + d then None
          else parseIPv4Fields s' false (val * 10 + d) (len + 1) fields
      | None =>
          if negb (bool_decide (c = "."%char)) then None
          else if start || bool_decide (s' = "") then None
          else if (length fields =? 3)%nat then None
          else parseIPv4Fields s' true 0 0 (fields ++ [val])%list
      end
  end.
Definition parseIPv4 (s : string) : option (list Z) := parseIPv4Fields s true 0 0 [].

Definition hex_value (c : ascii) : option Z :=
  let n := Z.of_nat (nat_of_ascii c) in
  if (48 <=? n) && (n <=? 57) then Some (n - 48)
  else if (97 <=? n) && (n <=? 102) then Some (n - 87)
  else if (65 <=? n) && (n <=? 70) then Some (n - 55)
  else None.

(** A group of at most four hexadecimal digits: its value, their number, and what
    follows. *)
Fixpoint hex_group (s : string) (off : nat) (acc : Z) : option (Z * nat * string) :=
  match s with
  | String c s' =>
      match hex_value c with
      | Some d =>
          if (3 <? off)%nat then None
          else if 65535 <? acc * 16 + d then None
          else hex_group s' (S off) (acc * 16 + d)
      | None => Some (acc, off, s)
      end
  | "" => Some (acc, off, "")
  end.

(** The loop of [parseIPv6]: two bytes a round, so that eight rounds fill the address;
    [ell] is the place of the ellipsis. *)
Fixpoint parseIPv6_loop (rounds : nat) (s : string) (ip : list Z) (ell : option nat)
    : option (list Z * option nat * string) :=
  match rounds with
  | O => Some (ip, ell, s)
  | S rounds =>
      '(acc, off, r) ← hex_group s 0 0;
      if (off =? 0)%nat then None
      else
        let ip' := (ip ++ [Z.shiftr acc 8; Z.land acc 255])%list in
        match r with
        | "" => Some (ip', ell, "")
        | String c r =>
            if bool_decide (c = "."%char) then
              if bool_decide (ell = None) && negb (length ip =? 12)%nat then None
              else if (16 <? length ip + 4)%nat then None
              else f ← parseIPv4 s; Some ((ip ++ f)%list, ell, "")
            else if negb (bool_decide (c = ":"%char)) then None
            else
              match r with
              | "" => None
              | String c' r' =>
                  if bool_decide (c' = ":"%char) then
                    if bool_decide (ell <> None) then None
                    else if bool_decide (r' = "") then Some (ip', Some (length ip'), "")
                    else parseIPv6_loop rounds r' ip' (Some (length ip'))
                  else parseIPv6_loop rounds r ip' ell
              end
        end
  end.

(** The address without its zone: the sixteen bytes. *)
Definition parseIPv6_expand (res : list Z * option nat * string) : option (list Z) :=
  let '(ip, ell, r) := res in
  if negb (bool_decide (r = "")) then None
  else if (length ip <? 16)%nat then
    e ← ell; Some (take e ip ++ replicate (16 - length ip) 0 ++ drop e ip)%list
  else if bool_decide (ell <> None) then None else Some ip.
Definition parseIPv6_bytes (s : string) : option (list Z) :=
  if String.prefix "::" s then
    let s := String.substring 2 (String.length s - 2) s in
    if bool_decide (s = "") then Some (replicate 16 0)
    else parseIPv6_loop 8 s [] (Some O) ≫= parseIPv6_expand
  else parseIPv6_loop 8 s [] None ≫= parseIPv6_expand.

Inductive Addr := Addr4 (b : list Z) | Addr6 (b : list Z) (zone : string).

Definition parseIPv6 (s : string) : option Addr :=
  match cut "%" s with
  | Some (s, zone) =>
      if bool_decide (zone = "") then None else b ← parseIPv6_bytes s; Some (Addr6 b zone)
  | None => b ← parseIPv6_bytes s; Some (Addr6 b "")
  end.

(** [netip.ParseAddr]: the first of ['.'], [':'] and ['%'] decides. *)
Fixpoint ParseAddr_scan (whole s : string) : option Addr :=
  match s with
  | "" => None
  | String c s =>
      if bool_decide (c = "."%char) then b ← parseIPv4 whole; Some (Addr4 b)
      else if bool_decide (c = ":"%char) then parseIPv6 whole
      else if bool_decide (c = "%"%char) then None
      else ParseAddr_scan whole s
  end.
Definition ParseAddr (s : string) : option Addr := ParseAddr_scan s s.

(** [dtoi], of a text that it has to consume: [big] is the first number too large. *)
Fixpoint dtoi_from (acc : Z) (s : string) : option Z :=
  match s with
  | "" => Some acc
  | String c s =>
      d ← digit_value c;
      if 0xFFFFFF <=? acc * 10 + d then None else dtoi_from (acc * 10 + d) s
  end.
Definition dtoi (s : string) : option Z := if bool_decide (s = "") then None else dtoi_from 0 s.

(** * Addresses, masks and networks *)

Definition v4InV6Prefix : list Z := replicate 10 0 ++ [255; 255].

Definition To4 (ip : IP) : option IP :=
  if (length ip =? 4)%nat then Some ip
  else if (length ip =? 16)%nat && bool_decide (take 12 ip = v4InV6Prefix) then Some (drop 12 ip)
  else None.

(** [CIDRMask(n, 8 * l)]. *)
Fixpoint CIDRMask (n : Z) (l : nat) : list Z :=
  match l with
  | O => []
  | S l => if 8 <=? n then 255 :: CIDRMask (n - 8) l else 255 - Z.shiftr 255 n :: CIDRMask 0 l
  end.

(** [ip.Mask(mask)]. *)
Definition IP_Mask (ip mask : list Z) : IP :=
  let mask := if (length mask =? 16)%nat && (length ip =? 4)%nat &&
      bool_decide (take 12 mask = replicate 12 255) then drop 12 mask else mask in
  let ip := if (length mask =? 4)%nat && (length ip =? 16)%nat &&
      bool_decide (take 12 ip = v4InV6Prefix) then drop 12 ip else ip in
  if (length ip =? length mask)%nat then zip_with Z.land ip mask else [].

Definition ParseCIDR (s : string) : option IPNet :=
  '(addr, mask) ← cut "/" s;
  a ← ParseAddr addr;
  n ← dtoi mask;
  match a with
  | Addr4 b =>
      if 32 <? n then None
      else Some (mkIPNet (IP_Mask (v4InV6Prefix ++ b) (CIDRMask n 4)) (CIDRMask n 4))
  | Addr6 b zone =>
      if negb (bool_decide (zone = "")) || (128 <? n) then None
      else Some (mkIPNet (IP_Mask b (CIDRMask n 16)) (CIDRMask n 16))
  end.

(** [None] where the code gives nil slices. *)
Definition networkNumberAndMask (n : IPNet) : option (IP * list Z) :=
  ip ← match To4 (net_IP n) with
    | Some ip => Some ip
    | None => if (length (net_IP n) =? 16)%nat then Some (net_IP n) else None
    end;
  let m := net_Mask n in
  if (length m =? 4)%nat then if (length ip =? 4)%nat then Some (ip, m) else None
  else if (length m =? 16)%nat then
    Some (ip, if (length ip =? 4)%nat then drop 12 m else m)
  else None.

Fixpoint same_masked (nn m ip : list Z) : bool :=
  match nn, m, ip with
  | a :: nn, x :: m, b :: ip => (Z.land a x =? Z.land b x) && same_masked nn m ip
  | _, _, _ => true
  end.

Definition Contains (n : IPNet) (ip : IP) : bool :=
  let '(nn, m) := default ([], []) (networkNumberAndMask n) in
  let ip := default ip (To4 ip) in
  (length ip =? length nn)%nat && same_masked nn m ip.

(** The number of leading ones of a mask, when only zeros follow. *)
Fixpoint leading_ones (k : nat) (v : Z) : Z * Z :=
  match k with
  | O => (0, v)
  | S k => if Z.testbit v 7 then let '(n, v) := leading_ones k (Z.land (Z.shiftl v 1) 255) in (n + 1, v)
           else (0, v)
  end.
Fixpoint simpleMaskLength (m : list Z) : Z :=
  match m with
  | [] => 0
  | v :: m =>
      if v =? 255 then let r := simpleMaskLength m in if r =? -1 then -1 else 8 + r
      else
        let '(n, v) := leading_ones 8 v in
        if (v =? 0) && forallb (Z.eqb 0) m then n else -1
  end.

(** * Printing *)

Definition hex_digit (d : Z) : string :=
  String (ascii_of_nat (Z.to_nat (if d <? 10 then 48 + d else 87 + d))) "".

(** [appendHex]: no leading zeros. *)
Definition appendHex (x : Z) : string :=
  (if 0x1000 <=? x then hex_digit (Z.land (Z.shiftr x 12) 15) else "") ++
  (if 0x100 <=? x then hex_digit (Z.land (Z.shiftr x 8) 15) else "") ++
  (if 0x10 <=? x then hex_digit (Z.land (Z.shiftr x 4) 15) else "") ++
  hex_digit (Z.land x 15).

Fixpoint groups (ip : list Z) : list Z :=
  match ip with
  | a :: b :: ip => a * 256 + b :: groups ip
  | _ => []
  end.

Fixpoint zeros (g : list Z) : nat :=
  match g with
  | x :: g => if x =? 0 then S (zeros g) else O
  | [] => O
  end.

(** The first of the longest runs of at least two zero groups: its place and its
    length. *)
Fixpoint zero_run (i : nat) (g : list Z) (best : option (nat * nat)) : option (nat * nat) :=
  match g with
  | [] => best
  | _ :: g' =>
      let l := zeros g in
      let longer := match best with None => true | Some (_, l') => (l' <? l)%nat end in
      zero_run (S i) g' (if (2 <=? l)%nat && longer then Some (i, l) else best)
  end.

Definition colons (g : list Z) : string := String.concat ":" (appendHex <$> g).
Definition appendTo6 (ip : list Z) : string :=
  let g := groups ip in
  match zero_run 0 g None with
  | None => colons g
  | Some (i, l) => colons (take i g) ++ "::" ++ colons (drop (i + l) g)
  end.

Definition dotted (ip : list Z) : string := String.concat "." (pretty <$> ip).

Definition hexString (b : list Z) : string :=
  String.concat "" ((fun x => hex_digit (Z.shiftr x 4) ++ hex_digit (Z.land x 15)) <$> b).

Definition IP_String (ip : IP) : string :=
  match ip with
  | [] => "<nil>"
  | _ =>
      match To4 ip with
      | Some p4 => dotted p4
      | None => if (length ip =? 16)%nat then appendTo6 ip else "?" ++ hexString ip
      end
  end.

Definition IPNet_String (n : IPNet) : string :=
  match networkNumberAndMask n with
  | None => "<nil>"
  | Some (nn, m) =>
      let l := simpleMaskLength m in
      if l =? -1 then IP_String nn ++ "/" ++ (if bool_decide (m = []) then "<nil>" else hexString m)
      else IP_String nn ++ "/" ++ pretty l
  end.

Example cidr_v4 : option_map IPNet_String (ParseCIDR "10.20.30.40/12") = Some "10.16.0.0/12".
Proof. reflexivity. Qed.
Example cidr_v6 : option_map IPNet_String (ParseCIDR "2001:DB8:0:0:1::5/64") = Some "2001:db8::/64".
Proof. reflexivity. Qed.
Example cidr_mapped : option_map IPNet_String (ParseCIDR "::ffff:10.1.2.3/104") = Some "10.0.0.0/8".
Proof. reflexivity. Qed.
Example cidr_runs : option_map IPNet_String (ParseCIDR "1:0:0:2::3/128") = Some "1:0:0:2::3/128".
Proof. reflexivity. Qed.
Example cidr_bad : ParseCIDR "10.0.0.01/8" = None /\ ParseCIDR "10.0.0/8" = None /\
  ParseCIDR "10.0.0.0/33" = None /\ ParseCIDR "fe80::1%eth0/64" = None /\ ParseCIDR "1::2::3/8" = None.
Proof. by split_and!. Qed.
