(* ===== verification/NetProps.v ===== *)
(** Facts of the addresses and networks of [NetIP]: what a network contains, and the
    round trip of its text. *)

From stdpp Require Import base list strings pretty.
From Stdlib Require Import ZArith Lia Ascii.
From S2P Require Import Prelude Decimal NetIP.

#[local] Open Scope string_scope.
#[local] Open Scope Z_scope.

(** The number that bytes spell, the most significant first. *)
Fixpoint num (b : list Z) : Z :=
  match b with
  | [] => 0
  | x :: b => x * 2 ^ (8 * Z.of_nat (length b)) + num b
  end.

Definition is_byte (x : Z) : Prop := 0 <= x < 256.

Lemma byte_cases (P : Z -> bool) :
  forallb P (seqZ 0 256) = true -> forall x, is_byte x -> P x = true.
Proof.
  intros H x Hx. rewrite forallb_forall in H. apply H.
  apply list_elem_of_In, elem_of_seqZ. unfold is_byte in Hx. lia.
Qed.

Lemma num_bound b : Forall is_byte b -> 0 <= num b < 2 ^ (8 * Z.of_nat (length b)).
Proof.
  induction 1 as [|x b Hx _ IH]; cbn [num length]; [done|]. unfold is_byte in Hx.
  replace (8 * Z.of_nat (S (length b))) with (8 + 8 * Z.of_nat (length b)) by lia.
  rewrite Z.pow_add_r by lia. nia.
Qed.

(** * Masks *)

Lemma CIDRMask_length n l : length (CIDRMask n l) = l.
Proof. revert n. induction l as [|l IH]; intros n; cbn; [done|]. case_match; cbn; by rewrite IH. Qed.

Lemma CIDRMask_0 l : CIDRMask 0 l = replicate l 0.
Proof. induction l as [|l IH]; [done|]. cbn. by rewrite IH. Qed.

Lemma CIDRMask_drop n k l : 8 * Z.of_nat k <= n -> drop k (CIDRMask n (k + l)) = CIDRMask (n - 8 * Z.of_nat k) l.
Proof.
  revert n. induction k as [|k IH]; intros n Hn; [by rewrite Z.sub_0_r|].
  cbn [Nat.add CIDRMask]. rewrite (proj2 (Z.leb_le 8 n)) by lia. cbn [drop]. rewrite IH by lia.
  f_equal. lia.
Qed.

Lemma same_masked_0 nn l ip : same_masked nn (CIDRMask 0 l) ip = true.
Proof.
  revert l ip. induction nn as [|a nn IH]; intros l ip; [done|].
  destruct l as [|l]; [done|]. destruct ip as [|b ip]; [done|]. cbn.
  by rewrite !Z.land_0_r, IH.
Qed.

(** A byte under a mask of [n] ones is its upper [n] bits. *)
Lemma masked_byte n a b :
  0 <= n < 8 -> is_byte a -> is_byte b ->
  (Z.land a (255 - Z.shiftr 255 n) =? Z.land b (255 - Z.shiftr 255 n)) =
  (Z.shiftr a (8 - n) =? Z.shiftr b (8 - n)).
Proof.
  intros Hn Ha Hb.
  assert (forall x, is_byte x -> Z.land x (255 - Z.shiftr 255 n) = Z.shiftl (Z.shiftr x (8 - n)) (8 - n)) as H.
  { intros x Hx. apply Z.eqb_eq. revert x Hx.
    apply (byte_cases (fun x => Z.land x (255 - Z.shiftr 255 n) =? Z.shiftl (Z.shiftr x (8 - n)) (8 - n))).
    assert (n = 0 \/ n = 1 \/ n = 2 \/ n = 3 \/ n = 4 \/ n = 5 \/ n = 6 \/ n = 7) as Hc by lia.
    destruct_or! Hc; subst n; by vm_compute. }
  rewrite !H by done. apply Bool.eq_iff_eq_true. rewrite !Z.eqb_eq. split; [|congruence].
  rewrite !Z.shiftl_mul_pow2 by lia. pose proof (Z.pow_pos_nonneg 2 (8 - n)). nia.
Qed.

Lemma shiftr_split x t k s :
  0 <= s <= k -> 0 <= t < 2 ^ k ->
  Z.shiftr (x * 2 ^ k + t) s = x * 2 ^ (k - s) + Z.shiftr t s /\ 0 <= Z.shiftr t s < 2 ^ (k - s).
Proof.
  intros Hs Ht. rewrite !Z.shiftr_div_pow2 by lia.
  replace (2 ^ k) with (2 ^ (k - s) * 2 ^ s) in * by (rewrite <-Z.pow_add_r by lia; f_equal; lia).
  pose proof (Z.pow_pos_nonneg 2 s ltac:(lia) ltac:(lia)). split.
  - replace (x * (2 ^ (k - s) * 2 ^ s) + t) with (t + x * 2 ^ (k - s) * 2 ^ s) by lia.
    rewrite Z.div_add by lia. lia.
  - split; [apply Z.div_pos; lia|apply Z.div_lt_upper_bound; lia].
Qed.

Lemma shiftr_high x t k s :
  k <= s -> 0 <= k -> 0 <= t < 2 ^ k -> Z.shiftr (x * 2 ^ k + t) s = Z.shiftr x (s - k).
Proof.
  intros Hs Hk Ht. replace s with (k + (s - k)) at 1 by lia.
  rewrite <-Z.shiftr_shiftr by lia. f_equal. rewrite Z.shiftr_div_pow2 by lia.
  rewrite Z.div_add_l by lia. rewrite Z.div_small; lia.
Qed.

Lemma eqb_mixed m a b x y :
  0 <= x < m -> 0 <= y < m -> (a =? b) && (x =? y) = (a * m + x =? b * m + y).
Proof.
  intros Hx Hy. apply Bool.eq_iff_eq_true. rewrite andb_true_iff, !Z.eqb_eq.
  split; [by intros [-> ->]|]. intros Heq. assert (a = b) as ->; [|lia].
  destruct (Z.lt_trichotomy a b) as [H|[H|H]]; [nia|done|nia].
Qed.

(** The comparison of [Contains]: the first [n] bits. *)
Lemma same_masked_prefix n l nn ip :
  length nn = l -> length ip = l -> Forall is_byte nn -> Forall is_byte ip ->
  0 <= n <= 8 * Z.of_nat l ->
  same_masked nn (CIDRMask n l) ip =
  (Z.shiftr (num nn) (8 * Z.of_nat l - n) =? Z.shiftr (num ip) (8 * Z.of_nat l - n)).
Proof.
  revert n nn ip. induction l as [|l IH]; intros n nn ip Hnn Hip Hb Hb' Hn.
  { destruct nn, ip; try done. cbn. by rewrite Z.eqb_refl. }
  destruct nn as [|a nn], ip as [|b ip]; try done. injection Hnn as Hnn. injection Hip as Hip.
  inversion_clear Hb as [|? ? Ha Hb0]. inversion_clear Hb' as [|? ? Ha' Hb0'].
  pose proof (num_bound nn Hb0) as Bn. pose proof (num_bound ip Hb0') as Bi.
  rewrite Hnn in Bn. rewrite Hip in Bi. cbn [num]. rewrite Hnn, Hip. cbn [CIDRMask].
  set (k := 8 * Z.of_nat l) in *. replace (8 * Z.of_nat (S l)) with (k + 8) in * by lia.
  destruct (Z.leb_spec 8 n) as [H8|H8]; cbn [same_masked].
  - destruct (shiftr_split a (num nn) k (k + 8 - n)) as [-> Ba]; [lia..|].
    destruct (shiftr_split b (num ip) k (k + 8 - n)) as [-> Bb]; [lia..|].
    replace 255 with (Z.ones 8) by done. rewrite !Z.land_ones, !Z.mod_small by (unfold is_byte in *; lia).
    rewrite IH by (done || lia). fold k. replace (k - (n - 8)) with (k + 8 - n) by lia.
    by apply eqb_mixed.
  - rewrite same_masked_0, andb_true_r, masked_byte by (done || lia).
    rewrite !shiftr_high by lia. by replace (k + 8 - n - k) with (8 - n) by lia.
Qed.

Lemma leading_ones_mask n : 0 <= n < 8 -> leading_ones 8 (255 - Z.shiftr 255 n) = (n, 0).
Proof.
  intros Hn. assert (n = 0 \/ n = 1 \/ n = 2 \/ n = 3 \/ n = 4 \/ n = 5 \/ n = 6 \/ n = 7) as Hc by lia.
  by destruct_or! Hc; subst n.
Qed.

Lemma simpleMaskLength_CIDRMask n l : 0 <= n <= 8 * Z.of_nat l -> simpleMaskLength (CIDRMask n l) = n.
Proof.
  revert n. induction l as [|l IH]; intros n Hn; [cbn; lia|]. cbn [CIDRMask].
  destruct (Z.leb_spec 8 n) as [H8|H8]; cbn [simpleMaskLength].
  - rewrite Z.eqb_refl, IH by lia. destruct (Z.eqb_spec (n - 8) (-1)); lia.
  - rewrite leading_ones_mask by lia.
    assert (255 - Z.shiftr 255 n <> 255) as Hne.
    { assert (n = 0 \/ n = 1 \/ n = 2 \/ n = 3 \/ n = 4 \/ n = 5 \/ n = 6 \/ n = 7) as Hc by lia.
      by destruct_or! Hc; subst n. }
    rewrite (proj2 (Z.eqb_neq _ _) Hne). rewrite CIDRMask_0, Z.eqb_refl.
    replace (forallb (Z.eqb 0) (replicate l 0)) with true; [done|].
    clear. by induction l.
Qed.

(** * The text of IPv4 addresses *)

(** The digits of an octet are read whatever follows them. *)
Definition octet_digits (x : Z) : list Z :=
  if x <? 10 then [x] else if x <? 100 then [x / 10; x mod 10] else [x / 100; x / 10 mod 10; x mod 10].

Fixpoint of_digits (ds : list Z) : string :=
  match ds with [] => "" | d :: ds => String (pretty_N_char (Z.to_N d)) (of_digits ds) end.

Lemma pretty_octet x : is_byte x -> pretty x = of_digits (octet_digits x).
Proof.
  intros Hx. apply (bool_decide_eq_true_1 (pretty x = of_digits (octet_digits x))). revert x Hx.
  apply (byte_cases (fun x => bool_decide (pretty x = of_digits (octet_digits x)))). by vm_compute.
Qed.

Lemma parse_digit d r start val len fields :
  0 <= d < 10 -> (len =? 1) && (val =? 0) = false -> val * 10 + d <= 255 ->
  parseIPv4Fields (String (pretty_N_char (Z.to_N d)) r) start val len fields =
  parseIPv4Fields r false (val * 10 + d) (len + 1) fields.
Proof.
  intros Hd Hz Hv. cbn [parseIPv4Fields]. rewrite digit_value_pretty by lia. rewrite Z2N.id by lia.
  rewrite Hz, (proj2 (Z.ltb_ge _ _)) by lia. done.
Qed.

Lemma parse_octet x r start fields :
  is_byte x -> exists len,
  parseIPv4Fields (pretty x ++ r) start 0 0 fields = parseIPv4Fields r false x len fields.
Proof.
  intros Hx. rewrite pretty_octet by done. unfold octet_digits, is_byte in *.
  pose proof (Z.div_mod x 10). pose proof (Z.mod_pos_bound x 10).
  pose proof (Z.div_mod (x / 10) 10). pose proof (Z.mod_pos_bound (x / 10) 10).
  assert (x / 10 / 10 = x / 100) as H100 by (by rewrite Z.div_div by lia).
  destruct (Z.ltb_spec x 10); [|destruct (Z.ltb_spec x 100)]; cbn [of_digits].
  - exists 1. change (String ?c "" ++ r) with (String c r). by rewrite parse_digit by lia.
  - exists 2. change (String ?c (String ?d "") ++ r) with (String c (String d r)).
    rewrite !parse_digit by (done || lia || (apply andb_false_iff; right; apply Z.eqb_neq; lia)).
    f_equal; lia.
  - exists 3. change (String ?c (String ?d (String ?e "")) ++ r) with (String c (String d (String e r))).
    rewrite !parse_digit by (done || lia || (apply andb_false_iff; right; apply Z.eqb_neq; lia)).
    f_equal; lia.
Qed.

Lemma parse_dot r val len fields :
  r <> "" -> (length fields < 3)%nat ->
  parseIPv4Fields (String "." r) false val len fields = parseIPv4Fields r true 0 0 (fields ++ [val])%list.
Proof.
  intros Hr Hl. cbn -[bool_decide]. rewrite bool_decide_true, bool_decide_false by done. cbn [negb orb].
  by rewrite (proj2 (Nat.eqb_neq (length fields) 3)) by lia.
Qed.

Lemma pretty_ne (x : Z) r : 0 <= x -> pretty x ++ r <> "".
Proof. intros Hx. by destruct (pretty_head x Hx) as (c & s & -> & _). Qed.

Lemma parseIPv4_dotted b : length b = 4%nat -> Forall is_byte b -> parseIPv4 (dotted b) = Some b.
Proof.
  intros Hl Hb. destruct b as [|x1 [|x2 [|x3 [|x4 []]]]]; try done.
  rewrite !Forall_cons in Hb. destruct Hb as (H1 & H2 & H3 & H4 & _).
  unfold parseIPv4, dotted. cbn [fmap list_fmap String.concat].
  rewrite !string_app_cons, !string_nil_app.
  pose proof (proj1 H2). pose proof (proj1 H3). pose proof (proj1 H4).
  destruct (parse_octet x1 (String "." (pretty x2 ++ String "." (pretty x3 ++ String "." (pretty x4))))
    true [] H1) as [l1 ->].
  rewrite parse_dot by (apply pretty_ne || cbn; lia). cbn [app].
  destruct (parse_octet x2 (String "." (pretty x3 ++ String "." (pretty x4))) true [x1] H2) as [l2 ->].
  rewrite parse_dot by (apply pretty_ne || cbn; lia). cbn [app].
  destruct (parse_octet x3 (String "." (pretty x4)) true [x1; x2] H3) as [l3 ->].
  rewrite parse_dot; [cbn [app]| |cbn; lia].
  2: { destruct (pretty_head x4) as (c & s & -> & _); [lia|done]. }
  destruct (parse_octet x4 "" true [x1; x2; x3] H4) as [l4 Hp].
  rewrite string_app_nil in Hp. by rewrite Hp.
Qed.

(** * What the parsers give *)

Lemma digit_value_bound c d : digit_value c = Some d -> 0 <= d < 10.
Proof. unfold digit_value. case_match; [|done]. intros [= <-]. rewrite andb_true_iff, !Z.leb_le in *. lia. Qed.

Lemma parseIPv4Fields_bytes s start val len fields b :
  Forall is_byte fields -> is_byte val -> (length fields <= 3)%nat ->
  parseIPv4Fields s start val len fields = Some b -> length b = 4%nat /\ Forall is_byte b.
Proof.
  revert start val len fields. induction s as [|c s IH]; intros start val len fields Hf Hv Hl H;
    cbn [parseIPv4Fields] in H.
  - case_match eqn:H3; [done|]. apply Nat.ltb_ge in H3. injection H as <-.
    rewrite length_app. cbn. split; [lia|]. apply Forall_app; auto.
  - destruct (digit_value c) as [d|] eqn:Hd; repeat case_match; try done.
    + apply digit_value_bound in Hd. eapply IH; [done| |done|done].
      unfold is_byte in *. rewrite Z.ltb_ge in *. lia.
    + rewrite Nat.eqb_neq in *. eapply IH; [| | |done]; [apply Forall_app; auto|done|].
      rewrite length_app. cbn. lia.
Qed.

Lemma parseIPv4_bytes s b : parseIPv4 s = Some b -> length b = 4%nat /\ Forall is_byte b.
Proof. apply parseIPv4Fields_bytes; [done|done|cbn; lia]. Qed.

Lemma hex_value_bound c d : hex_value c = Some d -> 0 <= d < 16.
Proof.
  unfold hex_value. repeat case_match; try done; intros [= <-];
    rewrite andb_true_iff, !Z.leb_le in *; lia.
Qed.

Lemma hex_group_bound s off acc x o r :
  0 <= acc < 65536 -> hex_group s off acc = Some (x, o, r) -> 0 <= x < 65536.
Proof.
  revert off acc. induction s as [|c s IH]; intros off acc Ha H; cbn [hex_group] in H; [by simplify_eq|].
  destruct (hex_value c) as [d|] eqn:Hd; [|by simplify_eq].
  apply hex_value_bound in Hd. repeat case_match; try done. rewrite Z.ltb_ge in *.
  eapply IH; [|done]. lia.
Qed.

(** The two bytes of a group. *)
Definition group_bytes (x : Z) : list Z := [Z.shiftr x 8; Z.land x 255].

Lemma group_bytes_bytes x : 0 <= x < 65536 -> Forall is_byte (group_bytes x).
Proof.
  intros Hx. unfold group_bytes, is_byte. change 255 with (Z.ones 8).
  rewrite Z.land_ones, Z.shiftr_div_pow2 by lia. change (2 ^ 8) with 256.
  pose proof (Z.div_mod x 256). pose proof (Z.mod_pos_bound x 256).
  repeat constructor; lia.
Qed.

Lemma parseIPv6_loop_bytes rounds s ip ell ip' ell' r :
  Forall is_byte ip -> (length ip + 2 * rounds = 16)%nat -> (default O ell <= length ip)%nat ->
  parseIPv6_loop rounds s ip ell = Some (ip', ell', r) ->
  Forall is_byte ip' /\ (length ip' <= 16)%nat /\ (default O ell' <= length ip')%nat.
Proof.
  revert s ip ell. induction rounds as [|rounds IH]; intros s ip ell Hb Hl He H;
    cbn [parseIPv6_loop] in H; [simplify_eq; split_and!; done || lia|].
  destruct (hex_group s 0 0) as [[[x off] rest]|] eqn:Hg; [|done]. cbn [mbind option_bind] in H.
  apply hex_group_bound in Hg as Hx; [|done]. case_match; [done|].
  assert (Forall is_byte (ip ++ group_bytes x)%list) as Hb' by (apply Forall_app; eauto using group_bytes_bytes).
  assert (length (ip ++ group_bytes x)%list = length ip + 2)%nat as Hl' by (by rewrite length_app).
  fold (group_bytes x) in H.
  destruct rest as [|c rest]; [simplify_eq; split_and!; [done|lia|lia]|].
  destruct (bool_decide (c = "."%char)).
  - repeat (case_match; try done). destruct (parseIPv4 s) as [f|] eqn:Hf; [|done]. cbn [mbind option_bind] in H.
    apply parseIPv4_bytes in Hf as [Hfl Hfb]. rewrite Nat.ltb_ge in *. simplify_eq.
    rewrite length_app. split_and!; [by apply Forall_app|lia|lia].
  - repeat (case_match; try done); simplify_eq.
    + split_and!; [done|lia|cbn; lia].
    + eapply IH; [| | |done]; [done|lia|cbn; lia].
    + eapply IH; [| | |done]; [done|lia|lia].
Qed.

Lemma parseIPv6_bytes_16 s b : parseIPv6_bytes s = Some b -> length b = 16%nat /\ Forall is_byte b.
Proof.
  unfold parseIPv6_bytes. set (t := String.substring _ _ _).
  assert (forall s e, parseIPv6_loop 8 s [] e ≫= parseIPv6_expand = Some b ->
    default O e = O -> length b = 16%nat /\ Forall is_byte b) as H.
  { clear. intros s e H He. destruct (parseIPv6_loop 8 s [] e) as [[[ip ell] r]|] eqn:Hl; [|done].
    apply parseIPv6_loop_bytes in Hl as (Hb & Hlen & Hell); [|done|done|by rewrite He].
    cbn [mbind option_bind] in H. unfold parseIPv6_expand in H. repeat (case_match; try done).
    - destruct ell as [e'|]; [|done]. cbn [mbind option_bind default] in H, Hell. simplify_eq. rewrite Nat.ltb_lt in *. split.
      + rewrite !length_app, length_take, length_replicate, length_drop. lia.
      + rewrite !Forall_app. split_and!; [by apply Forall_take|by apply Forall_replicate|by apply Forall_drop].
    - rewrite Nat.ltb_ge in *. simplify_eq. split; [lia|done]. }
  repeat case_match; intros Hs; [|by eapply H|by eapply H].
  injection Hs as <-. by repeat constructor.
Qed.

(** * Networks *)

(** [net] is the network of the first [n] bits of [nn], whose other bits are zero;
    IPv4 networks have four bytes here, however they were written. *)
Record is_net (net : IPNet) (nn : list Z) (n : Z) : Prop := {
  net_nm : networkNumberAndMask net = Some (nn, CIDRMask n (length nn));
  net_len : length nn = 4%nat \/ (length nn = 16%nat /\ To4 nn = None);
  net_bytes : Forall is_byte nn;
  net_bits : 0 <= n <= 8 * Z.of_nat (length nn);
  net_masked : zip_with Z.land nn (CIDRMask n (length nn)) = nn;
}.

Lemma land_mask_byte x m : is_byte x -> 0 <= m -> is_byte (Z.land x m).
Proof.
  intros Hx Hm. unfold is_byte in *. split; [apply Z.land_nonneg; lia|].
  destruct (Z.eq_dec (Z.land x m) 0) as [->|Hne]; [lia|].
  assert (0 <= Z.land x m) by (apply Z.land_nonneg; lia).
  apply (Z.log2_lt_cancel _ 256). change (Z.log2 256) with 8.
  pose proof (Z.log2_land x m ltac:(lia) Hm).
  destruct (Z.eq_dec x 0) as [->|]; [by rewrite Z.land_0_l in Hne|].
  pose proof (Z.log2_lt_pow2 x 8 ltac:(lia)). change (2 ^ 8) with 256 in *. lia.
Qed.

Lemma CIDRMask_nonneg n l : 0 <= n -> Forall (fun m => 0 <= m) (CIDRMask n l).
Proof.
  revert n. induction l as [|l IH]; intros n Hn; cbn; [constructor|].
  destruct (Z.leb_spec 8 n); constructor; try (apply IH; lia); [lia|].
  rewrite Z.shiftr_div_pow2 by lia. pose proof (Z.pow_pos_nonneg 2 n).
  pose proof (Z.div_le_upper_bound 255 (2 ^ n) 255). lia.
Qed.

Lemma masked_bytes b m :
  Forall is_byte b -> Forall (fun m => 0 <= m) m -> Forall is_byte (zip_with Z.land b m).
Proof.
  intros Hb. revert m. induction Hb as [|x b Hx _ IH]; intros m Hm; [constructor|].
  inversion Hm; cbn; constructor; [by apply land_mask_byte|by apply IH].
Qed.

Lemma masked_twice b m : zip_with Z.land (zip_with Z.land b m) m = zip_with Z.land b m.
Proof.
  revert m. induction b as [|x b IH]; intros [|y m]; [done..|]. cbn.
  by rewrite IH, <-Z.land_assoc, Z.land_diag.
Qed.

Lemma zip_with_drop {A B C} (f : A -> B -> C) k l m : drop k (zip_with f l m) = zip_with f (drop k l) (drop k m).
Proof.
  revert l m. induction k as [|k IH]; intros l m; [done|].
  destruct l as [|x l], m as [|y m]; cbn; try done. by destruct (drop k l).
Qed.

(** Both forms of a network that [ParseCIDR] gives. *)
Lemma is_net_4 b n :
  length b = 4%nat -> Forall is_byte b -> 0 <= n <= 32 ->
  is_net (mkIPNet (IP_Mask (v4InV6Prefix ++ b) (CIDRMask n 4)) (CIDRMask n 4))
    (zip_with Z.land b (CIDRMask n 4)) n.
Proof.
  intros Hl Hb Hn.
  assert (length (zip_with Z.land b (CIDRMask n 4)) = 4%nat) as Hlz
    by (rewrite length_zip_with, CIDRMask_length; lia).
  assert (IP_Mask (v4InV6Prefix ++ b) (CIDRMask n 4) = zip_with Z.land b (CIDRMask n 4)) as ->.
  { pose proof (CIDRMask_length n 4) as Hm. revert Hm. generalize (CIDRMask n 4). intros m Hm.
    by destruct b as [|? [|? [|? [|? []]]]], m as [|? [|? [|? [|? []]]]]. }
  split; rewrite ?Hlz.
  - unfold networkNumberAndMask, To4. cbn [net_IP net_Mask]. rewrite Hlz. cbn [Nat.eqb mbind option_bind].
    by rewrite CIDRMask_length, Hlz.
  - by left.
  - apply masked_bytes; [done|apply CIDRMask_nonneg; lia].
  - lia.
  - apply masked_twice.
Qed.

Lemma land_0_mask x y : is_byte x -> 0 <= y < 8 -> Z.land x (255 - Z.shiftr 255 y) <> 255.
Proof.
  intros Hx Hy. apply Z.eqb_neq. apply negb_true_iff. revert x Hx.
  apply (byte_cases (fun x => negb (Z.land x (255 - Z.shiftr 255 y) =? 255))).
  assert (y = 0 \/ y = 1 \/ y = 2 \/ y = 3 \/ y = 4 \/ y = 5 \/ y = 6 \/ y = 7) as Hc by lia.
  by destruct_or! Hc; subst y; vm_compute.
Qed.

(** A masked byte is 255 only when all of its bits are under the mask. *)
Lemma masked_255 n l k b :
  0 <= n -> length b = l -> Forall is_byte b ->
  zip_with Z.land b (CIDRMask n l) !! k = Some 255 -> 8 * Z.of_nat (S k) <= n.
Proof.
  revert n k b. induction l as [|l IH]; intros n k b Hn Hl Hb Hk; [by destruct b|].
  destruct b as [|x b]; [done|]. injection Hl as Hl. inversion_clear Hb as [|? ? Hx Hb'].
  cbn [CIDRMask] in Hk. destruct (Z.leb_spec 8 n).
  - destruct k as [|k]; [lia|]. cbn in Hk. apply IH in Hk; [lia|lia|done|done].
  - destruct k as [|k]; cbn in Hk.
    + injection Hk as Hk. by apply land_0_mask in Hk; [|done|lia].
    + apply IH in Hk; [lia|lia|done|done].
Qed.

(** The mask of IPv6 networks of at most 95 bits takes the prefix of mapped addresses
    away. *)
Lemma To4_masked b n :
  length b = 16%nat -> Forall is_byte b -> 0 <= n < 96 -> To4 (zip_with Z.land b (CIDRMask n 16)) = None.
Proof.
  intros Hl Hb Hn. set (z := zip_with Z.land b (CIDRMask n 16)).
  destruct (To4 z) as [z4|] eqn:H4; [|done]. exfalso.
  assert (length z = 16%nat) as Hlz by (subst z; rewrite length_zip_with, CIDRMask_length; lia).
  unfold To4 in H4. rewrite Hlz in H4. cbn [Nat.eqb andb] in H4. case_bool_decide as Hp; [|done].
  assert (z !! 11%nat = Some 255) as H11 by (by rewrite <-(lookup_take_lt _ 12), Hp by lia).
  apply masked_255 in H11; [lia|lia|done|done].
Qed.

Lemma IP_Mask_6 b n : length b = 16%nat -> IP_Mask b (CIDRMask n 16) = zip_with Z.land b (CIDRMask n 16).
Proof.
  intros Hl. assert (length (CIDRMask n 16) = 16%nat) as Hm by apply CIDRMask_length.
  revert Hm. generalize (CIDRMask n 16). intros m Hm. unfold IP_Mask.
  rewrite Hl, Hm. cbn [Nat.eqb andb]. rewrite Hm. cbn [Nat.eqb andb]. by rewrite Hl.
Qed.

Lemma is_net_6_plain b n :
  length b = 16%nat -> Forall is_byte b -> 0 <= n <= 128 ->
  To4 (zip_with Z.land b (CIDRMask n 16)) = None ->
  is_net (mkIPNet (IP_Mask b (CIDRMask n 16)) (CIDRMask n 16)) (zip_with Z.land b (CIDRMask n 16)) n.
Proof.
  intros Hl Hb Hn H4. rewrite IP_Mask_6 by done. set (z := zip_with Z.land b (CIDRMask n 16)) in *.
  assert (length z = 16%nat) as Hlz by (subst z; rewrite length_zip_with, CIDRMask_length; lia).
  split; rewrite ?Hlz.
  - unfold networkNumberAndMask. cbn [net_IP net_Mask]. rewrite H4, Hlz. cbn [Nat.eqb mbind option_bind].
    rewrite CIDRMask_length. cbn [Nat.eqb]. by rewrite Hlz.
  - by right.
  - apply masked_bytes; [done|apply CIDRMask_nonneg; lia].
  - lia.
  - apply masked_twice.
Qed.

Lemma is_net_6 b n :
  length b = 16%nat -> Forall is_byte b -> 0 <= n <= 128 ->
  exists nn n', is_net (mkIPNet (IP_Mask b (CIDRMask n 16)) (CIDRMask n 16)) nn n'.
Proof.
  intros Hl Hb Hn. destruct (To4 (zip_with Z.land b (CIDRMask n 16))) as [z4|] eqn:H4;
    [|do 2 eexists; by apply is_net_6_plain].
  rewrite IP_Mask_6 by done. assert (96 <= n) as H96.
  { destruct (Z.le_gt_cases 96 n) as [|Hlt]; [done|]. by rewrite To4_masked in H4 by (done || lia). }
  set (z := zip_with Z.land b (CIDRMask n 16)) in *.
  assert (length z = 16%nat) as Hlz by (subst z; rewrite length_zip_with, CIDRMask_length; lia).
  assert (z4 = drop 12 z) as ->.
  { unfold To4 in H4. rewrite Hlz in H4. cbn [Nat.eqb andb] in H4. case_bool_decide; by simplify_eq. }
  assert (length (drop 12 z) = 4%nat) as Hld by (rewrite length_drop; lia).
  assert (drop 12 (CIDRMask n 16) = CIDRMask (n - 96) 4) as Hdm by (apply (CIDRMask_drop n 12 4); lia).
  exists (drop 12 z), (n - 96). split; rewrite ?Hld.
  - unfold networkNumberAndMask. cbn [net_IP net_Mask]. rewrite H4. cbn [mbind option_bind].
    rewrite CIDRMask_length. cbn [Nat.eqb]. by rewrite Hld, Hdm.
  - by left.
  - apply Forall_drop, masked_bytes; [done|apply CIDRMask_nonneg; lia].
  - lia.
  - rewrite <-Hdm, <-zip_with_drop. f_equal. apply masked_twice.
Qed.

Lemma same_masked_self b m : same_masked (zip_with Z.land b m) m b = true.
Proof.
  revert m. induction b as [|x b IH]; intros [|y m]; [done..|]. cbn.
  by rewrite <-Z.land_assoc, Z.land_diag, Z.eqb_refl, IH.
Qed.

Lemma dtoi_from_nonneg a s n : 0 <= a -> dtoi_from a s = Some n -> 0 <= n.
Proof.
  revert a. induction s as [|c s IH]; intros a Ha H; cbn [dtoi_from] in H; [by simplify_eq|].
  destruct (digit_value c) as [d|] eqn:Hd; [|done]. apply digit_value_bound in Hd.
  cbn [mbind option_bind] in H. case_match; [done|]. eapply IH; [|done]. lia.
Qed.

Lemma ParseAddr_scan_bytes w s a :
  ParseAddr_scan w s = Some a ->
  match a with
  | Addr4 b => length b = 4%nat /\ Forall is_byte b
  | Addr6 b _ => length b = 16%nat /\ Forall is_byte b
  end.
Proof.
  induction s as [|c s IH]; cbn [ParseAddr_scan]; [done|].
  repeat case_bool_decide; [| |done|done].
  - destruct (parseIPv4 w) as [b|] eqn:Hb; [|done]. intros [= <-]. by eapply parseIPv4_bytes.
  - unfold parseIPv6. destruct (cut "%" w) as [[s' z]|]; [case_bool_decide; [done|]|].
    + destruct (parseIPv6_bytes s') as [b|] eqn:Hb; [|done]. intros [= <-]. by eapply parseIPv6_bytes_16.
    + destruct (parseIPv6_bytes w) as [b|] eqn:Hb; [|done]. intros [= <-]. by eapply parseIPv6_bytes_16.
Qed.

Lemma ParseCIDR_is_net s net : ParseCIDR s = Some net -> exists nn n, is_net net nn n.
Proof.
  unfold ParseCIDR. destruct (cut "/" s) as [[addr mask]|]; [|done]. cbn [mbind option_bind].
  destruct (ParseAddr addr) as [a|] eqn:Ha; [|done]. cbn [mbind option_bind].
  destruct (dtoi mask) as [n|] eqn:Hn; [|done]. cbn [mbind option_bind].
  assert (0 <= n) as Hn0.
  { unfold dtoi in Hn. case_bool_decide; [done|]. by eapply dtoi_from_nonneg. }
  apply ParseAddr_scan_bytes in Ha. destruct a as [b|b z]; destruct Ha as [Hl Hb].
  - destruct (Z.ltb_spec 32 n); [done|]. intros <-%(inj Some). eexists _, n. apply is_net_4; [done..|lia].
  - case_bool_decide; [|done]. cbn [negb orb]. destruct (Z.ltb_spec 128 n); [done|].
    intros <-%(inj Some). apply is_net_6; [done..|lia].
Qed.

(** What a network prints and contains depends on its bytes and its bits only. *)
Lemma is_net_String net nn n :
  is_net net nn n -> IPNet_String net = IP_String nn ++ "/" ++ pretty n.
Proof.
  intros [Hnm _ _ Hn _]. unfold IPNet_String. rewrite Hnm, simpleMaskLength_CIDRMask by done.
  destruct (Z.eqb_spec n (-1)); [lia|done].
Qed.

(** The bytes of an address as [Contains] looks at them. *)
Definition unmap (ip : IP) : IP := default ip (To4 ip).

Lemma unmap_bytes ip : Forall is_byte ip -> Forall is_byte (unmap ip).
Proof.
  unfold unmap, To4. intros Hip. repeat case_match; cbn; try done; by apply Forall_drop.
Qed.

Lemma is_net_Contains net nn n ip :
  is_net net nn n -> Forall is_byte ip ->
  Contains net ip = true <->
  length (unmap ip) = length nn /\
  Z.shiftr (num (unmap ip)) (8 * Z.of_nat (length nn) - n) =
  Z.shiftr (num nn) (8 * Z.of_nat (length nn) - n).
Proof.
  intros [Hnm _ Hb Hn _] Hip. unfold Contains. rewrite Hnm. cbn [default id]. fold (unmap ip).
  rewrite andb_true_iff, Nat.eqb_eq. apply unmap_bytes in Hip.
  split; intros [Hl H]; (split; [done|]);
    rewrite same_masked_prefix in * by done; [symmetry|]; by apply Z.eqb_eq.
Qed.

Lemma is_net_same net net' nn n :
  is_net net nn n -> is_net net' nn n ->
  IPNet_String net = IPNet_String net' /\ forall ip, Contains net ip = Contains net' ip.
Proof.
  intros [H _ _ _ _] [H' _ _ _ _]. unfold IPNet_String, Contains. by rewrite H, H'.
Qed.

(** * The text of numbers and networks *)

Lemma dtoi_from_pretty_go (x : N) (s : string) :
  Z.of_N x < 0xFFFFFF -> dtoi_from 0 (pretty_N_go x s) = dtoi_from (Z.of_N x) s.
Proof.
  revert s. induction (N.lt_wf_0 x) as [x _ IH]. intros s Hx.
  destruct (N.eq_0_gt_0_cases x) as [->|Hx0]; [done|].
  assert (Z.of_N (x / 10) = Z.of_N x / 10) as Hd by (by rewrite N2Z.inj_div).
  pose proof (Z.div_mod (Z.of_N x) 10 ltac:(lia)). pose proof (Z.mod_pos_bound (Z.of_N x) 10 ltac:(lia)).
  rewrite pretty_N_go_step by done.
  rewrite IH; [|apply N.div_lt; lia|rewrite Hd; lia].
  cbn [dtoi_from]. rewrite digit_value_pretty by (apply N.mod_lt; lia).
  cbn [mbind option_bind]. rewrite Hd, N2Z.inj_mod. change (Z.of_N 10) with 10.
  replace (Z.of_N x / 10 * 10 + Z.of_N x mod 10) with (Z.of_N x) by lia.
  by rewrite (proj2 (Z.leb_gt _ _)) by lia.
Qed.

Lemma dtoi_pretty n : 0 <= n < 0xFFFFFF -> dtoi (pretty n) = Some n.
Proof.
  intros Hn. unfold dtoi. rewrite bool_decide_false by
    (destruct (pretty_head n) as (c & s & -> & _); [lia|done]).
  destruct n as [|p|p]; [done| |lia].
  change (pretty (Z.pos p)) with (pretty_N_go (N.pos p) "").
  rewrite dtoi_from_pretty_go by exact (proj2 Hn). done.
Qed.

(** Strings without a character. *)
Fixpoint absent (c : ascii) (s : string) : bool :=
  match s with "" => true | String c' s => negb (bool_decide (c' = c)) && absent c s end.

Lemma absent_app c s t : absent c (s ++ t) = absent c s && absent c t.
Proof.
  induction s as [|c' s IH]; [done|]. rewrite string_app_cons. cbn [absent]. by rewrite IH, andb_assoc.
Qed.

Lemma cut_absent c s : absent c s = true -> cut c s = None.
Proof.
  induction s as [|c' s IH]; [done|]. cbn [absent cut]. rewrite andb_true_iff, negb_true_iff.
  intros [-> H]. by rewrite IH.
Qed.

Lemma cut_app c s t : absent c s = true -> cut c (s ++ String c t) = Some (s, t).
Proof.
  induction s as [|c' s IH]; intros H.
  - change ("" ++ String c t) with (String c t). cbn [cut]. by rewrite bool_decide_true.
  - cbn [absent] in H. apply andb_true_iff in H as [H Hs]. apply negb_true_iff in H.
    rewrite string_app_cons. cbn [cut]. by rewrite H, IH.
Qed.

Lemma absent_digits c ds :
  digit_value c = None -> Forall (fun d => 0 <= d < 10) ds -> absent c (of_digits ds) = true.
Proof.
  intros Hc. induction 1 as [|d ds Hd _ IH]; [done|]. cbn [of_digits absent].
  rewrite IH, andb_true_r, bool_decide_false; [done|].
  intros <-. rewrite digit_value_pretty in Hc; [done|lia].
Qed.

Lemma absent_pretty c x : digit_value c = None -> is_byte x -> absent c (pretty x) = true.
Proof.
  intros Hc Hx. rewrite pretty_octet by done. apply absent_digits; [done|].
  unfold octet_digits, is_byte in *.
  pose proof (Z.mod_pos_bound x 10). pose proof (Z.mod_pos_bound (x / 10) 10).
  repeat case_match; rewrite ?Z.ltb_lt, ?Z.ltb_ge in *; repeat constructor; try lia;
    try (apply Z.div_pos; lia); try (apply Z.div_lt_upper_bound; lia).
Qed.

Lemma absent_concat c sep l :
  absent c sep = true -> Forall (fun s => absent c s = true) l -> absent c (String.concat sep l) = true.
Proof.
  intros Hs. induction 1 as [|s l H Hl IH]; [done|]. destruct l as [|s' l]; [done|].
  change (absent c (s ++ sep ++ String.concat sep (s' :: l)) = true).
  by rewrite !absent_app, H, Hs, IH.
Qed.

Lemma absent_dotted c b :
  digit_value c = None -> c <> "."%char -> Forall is_byte b -> absent c (dotted b) = true.
Proof.
  intros Hd Hc Hb. apply absent_concat.
  - cbn. by rewrite bool_decide_false.
  - apply Forall_fmap. eapply Forall_impl; [done|]. intros x Hx. by apply absent_pretty.
Qed.

(** An octet and the dot after it are passed over, and the dot makes it IPv4. *)
Lemma ParseAddr_scan_octet w x r :
  is_byte x -> ParseAddr_scan w (pretty x ++ String "." r) = (b ← parseIPv4 w; Some (Addr4 b)).
Proof.
  intros Hx. pose proof (absent_pretty "." x eq_refl Hx) as H1.
  pose proof (absent_pretty ":" x eq_refl Hx) as H2. pose proof (absent_pretty "%" x eq_refl Hx) as H3.
  induction (pretty x) as [|c s IH].
  - change ("" ++ ?r) with r. cbn [ParseAddr_scan]. by rewrite bool_decide_true.
  - cbn [absent] in H1, H2, H3. apply andb_true_iff in H1 as [E1%negb_true_iff H1], H2 as [E2%negb_true_iff H2],
      H3 as [E3%negb_true_iff H3].
    rewrite string_app_cons. cbn [ParseAddr_scan]. by rewrite E1, E2, E3, IH.
Qed.

Lemma ParseAddr_dotted b : length b = 4%nat -> Forall is_byte b -> ParseAddr (dotted b) = Some (Addr4 b).
Proof.
  intros Hl Hb. pose proof (parseIPv4_dotted b Hl Hb) as Hp. unfold ParseAddr.
  transitivity (b ← parseIPv4 (dotted b); Some (Addr4 b)); [|by rewrite Hp].
  generalize (dotted b) at 1 3 as w. intros w.
  destruct b as [|x1 [|x2 l]]; try done. inversion Hb; subst.
  change (dotted (x1 :: x2 :: l)) with (pretty x1 ++ String "." (dotted (x2 :: l))).
  by apply ParseAddr_scan_octet.
Qed.

(** * The text of IPv6 addresses *)

Ltac divmod_lia := Z.div_mod_to_equations; lia.

Definition is_group (x : Z) : Prop := 0 <= x < 65536.
Definition hex_char (d : Z) : ascii := ascii_of_nat (Z.to_nat (if d <? 10 then 48 + d else 87 + d)).

Lemma hex_value_char d : 0 <= d < 16 -> hex_value (hex_char d) = Some d.
Proof.
  intros Hd. assert (d ∈ seqZ 0 16) as Hin by (apply elem_of_seqZ; lia). clear Hd. revert d Hin.
  apply Forall_forall. repeat constructor.
Qed.

(** The text goes on with something else than a hexadecimal digit. *)
Definition hex_stop (r : string) : Prop :=
  match r with "" => True | String c _ => hex_value c = None end.

Lemma hex_group_digit d r off acc :
  0 <= d < 16 -> (off <= 3)%nat -> acc * 16 + d <= 65535 ->
  hex_group (String (hex_char d) r) off acc = hex_group r (S off) (acc * 16 + d).
Proof.
  intros Hd Ho Ha. cbn [hex_group]. rewrite hex_value_char by done.
  rewrite (proj2 (Nat.ltb_ge 3 off)) by lia. by rewrite (proj2 (Z.ltb_ge _ _)) by lia.
Qed.

Lemma hex_group_stop r off acc : hex_stop r -> hex_group r off acc = Some (acc, off, r).
Proof. destruct r as [|c r]; [done|]. cbn. by intros ->. Qed.

Fixpoint of_hex (ds : list Z) : string :=
  match ds with [] => "" | d :: ds => String (hex_char d) (of_hex ds) end.

Definition nibbles (x : Z) : list Z :=
  if 0x1000 <=? x then [x / 4096; x / 256 mod 16; x / 16 mod 16; x mod 16]
  else if 0x100 <=? x then [x / 256; x / 16 mod 16; x mod 16]
  else if 0x10 <=? x then [x / 16; x mod 16]
  else [x].

Lemma land_15 x : Z.land x 15 = x mod 16.
Proof. change 15 with (Z.ones 4). by rewrite Z.land_ones. Qed.

Lemma appendHex_nibbles x : is_group x -> appendHex x = of_hex (nibbles x).
Proof.
  intros Hx. unfold is_group in Hx. unfold appendHex, nibbles, hex_digit. rewrite !land_15, !Z.shiftr_div_pow2 by lia.
  change (2 ^ 12) with 4096. change (2 ^ 8) with 256. change (2 ^ 4) with 16.
  fold (hex_char (x / 4096 mod 16)) (hex_char (x / 256 mod 16)) (hex_char (x / 16 mod 16)) (hex_char (x mod 16)).
  repeat match goal with |- context [?a <=? x] => destruct (Z.leb_spec a x) end; try lia;
    rewrite ?string_app_cons, ?string_nil_app; cbn [of_hex]; repeat f_equal; divmod_lia.
Qed.

Lemma nibbles_bound x : is_group x -> Forall (fun d => 0 <= d < 16) (nibbles x).
Proof.
  intros Hx. unfold is_group in Hx. unfold nibbles.
  repeat match goal with |- context [?a <=? x] => destruct (Z.leb_spec a x) end;
    repeat constructor; divmod_lia.
Qed.

Lemma hex_group_append x r :
  is_group x -> hex_stop r -> exists off, hex_group (appendHex x ++ r) 0 0 = Some (x, S off, r).
Proof.
  intros Hx Hr. pose proof (nibbles_bound x Hx) as Hb. rewrite appendHex_nibbles by done.
  unfold is_group in Hx. unfold nibbles in *.
  repeat match goal with |- context [?a <=? x] => destruct (Z.leb_spec a x) end; try lia;
    rewrite !Forall_cons in Hb; destruct_and! Hb; cbn [of_hex]; rewrite !string_app_cons, string_nil_app;
    rewrite !hex_group_digit by (assumption || lia || divmod_lia); rewrite hex_group_stop by done;
    eexists; do 3 f_equal; divmod_lia.
Qed.

Lemma appendHex_head x : is_group x -> exists d s, 0 <= d < 16 /\ appendHex x = String (hex_char d) s.
Proof.
  intros Hx. rewrite appendHex_nibbles by done. pose proof (nibbles_bound x Hx) as Hb.
  unfold nibbles in *. repeat case_match; inversion Hb; by do 2 eexists.
Qed.

Lemma absent_appendHex c x : hex_value c = None -> is_group x -> absent c (appendHex x) = true.
Proof.
  intros Hc Hx. rewrite appendHex_nibbles by done. pose proof (nibbles_bound x Hx) as Hb.
  induction Hb as [|d ds Hd _ IH]; [done|]. cbn [of_hex absent].
  rewrite IH, andb_true_r, bool_decide_false; [done|]. intros <-. by rewrite hex_value_char in Hc.
Qed.

Lemma colons_cons g gs :
  colons (g :: gs) = appendHex g ++ match gs with [] => "" | _ => String ":" (colons gs) end.
Proof. destruct gs as [|g' gs]; [cbn; by rewrite string_app_nil|done]. Qed.

Lemma absent_colons c gs :
  hex_value c = None -> c <> ":"%char -> Forall is_group gs -> absent c (colons gs) = true.
Proof.
  intros Hh Hc Hg. apply absent_concat.
  - cbn. by rewrite bool_decide_false.
  - apply Forall_fmap. eapply Forall_impl; [done|]. intros x Hx. by apply absent_appendHex.
Qed.

Definition bytes_of (gs : list Z) : list Z := mjoin (group_bytes <$> gs).

Lemma bytes_of_length gs : length (bytes_of gs) = (2 * length gs)%nat.
Proof. induction gs as [|g gs IH]; [done|]. change (bytes_of (g :: gs)) with (group_bytes g ++ bytes_of gs)%list.
  rewrite length_app, IH. cbn. lia.
Qed.

Lemma bytes_of_cons g gs : bytes_of (g :: gs) = (group_bytes g ++ bytes_of gs)%list.
Proof. done. Qed.

(** A round reads a group. *)
Lemma parse6_group rounds g r ip ell :
  is_group g -> hex_stop r -> (match r with String c _ => c <> "."%char | _ => True end) ->
  parseIPv6_loop (S rounds) (appendHex g ++ r) ip ell =
  match r with
  | "" => Some ((ip ++ group_bytes g)%list, ell, "")
  | String c r =>
      if negb (bool_decide (c = ":"%char)) then None
      else
        match r with
        | "" => None
        | String c' r' =>
            if bool_decide (c' = ":"%char) then
              if bool_decide (ell <> None) then None
              else if bool_decide (r' = "") then
                Some ((ip ++ group_bytes g)%list, Some (length ip + 2)%nat, "")
              else parseIPv6_loop rounds r' (ip ++ group_bytes g)%list (Some (length ip + 2)%nat)
            else parseIPv6_loop rounds r (ip ++ group_bytes g)%list ell
        end
  end.
Proof.
  intros Hg Hr Hdot. destruct (hex_group_append g r Hg Hr) as [off Hh].
  cbn [parseIPv6_loop]. rewrite Hh. cbn [mbind option_bind Nat.eqb].
  fold (group_bytes g). rewrite length_app. destruct r as [|c r]; [done|].
  by rewrite (bool_decide_false (c = "."%char)).
Qed.

Lemma colons_head gs : gs <> [] -> Forall is_group gs ->
  exists d s, 0 <= d < 16 /\ colons gs = String (hex_char d) s.
Proof.
  intros Hne Hg. destruct Hg as [|g gs Hg _]; [done|]. rewrite colons_cons.
  destruct (appendHex_head g Hg) as (d & s & Hd & ->). rewrite string_app_cons. by do 2 eexists.
Qed.

Lemma hex_char_ne d c : 0 <= d < 16 -> hex_value c = None -> hex_char d <> c.
Proof. intros Hd Hc <-. by rewrite hex_value_char in Hc. Qed.

Lemma parse6_groups rounds gs ip ell :
  gs <> [] -> Forall is_group gs -> (length gs <= rounds)%nat ->
  parseIPv6_loop rounds (colons gs) ip ell = Some ((ip ++ bytes_of gs)%list, ell, "").
Proof.
  intros Hne Hg. revert rounds ip Hne. induction Hg as [|g gs Hg Hgs IH]; intros rounds ip Hne Hl; [done|].
  destruct rounds as [|rounds]; [cbn in Hl; lia|]. cbn in Hl. rewrite colons_cons.
  destruct gs as [|g' gs]; [by rewrite parse6_group|].
  rewrite parse6_group by done. rewrite bool_decide_true by done. cbn [negb].
  specialize (IH rounds (ip ++ group_bytes g)%list ltac:(done) ltac:(lia)).
  destruct (colons_head (g' :: gs)) as (d & s & Hd & Hs); [done|done|]. rewrite Hs in *.
  rewrite bool_decide_false by (by apply hex_char_ne). rewrite IH.
  by rewrite <-app_assoc.
Qed.

Lemma parse6_ellipsis rounds gs post ip :
  gs <> [] -> Forall is_group gs -> Forall is_group post -> (length gs + length post <= rounds)%nat ->
  parseIPv6_loop rounds (colons gs ++ "::" ++ colons post) ip None =
  Some ((ip ++ bytes_of gs ++ bytes_of post)%list, Some (length ip + 2 * length gs)%nat, "").
Proof.
  intros Hne Hg Hp. revert rounds ip Hne. induction Hg as [|g gs Hg Hgs IH]; intros rounds ip Hne Hl; [done|].
  destruct rounds as [|rounds]; [cbn in Hl; lia|]. cbn in Hl. rewrite colons_cons, string_app_assoc.
  destruct gs as [|g' gs].
  - rewrite string_nil_app. change ("::" ++ colons post) with (String ":" (String ":" (colons post))).
    rewrite parse6_group by done. rewrite !bool_decide_true by done. cbn [negb].
    rewrite bool_decide_false by (by intros H; apply H). destruct post as [|p post].
    + cbn [colons fmap list_fmap String.concat]. rewrite bool_decide_true by done.
      cbn [bytes_of]. rewrite !app_nil_r. do 3 f_equal.
    + destruct (colons_head (p :: post)) as (d & s & Hd & Hs); [done|done|]. rewrite bool_decide_false by (by rewrite Hs).
      rewrite parse6_groups by (done || cbn in *; lia). rewrite <-app_assoc. do 3 f_equal.
  - change (String ":" (colons (g' :: gs)) ++ ?r) with (String ":" (colons (g' :: gs) ++ r)).
    rewrite parse6_group by done. rewrite bool_decide_true by done. cbn [negb].
    specialize (IH rounds (ip ++ group_bytes g)%list ltac:(done) ltac:(cbn in *; lia)).
    destruct (colons_head (g' :: gs)) as (d & s & Hd & Hs); [done|done|]. rewrite Hs in *.
    rewrite string_app_cons in *. rewrite bool_decide_false by (by apply hex_char_ne). rewrite IH.
    rewrite bytes_of_cons, <-!app_assoc, length_app. cbn [length group_bytes].
    by replace (length ip + 2 + 2 * S (length gs))%nat with (length ip + 2 * S (S (length gs)))%nat by lia.
Qed.

(** The run of zeros that is left out. *)
Lemma zeros_spec g : take (zeros g) g = replicate (zeros g) 0 /\ (zeros g <= length g)%nat.
Proof.
  induction g as [|x g [IH IHl]]; [done|]. cbn. destruct (Z.eqb_spec x 0) as [->|]; cbn; [|split; [done|lia]].
  by rewrite IH; split; [|lia].
Qed.

Definition run_of (g : list Z) (r : option (nat * nat)) : Prop :=
  match r with
  | None => True
  | Some (i, l) => (2 <= l)%nat /\ (i + l <= length g)%nat /\ take l (drop i g) = replicate l 0
  end.

Lemma zero_run_spec whole i g best :
  drop i whole = g -> run_of whole best -> run_of whole (zero_run i g best).
Proof.
  revert i best. induction g as [|x g IH]; intros i best Hd Hb; [done|]. cbn [zero_run].
  apply IH; [by rewrite <-(Nat.add_1_r i), <-drop_drop, Hd|].
  case_match eqn:Hl; [|done]. apply andb_true_iff in Hl as [Hl%Nat.leb_le _].
  destruct (zeros_spec (x :: g)) as [Hz Hzl]. split_and!; [done| |by rewrite Hd].
  assert (length (drop i whole) = length (x :: g)) as Hlen by (by rewrite Hd).
  rewrite length_drop in Hlen. cbn [length] in *. lia.
Qed.

Lemma groups_group ip : Forall is_byte ip -> Forall is_group (groups ip).
Proof.
  remember (length ip) as n eqn:Hn. revert ip Hn.
  induction (lt_wf n) as [n _ IH]. intros ip -> Hb. destruct ip as [|a [|b ip]]; [constructor..|].
  cbn. rewrite !Forall_cons in Hb. destruct Hb as (Ha & Hb & Hip). constructor.
  - unfold is_byte, is_group in *. lia.
  - eapply IH; [|done|done]. cbn. lia.
Qed.

Lemma group_bytes_pair a b : is_byte a -> is_byte b -> group_bytes (a * 256 + b) = [a; b].
Proof.
  unfold is_byte, group_bytes. intros Ha Hb. change 255 with (Z.ones 8).
  rewrite Z.land_ones, Z.shiftr_div_pow2 by lia. change (2 ^ 8) with 256. repeat f_equal; divmod_lia.
Qed.

Lemma bytes_of_groups k ip :
  length ip = (2 * k)%nat -> Forall is_byte ip -> bytes_of (groups ip) = ip /\ length (groups ip) = k.
Proof.
  revert ip. induction k as [|k IH]; intros ip Hl Hb; [by destruct ip|].
  destruct ip as [|a [|b ip]]; [done|cbn in Hl; lia|]. rewrite !Forall_cons in Hb. destruct Hb as (Ha & Hb & Hip).
  destruct (IH ip) as [IH1 IH2]; [cbn in Hl; lia|done|]. cbn [groups length]. split; [|by rewrite IH2].
  change (bytes_of (a * 256 + b :: groups ip)) with (group_bytes (a * 256 + b) ++ bytes_of (groups ip))%list.
  by rewrite group_bytes_pair, IH1.
Qed.

Lemma bytes_of_app gs gs' : bytes_of (gs ++ gs') = (bytes_of gs ++ bytes_of gs')%list.
Proof.
  induction gs as [|g gs IH]; [done|]. change ((g :: gs) ++ gs')%list with (g :: (gs ++ gs'))%list.
  by rewrite !bytes_of_cons, IH, app_assoc.
Qed.

Lemma bytes_of_zeros l : bytes_of (replicate l 0) = replicate (2 * l) 0.
Proof.
  induction l as [|l IH]; [done|]. replace (2 * S l)%nat with (S (S (2 * l))) by lia.
  change (replicate (S l) 0) with (0 :: replicate l 0). by rewrite bytes_of_cons, IH.
Qed.

(** The sixteen bytes of a printed address are read back. *)
Lemma appendTo6_shape ip :
  length ip = 16%nat -> Forall is_byte ip ->
  exists pre post,
    Forall is_group pre /\ Forall is_group post /\
    ((post = [] /\ length pre = 8%nat /\ appendTo6 ip = colons pre /\ ip = bytes_of pre) \/
     (exists l, (2 <= l)%nat /\ (length pre + l + length post = 8)%nat /\
        appendTo6 ip = colons pre ++ "::" ++ colons post /\
        ip = (bytes_of pre ++ replicate (2 * l) 0 ++ bytes_of post)%list)).
Proof.
  intros Hl Hb. destruct (bytes_of_groups 8 ip) as [Hip Hg]; [done|done|].
  pose proof (groups_group ip Hb) as Hgr. unfold appendTo6.
  pose proof (zero_run_spec (groups ip) 0 (groups ip) None eq_refl I) as Hr.
  destruct (zero_run 0 (groups ip) None) as [[i l]|]; cbn in Hr.
  - destruct Hr as (Hl2 & Hil & Hz). exists (take i (groups ip)), (drop (i + l) (groups ip)).
    split_and!; [by apply Forall_take|by apply Forall_drop|]. right. exists l. split_and!; [done| |done|].
    + rewrite length_take, length_drop. lia.
    + rewrite <-bytes_of_zeros, <-Hz, <-!bytes_of_app, <-drop_drop, take_drop, take_drop. done.
  - exists (groups ip), []. split_and!; [done|done|]. left. done.
Qed.

Lemma no_ellipsis d s : 0 <= d < 16 -> String.prefix "::" (String (hex_char d) s) = false.
Proof.
  intros Hd. cbn [String.prefix]. destruct (ascii_dec ":" (hex_char d)) as [He|]; [|done].
  by apply eq_sym, hex_char_ne in He.
Qed.

Lemma parseIPv6_appendTo6 ip :
  length ip = 16%nat -> Forall is_byte ip -> parseIPv6_bytes (appendTo6 ip) = Some ip.
Proof.
  intros Hl Hb. destruct (appendTo6_shape ip Hl Hb) as (pre & post & Hpre & Hpost & H).
  unfold parseIPv6_bytes. destruct H as [(-> & Hp & -> & Hip) | (l & Hl2 & Hsum & -> & Hip)].
  - destruct (colons_head pre) as (d & s & Hd & Hs); [by destruct pre|done|].
    assert (String.prefix "::" (colons pre) = false) as ->.
    { rewrite Hs. by apply no_ellipsis. }
    rewrite parse6_groups by (done || (by destruct pre) || lia). cbn [mbind option_bind].
    unfold parseIPv6_expand. rewrite bool_decide_true by done. cbn [negb].
    change ([] ++ ?x)%list with x. rewrite <-Hip, Hl. by rewrite bool_decide_false by (by intros Hn; apply Hn).
  - destruct pre as [|g pre].
    + rewrite string_nil_app, prefix_app.
      change 2%nat with (String.length "::"). rewrite substring_app.
      cbn [length Nat.add] in Hsum.
      destruct post as [|p post].
      * cbn [colons fmap list_fmap String.concat]. rewrite bool_decide_true by done.
        cbn in Hip, Hsum. rewrite Hip. f_equal. by assert (l = 8)%nat as -> by lia.
      * destruct (colons_head (p :: post)) as (d & s & Hd & Hs); [done|done|].
        rewrite bool_decide_false by (by rewrite Hs).
        rewrite parse6_groups by (done || lia). cbn [mbind option_bind].
        unfold parseIPv6_expand. rewrite bool_decide_true by done. cbn [negb].
        change ([] ++ ?x)%list with x. rewrite bytes_of_length.
        rewrite (proj2 (Nat.ltb_lt _ _)) by lia. cbn [mbind option_bind take drop app].
        rewrite Hip. by replace (16 - 2 * length (p :: post))%nat with (2 * l)%nat by lia.
    + destruct (colons_head (g :: pre)) as (d & s & Hd & Hs); [done|done|].
      assert (String.prefix "::" (colons (g :: pre) ++ "::" ++ colons post) = false) as ->.
      { rewrite Hs, string_app_cons. by apply no_ellipsis. }
      rewrite parse6_ellipsis by (done || lia). cbn [mbind option_bind].
      unfold parseIPv6_expand. rewrite bool_decide_true by done. cbn [negb].
      change ([] ++ ?x)%list with x. rewrite length_app, !bytes_of_length.
      rewrite (proj2 (Nat.ltb_lt _ _)) by lia. cbn [mbind option_bind].
      assert (length (@nil Z) + 2 * length (g :: pre) = length (bytes_of (g :: pre)))%nat as ->
        by by rewrite bytes_of_length.
      rewrite take_app_length, drop_app_length, Hip.
      by replace (16 - _)%nat with (2 * l)%nat by lia.
Qed.

(** The first colon is found behind hexadecimal digits. *)
Lemma ParseAddr_scan_colon w x r :
  is_group x -> ParseAddr_scan w (appendHex x ++ String ":" r) = parseIPv6 w.
Proof.
  intros Hx. pose proof (absent_appendHex "." x eq_refl Hx) as H1.
  pose proof (absent_appendHex ":" x eq_refl Hx) as H2. pose proof (absent_appendHex "%" x eq_refl Hx) as H3.
  induction (appendHex x) as [|c s IH].
  - change ("" ++ ?r) with r. cbn [ParseAddr_scan]. by rewrite bool_decide_false, bool_decide_true.
  - cbn [absent] in H1, H2, H3. apply andb_true_iff in H1 as [E1%negb_true_iff H1], H2 as [E2%negb_true_iff H2],
      H3 as [E3%negb_true_iff H3].
    rewrite string_app_cons. cbn [ParseAddr_scan]. by rewrite E1, E2, E3, IH.
Qed.

Lemma absent_appendTo6 c ip :
  length ip = 16%nat -> Forall is_byte ip -> hex_value c = None -> c <> ":"%char ->
  absent c (appendTo6 ip) = true.
Proof.
  intros Hl Hb Hh Hc. destruct (appendTo6_shape ip Hl Hb) as (pre & post & Hpre & Hpost & H).
  assert (absent c "::" = true) as Hcc by (cbn [absent]; by rewrite bool_decide_false).
  destruct H as [(_ & _ & -> & _) | (l & _ & _ & -> & _)];
    rewrite ?absent_app, ?Hcc, ?absent_colons by done; done.
Qed.

Lemma ParseAddr_appendTo6 ip :
  length ip = 16%nat -> Forall is_byte ip -> ParseAddr (appendTo6 ip) = Some (Addr6 ip "").
Proof.
  intros Hl Hb. transitivity (parseIPv6 (appendTo6 ip)).
  2: { unfold parseIPv6. rewrite cut_absent by (by apply absent_appendTo6). by rewrite parseIPv6_appendTo6. }
  unfold ParseAddr. generalize (appendTo6 ip) at 1 3 as w. intros w.
  destruct (appendTo6_shape ip Hl Hb) as (pre & post & Hpre & _ & H).
  destruct H as [(-> & Hlen & -> & _) | (l & _ & _ & -> & _)]; (destruct Hpre as [|g pre Hg Hpre]).
  - done.
  - destruct pre as [|g' pre]; [done|]. rewrite colons_cons. by apply ParseAddr_scan_colon.
  - done.
  - rewrite colons_cons, string_app_assoc. destruct pre as [|g' pre]; by apply ParseAddr_scan_colon.
Qed.

(** The address of a network, printed and read back. *)
Lemma is_net_addr net nn n :
  is_net net nn n ->
  absent "/" (IP_String nn) = true /\
  ParseAddr (IP_String nn) = Some (if (length nn =? 4)%nat then Addr4 nn else Addr6 nn "").
Proof.
  intros [_ Hl Hb _ _]. destruct Hl as [Hl | [Hl H4]].
  - assert (IP_String nn = dotted nn) as ->.
    { unfold IP_String, To4. rewrite Hl. by destruct nn. }
    split; [by apply absent_dotted|]. rewrite Hl. by apply ParseAddr_dotted.
  - assert (IP_String nn = appendTo6 nn) as ->.
    { unfold IP_String. rewrite H4, Hl. by destruct nn. }
    split; [by apply absent_appendTo6|]. rewrite Hl. by apply ParseAddr_appendTo6.
Qed.

(** A network is read back from what it prints. *)
Lemma is_net_parsed net nn n :
  is_net net nn n -> exists net', ParseCIDR (IPNet_String net) = Some net' /\ is_net net' nn n.
Proof.
  intros Hnet. destruct (is_net_addr net nn n Hnet) as [Habs Haddr].
  rewrite (is_net_String net nn n Hnet). destruct Hnet as [_ Hl Hb Hn Hm].
  unfold ParseCIDR. change ("/" ++ pretty n) with (String "/" (pretty n)).
  rewrite cut_app by done. cbn [mbind option_bind]. rewrite Haddr. cbn [mbind option_bind].
  rewrite dtoi_pretty by (destruct Hl as [Hl|[Hl _]]; rewrite Hl in Hn; lia). cbn [mbind option_bind].
  destruct Hl as [Hl | [Hl H4]]; rewrite Hl in *; cbn [Nat.eqb].
  - rewrite (proj2 (Z.ltb_ge 32 n)) by lia. eexists. split; [done|].
    rewrite <-Hm at 2. apply is_net_4; [done|done|lia].
  - rewrite bool_decide_true by done. cbn [negb orb]. rewrite (proj2 (Z.ltb_ge 128 n)) by lia.
    eexists. split; [done|]. rewrite IP_Mask_6, Hm by done.
    split; rewrite ?Hl; [|by right|done|lia|done].
    unfold networkNumberAndMask. cbn [net_IP net_Mask]. rewrite H4, Hl. cbn [Nat.eqb mbind option_bind].
    rewrite CIDRMask_length. cbn [Nat.eqb]. by rewrite Hl.
Qed.

(** Networks that print alike are the same network. *)
Lemma same_String_same_net net net' nn n nn' n' :
  is_net net nn n -> is_net net' nn' n' -> IPNet_String net = IPNet_String net' ->
  nn = nn' /\ n = n'.
Proof.
  intros H H' Heq. pose proof (is_net_addr _ _ _ H) as [Ha Hp]. pose proof (is_net_addr _ _ _ H') as [Ha' Hp'].
  rewrite (is_net_String _ _ _ H), (is_net_String _ _ _ H') in Heq.
  change ("/" ++ pretty n) with (String "/" (pretty n)) in Heq.
  change ("/" ++ pretty n') with (String "/" (pretty n')) in Heq.
  apply (f_equal (cut "/")) in Heq. rewrite !cut_app in Heq by done. injection Heq as Hs Hn.
  rewrite Hs, Hp' in Hp. split.
  - destruct (length nn =? 4)%nat, (length nn' =? 4)%nat; by simplify_eq.
  - apply (f_equal dtoi) in Hn. destruct H as [_ Hl _ Hb _], H' as [_ Hl' _ Hb' _].
    rewrite !dtoi_pretty in Hn; [by injection Hn| |];
      [destruct Hl' as [Hl'|[Hl' _]]; rewrite Hl' in Hb'|destruct Hl as [Hl|[Hl _]]; rewrite Hl in Hb]; lia.
Qed.
