(* ===== verification/Dialers.v ===== *)
(** [dialer/dialer.go] and the address and key lists of [dialer/sshdialer.go]: the
    registry of dialers. A panic of a handler is recovered by the HTTP library and
    the process goes on in the state it has, so a run here gives its outcome and a
    state in both cases. [url.Parse], the parser of private keys and the SOCKS5
    library are parameters. *)

From stdpp Require Import base gmap list strings.
From Stdlib Require Import ZArith Lia Ascii.
From S2P Require Import Prelude Decimal NetIP.

#[local] Open Scope string_scope.
#[local] Open Scope Z_scope.

(** * Runs that keep their state when they panic *)

Definition G (S A : Type) : Type := S -> outcome A * S.
#[export] Instance G_ret S : MRet (G S) := fun A a s => (Done a, s).
#[export] Instance G_bind S : MBind (G S) := fun A B k m s =>
  match m s with
  | (Done a, s') => k a s'
  | (Fault f, s') => (Fault f, s')
  end.
Definition gget {S A} (f : S -> A) : G S A := fun s => (Done (f s), s).
Definition gset {S} (f : S -> S) : G S unit := fun s => (Done tt, f s).
Definition gpanic {S A} (f : fault) : G S A := fun s => (Fault f, s).

(** * Strings *)

Fixpoint contains (sub s : string) : bool :=
  String.prefix sub s || match s with "" => false | String _ s => contains sub s end.

(** [strings.Split(s, sep)] for a separator of one character. *)
Fixpoint split (sep : ascii) (s : string) : list string :=
  match s with
  | "" => [""]
  | String c s =>
      if bool_decide (c = sep) then "" :: split sep s
      else match split sep s with p :: ps => String c p :: ps | [] => [] end
  end.

(** * Data *)

Record SSHAddress := mkSSHAddress { user : string; host : string }.
Record URL := mkURL { Scheme : string; Username : string; Host : string; Port : string }.

#[export] Instance SSHAddress_eq_dec : EqDecision SSHAddress.
Proof. solve_decision. Defined.

Section Dialers.
Context {signer : Type}.
Context (url_Parse : string -> option URL).
Context (ParseEncryptedPrivateKey : string -> string -> option signer).
Context (SOCKS5 : string -> bool).

(** What the registry has to do with of a [SSHDialer]: [Auth] holds a key. *)
Record SSHDialer := mkSSHDialer {
  addresses : list SSHAddress;
  config_User : string;
  config_Auth : list signer;
  signers : list signer;
}.

(** A pointer to an SSH dialer is nil or the place of the object. *)
Abbreviation sshptr := (option nat).

Inductive Impl := ImplSSH (p : sshptr) | ImplSocks5 (addr : string).
Record DialerInfo := mkDialerInfo {
  info_Name : string; info_Type : string; info_Destination : string; impl : Impl }.

(** [known_hosts] tells whether the file can be loaded. *)
Record registry := mkRegistry {
  dialers : gmap string DialerInfo;
  sshDialer : sshptr;
  objects : list SSHDialer;
  known_hosts : bool;
}.

Definition set_dialers f (r : registry) :=
  mkRegistry (f (dialers r)) (sshDialer r) (objects r) (known_hosts r).
Definition set_sshDialer p (r : registry) := mkRegistry (dialers r) p (objects r) (known_hosts r).
Definition set_objects f (r : registry) :=
  mkRegistry (dialers r) (sshDialer r) (f (objects r)) (known_hosts r).

(** * Operations *)

(** A new dialer, or nil and an error. *)
Definition NewSSHDialer : G registry sshptr :=
  ok ← gget known_hosts;
  if (ok : bool) then
    n ← gget (fun r => length (objects r));
    gset (set_objects (fun os => os ++ [mkSSHDialer [] "" [] []])%list);;
    mret (Some n)
  else mret None.

Definition makeSSHDialer : G registry sshptr :=
  p ← gget sshDialer;
  match (p : sshptr) with
  | None =>
      p ← NewSSHDialer;
      gset (set_sshDialer p);;
      let info := mkDialerInfo "default" "ssh" "..." (ImplSSH p) in
      m ← gget dialers;
      (match (m : gmap string DialerInfo) !! "default" with
       | Some _ => gset (set_dialers <["ssh" := info]>)
       | None => gset (set_dialers <["default" := info]>)
       end);;
      gget sshDialer
  | Some _ => mret p
  end.

(** Access to the object of a pointer. *)
Definition at_ptr (p : sshptr) (f : SSHDialer -> SSHDialer) : G registry unit :=
  match p with
  | None => gpanic Segv
  | Some n => gset (set_objects (alter f n))
  end.

(** [SSHDialer.AddSSHKey]; [false] for an error. *)
Definition SSHDialer_AddSSHKey (p : sshptr) (key passPhrase : string) : G registry bool :=
  match ParseEncryptedPrivateKey key passPhrase with
  | None => mret false
  | Some s =>
      at_ptr p (fun d => mkSSHDialer (addresses d) (config_User d) (config_Auth d ++ [s])
        (signers d ++ [s]));;
      mret true
  end.
Definition AddSSHKey (key passPhrase : string) : G registry bool :=
  p ← makeSSHDialer; SSHDialer_AddSSHKey p key passPhrase.

Definition ssh_address (uri : string) : option SSHAddress :=
  let uri := if contains "://" uri then uri else "ssh://" ++ uri in
  u ← url_Parse uri;
  if bool_decide (Scheme u = "ssh") then
    Some (mkSSHAddress (Username u) (if bool_decide (Port u = "") then Host u ++ ":22" else Host u))
  else None.

(** [SSHDialer.AddDialer]. *)
Definition SSHDialer_AddDialer (p : sshptr) (uri : string) : G registry bool :=
  match ssh_address uri with
  | None => mret false
  | Some a =>
      at_ptr p (fun d => mkSSHDialer (addresses d ++ [a])
        (if bool_decide (config_User d = "") then user a else config_User d)
        (config_Auth d) (signers d));;
      mret true
  end.

Fixpoint AddDialers (uris : list string) : G registry unit :=
  match uris with
  | [] => mret tt
  | u :: uris => p ← gget sshDialer; SSHDialer_AddDialer p u;; AddDialers uris
  end.

Definition AddDialer (dialerName uri : string) : G registry bool :=
  let dialerName := if bool_decide (dialerName = "") then "default" else dialerName in
  if String.prefix "socks5://" uri then
    let addr := String.substring 9 (String.length uri - 9) uri in
    if SOCKS5 addr then
      gset (set_dialers <[dialerName := mkDialerInfo dialerName "socks5" uri (ImplSocks5 addr)]>);;
      mret true
    else mret false
  else
    makeSSHDialer;;
    AddDialers (split "," uri);;
    p ← gget sshDialer;
    gset (set_dialers <[dialerName := mkDialerInfo dialerName "ssh" uri (ImplSSH p)]>);;
    mret true.

(** Where a connection is asked for: nowhere ([nil, nil]), directly, from a SOCKS5
    server, from an SSH dialer. *)
Inductive target := Nowhere | Direct | ViaSocks5 (addr : string) | ViaSSH (n : nat).

(** [Dial]; the method of a nil dialer faults at its lock. *)
Definition Dial (dialerName : string) : G registry target :=
  m ← gget dialers;
  match (m : gmap string DialerInfo) !! dialerName with
  | None => mret Nowhere
  | Some info =>
      match impl info with
      | ImplSocks5 addr => mret (ViaSocks5 addr)
      | ImplSSH (Some n) => mret (ViaSSH n)
      | ImplSSH None => gpanic Segv
      end
  end.

(** * Runs of the daemon *)

(** What a client can ask the daemon for, which adds dialers as ["default"], and a
    change of the file [known_hosts]. *)
Inductive request :=
  | ReqAddDialer (uri : string)
  | ReqAddSSHKey (key passPhrase : string)
  | ReqKnownHosts (ok : bool).

Definition serve (q : request) : G registry bool :=
  match q with
  | ReqAddDialer uri => AddDialer "default" uri
  | ReqAddSSHKey key pass => AddSSHKey key pass
  | ReqKnownHosts ok =>
      gset (fun r => mkRegistry (dialers r) (sshDialer r) (objects r) ok);; mret true
  end.

(** The state after some requests, panics recovered. *)
Definition serve_all (qs : list request) (r : registry) : registry :=
  fold_left (fun r q => (serve q r).2) qs r.

Definition start (ok : bool) : registry := mkRegistry ∅ None [] ok.
End Dialers.

Arguments Nowhere : clear implicits.
