(* ===== verification/Rules.v ===== *)
(** [rules/rules.go]: the rules that choose the dialer of a destination. *)

From stdpp Require Import base gmap list strings pretty.
From Stdlib Require Import ZArith Lia Ascii.
From S2P Require Import Prelude Decimal NetIP NetProps Dialers.

#[local] Open Scope string_scope.
#[local] Open Scope Z_scope.

Record Rule := mkRule { rule_IPNet : IPNet; rule_Dialer : string }.

(** [control.Rule], the form in which rules are sent. *)
Record control_Rule := mkControlRule { CIDR : string; control_Dialer : string }.

(** The rules of a [RuleSet]. *)
Abbreviation RuleSet := (list Rule).

Definition Marshall (rule : Rule) : control_Rule :=
  mkControlRule (IPNet_String (rule_IPNet rule)) (rule_Dialer rule).

Definition UnMarshall (rule : control_Rule) : option Rule :=
  let cidr := if negb (contains "/" (CIDR rule)) then CIDR rule ++ "/32" else CIDR rule in
  n ← ParseCIDR cidr;
  Some (mkRule n (if bool_decide (control_Dialer rule = "") then "default" else control_Dialer rule)).

Fixpoint AddRule (rs : RuleSet) (rule : Rule) : RuleSet :=
  match rs with
  | [] => [rule]
  | r :: rs =>
      if bool_decide (IPNet_String (rule_IPNet r) = IPNet_String (rule_IPNet rule)) then rule :: rs
      else r :: AddRule rs rule
  end.

(** [Server.AddRule]: an error leaves the rules alone. *)
Definition Server_AddRule (rs : RuleSet) (rule : control_Rule) : RuleSet * bool :=
  match UnMarshall rule with
  | None => (rs, false)
  | Some r => (AddRule rs r, true)
  end.
Definition Server_ListRules (rs : RuleSet) : list control_Rule := Marshall <$> rs.

Section Dial.
Context {signer : Type}.
(** [net.ResolveTCPAddr]. *)
Context (ResolveTCPAddr : string -> string -> option IP).

Fixpoint first_match (rs : RuleSet) (ip : IP) : option Rule :=
  match rs with
  | [] => None
  | r :: rs => if Contains (rule_IPNet r) ip then Some r else first_match rs ip
  end.

(** [RuleSet.Dial]. *)
Definition RuleSet_Dial (rs : RuleSet) (network addr : string) : G (@registry signer) target :=
  match ResolveTCPAddr network addr with
  | Some ip =>
      match first_match rs ip with
      | Some rule => Dial (rule_Dialer rule)
      | None => mret Direct
      end
  | None => mret Direct
  end.
End Dial.

(** * The rules as an ordered map *)

(** A network, as its bytes and the number of bits that count, with its dialer. *)
Abbreviation entry := ((list Z * Z) * string)%type.

(** The dialer of a network that is there is replaced where it is; a new one comes
    last. *)
Fixpoint put_entry (es : list entry) (e : entry) : list entry :=
  match es with
  | [] => [e]
  | e' :: es => if bool_decide (e'.1 = e.1) then e :: es else e' :: put_entry es e
  end.

Definition prefix_of (n : Z) (b ip : list Z) : bool :=
  (length ip =? length b)%nat &&
  (Z.shiftr (num ip) (8 * Z.of_nat (length b) - n) =? Z.shiftr (num b) (8 * Z.of_nat (length b) - n)).

Fixpoint route (es : list entry) (ip : IP) : option string :=
  match es with
  | [] => None
  | ((b, n), d) :: es => if prefix_of n b (unmap ip) then Some d else route es ip
  end.

Definition rule_entry (r : Rule) (e : entry) : Prop :=
  is_net (rule_IPNet r) e.1.1 e.1.2 /\ rule_Dialer r = e.2 /\ e.2 <> "".

Lemma UnMarshall_entry c r : UnMarshall c = Some r -> exists e, rule_entry r e.
Proof.
  unfold UnMarshall. set (cidr := if negb _ then _ else _).
  destruct (ParseCIDR cidr) as [net|] eqn:Hp; [|done]. cbn [mbind option_bind].
  destruct (ParseCIDR_is_net _ _ Hp) as (nn & n & Hn). intros <-%(inj Some).
  exists (nn, n, if bool_decide (control_Dialer c = "") then "default" else control_Dialer c).
  split_and!; [done|done|]. cbn [snd]. by case_bool_decide.
Qed.

Lemma AddRule_entries rs es r e :
  Forall2 rule_entry rs es -> rule_entry r e ->
  Forall2 rule_entry (AddRule rs r) (put_entry es e).
Proof.
  intros Hrs Hr. induction Hrs as [|r' e' rs es Hr' Hrs IH]; cbn; [by apply Forall2_cons|].
  destruct Hr as (Hn & Hd), Hr' as (Hn' & Hd').
  destruct (decide (e'.1 = e.1)) as [He|He].
  - rewrite (bool_decide_true (e'.1 = e.1)) by done.
    rewrite bool_decide_true; [by apply Forall2_cons|]. rewrite He in Hn'.
    by apply (is_net_same _ _ e.1.1 e.1.2).
  - rewrite (bool_decide_false (e'.1 = e.1)) by done.
    rewrite bool_decide_false; [by apply Forall2_cons|]. intros Hs.
    destruct (same_String_same_net _ _ _ _ _ _ Hn' Hn Hs) as [H1 H2]. apply He.
    destruct e as [[] ?], e' as [[] ?]. cbn in *. by subst.
Qed.

Lemma put_entry_keys es e : NoDup (es.*1) -> NoDup ((put_entry es e).*1) /\
  forall k, k ∈ (put_entry es e).*1 <-> k = e.1 \/ k ∈ es.*1.
Proof.
  induction es as [|e' es IH]; intros Hnd.
  - cbn. split; [apply NoDup_singleton|]. intros k. rewrite list_elem_of_singleton, elem_of_nil. tauto.
  - cbn [fmap list_fmap] in Hnd. apply NoDup_cons in Hnd as [Hni Hnd]. destruct (IH Hnd) as [IH1 IH2].
    cbn [put_entry]. case_bool_decide as He; cbn [fmap list_fmap]; split.
    + apply NoDup_cons. by rewrite <-He.
    + intros k. rewrite !elem_of_cons, He. tauto.
    + apply NoDup_cons. split; [|done]. rewrite IH2. intros [H|H]; [by apply He|by apply Hni].
    + intros k. rewrite !elem_of_cons, IH2. tauto.
Qed.

Lemma first_match_route rs es ip :
  Forall2 rule_entry rs es -> Forall is_byte ip ->
  rule_Dialer <$> first_match rs ip = route es ip.
Proof.
  intros Hrs Hip. induction Hrs as [|r [[b n] d] rs es (Hn & Hd & _) _ IH]; [done|]. cbn in *.
  pose proof (is_net_Contains _ _ _ ip Hn Hip) as Hc.
  assert (Contains (rule_IPNet r) ip = prefix_of n b (unmap ip)) as ->.
  { apply Bool.eq_iff_eq_true. unfold prefix_of. by rewrite Hc, andb_true_iff, Nat.eqb_eq, Z.eqb_eq. }
  case_match; [by rewrite <-Hd|done].
Qed.
