(* ===== verification/RulesProps.v ===== *)
(** The theorems on rules and on the registry of dialers. *)

From stdpp Require Import base gmap list strings pretty.
From Stdlib Require Import ZArith Lia Ascii.
From S2P Require Import Prelude Decimal NetIP NetProps Dialers Rules.

#[local] Open Scope string_scope.
#[local] Open Scope Z_scope.

(** * Rules *)

(** The rules and the answers of the requests [cs]. *)
Fixpoint serve_rules (rs : RuleSet) (cs : list control_Rule) : RuleSet * list bool :=
  match cs with
  | [] => (rs, [])
  | c :: cs =>
      let '(rs, ok) := Server_AddRule rs c in
      let '(rs, oks) := serve_rules rs cs in (rs, ok :: oks)
  end.

(** What a request stands for: a network with its dialer, or an error. *)
Definition stands_for (c : control_Rule) (oe : option entry) : Prop :=
  match UnMarshall c, oe with
  | Some r, Some e => rule_entry r e
  | None, None => True
  | _, _ => False
  end.

Definition put_all (es : list entry) (oes : list (option entry)) : list entry :=
  fold_left (fun es oe => match oe with Some e => put_entry es e | None => es end) oes es.

Lemma requests_stand_for cs : exists oes, Forall2 stands_for cs oes.
Proof.
  induction cs as [|c cs [oes IH]]; [by exists []|].
  destruct (UnMarshall c) as [r|] eqn:Hr.
  - destruct (UnMarshall_entry c r Hr) as [e He]. exists (Some e :: oes). constructor; [|done].
    unfold stands_for. by rewrite Hr.
  - exists (None :: oes). constructor; [|done]. unfold stands_for. by rewrite Hr.
Qed.

Lemma serve_rules_entries rs es cs oes :
  Forall2 rule_entry rs es -> NoDup (es.*1) -> Forall2 stands_for cs oes ->
  Forall2 rule_entry (serve_rules rs cs).1 (put_all es oes) /\ NoDup ((put_all es oes).*1) /\
  (serve_rules rs cs).2 = (fun oe => bool_decide (is_Some oe)) <$> oes.
Proof.
  intros Hrs Hnd Hcs. revert rs es Hrs Hnd.
  induction Hcs as [|c oe cs oes Hc _ IH]; intros rs es Hrs Hnd; [done|].
  cbn [serve_rules put_all fold_left fmap list_fmap]. unfold stands_for in Hc. unfold Server_AddRule.
  destruct (UnMarshall c) as [r|], oe as [e|]; try done.
  - destruct (IH (AddRule rs r) (put_entry es e)) as (H1 & H2 & H3);
      [by apply AddRule_entries|by apply put_entry_keys|].
    destruct (serve_rules (AddRule rs r) cs) as [rs' oks]. cbn in *. by subst.
  - destruct (IH rs es) as (H1 & H2 & H3); [done|done|].
    destruct (serve_rules rs cs) as [rs' oks]. cbn in *. by subst.
Qed.

(** C6: the rules are an ordered map from networks to dialers. Whatever the clients
    ask for, a request whose text is not a network is answered with an error and
    changes nothing; any other sets the dialer of its network, in place when there
    is a rule for the same network in whatever spelling, else as the last rule. A
    connection is made through the dialer of the first rule whose network has the
    destination, by the bits of its prefix; directly when there is none, or when the
    address cannot be resolved. *)
Theorem rules_route {signer} (ResolveTCPAddr : string -> string -> option IP) (cs : list control_Rule)
    (Hres : forall network addr ip, ResolveTCPAddr network addr = Some ip -> Forall is_byte ip) :
  exists oes,
    let es := put_all [] oes in
    Forall2 stands_for cs oes /\
    (serve_rules [] cs).2 = (fun oe => bool_decide (is_Some oe)) <$> oes /\
    NoDup (es.*1) /\
    forall network addr,
      @RuleSet_Dial signer ResolveTCPAddr (serve_rules [] cs).1 network addr =
      match ResolveTCPAddr network addr with
      | None => mret Direct
      | Some ip => match route es ip with None => mret Direct | Some d => Dial d end
      end.
Proof.
  destruct (requests_stand_for cs) as [oes Hoes]. exists oes. intros es.
  destruct (serve_rules_entries [] [] cs oes) as (Hrs & Hnd & Hok); [done|constructor|done|].
  split_and!; [done..|]. intros network addr. unfold RuleSet_Dial.
  destruct (ResolveTCPAddr network addr) as [ip|] eqn:Hip; [|done].
  rewrite <-(first_match_route _ es ip Hrs) by by eapply Hres.
  by destruct (first_match (serve_rules [] cs).1 ip).
Qed.

Lemma rules_route_witness :
  exists oes,
    Forall2 stands_for [mkControlRule "10.1.0.0/16" "a"; mkControlRule "::ffff:10.1.2.3/112" "b"] oes /\
    (serve_rules [] [mkControlRule "10.1.0.0/16" "a"; mkControlRule "::ffff:10.1.2.3/112" "b"]).2
      = (fun oe => bool_decide (is_Some oe)) <$> oes.
Proof.
  destruct (rules_route (signer := unit) (fun _ _ => Some [10; 1; 2; 3])
    [mkControlRule "10.1.0.0/16" "a"; mkControlRule "::ffff:10.1.2.3/112" "b"])
    as (oes & H1 & H2 & _).
  { intros network addr ip [= <-]. repeat constructor; by compute. }
  exists oes. split; assumption.
Defined.

Example one_network :
  Marshall <$> (serve_rules [] [mkControlRule "10.1.0.0/16" "a"; mkControlRule "10.2.0.0" "";
    mkControlRule "::ffff:10.1.2.3/112" "b"; mkControlRule "10.1" "c"]).1 =
  [mkControlRule "10.1.0.0/16" "b"; mkControlRule "10.2.0.0/32" "default"].
Proof. reflexivity. Qed.

Lemma contains_slash s r : contains "/" (s ++ String "/" r) = true.
Proof.
  induction s as [|c s IH].
  - rewrite string_nil_app. cbn [contains String.prefix]. destruct (ascii_dec "/" "/"); [by destruct r|done].
  - rewrite string_app_cons. cbn [contains]. by rewrite IH, orb_true_r.
Qed.

(** C33: a rule that was accepted is sent and read back: the text of the network is
    the same again, and so are the dialer and the addresses the network contains. *)
Theorem rule_roundtrip (c : control_Rule) (r : Rule) (H : UnMarshall c = Some r) :
  exists r', UnMarshall (Marshall r) = Some r' /\ rule_Dialer r' = rule_Dialer r /\
    Marshall r' = Marshall r /\
    forall ip, Contains (rule_IPNet r') ip = Contains (rule_IPNet r) ip.
Proof.
  destruct (UnMarshall_entry c r H) as ([[nn n] d] & Hn & Hd & Hd0). cbn in *.
  destruct (is_net_parsed _ _ _ Hn) as (net' & Hp & Hn').
  destruct (is_net_same _ _ _ _ Hn' Hn) as [Hs Hc].
  assert (contains "/" (IPNet_String (rule_IPNet r)) = true) as Hslash.
  { rewrite (is_net_String _ _ _ Hn). apply contains_slash. }
  exists (mkRule net' (rule_Dialer r)). split_and!; [|done| |done].
  - unfold UnMarshall, Marshall. cbn [CIDR control_Dialer]. rewrite Hslash. cbn [negb].
    rewrite Hp. cbn [mbind option_bind]. by rewrite bool_decide_false by congruence.
  - unfold Marshall. cbn. by rewrite Hs.
Qed.

Lemma rule_roundtrip_witness :
  exists r r', UnMarshall (mkControlRule "2001:DB8:0:0:1::7/48" "") = Some r /\
    UnMarshall (Marshall r) = Some r' /\ Marshall r' = Marshall r.
Proof.
  destruct (UnMarshall (mkControlRule "2001:DB8:0:0:1::7/48" "")) as [r|] eqn:Hr; [|by vm_compute in Hr].
  destruct (rule_roundtrip _ r Hr) as (r' & H1 & _ & H2 & _). by exists r, r'.
Defined.

Lemma num_inj b b' : length b = length b' -> Forall is_byte b -> Forall is_byte b' -> num b = num b' -> b = b'.
Proof.
  revert b'. induction b as [|x b IH]; intros [|x' b'] Hl Hb Hb' H; try done.
  injection Hl as Hl. inversion_clear Hb as [|? ? Hx Hb0]. inversion_clear Hb' as [|? ? Hx' Hb0'].
  cbn [num] in H. rewrite Hl in H.
  pose proof (num_bound b Hb0) as B. pose proof (num_bound b' Hb0') as B'. rewrite Hl in B.
  apply Z.eqb_eq in H. rewrite <-eqb_mixed in H by done.
  apply andb_true_iff in H as [->%Z.eqb_eq Hn%Z.eqb_eq]. f_equal. by apply IH.
Qed.

Lemma no_slash s : absent "/" s = true -> contains "/" s = false.
Proof.
  induction s as [|c s IH]; [done|]. cbn [absent]. rewrite andb_true_iff, negb_true_iff.
  intros [Hc Hs]. apply bool_decide_eq_false in Hc. cbn [contains String.prefix].
  destruct (ascii_dec "/" c) as [<-|]; [done|]. by apply IH.
Qed.

(** A rule for an address without a length is a rule for the address alone when
    that is an IPv4 address; but an IPv6 address gets the length 32 too, and its rule
    is one for every address with the same first 32 bits. *)
Theorem single_addresses (d : string) (b : IP) (Hb : Forall is_byte b) :
  (length b = 4%nat -> exists r, UnMarshall (mkControlRule (dotted b) d) = Some r /\
     forall ip, Forall is_byte ip -> Contains (rule_IPNet r) ip = true <-> unmap ip = b) /\
  (length b = 16%nat -> exists r, UnMarshall (mkControlRule (appendTo6 b) d) = Some r /\
     forall ip, Forall is_byte ip ->
       Contains (rule_IPNet r) ip = true <->
       length (unmap ip) = 16%nat /\ Z.shiftr (num (unmap ip)) 96 = Z.shiftr (num b) 96).
Proof.
  split.
  - intros Hl. unfold UnMarshall. cbn [CIDR control_Dialer].
    rewrite no_slash by by apply absent_dotted. cbn [negb]. unfold ParseCIDR.
    change ("/32") with (String "/" "32"). rewrite cut_app by by apply absent_dotted.
    cbn [mbind option_bind]. rewrite ParseAddr_dotted by done. cbn [mbind option_bind].
    change (dtoi "32") with (Some 32). cbn [mbind option_bind].
    eexists. split; [done|]. intros ip Hip. cbn [rule_IPNet].
    pose proof (is_net_4 b 32 Hl Hb ltac:(lia)) as Hn.
    assert (zip_with Z.land b (CIDRMask 32 4) = b) as Hz.
    { clear Hn. destruct b as [|x1 [|x2 [|x3 [|x4 []]]]]; try done. rewrite !Forall_cons in Hb.
      destruct Hb as (H1 & H2 & H3 & H4 & _). unfold is_byte in *.
      change (CIDRMask 32 4) with [Z.ones 8; Z.ones 8; Z.ones 8; Z.ones 8]. cbn [zip_with].
      by rewrite !Z.land_ones, !Z.mod_small by lia. }
    rewrite Hz in Hn. rewrite (is_net_Contains _ _ _ _ Hn Hip), Hl.
    change (8 * Z.of_nat 4 - 32) with 0. rewrite !Z.shiftr_0_r. split; [|by intros ->].
    intros [Hlu Hnum]. apply num_inj; [congruence|by apply unmap_bytes|done|done].
  - intros Hl. unfold UnMarshall. cbn [CIDR control_Dialer].
    rewrite no_slash by by apply absent_appendTo6. cbn [negb]. unfold ParseCIDR.
    change ("/32") with (String "/" "32"). rewrite cut_app by by apply absent_appendTo6.
    cbn [mbind option_bind]. rewrite ParseAddr_appendTo6 by done. cbn [mbind option_bind].
    change (dtoi "32") with (Some 32). cbn [mbind option_bind]. rewrite (bool_decide_true ("" = "")) by done.
    cbn [negb orb]. eexists. split; [done|]. intros ip Hip. cbn [rule_IPNet].
    set (z := zip_with Z.land b (CIDRMask 32 16)).
    assert (length z = 16%nat) as Hlz by (subst z; rewrite length_zip_with, CIDRMask_length; lia).
    assert (Forall is_byte z) as Hbz by (apply masked_bytes; [done|apply CIDRMask_nonneg; lia]).
    assert (is_net (mkIPNet (IP_Mask b (CIDRMask 32 16)) (CIDRMask 32 16)) z 32) as Hn.
    { apply is_net_6_plain; [done|done|lia|]. apply To4_masked; [done|done|lia]. }
    rewrite (is_net_Contains _ _ _ _ Hn Hip), Hlz. change (8 * Z.of_nat 16 - 32) with 96.
    assert (Z.shiftr (num z) 96 = Z.shiftr (num b) 96) as ->; [|done].
    apply Z.eqb_eq. change 96 with (8 * Z.of_nat 16 - 32).
    rewrite <-same_masked_prefix by (done || lia). apply same_masked_self.
Qed.

Lemma single_addresses_witness :
  (exists r, UnMarshall (mkControlRule (dotted [10; 1; 2; 3]) "") = Some r /\
     Contains (rule_IPNet r) [10; 1; 2; 3] = true /\ Contains (rule_IPNet r) [10; 1; 2; 4] = false) /\
  (exists r, UnMarshall (mkControlRule (appendTo6 [32; 1; 13; 184; 0; 0; 0; 0; 0; 0; 0; 0; 0; 0; 0; 1]) "") = Some r /\
     Contains (rule_IPNet r) [32; 1; 13; 184; 5; 0; 0; 0; 0; 0; 0; 0; 0; 0; 0; 2] = true).
Proof.
  assert (forall b, forallb (fun x => (0 <=? x) && (x <? 256)) b = true -> Forall is_byte b) as Hby.
  { intros b Hb. rewrite forallb_forall in Hb. apply Forall_forall. intros x Hx.
    specialize (Hb x (proj1 (list_elem_of_In _ _) Hx)). unfold is_byte. lia. }
  split.
  - destruct (proj1 (single_addresses "" [10; 1; 2; 3] (Hby [10; 1; 2; 3] eq_refl)) eq_refl) as (r & Hr & Hc).
    exists r. split_and!; [done|by apply Hc; [apply Hby|]|].
    apply not_true_is_false. intros H. apply Hc in H; [done|by apply Hby].
  - destruct (proj2 (single_addresses "" [32; 1; 13; 184; 0; 0; 0; 0; 0; 0; 0; 0; 0; 0; 0; 1]
      (Hby [32; 1; 13; 184; 0; 0; 0; 0; 0; 0; 0; 0; 0; 0; 0; 1] eq_refl)) eq_refl) as (r & Hr & Hc).
    exists r. split; [done|]. apply Hc; [by apply Hby|]. by compute.
Defined.

(** * The registry of dialers *)

Section Registry.
Context {signer : Type} (url_Parse : string -> option URL).
Context (parse_key : string -> string -> option signer) (SOCKS5 : string -> bool).

(** What the requests amount to: the addresses and the keys in the order in which
    they came, whether there is an SSH dialer, and the dialer called default. *)
Record summary := Summary {
  sum_addresses : list SSHAddress;
  sum_keys : list signer;
  sum_made : bool;
  sum_default : option Impl;
}.

Definition socks_addr (uri : string) : option string :=
  if String.prefix "socks5://" uri then Some (String.substring 9 (String.length uri - 9) uri) else None.

Definition summarize (σ : summary) (q : request) : summary :=
  match q with
  | ReqAddDialer uri =>
      match socks_addr uri with
      | Some addr =>
          Summary (sum_addresses σ) (sum_keys σ) (sum_made σ)
            (if SOCKS5 addr then Some (ImplSocks5 addr) else sum_default σ)
      | None =>
          Summary (sum_addresses σ ++ omap (ssh_address url_Parse) (split "," uri))
            (sum_keys σ) true (Some (ImplSSH (Some O)))
      end
  | ReqAddSSHKey key pass =>
      Summary (sum_addresses σ) (sum_keys σ ++ option_list (parse_key key pass)) true
        (Some (default (ImplSSH (Some O)) (sum_default σ)))
  | ReqKnownHosts _ => σ
  end.

Definition first_user (u : string) (l : list SSHAddress) : string :=
  fold_left (fun u a => if bool_decide (u = "") then user a else u) l u.

(** The registry that a summary describes. *)
Record describes (σ : summary) (r : registry) : Prop := {
  desc_known : known_hosts r = true;
  desc_default : impl <$> dialers r !! "default" = sum_default σ;
  desc_ptr : sshDialer r = if sum_made σ then Some O else None;
  desc_objects : objects r =
    if sum_made σ then
      [mkSSHDialer (sum_addresses σ) (first_user "" (sum_addresses σ)) (sum_keys σ) (sum_keys σ)]
    else [];
  desc_made : sum_made σ = true -> is_Some (sum_default σ);
  desc_empty : sum_made σ = false -> sum_addresses σ = [] /\ sum_keys σ = [];
  desc_ssh : forall name info p, dialers r !! name = Some info -> impl info = ImplSSH p ->
    p = Some O /\ sum_made σ = true;
}.

(** The summary once the SSH dialer has been asked for. *)
Definition made (σ : summary) : summary :=
  Summary (sum_addresses σ) (sum_keys σ) true (Some (default (ImplSSH (Some O)) (sum_default σ))).

Lemma describes_made σ r : describes σ r -> sum_made σ = true -> describes (made σ) r.
Proof.
  intros H Hm. destruct (desc_made _ _ H Hm) as [i Hi]. unfold made. rewrite Hi. cbn.
  destruct σ; cbn in *. by subst.
Qed.

(** The new dialer is registered under [name], or some other dialer is. *)
Lemma describes_new σ r name info m :
  describes σ r -> sum_made σ = false -> impl info = ImplSSH (Some O) ->
  impl <$> <[name := info]> (dialers r) !! "default" = Some (default (ImplSSH (Some O)) (sum_default σ)) ->
  m = <[name := info]> (dialers r) ->
  describes (made σ) (mkRegistry m (Some O) [mkSSHDialer [] "" [] []] true).
Proof.
  intros [_ _ _ _ _ He Hs] Hm Hi Hd ->. destruct (He Hm) as [Ha Hk]. split; cbn; try done.
  - by rewrite Ha, Hk.
  - intros name' info' p. destruct (decide (name' = name)) as [->|Hne].
    + rewrite lookup_insert_eq. intros [= <-]. rewrite Hi. by intros [= <-].
    + rewrite lookup_insert_ne by done. intros H1 H2. by destruct (Hs name' info' p H1 H2).
Qed.

Lemma makeSSHDialer_run σ r :
  describes σ r -> exists r', makeSSHDialer r = (Done (Some O), r') /\ describes (made σ) r'.
Proof.
  intros H. pose proof (desc_ptr _ _ H) as Hp. unfold makeSSHDialer, mbind, G_bind, gget. rewrite Hp.
  destruct (sum_made σ) eqn:Hm; [exists r; split; [done|by apply describes_made]|].
  pose proof (desc_objects _ _ H) as Ho. pose proof (desc_known _ _ H) as Hk.
  pose proof (desc_default _ _ H) as Hd. rewrite Hm in Ho.
  destruct r as [m p os kh]. cbn in Hp, Ho, Hk, Hd. subst p os kh.
  unfold NewSSHDialer, mbind, G_bind, gget, gset. cbn.
  destruct (m !! "default") as [info|] eqn:Hdef; cbn in Hd; (eexists; split; [done|]);
    (eapply (describes_new _ _ _ _ _ H); [done| | |reflexivity]; [done|]).
  - rewrite lookup_insert_ne by done. cbn. by rewrite Hdef, <-Hd.
  - by rewrite lookup_insert_eq, <-Hd.
Qed.

Lemma first_user_app u l l' : first_user u (l ++ l') = first_user (first_user u l) l'.
Proof. apply fold_left_app. Qed.

Lemma AddDialers_run uris σ r :
  describes σ r -> sum_made σ = true ->
  exists r', AddDialers url_Parse uris r = (Done tt, r') /\ describes
    (Summary (sum_addresses σ ++ omap (ssh_address url_Parse) uris) (sum_keys σ) true (sum_default σ)) r' /\
    dialers r' = dialers r.
Proof.
  revert σ r. induction uris as [|u uris IH]; intros σ r H Hm.
  { exists r. split; [done|]. split; [|done]. cbn. rewrite app_nil_r. by destruct σ; cbn in *; subst. }
  cbn [AddDialers omap list_omap]. unfold mbind, G_bind, gget, SSHDialer_AddDialer.
  pose proof (desc_ptr _ _ H) as Hp. rewrite Hm in Hp. rewrite Hp.
  destruct (ssh_address url_Parse u) as [a|]; [|by apply IH].
  unfold mbind, G_bind, at_ptr, gset, mret, G_ret. cbn [mret G_ret].
  set (σ' := Summary (sum_addresses σ ++ [a]) (sum_keys σ) true (sum_default σ)).
  set (r0 := set_objects _ r).
  assert (describes σ' r0) as H0.
  { destruct H as [Hk Hd _ Ho Hmd He Hs]. rewrite Hm in *. split; cbn -[first_user]; try done.
    - rewrite Ho. cbn -[first_user]. by rewrite first_user_app. }
  destruct (IH σ' r0 H0 eq_refl) as (r' & Hrun & Hdesc & Hdi).
  exists r'. split; [done|]. split; [|done]. subst σ'. cbn in Hdesc. by rewrite <-app_assoc in Hdesc.
Qed.

Lemma describes_default σ r info :
  describes σ r -> (forall p, impl info = ImplSSH p -> p = Some O /\ sum_made σ = true) ->
  describes (Summary (sum_addresses σ) (sum_keys σ) (sum_made σ) (Some (impl info)))
    (set_dialers <["default" := info]> r).
Proof.
  intros [Hk _ Hp Ho _ He Hs] Hi. split; cbn; try done; [by rewrite lookup_insert_eq|].
  intros name info' p. destruct (decide (name = "default")) as [->|Hne].
  - rewrite lookup_insert_eq. intros [= <-]. apply Hi.
  - rewrite lookup_insert_ne by done. apply Hs.
Qed.

(** [AddSSHKey] on the dialer that is there. *)
Lemma AddSSHKey_run key pass σ r :
  describes σ r -> sum_made σ = true ->
  exists b r', SSHDialer_AddSSHKey parse_key (Some O) key pass r = (Done b, r') /\ describes
    (Summary (sum_addresses σ) (sum_keys σ ++ option_list (parse_key key pass)) true (sum_default σ)) r'.
Proof.
  intros H Hm. unfold SSHDialer_AddSSHKey. destruct (parse_key key pass) as [k|]; cbn [option_list].
  - do 2 eexists. split; [done|]. destruct H as [Hk Hd Hp Ho Hmd He Hs]. rewrite Hm in *. split; cbn; try done.
    by rewrite Ho.
  - do 2 eexists. split; [done|]. cbn [option_list]. rewrite app_nil_r. destruct σ; cbn in *. by subst.
Qed.

Lemma serve_run σ r q :
  describes σ r -> q <> ReqKnownHosts false ->
  exists b r', serve url_Parse parse_key SOCKS5 q r = (Done b, r') /\ describes (summarize σ q) r'.
Proof.
  intros H Hq. destruct q as [uri|key pass|[]]; [..|done]; cbn [serve summarize].
  - unfold AddDialer, socks_addr. rewrite (bool_decide_false ("default" = "")) by done.
    destruct (String.prefix "socks5://" uri).
    + set (addr := String.substring _ _ _). destruct (SOCKS5 addr).
      * do 2 eexists. split; [done|]. by apply (describes_default σ r (mkDialerInfo _ _ _ (ImplSocks5 addr))).
      * do 2 eexists. split; [done|]. by destruct σ.
    + destruct (makeSSHDialer_run σ r H) as (r1 & Hrun1 & H1). unfold mbind, G_bind. rewrite Hrun1.
      destruct (AddDialers_run (split "," uri) (made σ) r1 H1 eq_refl) as (r2 & Hrun2 & H2 & _).
      rewrite Hrun2. unfold gget. pose proof (desc_ptr _ _ H2) as Hp. cbn in Hp. rewrite Hp.
      unfold gset. do 2 eexists. split; [done|].
      refine (describes_default _ r2 (mkDialerInfo "default" "ssh" uri (ImplSSH (Some O))) H2 _).
      by intros p [= <-].
  - unfold AddSSHKey, mbind, G_bind. destruct (makeSSHDialer_run σ r H) as (r1 & Hrun1 & H1).
    rewrite Hrun1. by apply (AddSSHKey_run key pass (made σ)).
  - do 2 eexists. split; [done|]. destruct H as [Hk Hd Hp Ho Hmd He Hs]. by split.
Qed.

Lemma serve_all_run σ r qs :
  describes σ r -> Forall (fun q => q <> ReqKnownHosts false) qs ->
  describes (fold_left summarize qs σ) (serve_all url_Parse parse_key SOCKS5 qs r).
Proof.
  intros H Hqs. revert σ r H. induction Hqs as [|q qs Hq _ IH]; intros σ r H; [done|].
  destruct (serve_run σ r q H Hq) as (b & r' & Hrun & H'). unfold serve_all. cbn [fold_left].
  rewrite Hrun. by apply IH.
Qed.
End Registry.

(** C12: with a [known_hosts] that can be loaded, no request makes the daemon panic,
    and the registry is what the requests amount to: at most one SSH dialer is ever
    made, its addresses and keys are those of all requests in their order, also when
    the dialer called default was replaced in between, its user is the first that
    was given; and a connection through the default dialer goes to the SOCKS5 server
    or the SSH dialer that was added last, a key alone being enough for the latter. *)
Theorem registry_refines {signer} (url_Parse : string -> option URL)
    (parse_key : string -> string -> option signer) (SOCKS5 : string -> bool) (qs : list request)
    (Hqs : Forall (fun q => q <> ReqKnownHosts false) qs) :
  let r := serve_all url_Parse parse_key SOCKS5 qs (start true) in
  let σ := fold_left (summarize url_Parse parse_key SOCKS5) qs (Summary [] [] false None) in
  (forall q, q <> ReqKnownHosts false ->
     exists ok, (serve url_Parse parse_key SOCKS5 q r).1 = Done ok) /\
  objects r = (if sum_made σ then
    [mkSSHDialer (sum_addresses σ) (first_user "" (sum_addresses σ)) (sum_keys σ) (sum_keys σ)] else []) /\
  (Dial "default" r).1 = Done
    match sum_default σ with
    | None => Nowhere
    | Some (ImplSocks5 addr) => ViaSocks5 addr
    | Some (ImplSSH _) => ViaSSH O
    end.
Proof.
  intros r σ.
  assert (describes (Summary [] [] false None) (@start signer true)) as H0 by by split.
  pose proof (serve_all_run url_Parse parse_key SOCKS5 _ _ qs H0 Hqs) as H. fold r σ in H.
  split_and!; [|apply H|].
  - intros q Hq. destruct (serve_run url_Parse parse_key SOCKS5 σ r q H Hq) as (b & r' & -> & _). by exists b.
  - unfold Dial, mbind, G_bind, gget. pose proof (desc_default _ _ H) as Hd.
    destruct (dialers r !! "default") as [info|] eqn:Hdef; cbn in Hd; rewrite <-Hd; [|done].
    destruct (impl info) as [p|addr] eqn:Hi; [|done].
    destruct (desc_ssh _ _ H _ _ _ Hdef Hi) as [-> _]. done.
Qed.

Lemma registry_refines_witness :
  let url u := if String.prefix "ssh://" u then Some (mkURL "ssh" "me" (String.substring 6 99 u) "") else None in
  (Dial "default" (serve_all url (fun k _ => Some k) (fun _ => true)
    [ReqAddDialer "socks5://proxy:1080"; ReqAddSSHKey "key" ""; ReqAddDialer "a,b"] (start true))).1
    = Done (ViaSSH O).
Proof.
  intros url.
  destruct (registry_refines url (fun k (_ : string) => Some k) (fun _ => true)
    [ReqAddDialer "socks5://proxy:1080"; ReqAddSSHKey "key" ""; ReqAddDialer "a,b"]) as (_ & _ & ->);
    [by repeat constructor|]. reflexivity.
Defined.

(** The dialer called default is a nil dialer. *)
Definition default_nil {signer} (r : @registry signer) : Prop :=
  exists info, dialers r !! "default" = Some info /\ impl info = ImplSSH None.

Lemma makeSSHDialer_nil {signer} (r : @registry signer) :
  default_nil r -> default_nil (makeSSHDialer r).2.
Proof.
  intros (info & Hd & Hi). unfold makeSSHDialer, mbind, G_bind, gget.
  destruct r as [m [p|] os kh]; [by exists info|]. cbn [sshDialer dialers] in *.
  unfold NewSSHDialer, mbind, G_bind, gget, gset. cbn.
  destruct kh; cbn; rewrite Hd; exists info; cbn; by rewrite lookup_insert_ne.
Qed.

Lemma AddSSHKey_nil {signer} (parse_key : string -> string -> option signer) key pass r :
  default_nil r -> default_nil (AddSSHKey parse_key key pass r).2.
Proof.
  intros Hr. apply makeSSHDialer_nil in Hr. unfold AddSSHKey, mbind, G_bind.
  destruct (makeSSHDialer r) as [[p|f] r']; [|done]. unfold SSHDialer_AddSSHKey.
  destruct (parse_key key pass); [|done]. by destruct p.
Qed.

(** With a [known_hosts] that cannot be loaded, a key that can be read makes the
    daemon panic; the panic leaves a nil dialer called default behind. It stays there
    whatever keys are added and even once the file can be loaded and a key is
    accepted: every connection through the default dialer panics. *)
Theorem missing_known_hosts {signer} (url_Parse : string -> option URL)
    (parse_key : string -> string -> option signer) (SOCKS5 : string -> bool) (key pass : string)
    (qs : list request)
    (Hkey : is_Some (parse_key key pass))
    (Hqs : Forall (fun q => forall uri, q <> ReqAddDialer uri) qs) :
  let '(out, r) := serve url_Parse parse_key SOCKS5 (ReqAddSSHKey key pass) (start false) in
  out = Fault Segv /\
  (Dial "default" (serve_all url_Parse parse_key SOCKS5 qs r)).1 = Fault Segv.
Proof.
  destruct Hkey as [k Hk]. cbn [serve]. unfold AddSSHKey, SSHDialer_AddSSHKey. rewrite Hk. cbn.
  split; [done|].
  match goal with |- context [serve_all _ _ _ qs ?r] =>
    assert (default_nil r) as Hr by (eexists; split; [apply lookup_insert_eq|done]); revert Hr; generalize r end.
  intros r Hr. assert (default_nil (serve_all url_Parse parse_key SOCKS5 qs r)) as (info & Hd & Hi).
  { revert r Hr. induction Hqs as [|q qs' Hq _ IH]; intros r Hr; [done|]. apply IH.
    destruct q as [uri|key' pass'|ok]; [by destruct (Hq uri)|by apply AddSSHKey_nil|done]. }
  unfold Dial, mbind, G_bind, gget. by rewrite Hd, Hi.
Qed.

Lemma missing_known_hosts_witness :
  let r := (serve (fun _ => None) (fun k _ => Some k) (fun _ => true) (ReqAddSSHKey "key" "") (start false)).2 in
  (serve (fun _ => None) (fun k _ => Some k) (fun _ => true) (ReqAddSSHKey "key" "")
     (serve_all (fun _ => None) (fun k _ => Some k) (fun _ => true) [ReqKnownHosts true] r)).1 = Done true /\
  (Dial "default" (serve_all (fun _ => None) (fun k _ => Some k) (fun _ => true)
     [ReqKnownHosts true; ReqAddSSHKey "key" ""] r)).1 = Fault Segv.
Proof.
  split; [reflexivity|].
  destruct (missing_known_hosts (fun _ => None) (fun k (_ : string) => Some k) (fun _ => true) "key" ""
    [ReqKnownHosts true; ReqAddSSHKey "key" ""]) as [_ H]; [by eexists|by repeat constructor|]. exact H.
Defined.
