(* ===== verification/Connector.v ===== *)
(** The state machine of [SSHConnector] in [dialer/sshdialer.go], and the handler
    [Server.Connect] of [server/server.go] that clients drive it with, as goroutines
    that interleave. A critical section of the connector's lock is one step, and so
    is a write to a field outside of it. The SSH library decides when to call the
    callbacks: the one for the host key before the one for the password, and a
    handshake succeeds only when the former returned nil.

    A goroutine that is told to go on by [notifyWaiting] waits for that alone, so a
    notification is one step that empties the list of those who wait. *)

From stdpp Require Import base gmap list strings.
From Stdlib Require Import ZArith Lia Ascii.
From S2P Require Import Prelude Dialers.

#[local] Open Scope string_scope.

(** * Shared state *)

Inductive ConnectStatus :=
  | StatusNew  (* the empty string of a new connector *)
  | Connecting | Handshake | NeedPassphrase | UnknownHostKey | Succeeded | Failed.

#[export] Instance ConnectStatus_eq_dec : EqDecision ConnectStatus.
Proof. solve_decision. Defined.

(** Who waits: the goroutine of [connect], or a request. *)
Abbreviation waiter := (option nat).

(** [pendingHostKey] is nil or holds the channel [decision], which has room for one
    answer. [messages] counts the messages. *)
Record conn := Conn {
  status : ConnectStatus;
  passphrase : string;
  interactive : bool;
  pendingHostKey : option (option bool);
  messages : nat;
  waiting : list waiter;
  client : bool;
  registered : bool;
}.

Definition set_status v c := Conn v (passphrase c) (interactive c) (pendingHostKey c)
  (messages c) (waiting c) (client c) (registered c).
Definition set_passphrase v c := Conn (status c) v (interactive c) (pendingHostKey c)
  (messages c) (waiting c) (client c) (registered c).
Definition set_interactive c := Conn (status c) (passphrase c) true (pendingHostKey c)
  (messages c) (waiting c) (client c) (registered c).
Definition set_pending v c := Conn (status c) (passphrase c) (interactive c) v
  (messages c) (waiting c) (client c) (registered c).
Definition set_waiting v c := Conn (status c) (passphrase c) (interactive c) (pendingHostKey c)
  (messages c) v (client c) (registered c).
Definition add_message c := Conn (status c) (passphrase c) (interactive c) (pendingHostKey c)
  (S (messages c)) (waiting c) (client c) (registered c).
Definition set_client c := Conn (status c) (passphrase c) (interactive c) (pendingHostKey c)
  (messages c) (waiting c) true (registered c).
Definition set_registered v c := Conn (status c) (passphrase c) (interactive c) (pendingHostKey c)
  (messages c) (waiting c) (client c) v.

(** * Methods *)

Definition notifyWaitingLocked : conn -> conn := set_waiting [].
Definition Print (c : conn) : conn := notifyWaitingLocked (add_message c).
Definition Done_ (c : conn) : bool :=
  bool_decide (status c = Succeeded) || bool_decide (status c = Failed).

(** [false] for the error of a wrong status. *)
Definition SetPassphrase (p : string) : M conn bool :=
  st ← gets status;
  if negb (bool_decide (st = NeedPassphrase)) then mret false
  else
    modify (set_passphrase p);;
    modify (set_status Handshake);;
    modify notifyWaitingLocked;;
    mret true.

(** The send on [decision] faults when there is no channel and blocks when it is
    full. *)
Definition send_decision (b : bool) : M conn unit :=
  p ← gets pendingHostKey;
  match p with
  | None => fail Segv
  | Some (Some _) => fail Blocks
  | Some None => modify (set_pending (Some (Some b)))
  end.
Definition AcceptHostKey (accept : bool) : M conn bool :=
  st ← gets status;
  if negb (bool_decide (st = UnknownHostKey)) then mret false
  else
    modify (set_status Handshake);;
    send_decision accept;;
    modify notifyWaitingLocked;;
    mret true.

(** * Goroutines *)

(** The goroutine of [connect]. [CShake a rest ok]: in the handshake with [a], [ok]
    when its host key was approved. *)
Inductive cpc :=
  | CNext (rest : list SSHAddress)
  | CTry (a : SSHAddress) (rest : list SSHAddress)
  | CDial (a : SSHAddress) (rest : list SSHAddress)
  | CShake (a : SSHAddress) (rest : list SSHAddress) (ok : bool)
  | CRefused (a : SSHAddress) (rest : list SSHAddress)   (* the callback gave an error *)
  | CAsk (a : SSHAddress) (rest : list SSHAddress)       (* at <-decision *)
  | CAnswered (a : SSHAddress) (rest : list SSHAddress) (accepted : bool)
  | CPass (a : SSHAddress) (rest : list SSHAddress)      (* the loop of the password *)
  | CPassWait (a : SSHAddress) (rest : list SSHAddress)  (* in Wait, before the append *)
  | CPassBlocked (a : SSHAddress) (rest : list SSHAddress)
  | CPassGot (a : SSHAddress) (rest : list SSHAddress)   (* before notifyWaiting *)
  | CGreeted                                             (* handshake done *)
  | CClient                                              (* client is set *)
  | CDefer | CDefer2 | CDefer3
  | COver.

(** A request that runs [Server.Connect]; [n] is [messageCount]. *)
Inductive rpc :=
  | RSetPassphrase (p : string) (accept : option bool) (n : nat)
  | RAccept (accept : option bool) (n : nat)
  | RLoop (n : nat)
  | RStatus (n : nat)
  | RCheck (st : ConnectStatus) (n : nat)  (* Status() has been read, before Done() *)
  | RFinal                                 (* before Status() is read for the answer *)
  | RWait (n : nat)
  | RAppend (n : nat)
  | RBlocked (n : nat)
  | RReturn (result : option ConnectStatus).  (* None: an error *)

Record sys := Sys { sh : conn; pc : cpc; reqs : gmap nat rpc }.

(** What [baseCallback] finds in [known_hosts]. *)
Inductive verdict := Known | Mismatch | Unknown | OtherError.

Inductive label :=
  | LTau
  | LVerdict (a : SSHAddress) (v : verdict) (inter : bool)
  | LConnected (a : SSHAddress)
  | LRequest (i : nat)
  | LAccept (i : nat) (accept : bool).

(** The condition with which [Server.Connect] leaves its loop. *)
Definition leaves (st : ConnectStatus) (c : conn) : bool :=
  Done_ c || bool_decide (st = NeedPassphrase) || bool_decide (st = UnknownHostKey).

(** The steps of [connect] and its callbacks. *)
Inductive cstep : conn -> cpc -> label -> conn -> cpc -> Prop :=
  | c_next c a rest : cstep c (CNext (a :: rest)) LTau (Print c) (CTry a rest)
  | c_none c : cstep c (CNext []) LTau c CDefer
  | c_try c a rest : cstep c (CTry a rest) LTau (set_status Connecting c) (CDial a rest)
  | c_dial_fails c a rest : cstep c (CDial a rest) LTau (Print c) (CNext rest)
  | c_dial c a rest : cstep c (CDial a rest) LTau (set_status Handshake c) (CShake a rest false)
  | c_known c a rest :
      cstep c (CShake a rest false) (LVerdict a Known (interactive c)) c (CShake a rest true)
  | c_other c a rest :
      cstep c (CShake a rest false) (LVerdict a OtherError (interactive c)) c (CRefused a rest)
  | c_mismatch c a rest :
      cstep c (CShake a rest false) (LVerdict a Mismatch (interactive c)) (Print c) (CRefused a rest)
  | c_unknown c a rest : interactive c = false ->
      cstep c (CShake a rest false) (LVerdict a Unknown false) (Print c) (CRefused a rest)
  | c_ask c a rest : interactive c = true ->
      cstep c (CShake a rest false) (LVerdict a Unknown true)
        (notifyWaitingLocked (add_message (set_status UnknownHostKey (set_pending (Some None) c))))
        (CAsk a rest)
  | c_answer c a rest b : pendingHostKey c = Some (Some b) ->
      cstep c (CAsk a rest) LTau (set_pending (Some None) c) (CAnswered a rest b)
  | c_accepted c a rest written :
      cstep c (CAnswered a rest true) LTau
        (if (written : bool) then Print (set_pending None c) else set_pending None c) (CShake a rest true)
  | c_rejected c a rest : cstep c (CAnswered a rest false) LTau (set_pending None c) (CRefused a rest)
  | c_refused c a rest : cstep c (CRefused a rest) LTau (Print c) (CNext rest)
  | c_banner c a rest ok : cstep c (CShake a rest ok) LTau (Print c) (CShake a rest ok)
  | c_password c a rest :
      cstep c (CShake a rest true) LTau (set_status NeedPassphrase c) (CPass a rest)
  | c_pass_got c a rest : passphrase c <> "" ->
      cstep c (CPass a rest) LTau (set_status Handshake (set_passphrase "" c)) (CPassGot a rest)
  | c_pass_notify c a rest : cstep c (CPassGot a rest) LTau (notifyWaitingLocked c) (CShake a rest true)
  | c_pass_none c a rest : passphrase c = "" -> cstep c (CPass a rest) LTau c (CPassWait a rest)
  | c_pass_append c a rest :
      cstep c (CPassWait a rest) LTau (set_waiting (waiting c ++ [None]) c) (CPassBlocked a rest)
  | c_pass_woken c a rest : None ∉ waiting c -> cstep c (CPassBlocked a rest) LTau c (CPass a rest)
  | c_fails c a rest ok : cstep c (CShake a rest ok) LTau (Print c) (CNext rest)
  | c_succeeds c a rest : cstep c (CShake a rest true) (LConnected a) (Print c) CGreeted
  | c_client c : cstep c CGreeted LTau (set_client c) CClient
  | c_succeeded c : cstep c CClient LTau (set_status Succeeded c) CDefer
  | c_defer c :
      cstep c CDefer LTau (if bool_decide (status c = Succeeded) then c else set_status Failed c) CDefer2
  | c_defer2 c : cstep c CDefer2 LTau (set_registered false c) CDefer3
  | c_defer3 c : cstep c CDefer3 LTau (notifyWaitingLocked c) COver.

(** The steps of request [i]. *)
Inductive rstep (i : nat) : conn -> rpc -> label -> conn -> rpc -> Prop :=
  | r_no_pass c acc n : rstep i c (RSetPassphrase "" acc n) LTau c (RAccept acc n)
  | r_pass c c' p acc n ok : p <> "" -> SetPassphrase p c = Done (ok, c') ->
      rstep i c (RSetPassphrase p acc n) LTau c' (RAccept acc n)
  | r_no_accept c n : rstep i c (RAccept None n) LTau c (RLoop n)
  | r_accept c c' b n : AcceptHostKey b c = Done (true, c') ->
      rstep i c (RAccept (Some b) n) (LAccept i b) c' (RLoop n)
  | r_accept_error c c' b n : AcceptHostKey b c = Done (false, c') ->
      rstep i c (RAccept (Some b) n) LTau c' (RReturn None)
  | r_message c n : (n < messages c)%nat -> rstep i c (RLoop n) LTau c (RLoop (S n))
  | r_no_message c n : (messages c <= n)%nat -> rstep i c (RLoop n) LTau c (RStatus n)
  | r_status c n : rstep i c (RStatus n) LTau c (RCheck (status c) n)
  | r_leaves c st n : leaves st c = true -> rstep i c (RCheck st n) LTau c RFinal
  | r_stays c st n : leaves st c = false -> rstep i c (RCheck st n) LTau c (RWait n)
  | r_final c : rstep i c RFinal LTau c (RReturn (Some (status c)))
  | r_wait_done c n : Done_ c = true -> rstep i c (RWait n) LTau c (RLoop n)
  | r_wait c n : Done_ c = false -> rstep i c (RWait n) LTau c (RAppend n)
  | r_append c n : rstep i c (RAppend n) LTau (set_waiting (waiting c ++ [Some i]) c) (RBlocked n)
  | r_woken c n : Some i ∉ waiting c -> rstep i c (RBlocked n) LTau c (RLoop n).

(** A new request makes the connector interactive. *)
Inductive step : sys -> label -> sys -> Prop :=
  | step_connect c p l c' p' rs : cstep c p l c' p' -> step (Sys c p rs) l (Sys c' p' rs)
  | step_request i c p l c' r r' rs : rs !! i = Some r -> rstep i c r l c' r' ->
      step (Sys c p rs) l (Sys c' p (<[i := r']> rs))
  | step_new i c p rs pass acc n : rs !! i = None ->
      step (Sys c p rs) (LRequest i)
        (Sys (set_interactive c) p (<[i := RSetPassphrase pass acc n]> rs)).

(** [GetConnector(interactive)] on a dialer with these addresses. *)
Definition init (inter : bool) (addresses : list SSHAddress) : sys :=
  Sys (Conn StatusNew "" inter None 0 [] false true) (CNext addresses) ∅.

(** The runs, with their labels, the last one first. *)
Inductive run (s0 : sys) : list label -> sys -> Prop :=
  | run_nil : run s0 [] s0
  | run_step tr s l s' : run s0 tr s -> step s l s' -> run s0 (l :: tr) s'.

(** * The state of the question for the host key *)

Definition asking (p : cpc) : bool := match p with CAsk _ _ => true | _ => false end.

(** The status says that there is a question exactly while [connect] waits for an
    answer that nobody gave yet. *)
Record question (s : sys) : Prop := {
  q_status : status (sh s) = UnknownHostKey <->
    asking (pc s) = true /\ pendingHostKey (sh s) = Some None;
  q_pending : asking (pc s) = true -> is_Some (pendingHostKey (sh s));
}.

Lemma SetPassphrase_run p c :
  SetPassphrase p c =
  if bool_decide (status c = NeedPassphrase) then
    Done (true, notifyWaitingLocked (set_status Handshake (set_passphrase p c)))
  else Done (false, c).
Proof. unfold SetPassphrase. autorewrite with run. by case_bool_decide. Qed.

Lemma AcceptHostKey_run b c :
  AcceptHostKey b c =
  if bool_decide (status c = UnknownHostKey) then
    match pendingHostKey c with
    | None => Fault Segv
    | Some (Some _) => Fault Blocks
    | Some None => Done (true, notifyWaitingLocked (set_pending (Some (Some b)) (set_status Handshake c)))
    end
  else Done (false, c).
Proof.
  unfold AcceptHostKey, send_decision. autorewrite with run. case_bool_decide; [|done].
  cbn [negb]. autorewrite with run. cbn. by destruct (pendingHostKey c) as [[]|].
Qed.

Lemma question_step s l s' : step s l s' -> question s -> question s'.
Proof.
  intros Hs [Hq Hp]. destruct Hs as [c p l c' p' rs Hc|i c p l c' r r' rs Hi Hr|i c p rs pass acc n Hi];
    cbn [sh pc] in *.
  - destruct Hc; try (match goal with b : bool |- _ => destruct b end);
      try case_bool_decide; split; cbn in *; try tauto;
      try (split; [congruence|intros []; congruence]); naive_solver.
  - destruct Hr; try by split.
    + rewrite SetPassphrase_run in *. case_bool_decide; simplify_eq; split; cbn in *; try done.
      rewrite <-Hq in *. split; [done|]. intros H'. congruence.
    + rewrite AcceptHostKey_run in *. case_bool_decide as Hst; [|done].
      destruct (proj1 Hq Hst) as [Ha Hpe]. rewrite Hpe in *. simplify_eq. split; cbn; [|by eauto].
      split; [done|intros []; congruence].
    + rewrite AcceptHostKey_run in *. case_bool_decide as Hst; [|by simplify_eq; split].
      destruct (proj1 Hq Hst) as [Ha Hpe]. by rewrite Hpe in *.
  - by split.
Qed.
