(* ===== verification/ConnectorProps.v ===== *)
(** The theorems on the state machine of [Connector]. *)

From stdpp Require Import base gmap list strings.
From Stdlib Require Import ZArith Lia Ascii.
From S2P Require Import Prelude Dialers Connector.

#[local] Open Scope string_scope.

(** * Host keys *)

(** The specification: what is known of the key of the host that [connect] talks to. *)
Inductive mon :=
  | MFresh
  | MTrusted (a : SSHAddress)
  | MAsked (a : SSHAddress)
  | MRefused (a : SSHAddress).

Definition mon_step (m : mon) (l : label) : option mon :=
  match l with
  | LTau | LRequest _ => Some m
  | LVerdict a Known _ => Some (MTrusted a)
  | LVerdict a Unknown true => Some (MAsked a)
  | LVerdict a _ _ => Some (MRefused a)
  | LAccept _ b =>
      match m with
      | MAsked a => Some (if b then MTrusted a else MRefused a)
      | _ => None
      end
  | LConnected a =>
      match m with
      | MTrusted a' => if bool_decide (a = a') then Some m else None
      | _ => None
      end
  end.

Fixpoint mon_run (tr : list label) : option mon :=
  match tr with
  | [] => Some MFresh
  | l :: tr => m ← mon_run tr; mon_step m l
  end.

(** What the place of [connect] says of the key. *)
Definition agrees (c : conn) (p : cpc) (m : mon) : Prop :=
  match p with
  | CShake a _ true | CPass a _ | CPassWait a _ | CPassBlocked a _ | CPassGot a _ => m = MTrusted a
  | CAsk a _ =>
      match pendingHostKey c with
      | Some None => m = MAsked a
      | Some (Some b) => m = if b then MTrusted a else MRefused a
      | None => False
      end
  | CAnswered a _ b => m = if b then MTrusted a else MRefused a
  | _ => True
  end.

Lemma agrees_step s l s' m :
  step s l s' -> question s -> agrees (sh s) (pc s) m ->
  exists m', mon_step m l = Some m' /\ agrees (sh s') (pc s') m'.
Proof.
  intros Hs [Hq Hp] Hm.
  destruct Hs as [c p l c' p' rs Hc|i c p l c' r r' rs Hi Hr|i c p rs pass acc n Hi]; cbn [sh pc] in *.
  - destruct Hc; cbn in *; try (eexists; split; [done|]; cbn in *; done).
    + eexists; split; [done|]. by rewrite H in Hm.
    + eexists. rewrite Hm, bool_decide_true by done. done.
  - destruct Hr; try (by exists m).
    + rewrite SetPassphrase_run in *. case_bool_decide; simplify_eq; exists m; (split; [done|]); by destruct p.
    + rewrite AcceptHostKey_run in *. case_bool_decide as Hst; [|done].
      destruct (proj1 Hq Hst) as [Ha Hpe]. rewrite Hpe in *. simplify_eq.
      destruct p; try done. cbn in Hm. rewrite Hpe in Hm. subst m. eexists. split; [done|].
      cbn. by destruct b.
    + rewrite AcceptHostKey_run in *. case_bool_decide as Hst; [|by simplify_eq; exists m].
      destruct (proj1 Hq Hst) as [Ha Hpe]. by rewrite Hpe in *.
  - exists m. split; [done|]. by destruct p.
Qed.

Lemma question_init inter addrs : question (init inter addrs).
Proof. split; cbn; [split; [done|by intros []]|done]. Qed.

Lemma run_question inter addrs tr s : run (init inter addrs) tr s -> question s.
Proof. induction 1; [apply question_init|by eapply question_step]. Qed.

Lemma run_agrees inter addrs tr s :
  run (init inter addrs) tr s -> exists m, mon_run tr = Some m /\ agrees (sh s) (pc s) m.
Proof.
  induction 1 as [|tr s l s' Hrun (m & Hm & Ha) Hs]; [by exists MFresh|].
  destruct (agrees_step s l s' m Hs) as (m' & Hm' & Ha'); [by eapply run_question|done|].
  exists m'. cbn. by rewrite Hm.
Qed.

(** * Results *)

(** There is a client exactly when [connect] has succeeded. *)
Definition outcome_ok (tr : list label) (s : sys) : Prop :=
  let c := sh s in
  (client c = true -> exists a, LConnected a ∈ tr) /\
  match pc s with
  | CGreeted => client c = false /\ (exists a, LConnected a ∈ tr) /\ Done_ c = false
  | CClient => client c = true /\ Done_ c = false
  | CDefer => (client c = true /\ status c = Succeeded) \/ (client c = false /\ Done_ c = false)
  | CDefer2 => (client c = true /\ status c = Succeeded) \/ (client c = false /\ status c = Failed)
  | CDefer3 | COver => ((client c = true /\ status c = Succeeded) \/ (client c = false /\ status c = Failed)) /\
      registered c = false
  | _ => client c = false /\ Done_ c = false
  end /\
  (forall i, reqs s !! i = Some (RReturn (Some Succeeded)) -> client c = true).

Lemma not_done c : Done_ c = false <-> status c <> Succeeded /\ status c <> Failed.
Proof. unfold Done_. rewrite orb_false_iff, !bool_decide_eq_false. done. Qed.

(** Requests change the status only from one that is not final to one that is not
    final, and never the client. *)
Lemma rstep_status i c r l c' r' :
  rstep i c r l c' r' ->
  client c' = client c /\ registered c' = registered c /\
  (status c' = status c \/
   (status c <> Succeeded /\ status c <> Failed /\ status c' <> Succeeded /\ status c' <> Failed)).
Proof.
  destruct 1; try (split_and!; [done..|by left]).
  - rewrite SetPassphrase_run in *. case_bool_decide as Hst; simplify_eq; cbn; [|by eauto].
    rewrite Hst. split_and!; [done..|by right].
  - rewrite AcceptHostKey_run in *. case_bool_decide as Hst; [|by simplify_eq].
    repeat case_match; simplify_eq. cbn. rewrite Hst. split_and!; [done..|by right].
  - rewrite AcceptHostKey_run in *. case_bool_decide as Hst; [|by simplify_eq; eauto].
    by repeat case_match.
Qed.

Lemma connected_cons l tr : (exists a, LConnected a ∈ tr) -> exists a, LConnected a ∈ l :: tr.
Proof. intros [a Ha]. exists a. by right. Qed.

Lemma outcome_request tr l i s c' r r' :
  reqs s !! i = Some r -> rstep i (sh s) r l c' r' -> outcome_ok tr s ->
  outcome_ok (l :: tr) (Sys c' (pc s) (<[i := r']> (reqs s))).
Proof.
  intros Hi Hr (H1 & H2 & H3). destruct (rstep_status _ _ _ _ _ _ Hr) as (Hcl & Hreg & Hst).
  unfold outcome_ok. cbn [sh pc reqs]. rewrite Hcl. split_and!.
  - intros Hc. by apply connected_cons, H1.
  - assert (Done_ c' = Done_ (sh s)) as ->.
    { unfold Done_. destruct Hst as [-> | (Ha & Hb & Hc & Hd)]; [done|].
      by rewrite !bool_decide_false. }
    assert (status (sh s) = Succeeded -> status c' = Succeeded) as Hs by (clear -Hst; intuition congruence).
    assert (status (sh s) = Failed -> status c' = Failed) as Hf by (clear -Hst; intuition congruence).
    rewrite Hreg. destruct (pc s); try done; try (clear -H2 Hs Hf; tauto).
    destruct H2 as (? & ? & ?). split_and!; [done|by apply connected_cons|done].
  - intros j. destruct (decide (i = j)) as [<-|Hne].
    + rewrite lookup_insert_eq. intros [= ->]. inversion Hr; subst.
      match goal with H : status (sh s) = Succeeded |- _ => rename H into Hsu end.
      destruct (pc s); rewrite ?not_done in H2; clear -H2 Hsu; intuition congruence.
    + rewrite lookup_insert_ne by done. by apply H3.
Qed.

Lemma outcome_step tr s l s' : step s l s' -> outcome_ok tr s -> outcome_ok (l :: tr) s'.
Proof.
  intros Hs Hok. destruct Hs as [c p l c' p' rs Hc|i c p l c' r r' rs Hi Hr|i c p rs pass acc n Hi].
  - destruct Hok as (H1 & H2 & H3). unfold outcome_ok. cbn [sh pc reqs] in *. split_and!.
    + destruct Hc; cbn in *; try (intros Hcl; destruct (H1 Hcl) as [a' Ha]; exists a'; set_solver);
        try (exists a; set_solver).
      all: repeat case_match; cbn; intros Hcl; try destruct H2 as (_ & [a' Ha] & _);
        try destruct (H1 Hcl) as [a' Ha]; exists a'; set_solver.
    + destruct Hc; cbn in *; rewrite ?not_done in *; cbn in *; try tauto;
        try (split_and!; [tauto|done..]); try (repeat case_match; cbn in *; tauto).
      * split_and!; [tauto| |tauto|tauto]. exists a. by left.
      * case_bool_decide; cbn; tauto.
    + intros i Hi. specialize (H3 i Hi). destruct Hc; cbn; try done; by repeat case_match.
  - by eapply outcome_request in Hok.
  - destruct Hok as (H1 & H2 & H3). unfold outcome_ok. cbn [sh pc reqs set_interactive] in *. split_and!.
    + intros Hcl. destruct (H1 Hcl) as [a Ha]. exists a. set_solver.
    + destruct p; try done. destruct H2 as (? & [a Ha] & ?). split_and!; [done| |done]. exists a. set_solver.
    + intros j. destruct (decide (i = j)) as [<-|Hne]; [by rewrite lookup_insert_eq|].
      rewrite lookup_insert_ne by done. apply H3.
Qed.

Lemma run_outcome inter addrs tr s : run (init inter addrs) tr s -> outcome_ok tr s.
Proof. induction 1; [by split_and!|by eapply outcome_step]. Qed.

(** * The properties *)

(** C5: a connection is made only with a host whose key is in [known_hosts], or is
    not there, the connector being interactive, and the user has accepted it. In
    every interleaving of [connect] with the requests, what happens to host keys is
    allowed by the monitor: an answer counts only while a question is open, once,
    for the host that is asked for then; a key that differs from the known one is refused until the next handshake, also
    when the connector is interactive. *)
Theorem host_keys_checked (inter : bool) (addrs : list SSHAddress) (tr : list label) (s : sys)
    (Hrun : run (init inter addrs) tr s) :
  is_Some (mon_run tr) /\ (client (sh s) = true -> exists a, LConnected a ∈ tr).
Proof.
  destruct (run_agrees inter addrs tr s Hrun) as (m & -> & _). split; [by eexists|].
  apply (run_outcome inter addrs tr s Hrun).
Qed.

(** C18: in every reachable state an answer to the question for a host key neither
    dereferences a nil [pendingHostKey] nor blocks at the channel: it is taken when
    [connect] waits for one, and then the question is closed; else the status is
    not the one of a question, and it is an error that changes nothing. *)
Theorem answers_taken (inter : bool) (addrs : list SSHAddress) (tr : list label) (s : sys)
    (Hrun : run (init inter addrs) tr s) (b : bool) :
  AcceptHostKey b (sh s) =
  if asking (pc s) && bool_decide (pendingHostKey (sh s) = Some None) then
    Done (true, notifyWaitingLocked (set_pending (Some (Some b)) (set_status Handshake (sh s))))
  else Done (false, sh s).
Proof.
  destruct (run_question _ _ _ _ Hrun) as [Hq _]. rewrite AcceptHostKey_run. case_bool_decide as Hst.
  - destruct (proj1 Hq Hst) as [-> Hp]. rewrite Hp. by rewrite bool_decide_true.
  - destruct (asking (pc s)); cbn; [|done]. by rewrite bool_decide_false by naive_solver.
Qed.

(** C19: when [connect] is over, the connector is no longer registered, and the
    status is the one of success when there is a client and the one of failure when
    there is none; a request that is told of success is told the truth; and neither
    a passphrase nor an answer changes the status any more. *)
Theorem outcome_reported (inter : bool) (addrs : list SSHAddress) (tr : list label) (s : sys)
    (Hrun : run (init inter addrs) tr s) :
  (pc s = COver ->
     registered (sh s) = false /\
     status (sh s) = (if client (sh s) then Succeeded else Failed) /\
     forall p b, SetPassphrase p (sh s) = Done (false, sh s) /\ AcceptHostKey b (sh s) = Done (false, sh s)) /\
  (forall i, reqs s !! i = Some (RReturn (Some Succeeded)) -> client (sh s) = true).
Proof.
  destruct (run_outcome _ _ _ _ Hrun) as (_ & H2 & H3). split; [|done].
  intros Hpc. rewrite Hpc in H2. destruct H2 as [Hst Hreg]. split; [done|].
  assert (status (sh s) = if client (sh s) then Succeeded else Failed) as Hs
    by (destruct Hst as [[-> ->] | [-> ->]]; done).
  split; [done|]. intros p b. rewrite SetPassphrase_run, AcceptHostKey_run.
  by rewrite !bool_decide_false by (rewrite Hs; by destruct (client (sh s))).
Qed.

(** * Runs *)

(** [forth H t]: the run [H] goes on with a step of [connect] by the rule [t], or
    with one of request [i]. *)
Ltac forth H t := eapply run_step in H; [|apply step_connect; apply t; done].
Ltac forth_req H i t :=
  eapply run_step in H; [|eapply (step_request i); [reflexivity|eapply t; first [done | reflexivity | by apply Nat.ltb_lt | by apply Nat.leb_le]]].
Ltac forth_new H i pass acc n := eapply run_step in H; [|apply (step_new i _ _ _ pass acc n); reflexivity].

Section Runs.
Context (a : SSHAddress) (inter : bool).

(** A request has come, and [connect] is in the handshake with the host. *)
Lemma run_handshake :
  exists tr, run (init inter [a]) tr
    (Sys (Conn Handshake "" true None 1 [] false true) (CShake a [] false) {[O := RLoop O]}).
Proof.
  pose proof (run_nil (init inter [a])) as H. forth_new H O "" (@None bool) O.
  forth_req H O r_no_pass. forth_req H O r_no_accept.
  forth H c_next. forth H c_try. forth H c_dial. eexists. exact H.
Qed.

(** The host is unknown, the user accepts its key, and the connection is made. *)
Lemma run_accepted :
  exists tr s, run (init inter [a]) tr s /\ pc s = COver /\ client (sh s) = true /\
    reqs s !! 1%nat = Some (RReturn (Some Succeeded)).
Proof.
  destruct run_handshake as [tr H]. forth H c_ask. forth_new H 1%nat "" (Some true) O.
  forth_req H 1%nat r_no_pass. forth_req H 1%nat r_accept.
  forth H c_answer. forth H (fun c a rest => c_accepted c a rest true). forth H c_succeeds. forth H c_client.
  forth H c_succeeded. forth H c_defer. forth H c_defer2. forth H c_defer3.
  forth_req H 1%nat r_message. forth_req H 1%nat r_message. forth_req H 1%nat r_message.
  forth_req H 1%nat r_message. forth_req H 1%nat r_no_message. forth_req H 1%nat r_status. forth_req H 1%nat r_leaves.
  forth_req H 1%nat r_final.
  do 2 eexists. split; [exact H|]. split_and!; reflexivity.
Qed.

(** The host is unknown and asks; nobody has answered. *)
Lemma run_asked :
  exists tr s, run (init inter [a]) tr s /\ asking (pc s) = true /\ pendingHostKey (sh s) = Some None.
Proof. destruct run_handshake as [tr H]. forth H c_ask. do 2 eexists. by split. Qed.

(** The goroutine and the request wait for a notification. *)
Lemma passphrase_stuck c l s' :
  waiting c = [Some O; None] ->
  step (Sys c (CPassBlocked a []) {[O := RBlocked 1]}) l s' -> exists i, l = LRequest i.
Proof.
  intros Hw Hs. inversion Hs as [? ? ? ? ? ? Hc|i ? ? ? ? r ? ? Hi Hr|i]; subst; [| |by exists i].
  - exfalso. inversion Hc; subst. rewrite Hw in *. set_solver.
  - exfalso. apply lookup_singleton_Some in Hi as [<- <-]. inversion Hr; subst. rewrite Hw in *. set_solver.
Qed.

(** A request can miss that a passphrase is needed. The status is set without a
    notification: a request that has seen the handshake and waits for news, and
    [connect] which waits for the passphrase, wait for ever, though the status is one
    at which the request would return and the user be asked. Nothing but another
    request can go on. *)
Theorem passphrase_deadlock :
  exists tr s, run (init inter [a]) tr s /\
    status (sh s) = NeedPassphrase /\ reqs s = {[O := RBlocked 1]} /\ pc s = CPassBlocked a [] /\
    forall l s', step s l s' -> exists i, l = LRequest i.
Proof.
  destruct run_handshake as [tr H].
  forth_req H O r_message. forth_req H O r_no_message. forth_req H O r_status. forth_req H O r_stays.
  forth_req H O r_wait.
  forth_req H O r_append. forth H c_known. forth H c_password. forth H c_pass_none. forth H c_pass_append.
  do 2 eexists. split; [exact H|]. split; [done|]. split; [reflexivity|]. split; [done|].
  intros l s' Hs. eapply passphrase_stuck; [|exact Hs]. reflexivity.
Qed.
End Runs.

Lemma host_keys_checked_witness :
  exists tr s, run (init false [mkSSHAddress "me" "host:22"]) tr s /\ is_Some (mon_run tr) /\
    exists a, LConnected a ∈ tr.
Proof.
  destruct (run_accepted (mkSSHAddress "me" "host:22") false) as (tr & s & Hrun & _ & Hc & _).
  destruct (host_keys_checked _ _ _ _ Hrun) as [Hm Hex]. exists tr, s. split_and!; [done|done|]. by apply Hex.
Defined.

Lemma answers_taken_witness :
  exists tr s c, run (init false [mkSSHAddress "me" "host:22"]) tr s /\
    AcceptHostKey true (sh s) = Done (true, c) /\ pendingHostKey c = Some (Some true).
Proof.
  destruct (run_asked (mkSSHAddress "me" "host:22") false) as (tr & s & Hrun & Ha & Hp).
  pose proof (answers_taken _ _ _ _ Hrun true) as H. rewrite Ha, bool_decide_true in H by done.
  do 3 eexists. split; [exact Hrun|]. split; [exact H|done].
Defined.

Lemma outcome_reported_witness :
  exists tr s, run (init false [mkSSHAddress "me" "host:22"]) tr s /\ pc s = COver /\
    status (sh s) = Succeeded.
Proof.
  destruct (run_accepted (mkSSHAddress "me" "host:22") false) as (tr & s & Hrun & Hp & Hc & _).
  destruct (outcome_reported _ _ _ _ Hrun) as [H _]. destruct (H Hp) as (_ & Hs & _).
  rewrite Hc in Hs. by exists tr, s.
Defined.
