(* ===== verification/SshDialer.v ===== *)
(** [SSHDialer.Dial], [Connect] and [GetConnector] of [dialer/sshdialer.go], with the
    lock they share. Calls run one after the other, as far as they come: a call that
    has to wait for ever ends with [Blocks], and the others go on in the state it
    leaves. What the remote side does is an argument of the calls. *)

From stdpp Require Import base list strings.
From Stdlib Require Import ZArith Lia.
From S2P Require Import Prelude Dialers.

#[local] Open Scope nat_scope.

(** [readers] counts the read locks that are held, [writer] tells that a goroutine
    waits for the write lock, which makes later readers wait too. Clients have
    numbers; the connector is nil, or there, interactive or not. *)
Record dst := Dst {
  readers : nat;
  writer : bool;
  client : option nat;
  sshConnector : option bool;
  fresh : nat;
}.

Definition set_readers f s := Dst (f (readers s)) (writer s) (client s) (sshConnector s) (fresh s).
Definition set_writer s := Dst (readers s) true (client s) (sshConnector s) (fresh s).
Definition set_client v s := Dst (readers s) (writer s) v (sshConnector s) (fresh s).
Definition set_connector v s := Dst (readers s) (writer s) (client s) v (fresh s).

Definition RLock : G dst unit :=
  w ← gget writer;
  if (w : bool) then gpanic Blocks else gset (set_readers S).
Definition RUnlock : G dst unit := gset (set_readers pred).
Definition Lock : G dst unit :=
  w ← gget writer;
  n ← gget readers;
  if (w : bool) || negb (n =? 0) then gset set_writer;; gpanic Blocks else mret tt.
(** Nobody else can be there while the write lock is held. *)
Definition Unlock : G dst unit := mret tt.

(** What [ssh.Client.Dial] gives: a connection, [OpenChannelError], another error. *)
Inductive answer := Opened | OpenChannelError | Broken.

(** The end of the goroutine that [GetConnector] started. *)
Definition finish (ok : bool) : G dst unit :=
  gset (fun s => Dst (readers s) (writer s) (if ok then Some (fresh s) else client s) None
    (if ok then S (fresh s) else fresh s)).

Definition GetConnector (inter : bool) : G dst unit :=
  RLock;;
  c ← gget sshConnector;
  match (c : option bool) with
  | Some i => gset (set_connector (Some (i || inter)))
  | None =>
      RUnlock;;
      Lock;;
      gset (set_connector (Some inter));;
      Unlock
  end.

(** The client and the error; [err] of a connector is never set. The connector that
    the call waits for ends with [ok]. *)
Definition Connect (ok : bool) : G dst (option nat * bool) :=
  RLock;;
  c ← gget client;
  match (c : option nat) with
  | Some n => mret (Some n, false)
  | None =>
      RUnlock;;
      GetConnector false;;
      finish ok;;
      c ← gget client;
      mret (c, false)
  end.

(** [client.Dial] of a client that is nil dereferences it. *)
Definition client_Dial (c : option nat) (r : answer) : G dst answer :=
  match c with None => gpanic Segv | Some _ => mret r end.

(** [Dial]; [r1] and [r2] are the answers of the client that is there and of the one
    after [Connect]. *)
Definition Dial (r1 : answer) (ok : bool) (r2 : answer) : G dst answer :=
  RLock;;
  c ← gget client;
  RUnlock;;
  let reconnect :=
    '(c, err) ← Connect ok;
    if (err : bool) then mret Broken else client_Dial c r2 in
  match (c : option nat) with
  | None => reconnect
  | Some n =>
      match r1 with
      | Opened => mret Opened
      | OpenChannelError => mret OpenChannelError
      | Broken => Lock;; gset (set_client None);; Unlock;; reconnect
      end
  end.

Inductive event := EvDial (r1 : answer) (ok : bool) (r2 : answer) | EvGetConnector | EvFinish (ok : bool).

(** [Server.Connect] asks for an interactive connector; a connector ends only when
    there is one. *)
Definition happens (e : event) (s : dst) : dst :=
  match e with
  | EvDial r1 ok r2 => (Dial r1 ok r2 s).2
  | EvGetConnector => (GetConnector true s).2
  | EvFinish ok => match sshConnector s with Some _ => (finish ok s).2 | None => s end
  end.
Definition happen (es : list event) (s : dst) : dst := fold_left (fun s e => happens e s) es s.

Definition start : dst := Dst 0 false None None 0.

(** * Facts *)

Ltac go := unfold mbind, G_bind, gget, gset, gpanic, mret, G_ret.

(** A read lock that was not given back stays. *)
Lemma GetConnector_readers inter s : readers s <= readers (GetConnector inter s).2.
Proof. destruct s as [[|n] [] c [i|] f]; cbv; lia. Qed.

Lemma Dial_readers r1 ok r2 s : readers s <= readers (Dial r1 ok r2 s).2.
Proof. destruct s as [[|n] [] [c|] [i|] f], r1, ok; cbv; lia. Qed.

Lemma happen_readers es s : readers s <= readers (happen es s).
Proof.
  revert s. induction es as [|e es IH]; intros s; [done|].
  etransitivity; [|apply IH]. destruct e; cbn.
  - apply Dial_readers.
  - apply GetConnector_readers.
  - by destruct (sshConnector s).
Qed.

(** A writer that waits stops everybody. *)
Lemma writer_blocks s r1 ok r2 inter :
  writer s = true ->
  Dial r1 ok r2 s = (Fault Blocks, s) /\ GetConnector inter s = (Fault Blocks, s).
Proof.
  intros Hw. unfold Dial, GetConnector, RLock. go. by rewrite Hw.
Qed.

(** * The properties *)

(** C14: a dial through the tunnel, the lock being free. A client that opens the
    connection is asked alone; when the destination refuses, the error is given
    back and the client kept; when the tunnel is broken or there is none, a new
    client is asked for and the destination dialled again. When no client can be
    made, [Connect] returns neither a client nor an error, and the nil client is
    dereferenced. A read lock is left behind when [connect] was running already. *)
Theorem Dial_spec (r1 r2 : answer) (ok : bool) (c : option nat) (k : option bool) (f : nat) :
  Dial r1 ok r2 (Dst 0 false c k f) =
  match c, r1 with
  | Some n, Opened => (Done Opened, Dst 0 false (Some n) k f)
  | Some n, OpenChannelError => (Done OpenChannelError, Dst 0 false (Some n) k f)
  | _, _ =>
      let leaked := match k with Some _ => 1 | None => 0 end in
      if ok then (Done r2, Dst leaked false (Some f) None (S f))
      else (Fault Segv, Dst leaked false None None f)
  end.
Proof. by destruct c, r1, k as [[]|], ok. Qed.

(** A lock that is held by a reader that never gives it back. *)
Lemma leaked_blocks s inter :
  0 < readers s -> sshConnector s = None ->
  (GetConnector inter s).1 = Fault Blocks /\
  forall r1 ok r2 inter', let s' := (GetConnector inter s).2 in
    (Dial r1 ok r2 s').1 = Fault Blocks /\ (GetConnector inter' s').1 = Fault Blocks.
Proof.
  destruct s as [[|n] w c k f]; cbn [readers sshConnector]; [lia|]. intros _ ->.
  destruct w; [split; [done|]; intros; split; reflexivity|].
  assert (GetConnector inter (Dst (S n) false c None f) = (Fault Blocks, Dst (S n) true c None f)) as ->
    by reflexivity.
  split; [done|]. intros r1 ok r2 inter'. cbn [snd].
  destruct (writer_blocks (Dst (S n) true c None f) r1 ok r2 inter' eq_refl) as [-> ->]. done.
Qed.

(** C31: two requests for a connector while it is connecting leave a read lock
    behind for ever, whatever happens then. From then on, once that connector is
    gone, the next request for one waits for ever, and with it every dial and every
    request after it; so does a dial that finds the tunnel broken. *)
Theorem lock_leak (es : list event) (s : dst)
    (Hs : s = happen es (happen [EvGetConnector; EvGetConnector] start)) :
  0 < readers s /\
  (sshConnector s = None -> forall inter,
     (GetConnector inter s).1 = Fault Blocks /\
     forall r1 ok r2 inter', let s' := (GetConnector inter s).2 in
       (Dial r1 ok r2 s').1 = Fault Blocks /\ (GetConnector inter' s').1 = Fault Blocks) /\
  (forall n ok r2, client s = Some n -> (Dial Broken ok r2 s).1 = Fault Blocks).
Proof.
  assert (0 < readers s) as Hr.
  { subst s. pose proof (happen_readers es (happen [EvGetConnector; EvGetConnector] start)) as H.
    change (readers (happen [EvGetConnector; EvGetConnector] start)) with 1 in H. lia. }
  clear Hs. split; [done|]. split.
  - intros Hc inter. by apply leaked_blocks.
  - intros n ok r2 Hc. destruct s as [[|m] [] c k f]; cbn in *; subst; [lia|lia|done|done].
Qed.

Lemma lock_leak_witness :
  let s := happen [EvFinish true] (happen [EvGetConnector; EvGetConnector] start) in
  client s = Some 0 /\ (Dial Opened true Opened s).1 = Done Opened /\
  (GetConnector true s).1 = Fault Blocks /\ (Dial Broken true Opened s).1 = Fault Blocks.
Proof.
  intros s. destruct (lock_leak [EvFinish true] s eq_refl) as (_ & H1 & H2).
  destruct (H1 eq_refl true) as [H3 _]. specialize (H2 0 true Opened eq_refl).
  split; [reflexivity|]. split; [reflexivity|]. by split.
Defined.
