(* ===== verification/OriginalDst.v ===== *)
(** [originaldest]: the address a redirected connection was meant for. On Linux it
    comes from a socket option; on Darwin from the packet filter, by a request whose
    structure is the one of [Pfvar]. The connections and files that are open are
    kept, the results of the system are arguments. *)

From stdpp Require Import base list strings pretty.
From Stdlib Require Import ZArith Lia.
From S2P Require Import Prelude Decimal CLayout Pfvar NetIP NetProps PfProps.

#[local] Open Scope string_scope.
#[local] Open Scope Z_scope.

(** * Linux: [originaldest_linux.go] *)

(** What is open: the connection that was accepted, its duplicate as a file, and the
    connection made from that. *)
Inductive handle := Accepted | Duplicate | NewConn.

#[export] Instance handle_eq_dec : EqDecision handle.
Proof. solve_decision. Defined.

(** The connection may be nil or have no file; [File] can fail; the sixteen bytes of
    the option [SO_ORIGINAL_DST]; [FileConn], which tells whether it gave a TCP
    connection. *)
Record linux_env := LinuxEnv {
  conn_nil : bool;
  fd_nil : bool;
  file_ok : bool;
  sockopt : option (list Z);
  file_conn : option bool;
}.

Definition byte_of (b : list Z) (i : nat) : Z := nth i b 0.

(** The address and port, [None] for an error, with what is open in the end. *)
Definition GetOriginalDst_linux (e : linux_env) : option (string * Z) * list handle :=
  if conn_nil e then (None, [])
  else if fd_nil e then (None, [Accepted])
  else if negb (file_ok e) then (None, [Accepted])
  else
    match sockopt e with
    | None => (None, [Duplicate])
    | Some m =>
        match file_conn e with
        | None => (None, [Duplicate])
        | Some false => (None, [Duplicate; NewConn])
        | Some true =>
            let ipv4 := pretty (byte_of m 4) ++ "." ++ pretty (byte_of m 5) ++ "." ++
              pretty (byte_of m 6) ++ "." ++ pretty (byte_of m 7) in
            let port := (Z.shiftl (byte_of m 2) 8 + byte_of m 3) mod 2 ^ 16 in
            (Some (ipv4, port), [NewConn])
        end
    end.

(** The address that [handleConnection] of [transparentproxy.go] dials. *)
Definition remoteAddr (ip : string) (port : Z) : string := ip ++ ":" ++ pretty port.

(** * Darwin: [originaldest_darwin.go] *)

Section Darwin.
Context (sys : sysdefs) (a : abi).

Definition AF_INET : Z := 2.
Definition IPPROTO_TCP : Z := 6.

(** [copy(dst, src)] for the [n] bytes of the buffer from [off] on. *)
Definition copy_to (off n : Z) (src buf : list Z) : list Z :=
  let k := Nat.min (Z.to_nat n) (length src) in
  take (Z.to_nat off) buf ++ take k src ++ drop (Z.to_nat off + k) buf.

Definition member (path : list string) : option Z := fst <$> offsetof a (pfioc_natlook sys) path.

(** [binary.BigEndian.PutUint16(b, uint16(port))]. *)
Definition port_bytes (port : Z) : list Z := [Z.shiftr (port mod 2 ^ 16) 8; Z.land port 255].

(** The request for a connection from a client to a local address. *)
Definition natlook_request (client_ip : IP) (client_port : Z) (local_ip : IP) (local_port : Z)
    : option (list Z) :=
  direction ← member ["direction"];
  af ← member ["af"];
  proto ← member ["proto"];
  saddr ← member ["saddr"; "pfa"];
  sxport ← member ["sxport"];
  daddr ← member ["daddr"; "pfa"];
  dxport ← member ["dxport"];
  let buf := replicate (Z.to_nat (sizeof a (pfioc_natlook sys))) 0 in
  let buf := copy_to direction 1 [PF_OUT] buf in
  let buf := copy_to af 1 [AF_INET] buf in
  let buf := copy_to proto 1 [IPPROTO_TCP] buf in
  let buf := copy_to saddr 4 client_ip buf in
  let buf := copy_to sxport 4 (port_bytes client_port) buf in
  let buf := copy_to daddr 4 local_ip buf in
  Some (copy_to dxport 4 (port_bytes local_port) buf).

(** [ioctl] gets the number and the buffer; [None] for an error. The answer is only
    printed. *)
Definition GetOriginalDst_darwin (opened : bool) (ioctl : Z -> list Z -> option (list Z))
    (client_ip : IP) (client_port : Z) (local_ip : IP) (local_port : Z) : option (string * Z * bool) :=
  if negb opened then Some ("", 0, false)
  else
    req ← natlook_request client_ip client_port local_ip local_port;
    match ioctl (DIOCNATLOOK sys a) req with
    | None => Some ("", 0, false)
    | Some _ => Some ("", 0, true)
    end.
End Darwin.

(** * The properties *)

(** C37: on Linux the original destination is what the kernel says: from the bytes of
    a [sockaddr_in], with address [b] and a port in network order, come the dotted
    address and the port, which [ParseAddr] reads back, and only the new connection
    is open; an error after the connection was duplicated leaves the duplicate open.
    On Darwin the request is the [pfioc_natlook] of the packet filter in 84 bytes,
    with its number: the address of the client as the source, the local one as the
    destination, both of IPv4 in four bytes. But the answer is thrown away: the destination is always the empty
    address and port 0, without an error exactly when the device can be opened and the
    lookup of this request succeeds. *)
Theorem original_destination (sys : sysdefs) (a : abi) (Hsys : Darwin sys) (Ha : a ∈ data_models)
    (b c : list Z) (hi lo : Z) (rest : list Z)
    (Hb : length b = 4%nat /\ Forall is_byte b) (Hc : length c = 4%nat /\ Forall is_byte c)
    (Hp : is_byte hi /\ is_byte lo) :
  (exists ip, GetOriginalDst_linux
     (LinuxEnv false false true (Some ([2; 0; hi; lo] ++ b ++ rest)%list) (Some true))
     = (Some (ip, hi * 256 + lo), [NewConn]) /\ ip = dotted b /\ ParseAddr ip = Some (Addr4 b)) /\
  (forall e, conn_nil e = false -> fd_nil e = false -> file_ok e = true ->
     (GetOriginalDst_linux e).1 = None -> Duplicate ∈ (GetOriginalDst_linux e).2) /\
  DIOCNATLOOK sys a = 0xC0544417 /\
  (forall client_port local_port, exists req,
     natlook_request sys a c client_port b local_port = Some req /\
     req = (c ++ replicate 12 0 ++ b ++ replicate 12 0 ++ replicate 32 0 ++
       port_bytes client_port ++ [0; 0] ++ port_bytes local_port ++ replicate 10 0 ++
       [AF_INET; IPPROTO_TCP; 0; PF_OUT])%list /\
     forall opened ioctl,
       GetOriginalDst_darwin sys a opened ioctl c client_port b local_port =
         Some ("", 0, opened && bool_decide (is_Some (ioctl 0xC0544417 req)))).
Proof.
  apply darwin_unique in Hsys as ->. destruct Hb as [Hl Hb], Hc as [Hlc _].
  assert (DIOCNATLOOK darwin a = 0xC0544417) as Hnum.
  { revert Ha. unfold data_models. rewrite !elem_of_cons, elem_of_nil. intros Ha.
    destruct_or! Ha; [..|done]; subst a; reflexivity. }
  assert (forall p q, natlook_request darwin a c p b q =
     Some (c ++ replicate 12 0 ++ b ++ replicate 12 0 ++ replicate 32 0 ++
       port_bytes p ++ [0; 0] ++ port_bytes q ++ replicate 10 0 ++
       [AF_INET; IPPROTO_TCP; 0; PF_OUT])%list) as Hreq.
  { destruct b as [|? [|? [|? [|? []]]]]; try discriminate Hl.
    destruct c as [|? [|? [|? [|? []]]]]; try discriminate Hlc. reflexivity. }
  split_and!.
  - clear Hreq Hnum. exists (dotted b). destruct b as [|x1 [|x2 [|x3 [|x4 []]]]]; try discriminate Hl. split_and!; [|done|by apply ParseAddr_dotted].
    unfold GetOriginalDst_linux. cbn [conn_nil fd_nil file_ok negb sockopt file_conn app byte_of nth].
    rewrite Z.shiftl_mul_pow2, Z.mod_small by (unfold is_byte in *; lia). done.
  - clear Hreq. intros e H1 H2 H3. unfold GetOriginalDst_linux. rewrite H1, H2, H3. cbn [negb].
    destruct (sockopt e); [|by left]. by destruct (file_conn e) as [[]|]; [|left|left].
  - exact Hnum.
  - intros p q. eexists. split; [apply Hreq|]. split; [reflexivity|]. intros opened ioctl.
    unfold GetOriginalDst_darwin. destruct opened; cbn [negb andb]; [|done]. rewrite Hreq, Hnum. cbn [mbind option_bind].
    match goal with |- context [ioctl ?x ?y] => destruct (ioctl x y) as [ans|] end.
    + by rewrite bool_decide_true by eauto.
    + by rewrite bool_decide_false by (by intros []).
Qed.

Lemma original_destination_witness :
  (exists ip, GetOriginalDst_linux
     (LinuxEnv false false true (Some ([2; 0; 31; 144] ++ [206; 190; 36; 45] ++ replicate 8 0)%list) (Some true))
     = (Some (ip, 8080), [NewConn]) /\ ip = "206.190.36.45").
Proof.
  destruct (original_destination darwin LP64 darwin_ok ltac:(by_compute) [206; 190; 36; 45] [10; 0; 0; 1] 31 144 (replicate 8 0)) as ((ip & H & -> & _) & _).
  - split; [done|]. repeat constructor; by compute.
  - split; [done|]. repeat constructor; by compute.
  - by split; compute.
  - exists (dotted [206; 190; 36; 45]). split; [exact H|reflexivity].
Defined.
