(* ===== verification/Radix.v ===== *)
(** [originaldest/darwin/include/net/radix.h]: the structures of the radix trees, and
    the list of free masks that [MKGet] and [MKFree] keep. The functions the header
    declares are not in the repository. *)

From stdpp Require Import base gmap list strings.
From Stdlib Require Import ZArith Lia.
From S2P Require Import Prelude CLayout.


(** * The structures

    [caddr_t] and the pointers to functions are pointers; [u_char] is a byte. *)

Section Structures.
Open Scope string_scope.
Context (a : abi).

(** [__arm__ && (__BIGGEST_ALIGNMENT__ > 4)]. *)
Definition arm_aligned : Z := if bool_decide (a = ILP32_arm) then 8 else 0.

Definition radix_node : ctype :=
  TAgg Struct false arm_aligned
  [fld "rn_mklist" TPtr;
   fld "rn_parent" TPtr;
   fld "rn_bit" (TInt 2);
   fld "rn_bmask" (TInt 1);
   fld "rn_flags" (TInt 1);
   fld "rn_u" (union
     [fld "rn_leaf" (struct [fld "rn_Key" TPtr; fld "rn_Mask" TPtr; fld "rn_Dupedkey" TPtr]);
      fld "rn_node" (struct [fld "rn_Off" (TInt 4); fld "rn_L" TPtr; fld "rn_R" TPtr])])].

(** [rn_dupedkey], [rn_key], [rn_mask], [rn_offset], [rn_left] and [rn_right]. *)
Definition rn_macros : list (string * list string) :=
  [("rn_dupedkey", ["rn_u"; "rn_leaf"; "rn_Dupedkey"]); ("rn_key", ["rn_u"; "rn_leaf"; "rn_Key"]);
   ("rn_mask", ["rn_u"; "rn_leaf"; "rn_Mask"]); ("rn_offset", ["rn_u"; "rn_node"; "rn_Off"]);
   ("rn_left", ["rn_u"; "rn_node"; "rn_L"]); ("rn_right", ["rn_u"; "rn_node"; "rn_R"])].

(** [rm_mask] and [rm_leaf]. *)
Definition rm_macros : list (string * list string) :=
  [("rm_mask", ["rm_rmu"; "rmu_mask"]); ("rm_leaf", ["rm_rmu"; "rmu_leaf"])].

Definition radix_mask : ctype :=
  struct
  [fld "rm_bit" (TInt 2);
   fld "rm_unused" (TInt 1);
   fld "rm_flags" (TInt 1);
   fld "rm_mklist" TPtr;
   fld "rm_rmu" (union [fld "rmu_mask" TPtr; fld "rmu_leaf" TPtr]);
   fld "rm_refs" (TInt 4)].

Definition radix_node_head : ctype :=
  struct
  [fld "rnh_treetop" TPtr;
   fld "rnh_addrsize" (TInt 4);
   fld "rnh_pktsize" (TInt 4);
   fld "rnh_addaddr" TPtr;
   fld "rnh_addpkt" TPtr;
   fld "rnh_deladdr" TPtr;
   fld "rnh_delpkt" TPtr;
   fld "rnh_matchaddr" TPtr;
   fld "rnh_matchaddr_args" TPtr;
   fld "rnh_lookup" TPtr;
   fld "rnh_lookup_args" TPtr;
   fld "rnh_matchpkt" TPtr;
   fld "rnh_walktree" TPtr;
   fld "rnh_walktree_from" TPtr;
   fld "rnh_close" TPtr;
   fld "rnh_nodes" (TArr radix_node 3);
   fld "rnh_cnt" (TInt 4)].
End Structures.

Definition RNF_NORMAL : Z := 1.
Definition RNF_ROOT : Z := 2.
Definition RNF_ACTIVE : Z := 4.

(** * The list of free masks *)

(** A [struct radix_mask] in memory; [rmu] is the member of the union. *)
Record mask := Mask { rm_bit : Z; rm_flags : Z; rm_mklist : Z; rmu : Z; rm_refs : Z }.
Record mkmem := MkMem { rn_mkfreelist : Z; mk_store : gmap Z mask }.

Definition set_mklist (v : Z) (m : mask) : mask :=
  Mask (rm_bit m) (rm_flags m) v (rmu m) (rm_refs m).

Definition mk_load (m : Z) : M mkmem mask := fun s =>
  match mk_store s !! m with Some x => Done (x, s) | None => Fault Segv end.
Definition mk_store_at (m : Z) (x : mask) : M mkmem unit :=
  mk_load m;; modify (fun s => MkMem (rn_mkfreelist s) (<[m := x]> (mk_store s))).

Section Masks.
(** [malloc(n)] when the objects of a memory are live, and what a new object
    holds. *)
Context (malloc : gmap Z mask -> Z -> Z) (fresh : mask) (a : abi).

(** [R_Malloc(p, t, n)] for a mask. *)
Definition R_Malloc : M mkmem Z := fun s =>
  let p := malloc (mk_store s) (sizeof a radix_mask mod 2 ^ 32) in
  if p =? NULL then Done (NULL, s)
  else Done (p, MkMem (rn_mkfreelist s) (<[p := fresh]> (mk_store s))).

Definition MKGet : M mkmem Z :=
  l ← gets rn_mkfreelist;
  if negb (l =? NULL) then
    m ← gets rn_mkfreelist;
    x ← mk_load m;
    modify (fun s => MkMem (rm_mklist x) (mk_store s));;
    mret m
  else R_Malloc.

Definition MKFree (m : Z) : M mkmem unit :=
  l ← gets rn_mkfreelist;
  x ← mk_load m;
  mk_store_at m (set_mklist l x);;
  modify (fun s => MkMem m (mk_store s)).

(** A program that takes masks, writes to those it holds, and gives them back; it
    names a mask by its place among those it holds. *)
Inductive mk_op := MkGet | MkUse (i : nat) (x : mask) | MkFree (i : nat).

Definition run_mk (op : mk_op) (held : list Z) : M mkmem (list Z) :=
  match op with
  | MkGet => m ← MKGet; mret (if m =? NULL then held else m :: held)
  | MkUse i x =>
      match held !! i with
      | Some m => mk_store_at m x;; mret held
      | None => mret held
      end
  | MkFree i =>
      match held !! i with
      | Some m => MKFree m;; mret (delete i held)
      | None => mret held
      end
  end.
Fixpoint run_mks (ops : list mk_op) (held : list Z) : M mkmem (list Z) :=
  match ops with
  | [] => mret held
  | op :: ops => held ← run_mk op held; run_mks ops held
  end.

(** * The invariant *)

(** The masks [l] are linked from [p] on, and end with null. *)
Fixpoint chain (st : gmap Z mask) (p : Z) (l : list Z) : Prop :=
  match l with
  | [] => p = NULL
  | q :: l => p = q /\ q <> NULL /\ exists x, st !! q = Some x /\ chain st (rm_mklist x) l
  end.

(** Every live mask is either held or free, and only once. *)
Record masks_ok (held free : list Z) (s : mkmem) : Prop := {
  masks_chain : chain (mk_store s) (rn_mkfreelist s) free;
  masks_once : NoDup (held ++ free);
  masks_null : mk_store s !! NULL = None;
  masks_live : forall m, m ∈ held ++ free <-> is_Some (mk_store s !! m);
}.

Definition malloc_ok : Prop := forall st n,
  malloc st n = NULL \/ (malloc st n <> NULL /\ st !! malloc st n = None).

Lemma chain_insert st p l m x : m ∉ l -> chain (<[m := x]> st) p l <-> chain st p l.
Proof.
  revert p. induction l as [|q l IH]; intros p Hm; [done|].
  apply not_elem_of_cons in Hm as [Hne Hm]. cbn. rewrite lookup_insert_ne by done.
  split; intros (-> & ? & y & ? & Hc); (split_and!; [done..|]); exists y; (split; [done|]);
    by apply (IH _ Hm).
Qed.

Lemma masks_use held free s m x :
  masks_ok held free s -> m ∈ held ->
  wp (mk_store_at m x) (fun _ s' => masks_ok held free s') s.
Proof.
  intros [Hc Hnd Hnull Hl] Hm. unfold mk_store_at, mk_load. unfold wp, mbind, M_bind.
  destruct (proj1 (Hl m)) as [y Hy]; [set_solver|]. rewrite Hy. cbn.
  assert (m <> NULL) as Hm0 by congruence.
  split; cbn; [|done|by rewrite lookup_insert_ne|].
  - apply chain_insert; [|done]. intros Hf. apply NoDup_app in Hnd as (_ & Hd & _). by apply (Hd m).
  - intros m'. rewrite Hl. destruct (decide (m = m')) as [->|Hne].
    + rewrite lookup_insert_eq, Hy. naive_solver.
    + by rewrite lookup_insert_ne.
Qed.

Lemma masks_get held free s :
  malloc_ok -> masks_ok held free s ->
  wp MKGet (fun m s' =>
    (m = NULL /\ free = [] /\ s' = s) \/
    (m <> NULL /\ m ∉ held /\
     exists free', masks_ok (m :: held) free' s' /\ free' = tail free /\
       mk_store s' = match free with [] => <[m := fresh]> (mk_store s) | _ => mk_store s end)) s.
Proof.
  intros Hmal [Hc Hnd Hnull Hl]. unfold MKGet, wp. autorewrite with run.
  destruct free as [|q free]; cbn in Hc.
  - rewrite Hc. cbn. unfold R_Malloc.
    destruct (Hmal (mk_store s) (sizeof a radix_mask mod 2 ^ 32)) as [-> | [Hne Hnone]].
    + rewrite Z.eqb_refl. by left.
    + rewrite (proj2 (Z.eqb_neq _ _)) by done. right. set (p := malloc _ _) in *.
      assert (p ∉ held) as Hp.
      { intros Hin. rewrite <-(app_nil_r held), Hl, Hnone in Hin. by destruct Hin. }
      split_and!; [done|done|]. exists []. split_and!; [|done|done].
      split; cbn.
      * done.
      * rewrite app_nil_r in *. by constructor.
      * by rewrite lookup_insert_ne.
      * intros m. rewrite app_nil_r in *. rewrite elem_of_cons, Hl.
        destruct (decide (p = m)) as [->|Hpm].
        -- rewrite lookup_insert_eq. naive_solver.
        -- rewrite lookup_insert_ne by done. naive_solver.
  - destruct Hc as (Hq & Hne & x & Hx & Hc). rewrite Hq.
    rewrite (proj2 (Z.eqb_neq q NULL)) by done. cbn [negb]. autorewrite with run.
    unfold mbind, M_bind, mk_load. rewrite Hq, Hx. cbn. right.
    apply NoDup_app in Hnd as (Hh & Hd & [Hqf Hf]%NoDup_cons).
    split_and!; [done|intros Hin; apply (Hd q Hin); set_solver|]. exists free.
    split_and!; [|done|done]. split; cbn.
    + done.
    + constructor; [|apply NoDup_app; set_solver].
      rewrite elem_of_app. intros [Hin|Hin]; [apply (Hd q Hin); set_solver|done].
    + done.
    + intros m. rewrite <-Hl. set_solver.
Qed.

Lemma masks_free held free s i m :
  masks_ok held free s -> held !! i = Some m ->
  wp (MKFree m) (fun _ s' => masks_ok (delete i held) (m :: free) s' /\
    dom (mk_store s') = dom (mk_store s)) s.
Proof.
  intros [Hc Hnd Hnull Hl] Hi. unfold MKFree, wp. autorewrite with run.
  pose proof (list_elem_of_lookup_2 _ _ _ Hi) as Hm.
  destruct (proj1 (Hl m)) as [y Hy]; [set_solver|].
  assert (m <> NULL) as Hm0 by congruence.
  assert (m ∉ free) as Hmf by (apply NoDup_app in Hnd as (_ & Hd & _); by apply Hd).
  unfold mbind, M_bind, mk_store_at, mk_load. unfold mbind, M_bind. rewrite Hy, Hy. cbn.
  assert (held ≡ₚ m :: delete i held) as Hperm by by apply delete_Permutation.
  rewrite Hperm in Hnd. cbn in Hnd. apply NoDup_cons in Hnd as [Hmd Hnd].
  assert (is_Some (mk_store s !! m)) as Hsome by eauto.
  assert (forall x, x ∈ held <-> x = m \/ x ∈ delete i held) as Hin.
  { intros x. by rewrite Hperm at 1; rewrite elem_of_cons. }
  set (d := delete i held) in *. clearbody d. clear Hperm Hi.
  split; [split; cbn|].
  - split_and!; [done|done|]. exists (set_mklist (rn_mkfreelist s) y).
    rewrite lookup_insert_eq. split; [done|]. by apply chain_insert.
  - apply NoDup_app in Hnd as (H1 & H2 & H3). apply NoDup_app. split_and!; [done| |by constructor].
    intros x Hx. apply not_elem_of_cons. split; [|by apply H2]. intros ->.
    apply Hmd. set_solver.
  - by rewrite lookup_insert_ne.
  - intros x. destruct (decide (m = x)) as [->|Hne].
    + rewrite lookup_insert_eq. set_solver.
    + rewrite lookup_insert_ne, <-Hl by done. rewrite !elem_of_app, Hin. set_solver.
  - rewrite dom_insert_L. apply elem_of_dom in Hsome. set_solver.
Qed.

(** A step of the program, and a whole run. *)
Lemma masks_step op held free s :
  malloc_ok -> masks_ok held free s ->
  wp (run_mk op held) (fun held' s' => exists free', masks_ok held' free' s' /\
    dom (mk_store s) ⊆ dom (mk_store s')) s.
Proof.
  intros Hmal Hok. destruct op as [|i x|i]; cbn [run_mk].
  - apply wp_bind. eapply wp_mono; [by eapply masks_get|].
    intros m s' [(-> & -> & ->) | (Hne & Hm & free' & Hok' & _ & Hst)]; apply wp_ret.
    + rewrite Z.eqb_refl. by exists [].
    + rewrite (proj2 (Z.eqb_neq m NULL)) by done. exists free'. split; [done|].
      rewrite Hst. destruct free; [|done]. rewrite dom_insert_L. set_solver.
  - destruct (held !! i) as [m|] eqn:Hi; [|apply wp_ret; eauto].
    apply wp_bind. eapply wp_mono;
      [eapply masks_use; [done|by eapply list_elem_of_lookup_2]|].
    intros [] s' Hok'. apply wp_ret. exists free. split; [done|].
    intros p Hp. destruct Hok, Hok'. rewrite elem_of_dom in *. naive_solver.
  - destruct (held !! i) as [m|] eqn:Hi; [|apply wp_ret; eauto].
    apply wp_bind. eapply wp_mono; [by eapply masks_free|].
    intros [] s' [Hok' Hdom]. apply wp_ret. exists (m :: free). by rewrite Hdom.
Qed.

Lemma masks_run ops held free s :
  malloc_ok -> masks_ok held free s ->
  wp (run_mks ops held) (fun held' s' => exists free', masks_ok held' free' s' /\
    dom (mk_store s) ⊆ dom (mk_store s')) s.
Proof.
  intros Hmal. revert held free s. induction ops as [|op ops IH]; intros held free s Hok;
    cbn [run_mks]; [apply wp_ret; eauto|].
  apply wp_bind. eapply wp_mono; [by eapply masks_step|].
  intros held' s' (free' & Hok' & Hdom). eapply wp_mono; [by eapply IH|].
  intros held'' s'' (free'' & Hok'' & Hdom'). exists free''. split; [done|]. set_solver.
Qed.
End Masks.

(** * The properties *)

(** C39: the masks are accounted for: a program that takes masks, writes what it
    likes to those it holds and gives back only those never faults; it never holds a
    mask twice, nor one that is free, and every mask that was ever allocated is held
    or linked in the free list, from which the next one is taken. *)
Theorem masks_accounted (malloc : gmap Z mask -> Z -> Z) (fresh : mask) (a : abi) (ops : list mk_op)
    (Hmal : malloc_ok malloc) :
  exists held free s,
    run_mks malloc fresh a ops [] (MkMem NULL ∅) = Done (held, s) /\
    NoDup (held ++ free) /\ chain (mk_store s) (rn_mkfreelist s) free /\
    (forall m, m ∈ held ++ free <-> is_Some (mk_store s !! m)) /\
    (forall m free', free = m :: free' -> exists s',
       MKGet malloc fresh a s = Done (m, s') /\ mk_store s' = mk_store s /\
       chain (mk_store s') (rn_mkfreelist s') free').
Proof.
  assert (masks_ok [] [] (MkMem NULL ∅)) as Hinit.
  { split; cbn; [done|constructor|done|]. intros m. rewrite lookup_empty. split; [set_solver|].
    by intros []. }
  destruct (wp_run _ _ _ (masks_run malloc fresh a ops [] [] _ Hmal Hinit))
    as (held & s & Hrun & free & Hok & _).
  exists held, free, s. destruct Hok as [Hc Hnd Hnull Hl]. split_and!; try done.
  intros m free' ->. destruct Hc as (Hm & Hne & x & Hx & Hc).
  exists (MkMem (rm_mklist x) (mk_store s)). split_and!; [|done|done].
  unfold MKGet. autorewrite with run. rewrite Hm, (proj2 (Z.eqb_neq m NULL)) by done.
  cbn [negb]. autorewrite with run. unfold mbind, M_bind, mk_load. by rewrite Hm, Hx.
Qed.

Lemma masks_accounted_witness :
  exists free s,
    run_mks (fun st _ => if decide (st !! 8 = None) then 8 else if decide (st !! 16 = None) then 16 else 0)
      (Mask 0 0 0 0 0) LP64 [MkGet; MkGet; MkGet; MkFree 1; MkFree 0; MkGet] [] (MkMem NULL ∅)
      = Done ([16], s) /\
    NoDup (16 :: free) /\ (forall m, m ∈ 16 :: free <-> is_Some (mk_store s !! m)).
Proof.
  assert (malloc_ok (fun st _ => if decide (st !! 8 = None) then 8
    else if decide (st !! 16 = None) then 16 else 0)) as Hmal.
  { intros st n. cbn. destruct (decide (st !! 8 = None)); [by right|].
    destruct (decide (st !! 16 = None)); [by right|by left]. }
  destruct (masks_accounted _ (Mask 0 0 0 0 0) LP64
    [MkGet; MkGet; MkGet; MkFree 1; MkFree 0; MkGet] Hmal) as (held & free & s & Hrun & Hnd & _ & Hl & _).
  assert (held = [16]) as ->.
  { vm_compute in Hrun. by injection Hrun as <- _. }
  by exists free, s.
Defined.
