(* ===== verification/PfKernel.v ===== *)
(** The structures of [originaldest/darwin/include/net/pfvar.h] that only the kernel
    has: its pools, the state of application protocols, what a scrubbed connection
    keeps, the tables of addresses, and the description of a packet. *)

From stdpp Require Import base list strings.
From Stdlib Require Import ZArith Lia.
From S2P Require Import Prelude CLayout Pfvar Radix.

#[local] Open Scope string_scope.
#[local] Open Scope Z_scope.

(** * What the header takes from the headers of the kernel *)

Record kerneldefs := Kernel {
  t_gid_t : ctype;
  t_sockaddr : ctype;
  t_sockaddr_in : ctype;
  t_sockaddr_in6 : ctype;
  t_timeval : ctype;
  t_mbuf_svc_class_t : ctype;
}.

(** The definitions of [sys/types.h], [sys/socket.h], [netinet/in.h],
    [netinet6/in6.h], [sys/time.h] and [sys/kpi_mbuf.h] of Darwin. *)
Record DarwinKernel (sys : sysdefs) (k : kerneldefs) : Prop := {
  darwin_gid_t : t_gid_t k = TInt 4;
  darwin_sockaddr : t_sockaddr k =
    struct [fld "sa_len" (TInt 1); fld "sa_family" (t_sa_family_t sys); fld "sa_data" (chars 14)];
  darwin_sockaddr_in : t_sockaddr_in k =
    struct [fld "sin_len" (TInt 1); fld "sin_family" (t_sa_family_t sys); fld "sin_port" (TInt 2);
            fld "sin_addr" (t_in_addr sys); fld "sin_zero" (chars 8)];
  darwin_sockaddr_in6 : t_sockaddr_in6 k =
    struct [fld "sin6_len" (TInt 1); fld "sin6_family" (t_sa_family_t sys); fld "sin6_port" (TInt 2);
            fld "sin6_flowinfo" (TInt 4); fld "sin6_addr" (t_in6_addr sys); fld "sin6_scope_id" (TInt 4)];
  darwin_timeval : t_timeval k =
    struct [fld "tv_sec" TPtr (* a long *); fld "tv_usec" (TInt 4)];
  darwin_mbuf_svc_class_t : t_mbuf_svc_class_t k = TInt 4;
}.

Section PfKernel.
Context (sys : sysdefs) (k : kerneldefs) (a : abi).

(** * Pools and addresses *)

Definition pool : ctype :=
  struct
  [fld "pool_zone" TPtr;
   fld "pool_name" TPtr;
   fld "pool_count" u32;
   fld "pool_hiwat" u32;
   fld "pool_limit" u32;
   fld "pool_fails" u32].
Definition pf_pool_limit : ctype :=
  struct
  [fld "pp" TPtr;
   fld "limit" u32].
Definition sockaddr_union : ctype :=
  union
  [fld "sa" (t_sockaddr k);
   fld "sin" (t_sockaddr_in k);
   fld "sin6" (t_sockaddr_in6 k)].

(** * States *)

Definition pf_state_scrub : ctype :=
  struct
  [fld "pfss_last" (t_timeval k);
   fld "pfss_tsecr" u32;
   fld "pfss_tsval" u32;
   fld "pfss_tsval0" u32;
   fld "pfss_flags" u16;
   fld "pfss_ttl" u8;
   fld "pad" u8;
   fld "pfss_ts_mod" u32].
Definition pf_state_queue : ctype := t_TAILQ_HEAD sys.
Definition pf_pptp_state : ctype := struct [fld "grev1_state" TPtr].
Definition pf_grev1_state : ctype := struct [fld "pptp_state" TPtr].
Definition pf_ike_state : ctype := struct [fld "cookie" u64].
(** Handlers are pointers to functions. *)
Definition pf_app_state : ctype :=
  struct
  [fld "handler" TPtr;
   fld "compare_lan_ext" TPtr;
   fld "compare_ext_gwy" TPtr;
   fld "u" (union [fld "pptp" pf_pptp_state; fld "grev1" pf_grev1_state; fld "ike" pf_ike_state])].

(** * Tables of addresses *)

Definition pfr_kentry : ctype :=
  struct
  [fld "pfrke_node" (TArr (radix_node a) 2);
   fld "pfrke_sa" sockaddr_union;
   fld "pfrke_packets" (TArr (TArr u64 PFR_OP_ADDR_MAX) PFR_DIR_MAX);
   fld "pfrke_bytes" (TArr (TArr u64 PFR_OP_ADDR_MAX) PFR_DIR_MAX);
   fld "pfrke_workq" (t_SLIST_ENTRY sys);
   fld "pfrke_tzero" u64;
   fld "pfrke_af" u8;
   fld "pfrke_net" u8;
   fld "pfrke_not" u8;
   fld "pfrke_mark" u8;
   fld "pfrke_intrpool" u8].
Definition pfr_ktable : ctype :=
  struct
  [fld "pfrkt_ts" (pfr_tstats sys a);
   fld "pfrkt_tree" RB_ENTRY;
   fld "pfrkt_workq" (t_SLIST_ENTRY sys);
   fld "pfrkt_ip4" TPtr;
   fld "pfrkt_ip6" TPtr;
   fld "pfrkt_shadow" TPtr;
   fld "pfrkt_root" TPtr;
   fld "pfrkt_rs" TPtr;
   fld "pfrkt_larg" u64;
   fld "pfrkt_nflags" u32].

(** * Packets *)

(** [INET6] is defined. *)
Definition pf_pdesc : ctype :=
  struct
  [fld "lookup" (struct [fld "done" int; fld "uid" (t_uid_t sys); fld "gid" (t_gid_t k);
     fld "pid" (t_pid_t sys)]);
   fld "tot_len" u64;
   fld "hdr" (union [fld "tcp" TPtr; fld "udp" TPtr; fld "icmp" TPtr; fld "icmp6" TPtr;
     fld "grev1" TPtr; fld "esp" TPtr; fld "any" TPtr]);
   fld "baddr" (pf_addr sys);
   fld "bdaddr" (pf_addr sys);
   fld "naddr" (pf_addr sys);
   fld "ndaddr" (pf_addr sys);
   fld "nat_rule" TPtr;
   fld "src" TPtr;
   fld "dst" TPtr;
   fld "eh" TPtr;
   fld "mp" TPtr;
   fld "lmw" int;
   fld "pf_mtag" TPtr;
   fld "ip_sum" TPtr;
   fld "off" u32;
   fld "hdrlen" u32;
   fld "p_len" u32;
   fld "flags" u16;
   fld "af" (t_sa_family_t sys);
   fld "naf" (t_sa_family_t sys);
   fld "proto" u8;
   fld "tos" u8;
   fld "ttl" u8;
   fld "proto_variant" u8;
   fld "sc" (t_mbuf_svc_class_t k);
   fld "pktflags" u32;
   fld "flowsrc" u32;
   fld "flowhash" u32].
End PfKernel.
