(* ===== verification/PfConsts.v ===== *)
(** The constants of [originaldest/darwin/include/net/pfvar.h]: flags, enumerations,
    default timeouts, codes of the type of service, and the macros that name members.
    A group of constants is a list of names with their values. *)

From stdpp Require Import base list strings.
From Stdlib Require Import ZArith Lia.
From S2P Require Import Prelude CLayout Pfvar Radix PfKernel.

#[local] Open Scope string_scope.
#[local] Open Scope Z_scope.

(** The enumerators of an [enum]: each is its place, from [first] on. *)
Fixpoint enum_from (first : Z) (names : list string) : list (string * Z) :=
  match names with
  | [] => []
  | name :: names => (name, first) :: enum_from (first + 1) names
  end.
Definition enum : list string -> list (string * Z) := enum_from 0.

(** The value of a name in a group. *)
Definition code (codes : list (string * Z)) (name : string) : option Z :=
  '(_, c) ← list_find (fun c => c.1 = name) codes; Some c.2.

(** * Flags *)

Definition PF_LOGS : list (string * Z) :=
  [("PF_LOG", 0x01); ("PF_LOG_ALL", 0x02); ("PF_LOG_SOCKET_LOOKUP", 0x04)].
Definition PFI_AFLAGS : list (string * Z) :=
  [("PFI_AFLAG_NETWORK", 0x01); ("PFI_AFLAG_BROADCAST", 0x02); ("PFI_AFLAG_PEER", 0x04);
   ("PFI_AFLAG_NOALIAS", 0x08)].
Definition PF_OSFP_ENFLAGS : list (string * Z) :=
  [("PF_OSFP_EXPANDED", 0x001); ("PF_OSFP_GENERIC", 0x002); ("PF_OSFP_NODETAIL", 0x004)].
Definition PF_OSFP_FLAGS : list (string * Z) :=
  [("PF_OSFP_WSIZE_MOD", 0x0001); ("PF_OSFP_WSIZE_DC", 0x0002); ("PF_OSFP_WSIZE_MSS", 0x0004);
   ("PF_OSFP_WSIZE_MTU", 0x0008); ("PF_OSFP_PSIZE_MOD", 0x0010); ("PF_OSFP_PSIZE_DC", 0x0020);
   ("PF_OSFP_WSCALE", 0x0040); ("PF_OSFP_WSCALE_MOD", 0x0080); ("PF_OSFP_WSCALE_DC", 0x0100);
   ("PF_OSFP_MSS", 0x0200); ("PF_OSFP_MSS_MOD", 0x0400); ("PF_OSFP_MSS_DC", 0x0800);
   ("PF_OSFP_DF", 0x1000); ("PF_OSFP_TS0", 0x2000); ("PF_OSFP_INET6", 0x4000)].
Definition PF_FLUSHES : list (string * Z) :=
  [("PF_FLUSH", 0x01); ("PF_FLUSH_GLOBAL", 0x02)].
Definition PFRULE_FLAGS : list (string * Z) :=
  [("PFRULE_DROP", 0x0000); ("PFRULE_RETURNRST", 0x0001); ("PFRULE_FRAGMENT", 0x0002); ("PFRULE_RETURNICMP", 0x0004);
   ("PFRULE_RETURN", 0x0008); ("PFRULE_NOSYNC", 0x0010); ("PFRULE_SRCTRACK", 0x0020);
   ("PFRULE_RULESRCTRACK", 0x0040); ("PFRULE_NODF", 0x0100); ("PFRULE_FRAGCROP", 0x0200);
   ("PFRULE_FRAGDROP", 0x0400); ("PFRULE_RANDOMID", 0x0800); ("PFRULE_REASSEMBLE_TCP", 0x1000);
   ("PFRULE_TOS", 0x2000); ("PFRULE_DSCP", 0x4000); ("PFRULE_SC", 0x8000);
   ("PFRULE_IFBOUND", 0x00010000); ("PFRULE_PFM", 0x00020000)].
Definition PFSS_FLAGS : list (string * Z) :=
  [("PFSS_TIMESTAMP", 0x0001); ("PFSS_PAWS", 0x0010); ("PFSS_PAWS_IDLED", 0x0020);
   ("PFSS_DATA_TS", 0x0040); ("PFSS_DATA_NOTS", 0x0080)].
Definition PFSTATE_FLAGS : list (string * Z) :=
  [("PFSTATE_NOSYNC", 0x01); ("PFSTATE_FROMSYNC", 0x02); ("PFSTATE_STALE", 0x04)].
Definition PFSYNC_FLAGS : list (string * Z) :=
  [("PFSYNC_FLAG_COMPRESS", 0x01); ("PFSYNC_FLAG_STALE", 0x02); ("PFSYNC_FLAG_SRCNODE", 0x04);
   ("PFSYNC_FLAG_NATSRCNODE", 0x08)].
Definition PFR_TFLAGS : list (string * Z) :=
  [("PFR_TFLAG_PERSIST", 0x00000001); ("PFR_TFLAG_CONST", 0x00000002);
   ("PFR_TFLAG_ACTIVE", 0x00000004); ("PFR_TFLAG_INACTIVE", 0x00000008);
   ("PFR_TFLAG_REFERENCED", 0x00000010); ("PFR_TFLAG_REFDANCHOR", 0x00000020)].
Definition PFI_IFLAGS : list (string * Z) :=
  [("PFI_IFLAG_SKIP", 0x0100)].
Definition PFDESC_FLAGS : list (string * Z) :=
  [("PFDESC_TCP_NORM", 0x0001); ("PFDESC_IP_REAS", 0x0002); ("PFDESC_IP_FRAG", 0x0004)].
Definition PFR_FLAGS : list (string * Z) :=
  [("PFR_FLAG_ATOMIC", 0x00000001); ("PFR_FLAG_DUMMY", 0x00000002);
   ("PFR_FLAG_FEEDBACK", 0x00000004); ("PFR_FLAG_CLSTATS", 0x00000008);
   ("PFR_FLAG_ADDRSTOO", 0x00000010); ("PFR_FLAG_REPLACE", 0x00000020);
   ("PFR_FLAG_ALLRSETS", 0x00000040); ("PFR_FLAG_USERIOCTL", 0x10000000)].
Definition PF_PORT_RANGES : list (string * Z) := [("PF_DPORT_RANGE", 0x01); ("PF_RPORT_RANGE", 0x02)].
Definition PFI_AFLAG_MODEMASK : Z := 0x07.
Definition PFR_TFLAG_USRMASK : Z := 0x00000003.
Definition PFR_TFLAG_SETMASK : Z := 0x0000003C.
Definition PFR_TFLAG_ALLMASK : Z := 0x0000003F.
Definition PFR_FLAG_ALLMASK : Z := 0x0000007F.
(** The options of a pool and the window scale of a peer: a number and a flag. *)
Definition PF_POOL_TYPEMASK : Z := 0x0f.
Definition PF_POOL_STICKYADDR : Z := 0x20.
Definition PF_WSCALE_FLAG : Z := 0x80.
Definition PF_WSCALE_MASK : Z := 0x0f.

(** * Enumerations *)

Definition PF_ACTIONS : list (string * Z) := enum
  ["PF_PASS"; "PF_DROP"; "PF_SCRUB"; "PF_NOSCRUB"; "PF_NAT"; "PF_NONAT"; "PF_BINAT"; "PF_NOBINAT";
   "PF_RDR"; "PF_NORDR"; "PF_SYNPROXY_DROP"; "PF_DUMMYNET"; "PF_NODUMMYNET"; "PF_NAT64";
   "PF_NONAT64"].
Definition PF_OPS : list (string * Z) := enum
  ["PF_OP_NONE"; "PF_OP_IRG"; "PF_OP_EQ"; "PF_OP_NE"; "PF_OP_LT"; "PF_OP_LE"; "PF_OP_GT";
   "PF_OP_GE"; "PF_OP_XRG"; "PF_OP_RRG"].
Definition PF_DEBUGS : list (string * Z) := enum
  ["PF_DEBUG_NONE"; "PF_DEBUG_URGENT"; "PF_DEBUG_MISC"; "PF_DEBUG_NOISY"].
Definition PF_CHANGES : list (string * Z) := enum
  ["PF_CHANGE_NONE"; "PF_CHANGE_ADD_HEAD"; "PF_CHANGE_ADD_TAIL"; "PF_CHANGE_ADD_BEFORE";
   "PF_CHANGE_ADD_AFTER"; "PF_CHANGE_REMOVE"; "PF_CHANGE_GET_TICKET"].
Definition PF_GETS : list (string * Z) := enum
  ["PF_GET_NONE"; "PF_GET_CLR_CNTR"].
Definition PF_ROUTES : list (string * Z) := enum
  ["PF_NOPFROUTE"; "PF_FASTROUTE"; "PF_ROUTETO"; "PF_DUPTO"; "PF_REPLYTO"].
Definition PF_LIMITS : list (string * Z) := enum
  ["PF_LIMIT_STATES"; "PF_LIMIT_APP_STATES"; "PF_LIMIT_SRC_NODES"; "PF_LIMIT_FRAGS";
   "PF_LIMIT_TABLES"; "PF_LIMIT_TABLE_ENTRIES"; "PF_LIMIT_MAX"].
Definition PF_POOLS : list (string * Z) := enum
  ["PF_POOL_NONE"; "PF_POOL_BITMASK"; "PF_POOL_RANDOM"; "PF_POOL_SRCHASH"; "PF_POOL_ROUNDROBIN"].
Definition PF_ADDRS : list (string * Z) := enum
  ["PF_ADDR_ADDRMASK"; "PF_ADDR_NOROUTE"; "PF_ADDR_DYNIFTL"; "PF_ADDR_TABLE"; "PF_ADDR_RTLABEL";
   "PF_ADDR_URPFFAILED"; "PF_ADDR_RANGE"].
Definition PFR_FEEDBACK : list (string * Z) := enum
  ["PFR_FB_NONE"; "PFR_FB_MATCH"; "PFR_FB_ADDED"; "PFR_FB_DELETED"; "PFR_FB_CHANGED";
   "PFR_FB_CLEARED"; "PFR_FB_DUPLICATE"; "PFR_FB_NOTMATCH"; "PFR_FB_CONFLICT"; "PFR_FB_MAX"].
Definition PFR_DIRS : list (string * Z) := enum
  ["PFR_DIR_IN"; "PFR_DIR_OUT"; "PFR_DIR_MAX"].
Definition PFR_OPS : list (string * Z) := enum
  ["PFR_OP_BLOCK"; "PFR_OP_PASS"; "PFR_OP_ADDR_MAX"; "PFR_OP_TABLE_MAX"].
Definition PFR_REFCNTS : list (string * Z) := enum
  ["PFR_REFCNT_RULE"; "PFR_REFCNT_ANCHOR"; "PFR_REFCNT_MAX"].
Definition PFI_KIF_REFS : list (string * Z) := enum
  ["PFI_KIF_REF_NONE"; "PFI_KIF_REF_STATE"; "PFI_KIF_REF_RULE"].
Definition PFTMS : list (string * Z) := enum ((fun name => "PFTM_" +:+ name) <$> PFTM_names).
Definition PF_RULESETS : list (string * Z) := enum ((fun name => "PF_RULESET_" +:+ name) <$> PF_RULESET_names).
Definition pf_extmap : list (string * Z) :=
  enum_from 1 ["PF_EXTMAP_APD"; "PF_EXTMAP_AD"; "PF_EXTMAP_EI"].
Definition pf_extfilter : list (string * Z) :=
  enum_from 1 ["PF_EXTFILTER_APD"; "PF_EXTFILTER_AD"; "PF_EXTFILTER_EI"].
Definition PF_STATES : list (string * Z) :=
  [("PF_STATE_NORMAL", 0x1); ("PF_STATE_MODULATE", 0x2); ("PF_STATE_SYNPROXY", 0x3)].
Definition PF_SKIPS : list (string * Z) :=
  [("PF_SKIP_IFP", 0); ("PF_SKIP_DIR", 1); ("PF_SKIP_AF", 2); ("PF_SKIP_PROTO", 3);
   ("PF_SKIP_SRC_ADDR", 4); ("PF_SKIP_SRC_PORT", 5); ("PF_SKIP_DST_ADDR", 6);
   ("PF_SKIP_DST_PORT", 7); ("PF_SKIP_COUNT", 8)].
Definition PFDEVS : list (string * Z) :=
  [("PFDEV_PF", 0); ("PFDEV_PFM", 1); ("PFDEV_MAX", 2)].
Definition PFRES_codes : list (string * Z) :=
  [("PFRES_MATCH", 0); ("PFRES_BADOFF", 1); ("PFRES_FRAG", 2); ("PFRES_SHORT", 3);
   ("PFRES_NORM", 4); ("PFRES_MEMORY", 5); ("PFRES_TS", 6); ("PFRES_CONGEST", 7);
   ("PFRES_IPOPTIONS", 8); ("PFRES_PROTCKSUM", 9); ("PFRES_BADSTATE", 10); ("PFRES_STATEINS", 11);
   ("PFRES_MAXSTATES", 12); ("PFRES_SRCLIMIT", 13); ("PFRES_SYNPROXY", 14);
   ("PFRES_DUMMYNET", 15); ("PFRES_MAX", 16)].
Definition LCNT_codes : list (string * Z) :=
  [("LCNT_STATES", 0); ("LCNT_SRCSTATES", 1); ("LCNT_SRCNODES", 2); ("LCNT_SRCCONN", 3);
   ("LCNT_SRCCONNRATE", 4); ("LCNT_OVERLOAD_TABLE", 5); ("LCNT_OVERLOAD_FLUSH", 6);
   ("LCNT_MAX", 7)].
Definition PFUDPS_codes : list (string * Z) :=
  [("PFUDPS_NO_TRAFFIC", 0); ("PFUDPS_SINGLE", 1); ("PFUDPS_MULTIPLE", 2); ("PFUDPS_NSTATES", 3)].
Definition PFGRE1S_codes : list (string * Z) :=
  [("PFGRE1S_NO_TRAFFIC", 0); ("PFGRE1S_INITIATING", 1); ("PFGRE1S_ESTABLISHED", 2);
   ("PFGRE1S_NSTATES", 3)].
Definition PFESPS_codes : list (string * Z) :=
  [("PFESPS_NO_TRAFFIC", 0); ("PFESPS_INITIATING", 1); ("PFESPS_ESTABLISHED", 2);
   ("PFESPS_NSTATES", 3)].
Definition PFOTHERS_codes : list (string * Z) :=
  [("PFOTHERS_NO_TRAFFIC", 0); ("PFOTHERS_SINGLE", 1); ("PFOTHERS_MULTIPLE", 2);
   ("PFOTHERS_NSTATES", 3)].
Definition FCNT_codes : list (string * Z) :=
  [("FCNT_STATE_SEARCH", 0); ("FCNT_STATE_INSERT", 1); ("FCNT_STATE_REMOVALS", 2);
   ("FCNT_MAX", 3)].
Definition SCNT_codes : list (string * Z) :=
  [("SCNT_SRC_NODE_SEARCH", 0); ("SCNT_SRC_NODE_INSERT", 1); ("SCNT_SRC_NODE_REMOVALS", 2);
   ("SCNT_MAX", 3)].
(** The rulesets that a transaction can name besides. *)
Definition PF_RULESET_ALTQ : Z := PF_RULESET_MAX.
Definition PF_RULESET_TABLE : Z := PF_RULESET_MAX + 1.
(** An entry of the statistics of a table, behind those of its addresses. *)
Definition PFR_OP_XPASS : Z := PFR_OP_ADDR_MAX.

(** The names that are printed, without the null at the end. *)
Definition PFUDPS_NAMES : list string := ["NO_TRAFFIC"; "SINGLE"; "MULTIPLE"].
Definition PFGRE1S_NAMES : list string := ["NO_TRAFFIC"; "INITIATING"; "ESTABLISHED"].
Definition PFESPS_NAMES : list string := ["NO_TRAFFIC"; "INITIATING"; "ESTABLISHED"].
Definition PFOTHERS_NAMES : list string := ["NO_TRAFFIC"; "SINGLE"; "MULTIPLE"].

(** * Default values *)

Definition PFTM_defaults : list (string * Z) :=
  [("PFTM_TCP_FIRST_PACKET", 120); ("PFTM_TCP_OPENING", 30);
   ("PFTM_TCP_ESTABLISHED", (24 * 60 * 60)); ("PFTM_TCP_CLOSING", (15 * 60));
   ("PFTM_TCP_FIN_WAIT", 45); ("PFTM_TCP_CLOSED", 90); ("PFTM_UDP_FIRST_PACKET", 60);
   ("PFTM_UDP_SINGLE", 30); ("PFTM_UDP_MULTIPLE", 60); ("PFTM_ICMP_FIRST_PACKET", 20);
   ("PFTM_ICMP_ERROR_REPLY", 10); ("PFTM_GREv1_FIRST_PACKET", 120); ("PFTM_GREv1_INITIATING", 30);
   ("PFTM_GREv1_ESTABLISHED", 1800); ("PFTM_ESP_FIRST_PACKET", 120); ("PFTM_ESP_INITIATING", 30);
   ("PFTM_ESP_ESTABLISHED", 900); ("PFTM_OTHER_FIRST_PACKET", 60); ("PFTM_OTHER_SINGLE", 30);
   ("PFTM_OTHER_MULTIPLE", 60); ("PFTM_FRAG", 30); ("PFTM_INTERVAL", 10); ("PFTM_SRC_NODE", 0);
   ("PFTM_TS_DIFF", 30)].
Definition PFSTATE_ADAPT_START : Z := 6000.
Definition PFSTATE_ADAPT_END : Z := 12000.
(** The limits of the pools. *)
Definition PFSTATE_HIWAT : Z := 10000.
Definition PFAPPSTATE_HIWAT : Z := 10000.
Definition PFSNODE_HIWAT : Z := 10000.
Definition HIWATS : list (string * Z) :=
  [("PFFRAG_FRENT_HIWAT", 5000); ("PFFRAG_FRAG_HIWAT", 1000); ("PFFRAG_FRCENT_HIWAT", 50000);
   ("PFFRAG_FRCACHE_HIWAT", 10000); ("PFR_KTABLE_HIWAT", 1000); ("PFR_KENTRY_HIWAT", 200000);
   ("PFR_KENTRY_HIWAT_SMALL", 100000)].

(** The rates of [struct pf_threshold] are kept in thousandths. *)
Definition PF_THRESHOLD_MULT : Z := 1000.
Definition PF_THRESHOLD_MAX : Z := 0xffffffff / PF_THRESHOLD_MULT.

(** * The type of service *)

Definition SCIDX_MASK : Z := 0x0f.
Definition service_classes : list (string * Z) :=
  [("SC_BE", 0x10); ("SC_BK_SYS", 0x11); ("SC_BK", 0x12); ("SC_RD", 0x13); ("SC_OAM", 0x14);
   ("SC_AV", 0x15); ("SC_RV", 0x16); ("SC_VI", 0x17); ("SC_VO", 0x18); ("SC_CTL", 0x19)].
Definition DSCP_MASK : Z := 0xfc.
Definition DSCP_CUMASK : Z := 0x03.
Definition dscp_codes : list (string * Z) :=
  [("DSCP_EF", 0xb8); ("DSCP_AF11", 0x28);
   ("DSCP_AF12", 0x30); ("DSCP_AF13", 0x38); ("DSCP_AF21", 0x48); ("DSCP_AF22", 0x50);
   ("DSCP_AF23", 0x58); ("DSCP_AF31", 0x68); ("DSCP_AF32", 0x70); ("DSCP_AF33", 0x78);
   ("DSCP_AF41", 0x88); ("DSCP_AF42", 0x90); ("DSCP_AF43", 0x98)].
Definition AF_CLASSMASK : Z := 0xe0.
Definition AF_DROPPRECMASK : Z := 0x18.

(** * TCP options of a fingerprint *)

Definition PF_OSFP_TCPOPTS : list (string * Z) :=
  [("PF_OSFP_TCPOPT_NOP", 0x0); ("PF_OSFP_TCPOPT_WSCALE", 0x1); ("PF_OSFP_TCPOPT_MSS", 0x2);
   ("PF_OSFP_TCPOPT_SACK", 0x3); ("PF_OSFP_TCPOPT_TS", 0x4)].
Definition PF_OSFP_TCPOPT_BITS : Z := 3.
Definition PF_OSFP_MAX_OPTS (a : abi) : Z := sizeof a u64 * 8 / PF_OSFP_TCPOPT_BITS.

(** * Fingerprints *)

(** The bits of a packed fingerprint that are not those of its three fields. *)
Definition _FP_RESERVED_BIT : Z := 1.
Definition _FP_UNUSED_BITS : Z := 1.

(** A [struct pf_osfp_entry] as far as it is compared: the names are arrays of bytes. *)
Record osfp_entry := OsfpEntry {
  fp_os : Z; fp_class_nm : list Z; fp_version_nm : list Z; fp_subtype_nm : list Z }.

(** [memcmp(a, b, n) == 0]. *)
Definition memcmp_eq (a b : list Z) (n : Z) : bool :=
  bool_decide (take (Z.to_nat n) a = take (Z.to_nat n) b).
Definition PF_OSFP_ENTRY_EQ (a b : osfp_entry) : bool :=
  (fp_os a =? fp_os b) &&
  memcmp_eq (fp_class_nm a) (fp_class_nm b) PF_OSFP_LEN &&
  memcmp_eq (fp_version_nm a) (fp_version_nm b) PF_OSFP_LEN &&
  memcmp_eq (fp_subtype_nm a) (fp_subtype_nm b) PF_OSFP_LEN.

(** * Names of members *)

(** The macros that stand for members, each with what it is replaced by. *)
Definition pf_addr_macros : list (string * list string) :=
  [("v4addr", ["pfa"; "_v4addr"]); ("v6addr", ["pfa"; "_v6addr"]); ("addr8", ["pfa"; "_addr8"]);
   ("addr16", ["pfa"; "_addr16"]); ("addr32", ["pfa"; "_addr32"])].
Definition pfra_macros : list (string * list string) :=
  [("pfra_ip4addr", ["pfra_u"; "_pfra_ip4addr"]); ("pfra_ip6addr", ["pfra_u"; "_pfra_ip6addr"])].
Definition pfrts_macros : list (string * list string) :=
  [("pfrts_name", ["pfrts_t"; "pfrt_name"]); ("pfrts_flags", ["pfrts_t"; "pfrt_flags"])].
Definition pfrkt_macros : list (string * list string) :=
  [("pfrkt_t", ["pfrkt_ts"; "pfrts_t"]); ("pfrkt_name", ["pfrkt_t"; "pfrt_name"]);
   ("pfrkt_anchor", ["pfrkt_t"; "pfrt_anchor"]); ("pfrkt_ruleset", ["pfrkt_t"; "pfrt_ruleset"]);
   ("pfrkt_flags", ["pfrkt_t"; "pfrt_flags"]); ("pfrkt_cnt", ["pfrkt_ts"; "pfrts_cnt"]);
   ("pfrkt_refcnt", ["pfrkt_ts"; "pfrts_refcnt"]); ("pfrkt_packets", ["pfrkt_ts"; "pfrts_packets"]);
   ("pfrkt_bytes", ["pfrkt_ts"; "pfrts_bytes"]); ("pfrkt_match", ["pfrkt_ts"; "pfrts_match"]);
   ("pfrkt_nomatch", ["pfrkt_ts"; "pfrts_nomatch"]); ("pfrkt_tzero", ["pfrkt_ts"; "pfrts_tzero"])].
Definition pfrio_macros : list (string * list string) :=
  [("pfrio_exists", ["pfrio_nadd"]); ("pfrio_nzero", ["pfrio_nadd"]); ("pfrio_nmatch", ["pfrio_nadd"]);
   ("pfrio_naddr", ["pfrio_size2"]); ("pfrio_setflag", ["pfrio_size2"]);
   ("pfrio_clrflag", ["pfrio_nadd"])].
Definition member_macros : list (string * list string) :=
  pf_addr_macros ++ pfra_macros ++ pfrts_macros ++ pfrkt_macros ++ pfrio_macros ++ rn_macros ++ rm_macros.

(** What the preprocessor makes of a path of members: macros are replaced, also in
    what replaces them, at most [depth] times inside each other. *)
Fixpoint expand (depth : nat) (path : list string) : list string :=
  match depth with
  | O => path
  | S depth =>
      path ≫= fun name =>
        match list_find (fun m => m.1 = name) member_macros with
        | Some (_, (_, path')) => expand depth path'
        | None => [name]
        end
  end.
Definition macro_path : list string -> list string := expand 3.

(** The place of [a->s_addr] that [PF_ACPY] of IPv4 alone writes and reads. *)
Definition PF_ACPY_4_member : list string := ["v4"; "s_addr"].
