(* ===== verification/PfConstProps.v ===== *)
(** The theorems on the constants of [net/pfvar.h] and the structures of the kernel:
    flags are told apart, enumerations fit the members that hold them and the arrays
    they index, and the macros for members name members, but for two. *)

From stdpp Require Import base list strings.
From Stdlib Require Import ZArith Lia.
From S2P Require Import Prelude CLayout Pfvar PfMacros PfProps Radix PfKernel PfConsts.

#[local] Open Scope string_scope.
#[local] Open Scope Z_scope.

(** The system headers of the kernel of Darwin. *)
Definition darwin_kernel : kerneldefs := {|
  t_gid_t := TInt 4;
  t_sockaddr := struct [fld "sa_len" (TInt 1); fld "sa_family" (TInt 1); fld "sa_data" (chars 14)];
  t_sockaddr_in :=
    struct [fld "sin_len" (TInt 1); fld "sin_family" (TInt 1); fld "sin_port" (TInt 2);
            fld "sin_addr" (t_in_addr darwin); fld "sin_zero" (chars 8)];
  t_sockaddr_in6 :=
    struct [fld "sin6_len" (TInt 1); fld "sin6_family" (TInt 1); fld "sin6_port" (TInt 2);
            fld "sin6_flowinfo" (TInt 4); fld "sin6_addr" (t_in6_addr darwin); fld "sin6_scope_id" (TInt 4)];
  t_timeval := struct [fld "tv_sec" TPtr; fld "tv_usec" (TInt 4)];
  t_mbuf_svc_class_t := TInt 4;
|}.

Lemma darwin_kernel_ok : DarwinKernel darwin darwin_kernel.
Proof. by split. Defined.

Lemma darwin_kernel_unique k : DarwinKernel darwin k -> k = darwin_kernel.
Proof. destruct k. intros []. cbn in *. by subst. Qed.

(** A property of the two headers in every data model is one of three instances. *)
Lemma in_data_models (P : abi -> Prop) a :
  a ∈ data_models -> P LP64 -> P ILP32_i386 -> P ILP32_arm -> P a.
Proof. unfold data_models. rewrite !elem_of_cons, elem_of_nil. by intros [->|[->|[->|[]]]]. Qed.

(** * Flags *)

(** The word that has the flags of [S] set. *)
Definition flag_word (flags : list (string * Z)) (S : list string) : Z :=
  fold_right (fun f w => if bool_decide (f.1 ∈ S) then Z.lor f.2 w else w) 0 flags.

(** Different names for different single bits of a word of [n] bits. *)
Definition flags_ok (n : Z) (flags : list (string * Z)) : bool :=
  bool_decide (NoDup flags.*1) && bool_decide (NoDup flags.*2) &&
  forallb (fun f => (f.2 =? 2 ^ Z.log2 f.2) && (Z.log2 f.2 <? n)) flags.

Lemma flag_word_testbit n flags S i :
  forallb (fun f => (f.2 =? 2 ^ Z.log2 f.2) && (Z.log2 f.2 <? n)) flags = true -> 0 <= i ->
  Z.testbit (flag_word flags S) i = true <-> exists f, f ∈ flags /\ f.1 ∈ S /\ f.2 = 2 ^ i.
Proof.
  intros Hok Hi. induction flags as [|[name v] flags IH]; cbn [flag_word fold_right].
  { rewrite Z.bits_0. split; [done|]. by intros (f & Hf%elem_of_nil & _). }
  cbn [forallb] in Hok. rewrite !andb_true_iff, Z.eqb_eq in Hok. destruct Hok as [[Hv _] Hok].
  cbn [fst snd] in *. specialize (IH Hok). setoid_rewrite elem_of_cons.
  case_bool_decide as HS; cbn [fst snd].
  - rewrite Z.lor_spec, orb_true_iff.
    fold (flag_word flags S). rewrite IH, Hv, Z.pow2_bits_eqb by apply Z.log2_nonneg. rewrite Z.eqb_eq. split.
    + intros [He | (f & Hf & HfS & Hfv)]; [|exists f; split_and!; first [by right|done]]. exists (name, 2 ^ Z.log2 v). cbn. split_and!; [by left|done|by rewrite He].
    + intros (f & [-> | Hf] & HfS & Hfv); [left|right; by exists f]. cbn in Hfv. rewrite <-Hv in Hfv. rewrite Hfv. by apply Z.log2_pow2.
  - fold (flag_word flags S). rewrite IH. split.
    + intros (f & Hf & HfS & Hfv). exists f. split_and!; first [by right|done].
    + intros (f & [-> | Hf] & HfS & Hfv); [done|by exists f].
Qed.

Lemma land_pow2 w e : 0 <= e -> (Z.land w (2 ^ e) =? 0) = negb (Z.testbit w e).
Proof.
  intros He. destruct (Z.testbit w e) eqn:Hb; cbn [negb].
  - apply Z.eqb_neq. intros H0. apply (f_equal (fun z => Z.testbit z e)) in H0.
    by rewrite Z.land_spec, Hb, Z.pow2_bits_true, Z.bits_0 in H0.
  - apply Z.eqb_eq, Z.bits_inj'. intros i Hi. rewrite Z.land_spec, Z.bits_0, Z.pow2_bits_eqb by done.
    destruct (Z.eqb_spec e i) as [<-|]; [by rewrite Hb|]. apply andb_false_r.
Qed.

Lemma bits_below w n : 0 <= n -> (forall i, n <= i -> Z.testbit w i = false) -> 0 <= w < 2 ^ n.
Proof.
  intros Hn Hw. assert (w = w mod 2 ^ n) as ->; [|by apply Z.mod_pos_bound, Z.pow_pos_nonneg].
  rewrite <-Z.land_ones by done. apply Z.bits_inj'. intros i Hi.
  rewrite Z.land_spec, Z.testbit_ones_nonneg by done.
  destruct (Z.ltb_spec i n); [by rewrite andb_true_r|]. by rewrite Hw, andb_false_r by done.
Qed.

Lemma flags_word_spec n flags S :
  0 <= n -> flags_ok n flags = true ->
  (forall name v, (name, v) ∈ flags ->
     negb (Z.land (flag_word flags S) v =? 0) = bool_decide (name ∈ S)) /\
  0 <= flag_word flags S < 2 ^ n.
Proof.
  unfold flags_ok. rewrite !andb_true_iff, !bool_decide_eq_true. intros Hn [[Hnames Hvals] Hok].
  assert (forall name v, (name, v) ∈ flags -> v = 2 ^ Z.log2 v /\ Z.log2 v < n) as Hbits.
  { intros name v Hin. rewrite forallb_forall in Hok. apply list_elem_of_In in Hin.
    specialize (Hok _ Hin). cbn in Hok. rewrite andb_true_iff, Z.eqb_eq, Z.ltb_lt in Hok. done. }
  split.
  - intros name v Hin. destruct (Hbits _ _ Hin) as [Hv _].
    rewrite Hv, land_pow2, negb_involutive by apply Z.log2_nonneg.
    apply Bool.eq_iff_eq_true. rewrite (flag_word_testbit n), bool_decide_eq_true by (done || apply Z.log2_nonneg).
    split; [|intros HS; by exists (name, v)].
    intros ([name' v'] & Hin' & HS & Hv'). cbn in *. rewrite <-Hv in Hv'. subst v'.
    assert ((name', v) = (name, v)) as [= <-]; [|done].
    apply list_elem_of_lookup in Hin as [i Hi], Hin' as [j Hj].
    assert (j = i) as ->; [|congruence].
    eapply (NoDup_lookup flags.*2); [done|by rewrite list_lookup_fmap, Hj|by rewrite list_lookup_fmap, Hi].
  - apply bits_below; [done|]. intros i Hi. apply not_true_iff_false.
    rewrite (flag_word_testbit n) by (done || lia). intros ([name v] & Hin & _ & Hv). cbn in Hv.
    destruct (Hbits _ _ Hin) as [_ Hlt]. subst v. rewrite Z.log2_pow2 in Hlt by lia. lia.
Qed.

Section Tables.
Context (sys : sysdefs) (k : kerneldefs) (a : abi).

(** [PFRULE_DROP] has no bit: it is the word without flags. *)
Definition with_bit (flags : list (string * Z)) : list (string * Z) := filter (fun f => f.2 <> 0) flags.

(** The groups of flags, each with a structure and the member that holds them. *)
Definition flag_words : list (list (string * Z) * ctype * list string) :=
  [(PF_LOGS, pf_rule sys a, ["log"]); (PFI_AFLAGS, pf_addr_wrap sys, ["iflags"]);
   (PF_OSFP_ENFLAGS, pf_osfp_entry sys a, ["fp_enflags"]);
   (PF_OSFP_FLAGS, pf_os_fingerprint sys, ["fp_flags"]); (PF_OSFP_FLAGS, pf_osfp_ioctl sys a, ["fp_flags"]);
   (PF_FLUSHES, pf_rule sys a, ["flush"]); (with_bit PFRULE_FLAGS, pf_rule sys a, ["rule_flag"]);
   (PFSS_FLAGS, pf_state_scrub k, ["pfss_flags"]); (PFSTATE_FLAGS, pf_state sys, ["sync_flags"]);
   (PFSYNC_FLAGS, pfsync_state sys a, ["sync_flags"]); (PFR_TFLAGS, pfr_table sys, ["pfrt_flags"]);
   (PFI_IFLAGS, pfi_kif_kernel sys, ["pfik_flags"]); (PFI_IFLAGS, pfi_uif sys a, ["pfik_flags"]);
   (PFDESC_FLAGS, pf_pdesc sys k, ["flags"]); (PFR_FLAGS, pfioc_table sys, ["pfrio_flags"])].

(** The enumerations, each with a structure and the member that holds its codes. *)
Definition code_members : list (list (string * Z) * ctype * list string) :=
  [(PF_ACTIONS, pf_rule sys a, ["action"]); (PF_OPS, pf_port_range, ["op"]); (PF_OPS, pf_rule_uid sys, ["op"]);
   (PF_DEBUGS, pf_status sys, ["debug"]); (PF_CHANGES, pfioc_rule sys a, ["action"]);
   (PF_ROUTES, pf_rule sys a, ["rt"]); (PF_LIMITS, pfioc_limit, ["index"]);
   (PF_POOLS, pf_pool sys a, ["opts"]); (PF_ADDRS, pf_addr_wrap sys, ["type"]);
   (PFR_FEEDBACK, pfr_addr sys, ["pfra_fback"]); (PFTMS, pf_state sys, ["timeout"]);
   (PFTMS, pfioc_tm, ["timeout"]); (pf_extmap, pf_rule sys a, ["extmap"]);
   (pf_extfilter, pf_rule sys a, ["extfilter"]); (PF_STATES, pf_rule sys a, ["keep_state"]);
   (PFUDPS_codes, pf_state_peer, ["state"]); (PFGRE1S_codes, pf_state_peer, ["state"]);
   (PFESPS_codes, pf_state_peer, ["state"]); (PFOTHERS_codes, pf_state_peer, ["state"]);
   (service_classes, pf_rule sys a, ["tos"]); (dscp_codes, pf_rule sys a, ["tos"])].

(** The arrays that an enumeration indexes, and the enumerator that counts their
    elements. *)
Definition code_arrays : list (ctype * list string * list (string * Z) * string) :=
  [(pf_rule sys a, ["timeout"], PFTMS, "PFTM_MAX"); (pf_rule sys a, ["skip"], PF_SKIPS, "PF_SKIP_COUNT");
   (pf_ruleset sys, ["rules"], PF_RULESETS, "PF_RULESET_MAX");
   (pf_status sys, ["counters"], PFRES_codes, "PFRES_MAX");
   (pf_status sys, ["lcounters"], LCNT_codes, "LCNT_MAX");
   (pf_status sys, ["fcounters"], FCNT_codes, "FCNT_MAX");
   (pf_status sys, ["scounters"], SCNT_codes, "SCNT_MAX");
   (pfr_astats sys a, ["pfras_packets"], PFR_DIRS, "PFR_DIR_MAX");
   (pfr_tstats sys a, ["pfrts_packets"], PFR_DIRS, "PFR_DIR_MAX");
   (pfr_tstats sys a, ["pfrts_refcnt"], PFR_REFCNTS, "PFR_REFCNT_MAX");
   (pfr_kentry sys k a, ["pfrke_bytes"], PFR_DIRS, "PFR_DIR_MAX")].
End Tables.

(** The member at a path. *)
Definition member_bits (a : abi) (t : ctype) (path : list string) : Z :=
  match offsetof a t path with Some (_, mt) => 8 * sizeof a mt | None => 0 end.

(** C36: the flags of a word are told apart: whatever flags of a group are set in a
    word, the test of a flag with [&] tells whether that one was, and the word fits
    the member of the structure that holds it, in every data model. *)
Theorem flags_recovered sys k a flags t path (S : list string)
    (Hsys : Darwin sys) (Hk : DarwinKernel sys k) (Ha : a ∈ data_models)
    (Hin : (flags, t, path) ∈ flag_words sys k a) :
  (forall name v, (name, v) ∈ flags ->
     negb (Z.land (flag_word flags S) v =? 0) = bool_decide (name ∈ S)) /\
  0 <= flag_word flags S < 2 ^ member_bits a t path.
Proof.
  apply darwin_unique in Hsys as ->. apply darwin_kernel_unique in Hk as ->.
  assert (forallb (fun '(flags, t, path) => (0 <=? member_bits a t path) &&
    flags_ok (member_bits a t path) flags) (flag_words darwin darwin_kernel a) = true) as Hall.
  { clear Hin. pattern a. apply in_data_models; [done|vm_compute; reflexivity..]. }
  rewrite forallb_forall in Hall. apply list_elem_of_In, Hall in Hin.
  rewrite andb_true_iff, Z.leb_le in Hin. by apply flags_word_spec; apply Hin.
Qed.

(** The codes of a group are different and fit a word of [n] bits. *)
Definition codes_ok (n : Z) (codes : list (string * Z)) : bool :=
  bool_decide (NoDup codes.*1) && bool_decide (NoDup codes.*2) &&
  forallb (fun c => (0 <=? c.2) && (c.2 <? 2 ^ n)) codes.
(** The array at [path] has as many elements as the enumerator [max] says, and the
    enumerators are indices exactly when they come before it. *)
Definition array_ok (a : abi) (t : ctype) (path : list string) (codes : list (string * Z)) (max : string) : bool :=
  match offsetof a t path, list_find (fun c => c.1 = max) codes with
  | Some (_, TArr _ n), Some (i, (_, m)) =>
      (n =? m) && forallb (fun c => c.2 <? n) (take i codes) && forallb (fun c => n <=? c.2) (drop i codes)
  | _, _ => false
  end.

Definition code_members_ok (a : abi) (c : list (string * Z) * ctype * list string) : bool :=
  let '(codes, t, path) := c in codes_ok (member_bits a t path) codes.
Definition code_arrays_ok (a : abi) (c : ctype * list string * list (string * Z) * string) : bool :=
  let '(t, path, codes, max) := c in array_ok a t path codes max.

(** ** What the tables say *)

Lemma code_tables_ok a : a ∈ data_models ->
  forallb (code_members_ok a) (code_members darwin a) = true /\
  forallb (code_arrays_ok a) (code_arrays darwin darwin_kernel a) = true.
Proof. intros Ha. pattern a. apply in_data_models; [done|split; vm_compute; reflexivity..]. Qed.

Lemma codes_ok_spec n codes :
  codes_ok n codes = true ->
  NoDup codes.*1 /\ NoDup codes.*2 /\ Forall (fun c => 0 <= c.2 < 2 ^ n) codes.
Proof.
  unfold codes_ok. rewrite !andb_true_iff, !bool_decide_eq_true, forallb_forall.
  intros [[H1 H2] H3]. split_and!; [done..|]. apply Forall_forall. intros c Hc%list_elem_of_In%H3.
  by rewrite andb_true_iff, Z.leb_le, Z.ltb_lt in Hc.
Qed.

Lemma array_ok_spec a t path codes max :
  array_ok a t path codes max = true ->
  exists off elt n j, offsetof a t path = Some (off, TArr elt n) /\ codes !! j = Some (max, n) /\
    forall i c, codes !! i = Some c -> c.2 < n <-> (i < j)%nat.
Proof.
  unfold array_ok. destruct (offsetof a t path) as [[off [| | |elt n|]]|]; try done.
  destruct (list_find _ codes) as [[j [name m]]|] eqn:Hf; [|done].
  apply list_find_Some in Hf as (Hj & Hname & _). cbn in Hname. subst name.
  rewrite !andb_true_iff, Z.eqb_eq, !forallb_forall. intros [[-> Hlt] Hge].
  exists off, elt, m, j. split_and!; [done..|]. intros i c Hi.
  destruct (decide (i < j)%nat) as [Hij|Hij]; split; try done; intros Hc.
  - apply Z.ltb_lt, Hlt, list_elem_of_In. eapply list_elem_of_lookup_2. by rewrite lookup_take_lt.
  - assert (c ∈ drop j codes) as Hin%list_elem_of_In%Hge%Z.leb_le; [|lia].
    eapply (list_elem_of_lookup_2 _ (i - j)). rewrite lookup_drop. by replace (j + (i - j))%nat with i by lia.
Qed.

(** Enumerations fit. The codes of every enumeration are different and fit the
    member that holds them; an array that an enumeration indexes has as many elements
    as its enumerator for the maximum says, and just the enumerators before that one
    are indices; the tables of names have a name for each of those; and each
    timeout that a rule keeps has a default value, the limits of the adaptive
    timeouts apart, which are limits of the number of states. *)
Theorem enumerations_fit sys k a
    (Hsys : Darwin sys) (Hk : DarwinKernel sys k) (Ha : a ∈ data_models) :
  (forall codes t path, (codes, t, path) ∈ code_members sys a ->
     NoDup codes.*1 /\ NoDup codes.*2 /\ Forall (fun c => 0 <= c.2 < 2 ^ member_bits a t path) codes) /\
  (forall t path codes max, (t, path, codes, max) ∈ code_arrays sys k a ->
     exists off elt n j, offsetof a t path = Some (off, TArr elt n) /\ codes !! j = Some (max, n) /\
       forall i c, codes !! i = Some c -> c.2 < n <-> (i < j)%nat) /\
  (code PFRES_codes "PFRES_MAX" = Some (Z.of_nat (length PFRES_NAMES)) /\
   code LCNT_codes "LCNT_MAX" = Some (Z.of_nat (length LCNT_NAMES)) /\
   code PFUDPS_codes "PFUDPS_NSTATES" = Some (Z.of_nat (length PFUDPS_NAMES)) /\
   code PFGRE1S_codes "PFGRE1S_NSTATES" = Some (Z.of_nat (length PFGRE1S_NAMES)) /\
   code PFESPS_codes "PFESPS_NSTATES" = Some (Z.of_nat (length PFESPS_NAMES)) /\
   code PFOTHERS_codes "PFOTHERS_NSTATES" = Some (Z.of_nat (length PFOTHERS_NAMES))) /\
  (forall name v, (name, v) ∈ PFTMS ->
     v < PFTM_MAX <-> name ∈ PFTM_defaults.*1 \/ name ∈ ["PFTM_ADAPTIVE_START"; "PFTM_ADAPTIVE_END"]) /\
  PFSTATE_ADAPT_START < PFSTATE_ADAPT_END.
Proof.
  apply darwin_unique in Hsys as ->. apply darwin_kernel_unique in Hk as ->.
  destruct (code_tables_ok a Ha) as [Hm Har]. rewrite forallb_forall in Hm, Har. split_and!; try done.
  - intros codes t path Hin%list_elem_of_In%Hm. by apply codes_ok_spec.
  - intros t path codes max Hin%list_elem_of_In%Har. by apply array_ok_spec.
  - assert (Forall (fun c => c.2 < PFTM_MAX <->
      c.1 ∈ PFTM_defaults.*1 \/ c.1 ∈ ["PFTM_ADAPTIVE_START"; "PFTM_ADAPTIVE_END"]) PFTMS) as H by by_compute.
    intros name v Hin. rewrite Forall_forall in H. apply (H _ Hin).
Qed.

(** * Members *)

Section Owners.
Context (sys : sysdefs) (a : abi).

(** The structures whose members the macros stand for. *)
Definition macro_owner (name : string) : ctype :=
  if String.prefix "pfrkt_" name then pfr_ktable sys a
  else if String.prefix "pfrts_" name then pfr_tstats sys a
  else if String.prefix "pfrio_" name then pfioc_table sys
  else if String.prefix "pfra_" name then pfr_addr sys
  else if String.prefix "rn_" name then radix_node a
  else if String.prefix "rm_" name then radix_mask
  else pf_addr sys.
End Owners.

(** Every macro that stands for a member, macros inside it replaced, names a
    member of its structure, but for one: [pfrkt_ruleset] leads to [pfrt_ruleset],
    which [pfr_table] does not have. Nor has an address the member [v4] that
    [PF_ACPY] names when only IPv4 is compiled in; what it means is [v4addr], the
    first four bytes. *)
Theorem member_macros_resolve sys k a
    (Hsys : Darwin sys) (Hk : DarwinKernel sys k) (Ha : a ∈ data_models) :
  (forall name path, (name, path) ∈ member_macros ->
     is_Some (offsetof a (macro_owner sys a name) (macro_path [name])) <-> name <> "pfrkt_ruleset") /\
  offsetof a (pf_addr sys) (macro_path PF_ACPY_4_member) = None /\
  offsetof a (pf_addr sys) (macro_path ["v4addr"; "s_addr"]) = Some (0, TInt 4).
Proof.
  apply darwin_unique in Hsys as ->. apply darwin_kernel_unique in Hk as ->.
  assert (Forall (fun m => is_Some (offsetof a (macro_owner darwin a m.1) (macro_path [m.1])) <->
    m.1 <> "pfrkt_ruleset") member_macros) as Hall.
  { pattern a. apply in_data_models; [done|by_compute..]. }
  split; [|split; pattern a; by apply in_data_models].
  intros name path Hin. rewrite Forall_forall in Hall. apply (Hall _ Hin).
Qed.

(** * The structures of the kernel *)

(** The variants of a socket address agree on their length and family, and the
    largest is the one of IPv6. *)
Lemma sockaddr_union_heads a : a ∈ data_models ->
  sizeof a (sockaddr_union darwin_kernel) = 28 /\
  Forall (fun '(v, p) =>
    offsetof a (sockaddr_union darwin_kernel) [v; p +:+ "_len"] = Some (0, TInt 1) /\
    offsetof a (sockaddr_union darwin_kernel) [v; p +:+ "_family"] = Some (1, TInt 1))
    [("sa", "sa"); ("sin", "sin"); ("sin6", "sin6")].
Proof. intros Ha. pattern a. apply in_data_models; [done|split; [done|by repeat constructor]..]. Qed.

(** A node of a radix tree is found at the start of its entry, and the statistics at
    the start of their table: the pointers can be cast. *)
Lemma kernel_casts a : a ∈ data_models ->
  offsetof a (pfr_kentry darwin darwin_kernel a) ["pfrke_node"] = Some (0, TArr (radix_node a) 2) /\
  offsetof a (pfr_ktable darwin a) ["pfrkt_ts"; "pfrts_t"] = Some (0, pfr_table darwin).
Proof. intros Ha. pattern a. apply in_data_models; [done|by split_and!..]. Qed.

(** * Words that hold a number and flags *)

(** The type of a pool and its sticky bit. *)
Lemma pool_opts name v (sticky : bool) : (name, v) ∈ PF_POOLS ->
  let opts := Z.lor v (if sticky then PF_POOL_STICKYADDR else 0) in
  Z.land opts PF_POOL_TYPEMASK = v /\ (Z.land opts PF_POOL_STICKYADDR =? 0) = negb sticky.
Proof.
  intros Hin. assert (Forall (fun p => forall b : bool,
    Z.land (Z.lor p.2 (if b then PF_POOL_STICKYADDR else 0)) PF_POOL_TYPEMASK = p.2 /\
    (Z.land (Z.lor p.2 (if b then PF_POOL_STICKYADDR else 0)) PF_POOL_STICKYADDR =? 0) = negb b) PF_POOLS) as H
    by (repeat constructor; by destruct b).
  rewrite Forall_forall in H. apply (H _ Hin).
Qed.

(** The window scale of a peer, at most 14, and the flag that it was seen. *)
Lemma wscale_recovered v (seen : bool) : 0 <= v < 16 ->
  let w := Z.lor v (if seen then PF_WSCALE_FLAG else 0) in
  Z.land w PF_WSCALE_MASK = v /\ (Z.land w PF_WSCALE_FLAG =? 0) = negb seen.
Proof.
  intros Hv. assert (v ∈ seqZ 0 16) as Hin by (apply elem_of_seqZ; lia).
  assert (Forall (fun v => forall b : bool, let w := Z.lor v (if b then PF_WSCALE_FLAG else 0) in
    Z.land w PF_WSCALE_MASK = v /\ (Z.land w PF_WSCALE_FLAG =? 0) = negb b) (seqZ 0 16)) as H
    by (repeat constructor; by destruct b).
  rewrite Forall_forall in H. apply (H _ Hin).
Qed.

(** The masks of the flags of a table: what a program may set, and what the kernel
    keeps, which together are all. *)
Lemma table_masks :
  flag_word PFR_TFLAGS ["PFR_TFLAG_PERSIST"; "PFR_TFLAG_CONST"] = PFR_TFLAG_USRMASK /\
  flag_word PFR_TFLAGS ["PFR_TFLAG_ACTIVE"; "PFR_TFLAG_INACTIVE"; "PFR_TFLAG_REFERENCED";
    "PFR_TFLAG_REFDANCHOR"] = PFR_TFLAG_SETMASK /\
  Z.land PFR_TFLAG_USRMASK PFR_TFLAG_SETMASK = 0 /\
  flag_word PFR_TFLAGS PFR_TFLAGS.*1 = PFR_TFLAG_ALLMASK /\
  Z.lor PFR_TFLAG_USRMASK PFR_TFLAG_SETMASK = PFR_TFLAG_ALLMASK /\
  flag_word PFR_FLAGS (take 7 PFR_FLAGS.*1) = PFR_FLAG_ALLMASK /\
  flag_word PFI_AFLAGS (take 3 PFI_AFLAGS.*1) = PFI_AFLAG_MODEMASK.
Proof. by split_and!. Qed.

(** The code of an assured-forwarding class [x] with the drop precedence [y]. *)
Lemma dscp_classes (x y : Z) : 1 <= x <= 4 -> 1 <= y <= 3 ->
  exists name v, (name, v) ∈ dscp_codes /\
    Z.shiftr (Z.land v AF_CLASSMASK) 5 = x /\ Z.shiftr (Z.land v AF_DROPPRECMASK) 3 = y /\
    Z.land v DSCP_MASK = v /\ Z.land v DSCP_CUMASK = 0.
Proof.
  intros Hx Hy. assert (v := drop 1 dscp_codes !! Z.to_nat ((x - 1) * 3 + (y - 1))).
  assert (x = 1 \/ x = 2 \/ x = 3 \/ x = 4) as Hx' by lia. assert (y = 1 \/ y = 2 \/ y = 3) as Hy' by lia.
  destruct Hx' as [->|[->|[->| ->]]], Hy' as [->|[->| ->]];
    (match goal with |- context [Z.shiftr (Z.land _ AF_CLASSMASK) 5 = ?x /\ Z.shiftr (Z.land _ AF_DROPPRECMASK) 3 = ?y /\ _] =>
       let p := eval vm_compute in (nth (Z.to_nat ((x - 1) * 3 + (y - 1))) (drop 1 dscp_codes) ("", 0)) in
       match p with (?n, ?v) => exists n, v end end); split_and!; (reflexivity || by_compute).
Qed.

(** A limit up to the maximum can be kept in thousandths in 32 bits, and no other. *)
Lemma threshold_fits limit : 0 <= limit ->
  limit * PF_THRESHOLD_MULT < 2 ^ 32 <-> limit <= PF_THRESHOLD_MAX.
Proof. change PF_THRESHOLD_MAX with 4294967. unfold PF_THRESHOLD_MULT. lia. Qed.

(** Twenty-one options of a SYN packet fit a fingerprint. *)
Lemma tcpopts_fit a : a ∈ data_models ->
  PF_OSFP_MAX_OPTS a = 21 /\ Forall (fun o => 0 <= o.2 < 2 ^ PF_OSFP_TCPOPT_BITS) PF_OSFP_TCPOPTS.
Proof. intros Ha. pattern a. apply in_data_models; [done|split; [done|by_compute]..]. Qed.

(** Entries whose arrays are filled are compared as a whole. *)
Lemma PF_OSFP_ENTRY_EQ_spec (a b : osfp_entry) :
  Forall (fun e => length (fp_class_nm e) = 32%nat /\ length (fp_version_nm e) = 32%nat /\
    length (fp_subtype_nm e) = 32%nat) [a; b] ->
  PF_OSFP_ENTRY_EQ a b = true <-> a = b.
Proof.
  rewrite !Forall_cons. destruct a, b. cbn. intros ((Ha1 & Ha2 & Ha3) & (Hb1 & Hb2 & Hb3) & _).
  unfold PF_OSFP_ENTRY_EQ, memcmp_eq, PF_OSFP_LEN. cbn.
  rewrite !take_ge by (cbn; lia). rewrite !andb_true_iff, !bool_decide_eq_true, Z.eqb_eq. naive_solver.
Qed.

(** The fields and the spare bits of a packed fingerprint fill its 32 bits. *)
Lemma fingerprint_bits :
  _FP_RESERVED_BIT + _FP_UNUSED_BITS + _FP_CLASS_BITS + _FP_VERSION_BITS + _FP_SUBTYPE_BITS = 32.
Proof. reflexivity. Qed.

(** * Witnesses *)

Lemma flags_recovered_witness :
  let w := flag_word (with_bit PFRULE_FLAGS) ["PFRULE_NODF"; "PFRULE_PFM"] in
  w = 0x20100 /\ negb (Z.land w 0x100 =? 0) = true /\ negb (Z.land w 0x8 =? 0) = false.
Proof.
  destruct (flags_recovered darwin darwin_kernel LP64 (with_bit PFRULE_FLAGS) (pf_rule darwin LP64) ["rule_flag"]
    ["PFRULE_NODF"; "PFRULE_PFM"] darwin_ok darwin_kernel_ok ltac:(by_compute)) as [H _].
  { do 6 right. left. }
  split; [reflexivity|]. split.
  - rewrite (H "PFRULE_NODF" 0x100) by by_compute. reflexivity.
  - rewrite (H "PFRULE_RETURN" 0x8) by by_compute. reflexivity.
Defined.

Lemma enumerations_fit_witness :
  (26 < PFTM_MAX <-> "PFTM_MAX" ∈ PFTM_defaults.*1 \/ "PFTM_MAX" ∈ ["PFTM_ADAPTIVE_START"; "PFTM_ADAPTIVE_END"]).
Proof.
  destruct (enumerations_fit darwin darwin_kernel ILP32_arm darwin_ok darwin_kernel_ok ltac:(by_compute))
    as (_ & _ & _ & H & _). apply H. by_compute.
Defined.

Lemma member_macros_resolve_witness :
  is_Some (offsetof ILP32_i386 (macro_owner darwin ILP32_i386 "pfrkt_name") (macro_path ["pfrkt_name"])).
Proof.
  destruct (member_macros_resolve darwin darwin_kernel ILP32_i386 darwin_ok darwin_kernel_ok ltac:(by_compute))
    as [H _]. apply (H "pfrkt_name" ["pfrkt_t"; "pfrt_name"]); [by_compute|discriminate].
Defined.
