(* ===== verification/Interpose.v ===== *)
(** [client-hook/dyld-interposing.h] and its use at the end of
    [client-hook/client-hook.cpp]: the pairs of functions that the dynamic linker of
    macOS reads from a section of the hook. The linker is not in the repository. *)

From stdpp Require Import base list strings.
From Stdlib Require Import ZArith Lia.
From S2P Require Import Prelude CLayout.

#[local] Open Scope string_scope.
#[local] Open Scope Z_scope.

(** The structure that the macro defines. *)
Definition interpose_tuple : ctype := struct [fld "replacement" TPtr; fld "replacee" TPtr].

(** What the macro writes to the section: the addresses of the two functions, in the
    order of the members. *)
Definition DYLD_INTERPOSE (replacement replacee : Z) (section : list Z) : list Z :=
  section ++ [replacement; replacee].

(** The section of the hook, the functions being at these addresses. *)
Definition interpose_section (addr : string -> Z) : list Z :=
  DYLD_INTERPOSE (addr "my_getaddrinfo") (addr "getaddrinfo")
    (DYLD_INTERPOSE (addr "my_connect") (addr "connect") []).

(** The linker takes the section as an array of pairs of pointers. *)
Fixpoint tuples (section : list Z) : list (Z * Z) :=
  match section with
  | replacement :: replacee :: section => (replacee, replacement) :: tuples section
  | _ => []
  end.

(** A tuple has no padding, so the tuples of the section lie one behind the other,
    and each of the two functions of the system has its replacement. *)
Lemma section_tuples (addr : string -> Z) a : 0 < abi_ptr a ->
  sizeof a interpose_tuple = 2 * abi_ptr a /\
  tuples (interpose_section addr) =
    [(addr "connect", addr "my_connect"); (addr "getaddrinfo", addr "my_getaddrinfo")].
Proof.
  intros Ha. split; [|done]. unfold sizeof, interpose_tuple, struct. cbn [layout fst snd fld].
  unfold place, member_align. cbn [fst snd].
  rewrite !(Z.max_r 0) by lia. rewrite (align_up_id 0), Z.add_0_l by (done || by exists 0).
  rewrite (align_up_id (abi_ptr a) (abi_ptr a)) by (lia || exists 1; lia).
  rewrite align_up_id; [lia|lia|]. replace (1 `max` abi_ptr a `max` abi_ptr a) with (abi_ptr a) by lia. exists 2. lia.
Qed.
