(* ===== verification/Transport.v ===== *)
(** The transport formats of [control/api.go], as the values that Go's package
    [encoding/json] makes of them and reads into them. A body is the value its text
    stands for; the text itself, with its escapes, is left to the package. *)

From stdpp Require Import base list strings.
From Stdlib Require Import ZArith Lia Ascii.
From S2P Require Import Prelude Rules.

#[local] Open Scope string_scope.
#[local] Open Scope Z_scope.

(** * Values *)

(** [JReal] is a number with a fraction or an exponent, which no integer takes. *)
Inductive json :=
  | JNull
  | JBool (b : bool)
  | JNum (z : Z)
  | JReal
  | JStr (s : string)
  | JArr (js : list json)
  | JObj (kvs : list (string * json)).

(** [None] is a body that is not the text of one value, the empty body say. *)
Abbreviation body := (option json).

(** * Reading *)

(** What reads a value into a variable that has a value already: the new value, or
    an error. Null leaves everything but slices and pointers alone. *)
Definition decoder (A : Type) : Type := json -> A -> option A.

Definition dec_bool : decoder bool := fun j old =>
  match j with JBool b => Some b | JNull => Some old | _ => None end.
Definition dec_string : decoder string := fun j old =>
  match j with JStr s => Some s | JNull => Some old | _ => None end.
(** An [int] of 64 bits. *)
Definition dec_int : decoder Z := fun j old =>
  match j with
  | JNum z => if (- 2 ^ 63 <=? z) && (z <? 2 ^ 63) then Some z else None
  | JNull => Some old
  | _ => None
  end.
Definition dec_ptr {A} (zero : A) (d : decoder A) : decoder (option A) := fun j old =>
  match j with
  | JNull => Some None
  | _ => a ← d j (default zero old); Some (Some a)
  end.
(** A slice is nil or has elements; it is read into fresh elements. *)
Abbreviation slice A := (option (list A)).
Definition dec_slice {A} (zero : A) (d : decoder A) : decoder (slice A) := fun j old =>
  match j with
  | JNull => Some None
  | JArr js => l ← mapM (fun j => d j zero) js; Some (Some l)
  | _ => None
  end.

(** A key is taken for a field of that name, or else of that name but for the case
    of its letters. *)
Definition lower (c : ascii) : ascii :=
  let n := nat_of_ascii c in
  if ((65 <=? n) && (n <=? 90))%nat then ascii_of_nat (n + 32) else c.
Fixpoint fold_case (s : string) : string :=
  match s with "" => "" | String c s => String (lower c) (fold_case s) end.

Definition field (A : Type) : Type := string * decoder A.
Definition find_field {A} (fs : list (field A)) (key : string) : option (decoder A) :=
  match list_find (fun f => f.1 = key) fs with
  | Some (_, f) => Some f.2
  | None => '(_, f) ← list_find (fun f => fold_case f.1 = fold_case key) fs; Some f.2
  end.

(** The members of an object in their order; keys without a field are skipped. *)
Fixpoint dec_members {A} (fs : list (field A)) (kvs : list (string * json)) (a : A) : option A :=
  match kvs with
  | [] => Some a
  | (key, j) :: kvs =>
      match find_field fs key with
      | Some d => a ← d j a; dec_members fs kvs a
      | None => dec_members fs kvs a
      end
  end.
Definition dec_struct {A} (fs : list (field A)) : decoder A := fun j a =>
  match j with
  | JObj kvs => dec_members fs kvs a
  | JNull => Some a
  | _ => None
  end.

(** A field, from the reader of its type and the way to get and set it. *)
Definition fld {A B} (key : string) (d : decoder B) (get : A -> B) (set : B -> A -> A) : field A :=
  (key, fun j a => b ← d j (get a); Some (set b a)).

Lemma dec_member {A B} (fs : list (field A)) key j kvs a (d : decoder B) get set b :
  find_field fs key = Some (fld key d get set).2 -> d j (get a) = Some b ->
  dec_members fs ((key, j) :: kvs) a = dec_members fs kvs (set b a).
Proof. intros Hf Hd. cbn [dec_members]. rewrite Hf. cbn. by rewrite Hd. Qed.

(** * Writing *)

Definition enc_slice {A} (e : A -> json) (l : slice A) : json :=
  match l with None => JNull | Some l => JArr (e <$> l) end.
(** [omitempty]. *)
Definition omit_string (key s : string) : list (string * json) :=
  if bool_decide (s = "") then [] else [(key, JStr s)].

(** * The types of the interface *)

(** A type that is sent: how it is written and read, and its zero value. Values that
    fit their Go types are read back from what was written. *)
Class Transport (A : Type) := {
  Marshal : A -> json;
  Decode : decoder A;
  zero : A;
  fits : A -> Prop;
  Decode_Marshal a : fits a -> Decode (Marshal a) zero = Some a;
}.

Definition is_int (z : Z) : Prop := - 2 ^ 63 <= z < 2 ^ 63.

Lemma dec_int_fits z old : is_int z -> dec_int (JNum z) old = Some z.
Proof.
  unfold dec_int, is_int. intros Hz.
  by rewrite (proj2 (Z.leb_le _ _)), (proj2 (Z.ltb_lt _ _)) by lia.
Qed.

Lemma dec_slice_fits `{Transport A} l old :
  Forall fits (default [] l) -> dec_slice zero Decode (enc_slice Marshal l) old = Some l.
Proof.
  destruct l as [l|]; [|done]. cbn [default from_option id enc_slice dec_slice]. intros Hl.
  assert (mapM (fun j => Decode j zero) (Marshal <$> l) = Some l) as ->; [|done].
  induction Hl as [|a l Ha Hl IH]; [done|]. cbn. rewrite Decode_Marshal by done. cbn. by rewrite IH.
Qed.

Record Health := mkHealth { Healthy : bool }.
Definition Health_fields : list (field Health) :=
  [fld "healthy" dec_bool Healthy (fun b _ => mkHealth b)].
#[export, refine] Instance Health_transport : Transport Health := {|
  Marshal h := JObj [("healthy", JBool (Healthy h))];
  Decode := dec_struct Health_fields;
  zero := mkHealth false;
  fits _ := True;
|}.
Proof. by intros []. Defined.

Record Proxy := mkProxy { ProxyType : string; ProxyPort : Z; ProxyParameters : string }.
Definition Proxy_fields : list (field Proxy) :=
  [fld "type" dec_string ProxyType (fun s p => mkProxy s (ProxyPort p) (ProxyParameters p));
   fld "port" dec_int ProxyPort (fun z p => mkProxy (ProxyType p) z (ProxyParameters p));
   fld "params" dec_string ProxyParameters (fun s p => mkProxy (ProxyType p) (ProxyPort p) s)].
#[export, refine] Instance Proxy_transport : Transport Proxy := {|
  Marshal p := JObj [("type", JStr (ProxyType p)); ("port", JNum (ProxyPort p)); ("params", JStr (ProxyParameters p))];
  Decode := dec_struct Proxy_fields;
  zero := mkProxy "" 0 "";
  fits p := is_int (ProxyPort p);
|}.
Proof.
  intros [t z p] Hz. cbn [dec_struct Proxy_fields].
  erewrite dec_member; [|reflexivity..]. erewrite dec_member; [|reflexivity|by apply dec_int_fits].
  by (erewrite dec_member; [|reflexivity..]).
Defined.

(** The embedded [Health] gives its field to the object. *)
Record Status := mkStatus { status_Healthy : bool; Proxies : slice Proxy }.
Definition Status_fields : list (field Status) :=
  [fld "healthy" dec_bool status_Healthy (fun b s => mkStatus b (Proxies s));
   fld "proxies" (dec_slice zero Decode) Proxies (fun l s => mkStatus (status_Healthy s) l)].
#[export, refine] Instance Status_transport : Transport Status := {|
  Marshal s := JObj [("healthy", JBool (status_Healthy s)); ("proxies", enc_slice Marshal (Proxies s))];
  Decode := dec_struct Status_fields;
  zero := mkStatus false None;
  fits s := Forall fits (default [] (Proxies s));
|}.
Proof.
  intros [h l] Hl. cbn [dec_struct Status_fields].
  erewrite dec_member; [|reflexivity..]. by erewrite dec_member; [|reflexivity|by apply dec_slice_fits].
Defined.

Record SSHKey := mkSSHKey { key_Type : string; PublicKey : string; PrivateKey : string; key_Passphrase : string }.
Definition SSHKey_fields : list (field SSHKey) :=
  [fld "type" dec_string key_Type (fun s k => mkSSHKey s (PublicKey k) (PrivateKey k) (key_Passphrase k));
   fld "public_key" dec_string PublicKey (fun s k => mkSSHKey (key_Type k) s (PrivateKey k) (key_Passphrase k));
   fld "private_key" dec_string PrivateKey (fun s k => mkSSHKey (key_Type k) (PublicKey k) s (key_Passphrase k));
   fld "passphrase" dec_string key_Passphrase (fun s k => mkSSHKey (key_Type k) (PublicKey k) (PrivateKey k) s)].
#[export, refine] Instance SSHKey_transport : Transport SSHKey := {|
  Marshal k := JObj ([("type", JStr (key_Type k)); ("public_key", JStr (PublicKey k))] ++
    omit_string "private_key" (PrivateKey k) ++ omit_string "passphrase" (key_Passphrase k));
  Decode := dec_struct SSHKey_fields;
  zero := mkSSHKey "" "" "" "";
  fits _ := True;
|}.
Proof. intros [t pu pr pa] _. unfold omit_string. cbn. by repeat case_bool_decide; subst. Defined.

Record SSHTarget := mkSSHTarget { URI : string }.
#[export, refine] Instance SSHTarget_transport : Transport SSHTarget := {|
  Marshal t := JObj [("uri", JStr (URI t))];
  Decode := dec_struct [fld "uri" dec_string URI (fun s _ => mkSSHTarget s)];
  zero := mkSSHTarget "";
  fits _ := True;
|}.
Proof. by intros []. Defined.

#[export, refine] Instance Rule_transport : Transport control_Rule := {|
  Marshal r := JObj [("cidr", JStr (CIDR r)); ("dialer", JStr (control_Dialer r))];
  Decode := dec_struct
    [fld "cidr" dec_string CIDR (fun s r => mkControlRule s (control_Dialer r));
     fld "dialer" dec_string control_Dialer (fun s r => mkControlRule (CIDR r) s)];
  zero := mkControlRule "" "";
  fits _ := True;
|}.
Proof. by intros []. Defined.

Record Dialer := mkDialer { Name : string; dialer_Type : string; Destination : string }.
#[export, refine] Instance Dialer_transport : Transport Dialer := {|
  Marshal d := JObj [("name", JStr (Name d)); ("type", JStr (dialer_Type d)); ("destination", JStr (Destination d))];
  Decode := dec_struct
    [fld "name" dec_string Name (fun s d => mkDialer s (dialer_Type d) (Destination d));
     fld "type" dec_string dialer_Type (fun s d => mkDialer (Name d) s (Destination d));
     fld "destination" dec_string Destination (fun s d => mkDialer (Name d) (dialer_Type d) s)];
  zero := mkDialer "" "" "";
  fits _ := True;
|}.
Proof. by intros []. Defined.

Record ConnectIn := mkConnectIn { in_ID : string; in_Passphrase : string; AcceptHostKey : option bool }.
#[export, refine] Instance ConnectIn_transport : Transport ConnectIn := {|
  Marshal i := JObj ([("id", JStr (in_ID i)); ("passphrase", JStr (in_Passphrase i))] ++
    match AcceptHostKey i with None => [] | Some b => [("accept_host_key", JBool b)] end);
  Decode := dec_struct
    [fld "id" dec_string in_ID (fun s i => mkConnectIn s (in_Passphrase i) (AcceptHostKey i));
     fld "passphrase" dec_string in_Passphrase (fun s i => mkConnectIn (in_ID i) s (AcceptHostKey i));
     fld "accept_host_key" (dec_ptr false dec_bool) AcceptHostKey
       (fun b i => mkConnectIn (in_ID i) (in_Passphrase i) b)];
  zero := mkConnectIn "" "" None;
  fits _ := True;
|}.
Proof. by intros [? ? []]. Defined.

(** The status is sent as its text. *)
Record ConnectOut := mkConnectOut {
  out_ID : string; out_Status : string; Messages : slice string; HostKeyFingerprint : string }.
#[export, refine] Instance string_transport : Transport string := {|
  Marshal := JStr; Decode := dec_string; zero := ""; fits _ := True |}.
Proof. done. Defined.
#[export, refine] Instance ConnectOut_transport : Transport ConnectOut := {|
  Marshal o := JObj ([("id", JStr (out_ID o)); ("status", JStr (out_Status o));
    ("messages", enc_slice Marshal (Messages o))] ++ omit_string "host_key_fingerprint" (HostKeyFingerprint o));
  Decode := dec_struct
    [fld "id" dec_string out_ID (fun s o => mkConnectOut s (out_Status o) (Messages o) (HostKeyFingerprint o));
     fld "status" dec_string out_Status (fun s o => mkConnectOut (out_ID o) s (Messages o) (HostKeyFingerprint o));
     fld "messages" (dec_slice zero Decode) Messages
       (fun l o => mkConnectOut (out_ID o) (out_Status o) l (HostKeyFingerprint o));
     fld "host_key_fingerprint" dec_string HostKeyFingerprint
       (fun s o => mkConnectOut (out_ID o) (out_Status o) (Messages o) s)];
  zero := mkConnectOut "" "" None "";
  fits _ := True;
|}.
Proof.
  intros [i st l f] _. cbn [dec_struct app].
  do 2 (erewrite dec_member; [|reflexivity..]).
  erewrite dec_member; [|reflexivity|by apply dec_slice_fits, Forall_true].
  unfold omit_string. cbn. by case_bool_decide; subst.
Defined.
#[export, refine] Instance slice_transport `{Transport A} : Transport (slice A) := {|
  Marshal := enc_slice Marshal; Decode := dec_slice zero Decode; zero := None;
  fits l := Forall fits (default [] l) |}.
Proof. intros l. apply dec_slice_fits. Defined.
