(* ===== verification/Control.v ===== *)
(** The control interface, [control/api.go], with the server of [control/server.go]
    that offers it over HTTP and the client of [control/client.go] that gives the same
    interface back. The router of the library gin is a parameter; what an HTTP
    exchange carries is a method, a path and a body. *)

From stdpp Require Import base gmap list strings.
From Stdlib Require Import ZArith Lia Ascii.
From S2P Require Import Prelude Decimal Dialers Rules Transport.

#[local] Open Scope string_scope.
#[local] Open Scope Z_scope.

(** * The interface

    [None], and [false] of the operations without a result, is an error. Two
    operations give a value with their error, which the server sends all the same. *)

Class API (S : Type) := {
  api_Health : G S (bool * bool);
  api_Status : G S (Status * bool);
  api_Stop : G S bool;
  api_AddSSHKey : string -> string -> G S bool;
  api_ListKeys : G S (option (slice SSHKey));
  api_StartProxy : string -> string -> G S (option Proxy);
  api_ListProxies : G S (option (slice Proxy));
  api_AddDialer : string -> G S bool;
  api_ListDialers : G S (option (slice Dialer));
  api_Connect : ConnectIn -> G S (option ConnectOut);
  api_ListRules : G S (option (slice control_Rule));
  api_AddRule : control_Rule -> G S bool;
}.

(** Ports are integers of Go. *)
Class APIFits (S : Type) `{API S} : Prop := {
  fits_Status s st ok s' : api_Status s = (Done (st, ok), s') -> fits st;
  fits_StartProxy t p s v s' : api_StartProxy t p s = (Done (Some v), s') -> fits v;
  fits_ListProxies s v s' : api_ListProxies s = (Done (Some v), s') -> fits v;
}.

(** * The server *)

Record response := Response { code : Z; response_body : body }.

(** A handler that does not answer leaves an empty answer with the code 200. *)
Definition no_answer : response := Response 200 None.
Definition AbortWithStatusJSON `{Transport A} (code : Z) (a : A) : response :=
  Response code (Some (Marshal a)).

Section Server.
Context {S : Type} `{API S}.

(** [c.BindJSON(&request)]; its error is answered with the code 400. *)
Definition BindJSON `{Transport A} (b : body) (handle : A -> G S response) : G S response :=
  match b ≫= fun j => Decode j zero with
  | None => mret (Response 400 None)
  | Some a => handle a
  end.

(** The end of the handlers: the result of the implementation, or its error. *)
Definition answer_with `{Transport A} (m : G S (option A)) : G S response :=
  r ← m;
  mret (match (r : option A) with None => no_answer | Some a => AbortWithStatusJSON 200 a end).
Definition answer_nothing (m : G S bool) : G S response := m;; mret no_answer.

Definition server_Health (b : body) : G S response :=
  r ← api_Health;
  let '(healthy, ok) := (r : bool * bool) in
  mret (AbortWithStatusJSON (if ok then 200 else 500) (mkHealth healthy)).
Definition server_Status (b : body) : G S response :=
  r ← api_Status;
  let '(status, ok) := (r : Status * bool) in
  mret (AbortWithStatusJSON (if ok then 200 else 500) status).
Definition PostProxies (b : body) : G S response :=
  BindJSON b (fun request => answer_with (api_StartProxy (ProxyType request) (ProxyParameters request))).
Definition GetProxies (b : body) : G S response := answer_with api_ListProxies.
Definition GetKeys (b : body) : G S response := answer_with api_ListKeys.
Definition PostKeys (b : body) : G S response :=
  BindJSON b (fun request => answer_nothing (api_AddSSHKey (PrivateKey request) (key_Passphrase request))).
Definition PostDialers (b : body) : G S response :=
  BindJSON b (fun request => answer_nothing (api_AddDialer (URI request))).
Definition GetDialers (b : body) : G S response := answer_with api_ListDialers.
Definition server_Connect (b : body) : G S response :=
  BindJSON b (fun i => answer_with (api_Connect i)).
Definition GetState (b : body) : G S response := mret no_answer.
Definition PutState (b : body) : G S response := answer_nothing api_Stop.
Definition PostTargets (b : body) : G S response := answer_nothing api_Stop.
Definition GetRules (b : body) : G S response := answer_with api_ListRules.
Definition PostRules (b : body) : G S response := BindJSON b (fun rule => answer_nothing (api_AddRule rule)).

Definition createGinEngine : list ((string * string) * (body -> G S response)) :=
  [(("GET", "/api/health"), server_Health);
   (("GET", "/api/status"), server_Status);
   (("GET", "/api/proxies"), GetProxies);
   (("POST", "/api/proxies"), PostProxies);
   (("GET", "/api/ssh/keys"), GetKeys);
   (("POST", "/api/ssh/keys"), PostKeys);
   (("POST", "/api/ssh/connect"), server_Connect);
   (("POST", "/api/dialers"), PostDialers);
   (("GET", "/api/dialers"), GetDialers);
   (("GET", "/api/state"), GetState);
   (("PUT", "/api/state"), PutState);
   (("POST", "/api/targets"), PostTargets);
   (("GET", "/api/rules"), GetRules);
   (("POST", "/api/rules"), PostRules)].

(** A goroutine that waits or runs for ever gives no answer; every other fault is a
    panic, which [gin.Default] recovers with the code 500. *)
Definition waits (f : fault) : bool := bool_decide (f = Blocks) || bool_decide (f = Diverges).
Definition Recovery (m : G S response) : G S response := fun s =>
  match m s with
  | (Fault f, s') => if waits f then (Fault f, s') else (Done (Response 500 None), s')
  | r => r
  end.

(** What gin does with a method and a path: the place of the route that it takes. *)
Context (gin_route : list (string * string) -> string -> string -> option nat).

Definition serve_http (method path : string) (b : body) : G S response :=
  match gin_route createGinEngine.*1 method path ≫= fun i => createGinEngine !! i with
  | Some (_, handler) => Recovery (handler b)
  | None => mret (Response 404 None)
  end.

(** * The client *)

(** Whether a server listens at the socket. *)
Context (connected : bool).

Definition MakeURL (path : string) : string :=
  if String.prefix "/" path then "http://unix" ++ path else "http://unix/" ++ path.
(** What is sent of a URL: what follows the host. *)
Definition url_path (url : string) : string := String.substring 11 (String.length url - 11) url.

(** [c.httpClient.Do]; [None] for an error of the transport. *)
Definition Do (method url : string) (b : body) : G S (option response) :=
  if connected then r ← serve_http method (url_path url) b; mret (Some r) else mret None.

(** [json.Unmarshal(body, v)] for a fresh variable, and for nil, which is an error
    whatever the body is. *)
Definition Unmarshal `{Transport A} (b : body) : option A := b ≫= fun j => Decode j zero.
Definition Unmarshal_nil (b : body) : bool := false.

Definition GetJSON `{Transport A} (path : string) : G S (option A) :=
  r ← Do "GET" (MakeURL path) None;
  mret ((r : option response) ≫= fun r => Unmarshal (response_body r)).
Definition PostJSON `{Transport A} `{Transport B} (path : string) (request : A) : G S (option B) :=
  r ← Do "POST" (MakeURL path) (Some (Marshal request));
  mret ((r : option response) ≫= fun r => Unmarshal (response_body r)).
Definition PostJSON_nil `{Transport A} (path : string) (request : A) : G S bool :=
  r ← Do "POST" (MakeURL path) (Some (Marshal request));
  mret (match (r : option response) with None => false | Some r => Unmarshal_nil (response_body r) end).

Definition client_Health : G S (bool * bool) :=
  r ← Do "GET" (MakeURL "/api/health") None;
  mret (match (r : option response) with
        | None => (false, false)
        | Some r => (Healthy (default zero (Unmarshal (response_body r))), true)
        end).
Definition client_Status : G S (Status * bool) :=
  r ← GetJSON "/api/status";
  mret (match (r : option Status) with None => (zero, false) | Some st => (st, true) end).
Definition client_Stop : G S bool := Do "PUT" (MakeURL "/api/state") None;; mret true.
Definition client_StartProxy (proxyType proxyParameter : string) : G S (option Proxy) :=
  PostJSON "/api/proxies" (mkProxy proxyType 0 proxyParameter).
Definition client_ListProxies : G S (option (slice Proxy)) := GetJSON "/api/proxies".
Definition client_AddSSHKey (privateKey passphrase : string) : G S bool :=
  PostJSON_nil "/api/ssh/keys" (mkSSHKey "" "" privateKey passphrase).
Definition client_ListKeys : G S (option (slice SSHKey)) := GetJSON "/api/keys".
Definition client_AddDialer (uri : string) : G S bool := PostJSON_nil "/api/dialers" (mkSSHTarget uri).
Definition client_ListDialers : G S (option (slice Dialer)) := GetJSON "/api/dialers".
Definition client_Connect (i : ConnectIn) : G S (option ConnectOut) := PostJSON "/api/ssh/connect" i.
Definition client_ListRules : G S (option (slice control_Rule)) := GetJSON "/api/rules".
Definition client_AddRule (rule : control_Rule) : G S bool := PostJSON_nil "/api/rules" rule.

(** The client offers the same interface. *)
Definition Client : API S := {|
  api_Health := client_Health;
  api_Status := client_Status;
  api_Stop := client_Stop;
  api_AddSSHKey := client_AddSSHKey;
  api_ListKeys := client_ListKeys;
  api_StartProxy := client_StartProxy;
  api_ListProxies := client_ListProxies;
  api_AddDialer := client_AddDialer;
  api_ListDialers := client_ListDialers;
  api_Connect := client_Connect;
  api_ListRules := client_ListRules;
  api_AddRule := client_AddRule;
|}.
End Server.

(** The router of gin, for routes without parameters: a route that is there is taken,
    and nothing is where no route of the method is, up to a slash at the end. *)
Record GinRouter (route : list (string * string) -> string -> string -> option nat) : Prop := {
  gin_found routes i m p : NoDup routes -> routes !! i = Some (m, p) -> route routes m p = Some i;
  gin_missing routes m p :
    (forall q, (m, q) ∈ routes -> q <> p /\ q <> p ++ "/" /\ p <> q ++ "/") -> route routes m p = None;
}.
