(* ===== verification/ControlProps.v ===== *)
(** The theorems on the control interface: what the client gives back is what the
    implementation behind the server gave, or where it is not. *)

From stdpp Require Import base gmap list strings.
From Stdlib Require Import ZArith Lia Ascii.
From S2P Require Import Prelude Decimal Dialers Rules Transport Control.

#[local] Open Scope string_scope.
#[local] Open Scope Z_scope.

Section Calls.
Context {S : Type} `{API S}.
Context (gin_route : list (string * string) -> string -> string -> option nat).
Context (Hgin : GinRouter gin_route).

Abbreviation serve := (serve_http (S := S) gin_route).
Abbreviation Do_ := (Do (S := S) gin_route true).

(** A panic behind the server is an error for the client. *)
Definition reported {A} (r : outcome (option A) * S) : outcome (option A) * S :=
  match r with
  | (Fault f, s) => if waits f then (Fault f, s) else (Done None, s)
  | r => r
  end.
(** The effect happens, and the client is told of an error in any case. *)
Definition disowned (r : outcome bool * S) : outcome bool * S :=
  match r with
  | (Fault f, s) => if waits f then (Fault f, s) else (Done false, s)
  | (Done _, s) => (Done false, s)
  end.

Lemma routes_distinct : NoDup (createGinEngine (S := S)).*1.
Proof.
  change (createGinEngine (S := S)).*1 with
    [("GET", "/api/health"); ("GET", "/api/status"); ("GET", "/api/proxies"); ("POST", "/api/proxies");
     ("GET", "/api/ssh/keys"); ("POST", "/api/ssh/keys"); ("POST", "/api/ssh/connect");
     ("POST", "/api/dialers"); ("GET", "/api/dialers"); ("GET", "/api/state"); ("PUT", "/api/state");
     ("POST", "/api/targets"); ("GET", "/api/rules"); ("POST", "/api/rules")].
  by_compute.
Qed.

Lemma serve_route i m p h b s :
  createGinEngine !! i = Some ((m, p), h) -> serve m p b s = Recovery (h b) s.
Proof.
  intros Hi. unfold serve_http. rewrite (gin_found _ Hgin _ i m p).
  - cbn [mbind option_bind]. by rewrite Hi.
  - apply routes_distinct.
  - rewrite list_lookup_fmap, Hi. done.
Qed.

Lemma serve_missing m p b s :
  forallb (fun r => negb (bool_decide (r.1 = m)) ||
    (negb (bool_decide (r.2 = p)) && negb (bool_decide (r.2 = p ++ "/")) && negb (bool_decide (p = r.2 ++ "/"))))
    (createGinEngine (S := S)).*1 = true ->
  serve m p b s = (Done (Response 404 None), s).
Proof.
  rewrite forallb_forall. intros Hr. unfold serve_http. rewrite (gin_missing _ Hgin); [done|].
  intros q Hq%list_elem_of_In%Hr. cbn in Hq. rewrite (bool_decide_true (m = m)) in Hq by done. cbn in Hq.
  rewrite !andb_true_iff, !negb_true_iff, !bool_decide_eq_false in Hq. tauto.
Qed.

(** An exchange, by what the recovered handler does. *)
Lemma Do_route i m p h b s :
  createGinEngine !! i = Some ((m, p), h) -> url_path (MakeURL p) = p ->
  Do_ m (MakeURL p) b s =
  match Recovery (h b) s with (Done r, s') => (Done (Some r), s') | (Fault f, s') => (Fault f, s') end.
Proof.
  intros Hi Hp. unfold Do. rewrite Hp. unfold mbind, G_bind. rewrite (serve_route i m p h b s Hi).
  by destruct (Recovery (h b) s) as [[] ?].
Qed.

(** A handler that answers with the result of [m]. *)
Lemma get_result `{Transport A} i p (h : body -> G S response) (m : G S (option A)) s :
  createGinEngine !! i = Some (("GET", p), h) -> url_path (MakeURL p) = p ->
  (forall b, h b = answer_with m) ->
  (forall a s', m s = (Done (Some a), s') -> fits a) ->
  GetJSON gin_route true p s = reported (m s).
Proof.
  intros Hi Hp Hh Hfit. unfold GetJSON, mbind, G_bind. rewrite (Do_route i _ _ h _ _ Hi Hp), Hh.
  unfold Recovery, answer_with, mbind, G_bind, mret, G_ret, reported.
  destruct (m s) as [[[a|]|f] s'] eqn:Hm; [|done|by destruct (waits f)].
  cbn. unfold Unmarshal. cbn. by rewrite (Decode_Marshal a (Hfit a s' eq_refl)).
Qed.

Lemma post_result `{Transport A} `{Transport B} i p (h : body -> G S response) handle (m : G S (option B)) (a : A) s :
  createGinEngine !! i = Some (("POST", p), h) -> url_path (MakeURL p) = p -> fits a ->
  (forall b, h b = BindJSON b handle) -> handle a = answer_with m ->
  (forall b s', m s = (Done (Some b), s') -> fits b) ->
  PostJSON gin_route true p a s = reported (m s).
Proof.
  intros Hi Hp Ha Hh Hm' Hfit. unfold PostJSON, mbind, G_bind. rewrite (Do_route i _ _ h _ _ Hi Hp), Hh.
  unfold BindJSON. cbn [mbind option_bind]. rewrite (Decode_Marshal a Ha), Hm'.
  unfold Recovery, answer_with, mbind, G_bind, mret, G_ret, reported.
  destruct (m s) as [[[b|]|f] s'] eqn:Hm; [|done|by destruct (waits f)].
  cbn. unfold Unmarshal. cbn. by rewrite (Decode_Marshal b (Hfit b s' eq_refl)).
Qed.

Lemma post_nothing `{Transport A} i p (h : body -> G S response) handle (m : G S bool) (a : A) s :
  createGinEngine !! i = Some (("POST", p), h) -> url_path (MakeURL p) = p -> fits a ->
  (forall b, h b = BindJSON b handle) -> handle a = answer_nothing m ->
  PostJSON_nil gin_route true p a s = disowned (m s).
Proof.
  intros Hi Hp Ha Hh Hm'. unfold PostJSON_nil, mbind, G_bind. rewrite (Do_route i _ _ h _ _ Hi Hp), Hh.
  unfold BindJSON. cbn [mbind option_bind]. rewrite (Decode_Marshal a Ha), Hm'.
  unfold Recovery, answer_nothing, mbind, G_bind, mret, G_ret, disowned.
  destruct (m s) as [[b|f] s'] eqn:Hm; [done|by destruct (waits f)].
Qed.

Lemma client_AddRule_run r s : client_AddRule gin_route true r s = disowned (api_AddRule r s).
Proof. by eapply (post_nothing 13 _ PostRules). Qed.

Lemma client_Stop_run s :
  client_Stop gin_route true s =
    match api_Stop s with
    | (Done _, s') => (Done true, s')
    | (Fault f, s') => if waits f then (Fault f, s') else (Done true, s')
    end.
Proof.
  unfold client_Stop, mbind, G_bind.
  rewrite (Do_route 10 _ _ PutState _ _ eq_refl eq_refl).
  unfold Recovery, PutState, answer_nothing, mbind, G_bind, mret, G_ret.
  destruct (api_Stop s) as [[b|f] s'] eqn:Hm; [done|by destruct (waits f)].
Qed.

(** C13: the calls of the client, a server listening. Where a call has a result, it
    is the one of the implementation, whose errors and panics become errors. An
    operation without a result is carried out, and yet always reported as an error:
    the client reads the empty answer into nil. The list of keys is asked for where
    no route is, which is always an error. [Status] and [Health] lose the error of
    the implementation, and [Stop] never has one. A call waits for ever just when the
    implementation does. *)
Theorem client_calls `{!APIFits S} (s : S) :
  (forall t p, client_StartProxy gin_route true t p s = reported (api_StartProxy t p s)) /\
  client_ListProxies gin_route true s = reported (api_ListProxies s) /\
  client_ListDialers gin_route true s = reported (api_ListDialers s) /\
  client_ListRules gin_route true s = reported (api_ListRules s) /\
  (forall i, client_Connect gin_route true i s = reported (api_Connect i s)) /\
  (forall k p, client_AddSSHKey gin_route true k p s = disowned (api_AddSSHKey k p s)) /\
  (forall u, client_AddDialer gin_route true u s = disowned (api_AddDialer u s)) /\
  (forall r, client_AddRule gin_route true r s = disowned (api_AddRule r s)) /\
  client_ListKeys gin_route true s = (Done None, s) /\
  client_Status gin_route true s =
    match api_Status s with
    | (Done (st, _), s') => (Done (st, true), s')
    | (Fault f, s') => if waits f then (Fault f, s') else (Done (zero, false), s')
    end /\
  client_Health gin_route true s =
    match api_Health s with
    | (Done (h, _), s') => (Done (h, true), s')
    | (Fault f, s') => if waits f then (Fault f, s') else (Done (false, true), s')
    end /\
  client_Stop gin_route true s =
    match api_Stop s with
    | (Done _, s') => (Done true, s')
    | (Fault f, s') => if waits f then (Fault f, s') else (Done true, s')
    end.
Proof.
  split_and!.
  - intros t p. eapply (post_result 3 _ PostProxies); [done..|apply fits_StartProxy].
  - by apply (get_result 2 _ GetProxies api_ListProxies); [..|apply fits_ListProxies].
  - apply (get_result 8 _ GetDialers api_ListDialers); [done..|]. intros l s' _. by apply Forall_true.
  - apply (get_result 12 _ GetRules api_ListRules); [done..|]. intros l s' _. by apply Forall_true.
  - intros i. by eapply (post_result 6 _ server_Connect).
  - intros k p. by eapply (post_nothing 5 _ PostKeys).
  - intros u. by eapply (post_nothing 7 _ PostDialers).
  - intros r. apply client_AddRule_run.
  - unfold client_ListKeys, GetJSON, Do, mbind, G_bind. by rewrite serve_missing.
  - unfold client_Status, GetJSON, mbind, G_bind.
    rewrite (Do_route 1 _ _ server_Status _ _ eq_refl eq_refl).
    unfold Recovery, server_Status, mbind, G_bind, mret, G_ret.
    destruct (api_Status s) as [[[st ok]|f] s'] eqn:Hm; [|by destruct (waits f)].
    unfold Unmarshal. cbn [response_body AbortWithStatusJSON mbind option_bind].
    by rewrite (Decode_Marshal st (fits_Status _ _ _ _ Hm)).
  - unfold client_Health, mbind, G_bind.
    rewrite (Do_route 0 _ _ server_Health _ _ eq_refl eq_refl).
    unfold Recovery, server_Health, mbind, G_bind, mret, G_ret.
    destruct (api_Health s) as [[[h ok]|f] s'] eqn:Hm; [done|by destruct (waits f)].
  - apply client_Stop_run.
Qed.
End Calls.

(** A router that takes a route by its method and path alone. *)
Definition exact_route (routes : list (string * string)) (method path : string) : option nat :=
  fst <$> list_find (fun r => r = (method, path)) routes.

Lemma exact_route_gin : GinRouter exact_route.
Proof.
  unfold exact_route. split.
  - intros routes i m p Hnd Hi. destruct (list_find _ routes) as [[j r]|] eqn:Hf; cbn.
    + apply list_find_Some in Hf as (Hj & -> & _). f_equal. by eapply NoDup_lookup.
    + apply list_find_None in Hf. rewrite Forall_forall in Hf. exfalso. eapply Hf; [|done].
      by eapply list_elem_of_lookup_2.
  - intros routes m p Hr. destruct (list_find _ routes) as [[j r]|] eqn:Hf; [|done].
    apply list_find_Some in Hf as (Hj & -> & _). apply list_elem_of_lookup_2 in Hj. by destruct (Hr _ Hj).
Qed.


(** An implementation that accepts everything and has nothing, for examples; it
    connects in one step. *)
Definition Agreeable : API unit := {|
  api_Health := mret (true, true);
  api_Status := mret (mkStatus true None, true);
  api_Stop := mret true;
  api_AddSSHKey _ _ := mret true;
  api_ListKeys := mret (Some None);
  api_StartProxy t p := mret (Some (mkProxy t 1080 p));
  api_ListProxies := mret (Some None);
  api_AddDialer _ := mret true;
  api_ListDialers := mret (Some None);
  api_Connect i := mret (Some (mkConnectOut "1"
    (if bool_decide (AcceptHostKey i = Some true) then "succeeded" else "unknown_host_key") None "SHA256:x"));
  api_ListRules := mret (Some None);
  api_AddRule _ := mret true;
|}.

Lemma Agreeable_fits : @APIFits unit Agreeable.
Proof.
  split; cbn; unfold mret, G_ret.
  - intros s st ok s' [= <- <- <-]. constructor.
  - intros t p s v s' [= <- <-]. by split.
  - intros s v s' [= <- <-]. constructor.
Qed.

(** The rule is added, and an error reported. *)
Lemma client_calls_witness :
  client_StartProxy (H := Agreeable) exact_route true "http" "" tt = (Done (Some (mkProxy "http" 1080 "")), tt) /\
  client_AddRule (H := Agreeable) exact_route true (mkControlRule "10.0.0.0/8" "x") tt = (Done false, tt).
Proof.
  destruct (client_calls (H := Agreeable) exact_route exact_route_gin (APIFits0 := Agreeable_fits) tt)
    as (Hp & _ & _ & _ & _ & _ & _ & Hr & _).
  split; [apply Hp|apply Hr].
Defined.
