(* ===== verification/Commands.v ===== *)
(** The commands of [commands/*.go] over the control interface, and the loop of
    [server.Run] in [server/server.go] that executes commands separated by ["--"].

    A command runs in a terminal: it prints, reads lines and passwords, and may end
    the process. The objects of the commands live as long as the process does. *)

From stdpp Require Import base gmap list strings pretty sorting.
From Stdlib Require Import ZArith Lia Ascii.
From S2P Require Import Prelude Decimal NetIP Dialers Rules Transport Control.

#[local] Open Scope string_scope.
#[local] Open Scope Z_scope.

(** * Flags

    Go's package [flag], for a set with one flag, whose value is a string: the value,
    the arguments that are left, and the error if there was one. *)

Definition is_flag (s : string) : bool :=
  match s with String c (String _ _) => bool_decide (c = "-"%char) | _ => false end.
Definition flag_name (s : string) : string :=
  match s with
  | String _ (String c s') => if bool_decide (c = "-"%char) then s' else String c s'
  | _ => ""
  end.
Definition bad_name (name : string) : bool :=
  match name with
  | "" => true
  | String c _ => bool_decide (c = "-"%char) || bool_decide (c = "="%char)
  end.

(** [flag.ErrHelp], or any other error. *)
Inductive parsed := Parsed | ErrHelp | BadFlag.
#[export] Instance parsed_eq_dec : EqDecision parsed.
Proof. solve_decision. Defined.

Fixpoint Parse (flag value : string) (args : list string) : string * list string * parsed :=
  match args with
  | [] => (value, [], Parsed)
  | s :: rest =>
      if negb (is_flag s) then (value, args, Parsed)
      else if bool_decide (s = "--") then (value, rest, Parsed)
      else
        let name := flag_name s in
        let unknown name := if bool_decide (name = "help") || bool_decide (name = "h") then ErrHelp else BadFlag in
        if bad_name name then (value, args, BadFlag)
        else
          match cut "=" name with
          | Some (name, v) => if bool_decide (name = flag) then Parse flag v rest else (value, rest, unknown name)
          | None =>
              if bool_decide (name = flag) then
                match rest with
                | v :: rest => Parse flag v rest
                | [] => (value, [], BadFlag)
                end
              else (value, rest, unknown name)
          end
  end.

(** The character for quoting. *)
Definition dquote : string := String (ascii_of_nat 34) "".

(** * The terminal *)

(** What passes between the command [connect], the user and the server. *)
Inductive event :=
  | Sent (i : ConnectIn)
  | Got (o : option ConnectOut)
  | Answered (line : option string)     (* None: the end of the input *)
  | Prompted (password : option string). (* None: the prompt was left *)

(** [dialer] is the variable of the flag of the command [add-rule]. *)
Record world (S : Type) := World {
  dialer : string;
  stdout : list string;
  stdin : list string;
  prompts : list (option string);
  events : list event;
  inner : S;
}.
Arguments World {S}.
Arguments dialer {S}.
Arguments stdout {S}.
Arguments stdin {S}.
Arguments prompts {S}.
Arguments events {S}.
Arguments inner {S}.

(** How a command ends: with an error or none, or with the process. *)
Inductive ending := Returns (ok : bool) | Exits (rc : Z).

Section Commands.
Context {S : Type} `{API S}.
(** [url.Parse], [URL.String], [os.Getenv] and [os.Args[0]]. *)
Context (url_Parse : string -> option URL) (url_String : URL -> string).
Context (Getenv : string -> string) (arg0 : string).
(** [ioutil.ReadFile], and the text of the error that [dialer.CheckSSHKey] gives for a
    key and a passphrase. *)
Context (ReadFile : string -> option string) (CheckSSHKey : string -> string -> option string).
(** The text of any other error. *)
Context (error_text : string).

Abbreviation cmd := (G (world S) ending).

Definition set_inner (s : S) (w : world S) : world S :=
  World (dialer w) (stdout w) (stdin w) (prompts w) (events w) s.
Definition set_dialer (d : string) (w : world S) : world S :=
  World d (stdout w) (stdin w) (prompts w) (events w) (inner w).
Definition record_event (e : event) (w : world S) : world S :=
  World (dialer w) (stdout w) (stdin w) (prompts w) (events w ++ [e]) (inner w).

(** A call of the interface. *)
Definition call {A} (m : G S A) : G (world S) A := fun w =>
  let '(r, s) := m (inner w) in (r, set_inner s w).
Definition print (lines : list string) : G (world S) unit :=
  gset (fun w => World (dialer w) (stdout w ++ lines) (stdin w) (prompts w) (events w) (inner w)).

(** [reader.ReadString] of a new reader, and the prompt for a password. *)
Definition ReadString : G (world S) (option string) := fun w =>
  let w' := World (dialer w) (stdout w) (tail (stdin w)) (prompts w)
    (events w ++ [Answered (head (stdin w))]) (inner w) in
  (Done (head (stdin w)), w').
Definition prompt_Run : G (world S) (option string) := fun w =>
  let p := mjoin (head (prompts w)) in
  let w' := World (dialer w) (stdout w) (stdin w) (tail (prompts w)) (events w ++ [Prompted p]) (inner w) in
  (Done p, w').

(** ** Rules *)

Fixpoint add_rules (d : string) (cidrs : list string) : cmd :=
  match cidrs with
  | [] => mret (Returns true)
  | cidr :: cidrs =>
      ok ← call (api_AddRule (mkControlRule cidr d));
      if (ok : bool) then add_rules d cidrs else mret (Returns false)
  end.
Definition add_rule_usage : G (world S) unit :=
  print [""; "Usage: sshtunnel add-rule [options] cidr..."].
(** The error of [Parse] is dropped; it has printed the usage. *)
Definition cmdAddRule (args : list string) : cmd :=
  d ← gget dialer;
  let '(value, rest, ok) := Parse "dialer" d args in
  gset (set_dialer value);;
  (if bool_decide (ok = Parsed) then mret tt else add_rule_usage);;
  match rest with
  | [] => add_rule_usage;; mret (Returns true)
  | _ => add_rules value rest
  end.

Definition cmdListRules (args : list string) : cmd :=
  r ← call api_ListRules;
  match (r : option (slice control_Rule)) with
  | None => mret (Returns false)
  | Some rules =>
      let rules := default [] rules in
      (if bool_decide (rules = []) then print ["rules: []"] else mret tt);;
      print ["rules:"];;
      print (rules ≫= fun rule => ["  - cidr: " ++ CIDR rule; "    dialer: " ++ control_Dialer rule]);;
      mret (Returns true)
  end.

(** ** Proxies *)

Definition cmdStartProxy (args : list string) : cmd :=
  match args with
  | [] => gpanic Panic
  | proxyType :: args =>
      r ← call (api_StartProxy proxyType (default "" (head args)));
      mret (Returns (bool_decide (is_Some (r : option Proxy))))
  end.

Definition cmdListProxies (args : list string) : cmd :=
  r ← call api_ListProxies;
  match (r : option (slice Proxy)) with
  | None => print [error_text];; mret (Returns false)
  | Some proxies =>
      let proxies := default [] proxies in
      if bool_decide (proxies = []) then print ["proxies: []"];; mret (Returns true)
      else
        print ["proxies:"];;
        print (proxies ≫= fun p => ["  - type: " ++ ProxyType p; "    port: " ++ pretty (ProxyPort p)]);;
        mret (Returns true)
  end.

(** ** Dialers *)

Definition dialer_uri (part : string) : option string :=
  let part := if negb (contains "://" part) then "ssh://" ++ part else part in
  u ← url_Parse part;
  if bool_decide (Username u = "") then
    let username := Getenv "USERNAME" in
    let username := if bool_decide (username = "") then Getenv "LOGNAME" else username in
    Some (url_String (mkURL (Scheme u) username (Host u) (Port u)))
  else Some (url_String u).

Definition cmdAddDialer (args : list string) : cmd :=
  match args with
  | [] => gpanic Panic
  | sshServer :: _ =>
      if String.prefix "socks5://" sshServer then
        ok ← call (api_AddDialer sshServer); mret (Returns ok)
      else
        match mapM dialer_uri (split "," sshServer) with
        | None => print [sshServer ++ " is not a valid ssh url: " ++ error_text];; mret (Exits 1)
        | Some uris =>
            let uri := String.concat "," uris in
            print ["Adding dialer: " ++ uri];;
            ok ← call (api_AddDialer uri); mret (Returns ok)
        end
  end.

Definition cmdListDialers (args : list string) : cmd :=
  r ← call api_ListDialers;
  match (r : option (slice Dialer)) with
  | None => mret (Returns false)
  | Some dialers =>
      let dialers := default [] dialers in
      (if bool_decide (dialers = []) then print ["dialers: []"] else mret tt);;
      print ["dialers:"];;
      print (dialers ≫= fun d => ["  - name: " ++ Name d; "    type: " ++ dialer_Type d;
        "    destination: " ++ Destination d]);;
      mret (Returns true)
  end.

(** ** Status, stop and version *)

(** What [fmt] makes of a status. *)
Definition proxy_text (p : Proxy) : string :=
  "{" ++ ProxyType p ++ " " ++ pretty (ProxyPort p) ++ " " ++ ProxyParameters p ++ "}".
Definition status_text (st : Status) : string :=
  "{{" ++ (if status_Healthy st then "true" else "false") ++ "} [" ++
  String.concat " " (proxy_text <$> default [] (Proxies st)) ++ "]}".
Definition cmdStatus (args : list string) : cmd :=
  r ← call api_Status;
  let '(st, ok) := (r : Status * bool) in
  print [status_text st ++ " " ++ if ok then "<nil>" else error_text];;
  if status_Healthy st then mret (Returns ok) else mret (Exits 1).
Definition cmdStop (args : list string) : cmd := call api_Stop;; mret (Returns true).
Definition version : string := "dev-build".
Definition cmdVersion (args : list string) : cmd :=
  print ["sshtunnel version: " ++ version];; mret (Returns true).

(** ** Connect *)

(** [strings.TrimSpace], of the white space of one byte. *)
Definition is_space (c : ascii) : bool :=
  let n := nat_of_ascii c in ((9 <=? n) && (n <=? 13) || (n =? 32))%nat.
Fixpoint trim_left (s : string) : string :=
  match s with String c s' => if is_space c then trim_left s' else s | "" => "" end.
Fixpoint trim_right (s : string) : string :=
  match s with
  | "" => ""
  | String c s' => let r := trim_right s' in if is_space c && bool_decide (r = "") then "" else String c r
  end.
Definition TrimSpace (s : string) : string := trim_right (trim_left s).

(** What the user answered: the end of the input is an answer too. *)
Definition accepts (line : option string) : bool :=
  match line with
  | None => false
  | Some line =>
      let answer := TrimSpace (fold_case line) in bool_decide (answer = "yes") || bool_decide (answer = "y")
  end.

Definition acceptHostKeys (args : list string) : bool := bool_decide ("--accept-host-keys" ∈ args).

(** One round of the loop: the end, or what is sent next. *)
Definition connect_round (accept_all : bool) (i : ConnectIn) : G (world S) (ConnectIn + ending) :=
  gset (record_event (Sent i));;
  r ← call (api_Connect i);
  gset (record_event (Got r));;
  match (r : option ConnectOut) with
  | None => mret (inr (Returns false))
  | Some out =>
      print (default [] (Messages out));;
      let next := mkConnectIn (out_ID out) "" None in
      if bool_decide (out_Status out = "failed") then mret (inr (Exits 1))
      else if bool_decide (out_Status out = "succeeded") then mret (inr (Exits 0))
      else if bool_decide (out_Status out = "need_passphrase") then
        p ← prompt_Run;
        mret (match (p : option string) with
              | None => inr (Returns false)
              | Some p => inl (mkConnectIn (out_ID out) p None)
              end)
      else if bool_decide (out_Status out = "unknown_host_key") then
        if accept_all then
          print ["Auto-accepting host key (fingerprint: " ++ HostKeyFingerprint out ++ ")"];;
          mret (inl (mkConnectIn (out_ID out) "" (Some true)))
        else
          print ["Are you sure you want to continue connecting (yes/no)? "];;
          line ← ReadString;
          if accepts line then
            print ["Host key accepted and will be added to known_hosts."];;
            mret (inl (mkConnectIn (out_ID out) "" (Some true)))
          else print ["Host key rejected."];; mret (inr (Exits 1))
      else mret (inl next)
  end.
Fixpoint connect_loop (fuel : nat) (accept_all : bool) (i : ConnectIn) : cmd :=
  match fuel with
  | O => gpanic Diverges
  | Datatypes.S fuel =>
      r ← connect_round accept_all i;
      match (r : ConnectIn + ending) with
      | inl i => connect_loop fuel accept_all i
      | inr e => mret e
      end
  end.
Definition cmdConnect (fuel : nat) (args : list string) : cmd :=
  connect_loop fuel (acceptHostKeys args) (mkConnectIn "" "" None).

(** ** Keys *)

Definition passphrase_error (err : string) : bool :=
  String.prefix "bcrypt_pbkdf:" err || bool_decide (err = "sshkeys: Invalid Passphrase") ||
  bool_decide (err = "ssh: this private key is passphrase protected").
(** The loop that asks for the passphrase: its end, or the passphrase. *)
Fixpoint ask_passphrase (fuel : nat) (key pass : string) (interactive : bool) : G (world S) (string + ending) :=
  match fuel with
  | O => gpanic Diverges
  | Datatypes.S fuel =>
      match CheckSSHKey key pass with
      | None => mret (inl pass)
      | Some err =>
          if negb (passphrase_error err) then gpanic Panic
          else if negb interactive then mret (inr (Exits 1))
          else
            p ← prompt_Run;
            match (p : option string) with
            | None => mret (inr (Returns false))
            | Some pass => ask_passphrase fuel key pass interactive
            end
      end
  end.
Definition cmdAddSSHKey (fuel : nat) (args : list string) : cmd :=
  match args with
  | [] => mret (Returns true)
  | fileName :: args =>
      print ["Adding SSH-Key from file: " ++ fileName];;
      match ReadFile fileName with
      | None => gpanic Panic
      | Some encodedKey =>
          let passPhrase := default "" (head args) in
          r ← ask_passphrase fuel encodedKey passPhrase (bool_decide (passPhrase = ""));
          match (r : string + ending) with
          | inl passPhrase => call (api_AddSSHKey encodedKey passPhrase);; mret (Returns true)
          | inr e => mret e
          end
      end
  end.

(** ** The script for iptables, on Linux *)

Definition script_head : list string :=
  ["#!/usr/bin/env bash"; "set -e"; "";
   "sudo iptables-save | grep -v sshtunnel | grep -v " ++ dquote ++ "^-A PREROUTING" ++ dquote ++ " | sudo iptables-restore"].
Definition script_chain : list string :=
  [""; "sudo iptables -t nat -N sshtunnel"; "sudo iptables -t nat -F sshtunnel";
   "sudo iptables -t nat -I OUTPUT 1 -j sshtunnel"; "sudo iptables -t nat -I PREROUTING 1 -j sshtunnel"; ""].
(** The port of the last proxy of a type. *)
Definition port_of (proxyType : string) (proxies : list Proxy) : Z :=
  fold_left (fun port p => if bool_decide (ProxyType p = proxyType) then ProxyPort p else port) proxies 0.
Definition direct_lines (rule : control_Rule) : list string :=
  ["sudo iptables -t nat -A sshtunnel -j ACCEPT --dest " ++ CIDR rule ++ " -p tcp";
   "sudo iptables -t nat -A PREROUTING -i eth0 -p tcp --dest " ++ CIDR rule ++ " -j ACCEPT"].
Definition redirect_lines (port : Z) (rule : control_Rule) : list string :=
  ["sudo iptables -t nat -A sshtunnel -j REDIRECT --dest " ++ CIDR rule ++ " -p tcp --to-ports " ++ pretty port;
   "sudo iptables -t nat -A PREROUTING -i eth0 -p tcp --dest " ++ CIDR rule ++ " -j REDIRECT --to-ports " ++
     pretty port].
Definition dns_lines (port : Z) : list string :=
  ["sudo iptables -t nat -A sshtunnel -p udp --dport 53 -j REDIRECT --to-ports " ++ pretty port;
   "sudo iptables -t nat -A PREROUTING -i eth0 -p udp --dport 53 -j REDIRECT --to-ports " ++ pretty port].
Definition script_rules (proxies : list Proxy) (rules : list control_Rule) : list string :=
  ((rules ≫= fun r => if bool_decide (control_Dialer r = "direct") then direct_lines r else []) ++
   (rules ≫= fun r => if bool_decide (control_Dialer r = "direct") then []
                      else redirect_lines (port_of "transparent" proxies) r) ++
   (if 0 <? port_of "dns" proxies then dns_lines (port_of "dns" proxies) else []))%list.
Definition cmdIptablesScript (args : list string) : cmd :=
  print script_head;;
  p ← call api_ListProxies;
  match (p : option (slice Proxy)) with
  | None => mret (Returns false)
  | Some proxies =>
      r ← call api_ListRules;
      match (r : option (slice control_Rule)) with
      | None => mret (Returns false)
      | Some rules =>
          print script_chain;;
          print (script_rules (default [] proxies) (default [] rules));;
          mret (Returns true)
      end
  end.

(** * Execution *)

Context (fuel : nat).

Definition commandMap : list (string * (list string -> cmd)) :=
  [("add-dialer", cmdAddDialer); ("add-rule", cmdAddRule); ("add-ssh-key", cmdAddSSHKey fuel);
   ("connect", cmdConnect fuel); ("iptables-script", cmdIptablesScript); ("list-dialers", cmdListDialers); ("list-proxies", cmdListProxies); ("list-rules", cmdListRules);
   ("start-proxy", cmdStartProxy); ("status", cmdStatus); ("stop", cmdStop); ("version", cmdVersion)].

Definition usage : cmd :=
  print ["Usage: " ++ arg0 ++ " [subcommand] [arguments...]"; "where subcommand is one of:"];;
  print ((fun c => "- " ++ c.1) <$> commandMap);;
  mret (Exits 1).

Definition ExecuteCommand (commandName : string) (args : list string) : cmd :=
  match list_find (fun c => c.1 = commandName) commandMap with
  | Some (_, (_, execute)) => execute args
  | None => usage
  end.

(** The loop of [server.Run] over the commands on its line. *)
Definition separator (cmds : list string) : option nat := fst <$> list_find (fun a => a = "--") cmds.
Fixpoint run_commands (rounds : nat) (cmds : list string) : cmd :=
  match rounds with
  | O => gpanic Diverges
  | Datatypes.S rounds =>
      match cmds with
      | [] => mret (Returns true)
      | c :: args =>
          match separator cmds with
          | Some O => gpanic Panic  (* additionalCommands[1:0] *)
          | Some i =>
              e ← ExecuteCommand c (take (i - 1) args);
              match (e : ending) with
              | Exits rc => mret (Exits rc)
              | Returns _ => run_commands rounds (drop (i + 1) cmds)
              end
          | None =>
              e ← ExecuteCommand c args;
              match (e : ending) with Exits rc => mret (Exits rc) | Returns _ => mret (Returns true) end
          end
      end
  end.
End Commands.
