(* ===== verification/Proxies.v ===== *)
(** The proxies, [proxy/*.go]: how they are made, what they dial for their clients,
    and the answers of the DNS proxy. What the libraries for DNS and SOCKS5 and the
    system do is an argument; Go's packages [net], [net/url] and [strconv] are
    written out as far as they are used. *)

From stdpp Require Import base gmap list strings pretty.
From Stdlib Require Import ZArith Lia Ascii.
From S2P Require Import Prelude Decimal NetIP Dialers Rules Transport.

#[local] Open Scope string_scope.
#[local] Open Scope Z_scope.

(** * Text *)

(** [s[:i]] and [s[i+1:]] for the last [c] of [s]. *)
Fixpoint last_cut (c : ascii) (s : string) : option (string * string) :=
  match s with
  | "" => None
  | String c' s =>
      match last_cut c s with
      | Some (a, b) => Some (String c' a, b)
      | None => if bool_decide (c' = c) then Some ("", s) else None
      end
  end.

Fixpoint has (c : ascii) (s : string) : bool :=
  match s with "" => false | String c' s => bool_decide (c' = c) || has c s end.

(** [net.SplitHostPort]: the host and the port, or an error. *)
Definition SplitHostPort (hostport : string) : option (string * string) :=
  '(before, port) ← last_cut ":" hostport;
  match hostport with
  | String "[" s =>
      '(host, rest) ← cut "]" s;
      if bool_decide (rest = String ":" port) && negb (has "[" s) && negb (has "]" rest)
      then Some (host, port) else None
  | _ =>
      if has ":" before || has "[" hostport || has "]" hostport then None else Some (before, port)
  end.

(** [strconv.Atoi], for an [int] of 64 bits. *)
Fixpoint all_digits (acc : Z) (s : string) : option Z :=
  match s with
  | "" => Some acc
  | String c s => d ← digit_value c; all_digits (acc * 10 + d) s
  end.
Definition sign_cut (s : string) : Z * string :=
  match s with
  | String c r =>
      if bool_decide (c = "-"%char) then (-1, r) else if bool_decide (c = "+"%char) then (1, r) else (1, s)
  | "" => (1, s)
  end.
Definition Atoi (s : string) : option Z :=
  let '(sign, r) := sign_cut s in
  if bool_decide (r = "") then None
  else
    v ← all_digits 0 r;
    let v := sign * v in
    if (- 2 ^ 63 <=? v) && (v <? 2 ^ 63) then Some v else None.

(** * Making proxies *)

(** [dnsTarget] is the variable of the package; [resolves] tells whether a SOCKS5
    proxy got the resolver. *)
Record running := Running { run_type : string; run_port : Z; run_resolves : bool }.
Record pstate := PState { dnsTarget : string; runs : list running }.

Section Start.
(** The port that a listener gets for the port that was asked for, zero for any, or
    none when the system refuses; and a free UDP port. *)
Context (listen_tcp : Z -> option Z) (free_udp : option Z).

(** The error of [ResolveTCPAddr] is overwritten: for a port out of range the
    address is nil, and the listener gets any port. *)
Definition createTCPListener (portRequested : Z) : option Z :=
  listen_tcp (if (0 <=? portRequested) && (portRequested <=? 65535) then portRequested else 0).

Definition port_parameter (parameters : string) : option Z :=
  if bool_decide (parameters = "") then Some 0 else Atoi parameters.

Definition start_tcp (proxyType : string) (resolves : pstate -> bool) (parameters : string) : G pstate (option Z) :=
  match port_parameter parameters ≫= createTCPListener with
  | None => mret None
  | Some port =>
      gset (fun s => PState (dnsTarget s) (runs s ++ [Running proxyType port (resolves s)])%list);;
      mret (Some port)
  end.
Definition newSocks5Proxy : string -> G pstate (option Z) :=
  start_tcp "socks5" (fun s => negb (bool_decide (dnsTarget s = ""))).
Definition newHttpProxy : string -> G pstate (option Z) := start_tcp "http" (fun _ => false).
Definition newTransparentProxy : string -> G pstate (option Z) := start_tcp "transparent" (fun _ => false).

Definition makeTargetAddr (parameters : string) : option string :=
  match SplitHostPort parameters with
  | None => if bool_decide (parameters = "") then Some ("127.0.0.53" ++ ":" ++ "53") else None
  | Some (host, port) =>
      let host := if bool_decide (host = "") then "127.0.0.53" else host in
      let port := if bool_decide (port = "") then "53" else port in
      Some (host ++ ":" ++ port)
  end.

Definition newDNSProxy (parameters : string) : G pstate (option Z) :=
  match free_udp with
  | None => mret None
  | Some port =>
      match makeTargetAddr parameters with
      | None => mret None
      | Some target =>
          gset (fun s => PState target (runs s ++ [Running "dns" port false])%list);;
          mret (Some port)
      end
  end.

(** On Linux. *)
Definition proxyFactories : list (string * (string -> G pstate (option Z))) :=
  [("dns", newDNSProxy); ("http", newHttpProxy); ("socks5", newSocks5Proxy);
   ("transparent", newTransparentProxy)].

(** The port of the new proxy. *)
Definition NewProxy (proxyType proxyParameters : string) : G pstate (option Z) :=
  match list_find (fun f => f.1 = proxyType) proxyFactories with
  | Some (_, (_, factory)) => factory proxyParameters
  | None => mret None
  end.
End Start.

(** * The HTTP proxy *)

(** A request as the handlers see it: the host and the port of its URL, and the host
    it names. *)
Record http_request := HttpRequest { Method : string; URL_Host : string; Request_Host : string }.

(** [URL.Hostname] and [URL.Port]. *)
Definition valid_port (port : string) : bool := bool_decide (is_Some (all_digits 0 port)).
Definition unbracket (host : string) : string :=
  match host with
  | String "[" s =>
      match last_cut "]" s with Some (h, "") => h | _ => host end
  | _ => host
  end.
Definition splitHostPort (hostPort : string) : string * string :=
  match last_cut ":" hostPort with
  | Some (host, port) => if valid_port port then (unbracket host, port) else (unbracket hostPort, "")
  | None => (unbracket hostPort, "")
  end.
Definition Hostname (r : http_request) : string := (splitHostPort (URL_Host r)).1.
Definition URLPort (r : http_request) : string := (splitHostPort (URL_Host r)).2.

(** What the server of [net/http] reads of a request without a body: the line of the
    request, and the header [Host]. The host of CONNECT is the one of the line. *)
Definition LF : ascii := "010".
Definition CR : ascii := "013".
Definition chomp (line : string) : string :=
  match last_cut CR line with Some (l, "") => l | _ => line end.
Fixpoint host_header (fuel : nat) (text : string) : string :=
  match fuel, cut LF text with
  | S fuel, Some (line, rest) =>
      match cut ":" (chomp line) with
      | Some (key, String " " value) => if bool_decide (fold_case key = "host") then value else host_header fuel rest
      | _ => host_header fuel rest
      end
  | _, _ => ""
  end.
Definition read_request (text : string) : option http_request :=
  '(line, rest) ← cut LF text;
  '(method, r) ← cut " " (chomp line);
  '(uri, _) ← cut " " r;
  let host := host_header (String.length rest) rest in
  Some (if bool_decide (method = "CONNECT") then HttpRequest method uri uri else HttpRequest method "" host).

(** What a client of the proxy gets: an answer, a tunnel, or nothing because the
    handler panicked, which [net/http] recovers, or because the process is gone. *)
Inductive reply :=
  | Reply (code : Z) (headers : list (string * string))
  | Tunnel (t : target)
  | Dropped
  | Crashed.

(** What dialing gives: a connection, nil without an error, an error. *)
Inductive dialled := Conn (t : target) | NilConn | DialError.

Section Handlers.
Context {signer : Type}.
(** [net.ResolveTCPAddr]; the resolver, asked through a DNS server, for the first
    address of a name; whether a destination can be reached; the answer to a plain
    request, sent without the dialers. *)
Context (ResolveTCPAddr : string -> string -> option IP).
Context (lookup : string -> string -> option IP).
Context (reach : target -> string -> bool).
Context (RoundTrip : http_request -> option (Z * list (string * string))).

Definition ResolveDNS (dnsTarget name : string) : option IP := lookup dnsTarget name.

(** [proxy.Dialer.Dial], the dialer being the default set of rules. *)
Definition proxy_Dial (rs : RuleSet) (addr : string) : G (@registry signer) dialled :=
  t ← RuleSet_Dial ResolveTCPAddr rs "tcp" addr;
  mret (match (t : target) with
        | Nowhere => NilConn
        | t => if reach t addr then Conn t else DialError
        end).

(** A nil connection is used in a goroutine of its own, where nothing recovers the
    panic. *)
Definition handleTunneling (rs : RuleSet) (dnsTarget : string) (r : http_request) : G (@registry signer) reply :=
  match ResolveDNS dnsTarget (Hostname r) with
  | None => mret (Reply 503 [])
  | Some ip =>
      d ← proxy_Dial rs (IP_String ip ++ ":" ++ URLPort r);
      mret (match (d : dialled) with
            | DialError => Reply 503 []
            | NilConn => Crashed
            | Conn t => Tunnel t
            end)
  end.

Definition handleHTTP (r : http_request) : reply :=
  match RoundTrip r with None => Reply 503 [] | Some (code, headers) => Reply code headers end.

(** The address is nil when there is an error. *)
Definition handleResolve (dnsTarget : string) (r : http_request) : reply :=
  Reply 200 [("Host", IP_String (default [] (ResolveDNS dnsTarget (Request_Host r))))].

Definition handle (rs : RuleSet) (dnsTarget : string) (r : http_request) : G (@registry signer) reply :=
  if bool_decide (Method r = "RESOLVE") then mret (handleResolve dnsTarget r)
  else if bool_decide (Method r = "CONNECT") then
    fun s => match handleTunneling rs dnsTarget r s with
             | (Fault f, s') => (if bool_decide (f = Blocks) then Fault Blocks else Done Dropped, s')
             | res => res
             end
  else mret (handleHTTP r).

(** [handleConnection] of the transparent proxy, in a goroutine of its own, and what
    SOCKS5 clients get: a panic ends the process. *)
Definition transparent_connection (rs : RuleSet) (dst : option (string * Z)) : G (@registry signer) reply :=
  match dst with
  | None => mret Dropped
  | Some (ip, port) => fun s =>
      match proxy_Dial rs (ip ++ ":" ++ pretty port) s with
      | (Done (Conn t), s') => (Done (Tunnel t), s')
      | (Done DialError, s') => (Done Dropped, s')
      | (Done NilConn, s') => (Done Crashed, s')
      | (Fault f, s') => (if bool_decide (f = Blocks) then Fault Blocks else Done Crashed, s')
      end
  end.
End Handlers.

(** * The DNS proxy *)

Section DNS.
(** Messages of the library, with the bytes of their packed form, the number of their
    answers, and truncation to a size. *)
Context {msg : Type} (Pack : msg -> option (list Z)) (Answers : msg -> nat) (Truncate : msg -> Z -> msg).

Definition MinMsgSize : Z := 512.
(** The size of UDP messages that the client of a request accepts. *)
Definition msg_size (udpSize : option Z) : Z :=
  match udpSize with Some n => if MinMsgSize <=? n then n else MinMsgSize | None => MinMsgSize end.

(** The loop: nothing in it changes the response. The result is what is written. *)
Fixpoint reply_loop (rounds : nat) (response : msg) (msgSize : Z) : outcome (list (list Z)) :=
  match rounds with
  | O => Fault Diverges
  | S rounds =>
      match Pack response with
      | None => Done []
      | Some data =>
          if Z.of_nat (length data) <=? msgSize then Done [data]
          else if (Answers response =? 0)%nat then Done [data]
          else reply_loop rounds response msgSize
      end
  end.

(** What [Exchange] gives: a response or nil, and an error or none; a message that came
    may be given with an error. *)
Record exchange := Exchange { exchange_response : option msg; exchange_err : option string }.

(** The handler of [forwardDNS] for a request. An error is printed, and the handler
    goes on with the response; the use of a nil one panics, which is recovered, and
    nothing is written. *)
Definition forwardDNS (rounds : nat) (is_query : bool) (udpSize : option Z) (e : exchange)
    : outcome (list (list Z)) :=
  if negb is_query then Done []
  else
    match exchange_response e with
    | None => Done []
    | Some response => reply_loop rounds (Truncate response (msg_size udpSize)) (msg_size udpSize)
    end.
End DNS.
Arguments exchange : clear implicits.
Arguments Exchange {msg}.
