(* ===== verification/ProxiesProps.v ===== *)
(** The theorems on the proxies, also together with the client hook whose requests
    they answer and with the rules that choose their dialers. *)

From stdpp Require Import base gmap list strings pretty.
From Stdlib Require Import ZArith Lia Ascii.
From S2P Require HookProps ClientHook PfMacros.
From S2P Require Import Prelude Decimal NetIP NetProps Dialers Rules Transport Proxies.

#[local] Open Scope string_scope.
#[local] Open Scope Z_scope.

(** * Text *)

Lemma has_absent c s : has c s = negb (absent c s).
Proof.
  induction s as [|c' s IH]; [done|]. cbn [has absent]. rewrite IH.
  by destruct (bool_decide (c' = c)).
Qed.

Lemma last_cut_absent c s : absent c s = true -> last_cut c s = None.
Proof.
  induction s as [|c' s IH]; [done|]. cbn [absent last_cut]. rewrite andb_true_iff, negb_true_iff.
  intros [-> H]. by rewrite IH.
Qed.

Lemma last_cut_app c s t : absent c t = true -> last_cut c (s ++ String c t) = Some (s, t).
Proof.
  intros Ht. induction s as [|c' s IH].
  - rewrite string_nil_app. cbn [last_cut]. rewrite last_cut_absent by done. by rewrite bool_decide_true.
  - rewrite string_app_cons. cbn [last_cut]. by rewrite IH.
Qed.

Lemma pretty_N_go_absent c (x : N) (s : string) :
  digit_value c = None -> absent c s = true -> absent c (pretty_N_go x s) = true.
Proof.
  intros Hc. revert s. induction (N.lt_wf_0 x) as [x _ IH]. intros s Hs.
  destruct (N.eq_0_gt_0_cases x) as [->|Hx]; [done|].
  rewrite pretty_N_go_step by done. apply IH; [apply N.div_lt; lia|].
  cbn [absent]. rewrite Hs, andb_true_r, bool_decide_false; [done|].
  intros <-. rewrite digit_value_pretty in Hc; [done|apply N.mod_lt; lia].
Qed.

Lemma absent_number c n : digit_value c = None -> 0 <= n -> absent c (pretty n) = true.
Proof.
  intros Hc Hn. destruct n as [|p|p]; [|by apply (pretty_N_go_absent c (N.pos p))|lia].
  cbn. rewrite bool_decide_false; [done|]. by intros <-.
Qed.

Lemma all_digits_pretty_go (x : N) (s : string) :
  all_digits 0 (pretty_N_go x s) = all_digits (Z.of_N x) s.
Proof.
  revert s. induction (N.lt_wf_0 x) as [x _ IH]. intros s.
  destruct (N.eq_0_gt_0_cases x) as [->|Hx]; [done|].
  rewrite pretty_N_go_step by done. rewrite IH by (apply N.div_lt; lia).
  cbn [all_digits]. rewrite digit_value_pretty by (apply N.mod_lt; lia). cbn [mbind option_bind].
  f_equal. rewrite N2Z.inj_div, N2Z.inj_mod.
  pose proof (Z.div_mod (Z.of_N x) 10). change (Z.of_N 10) with 10. lia.
Qed.

Lemma all_digits_pretty n : 0 <= n -> all_digits 0 (pretty n) = Some n.
Proof.
  intros Hn. destruct n as [|p|p]; [done| |lia].
  change (pretty (Z.pos p)) with (pretty_N_go (N.pos p) ""). by rewrite all_digits_pretty_go.
Qed.

(** The number of a process or port is read back. *)
Lemma Atoi_pretty n : 0 <= n < 2 ^ 63 -> Atoi (pretty n) = Some n.
Proof.
  intros Hn. destruct (pretty_head n) as (c & s & Hs & Hc); [lia|].
  pose proof (all_digits_pretty n ltac:(lia)) as Hd. unfold Atoi. rewrite Hs in *.
  cbn [sign_cut]. rewrite !bool_decide_false by (intros ->; by destruct Hc). cbn [sign_cut].
  rewrite bool_decide_false by done. rewrite Hd. cbn [mbind option_bind]. rewrite Z.mul_1_l.
  by rewrite (proj2 (Z.leb_le _ _)), (proj2 (Z.ltb_lt _ _)) by lia.
Qed.

(** * Hosts and ports *)

(** A host without colons or brackets and a port are split again. *)
Lemma SplitHostPort_join host port :
  absent ":" host = true -> absent "[" host = true -> absent "]" host = true ->
  absent ":" port = true -> absent "[" port = true -> absent "]" port = true ->
  SplitHostPort (host ++ ":" ++ port) = Some (host, port).
Proof.
  intros Hc Hl Hr Hpc Hpl Hpr. unfold SplitHostPort.
  change (host ++ ":" ++ port) with (host ++ String ":" port) in *.
  rewrite last_cut_app by done. cbn [mbind option_bind].
  assert (match host ++ String ":" port with String "[" _ => False | _ => True end) as Hhead.
  { destruct host as [|c h]; [done|]. rewrite string_app_cons. cbn [absent] in Hl.
    apply andb_true_iff in Hl as [Hl%negb_true_iff%bool_decide_eq_false _].
    by destruct c as [[] [] [] [] [] [] [] []]. }
  assert (has ":" host || has "[" (host ++ String ":" port) || has "]" (host ++ String ":" port) = false) as Hno.
  { rewrite !has_absent, !absent_app. cbn [absent]. by rewrite Hc, Hl, Hr, Hpl, Hpr. }
  destruct (host ++ String ":" port) as [|c h]; [by rewrite Hno|].
  destruct c as [[] [] [] [] [] [] [] []]; try done; by rewrite Hno.
Qed.

(** With a colon in the host, brackets are needed. *)
Lemma SplitHostPort_colon host port :
  absent ":" host = false -> match host with String "[" _ => False | _ => True end ->
  absent ":" port = true -> SplitHostPort (host ++ ":" ++ port) = None.
Proof.
  intros Hc Hhead Hp. unfold SplitHostPort. change (host ++ ":" ++ port) with (host ++ String ":" port).
  rewrite last_cut_app by done. cbn [mbind option_bind].
  assert (has ":" host = true) as Hno by by rewrite has_absent, Hc.
  destruct host as [|c h]; [done|]. rewrite string_app_cons, Hno.
  by destruct c as [[] [] [] [] [] [] [] []].
Qed.

(** An address of IPv6 has colons. *)
Lemma IP_String_6 ip :
  length ip = 16%nat -> Forall is_byte ip -> To4 ip = None ->
  absent ":" (IP_String ip) = false /\ match IP_String ip with String "[" _ => False | _ => True end.
Proof.
  intros Hl Hb H4. assert (IP_String ip = appendTo6 ip) as ->.
  { unfold IP_String. destruct ip; [done|]. by rewrite H4, Hl. }
  destruct (appendTo6_shape ip Hl Hb) as (pre & post & Hpre & _ & H).
  assert (forall gs, Forall is_group gs -> match colons gs with String "[" _ => False | _ => True end) as Hhead.
  { intros gs Hgs. destruct gs as [|g gs]; [done|]. destruct (colons_head (g :: gs)) as (d & s & Hd & ->); [done|done|].
    pose proof (hex_value_char d Hd) as Hv. by destruct (hex_char d) as [[] [] [] [] [] [] [] []]. }
  destruct H as [(-> & Hlen & -> & _) | (l & _ & _ & -> & _)].
  - split; [|by apply Hhead]. destruct pre as [|g [|g' pre]]; try done. rewrite colons_cons, absent_app.
    cbn [absent]. rewrite bool_decide_true by done. apply andb_false_r.
  - rewrite !absent_app. split.
    + cbn [absent]. rewrite bool_decide_true by done. cbn. apply andb_false_r.
    + destruct pre as [|g pre]; [done|]. specialize (Hhead (g :: pre) Hpre).
      destruct (colons_head (g :: pre)) as (d & s & Hd & Hs); [done|done|]. rewrite Hs in *.
      rewrite string_app_cons. exact Hhead.
Qed.

Lemma port_absent n : 0 <= n ->
  absent ":" (pretty n) = true /\ absent "[" (pretty n) = true /\ absent "]" (pretty n) = true.
Proof. intros Hn. split_and!; by apply absent_number. Qed.

Lemma dotted_absent b : Forall is_byte b ->
  absent ":" (dotted b) = true /\ absent "[" (dotted b) = true /\ absent "]" (dotted b) = true.
Proof. intros Hb. split_and!; by apply absent_dotted. Qed.

(** * Requests of the client hook *)

Lemma chomp_CR l : chomp (l ++ String CR "") = l.
Proof. unfold chomp. by rewrite last_cut_app. Qed.

Lemma unbracket_absent s : absent "[" s = true -> unbracket s = s.
Proof.
  destruct s as [|c s]; [done|]. cbn [absent].
  intros [Hl%negb_true_iff%bool_decide_eq_false _]%andb_true_iff. by destruct c as [[] [] [] [] [] [] [] []].
Qed.

Definition one_line (s : string) : Prop := absent LF s = true.

(** What the hook sends is understood. *)
Lemma read_request_text method path host :
  absent " " method = true -> absent " " path = true ->
  one_line method -> one_line path -> one_line host ->
  read_request (HookProps.request_text method path host) =
  Some (if bool_decide (method = "CONNECT") then HttpRequest method path path else HttpRequest method "" host).
Proof.
  unfold one_line. intros Hm Hp Hml Hpl Hhl. unfold read_request, HookProps.request_text.
  set (line := method ++ String " " (path ++ String " " "HTTP/1.1")).
  set (head := "Host: " ++ host).
  transitivity ('(l, rest) ← cut LF ((line ++ String CR "") ++ String LF ((head ++ String CR "") ++ String LF (String CR (String LF ""))));
    '(method, r) ← cut " " (chomp l); '(uri, _) ← cut " " r;
    let host := host_header (String.length rest) rest in
    Some (if bool_decide (method = "CONNECT") then HttpRequest method uri uri else HttpRequest method "" host)).
  { unfold line, head. repeat (rewrite !string_app_assoc || rewrite !string_app_cons || rewrite !string_nil_app). done. }
  rewrite cut_app.
  2:{ unfold line. rewrite !absent_app. cbn [absent]. rewrite absent_app. by rewrite Hml, Hpl. }
  cbn [mbind option_bind]. rewrite chomp_CR. unfold line at 1. rewrite cut_app by done.
  cbn [mbind option_bind]. rewrite cut_app by done. cbn [mbind option_bind].
  destruct (String.length _) eqn:Hlen; [by rewrite string_length_app in Hlen; unfold head in Hlen; rewrite string_app_cons in Hlen|].
  cbn [host_header]. rewrite cut_app by (unfold head; rewrite !absent_app; cbn [absent]; by rewrite Hhl).
  rewrite chomp_CR. unfold head.
  change ("Host: " ++ host) with ("Host" ++ String ":" (String " " host)). by rewrite cut_app.
Qed.

(** * The dialer of a destination *)

(** A dialer, an unregistered name or a nil dialer, from the rules as an ordered map
    and the registry. *)
Definition chosen {signer} (es : list entry) (reg : @registry signer) (ip : IP) : outcome target :=
  match route es ip with
  | None => Done Direct
  | Some d =>
      match dialers reg !! d with
      | None => Done Nowhere
      | Some info =>
          match impl info with
          | ImplSocks5 a => Done (ViaSocks5 a)
          | ImplSSH (Some n) => Done (ViaSSH n)
          | ImplSSH None => Fault Segv
          end
      end
  end.

Lemma chosen_fault {signer} es (reg : @registry signer) ip f : chosen es reg ip = Fault f -> f = Segv.
Proof.
  unfold chosen. destruct (route es ip) as [d|]; [|done].
  destruct (dialers reg !! d) as [[? ? ? [[n|]|a]]|]; try done. by intros [= <-].
Qed.

(** [a.b.c.d] as an address of sixteen bytes. *)
Definition mapped (b : list Z) : IP := (v4InV6Prefix ++ b)%list.

Lemma route_mapped es b : length b = 4%nat -> route es (mapped b) = route es b.
Proof.
  intros Hl. assert (unmap (mapped b) = unmap b) as Heq.
  { unfold unmap, To4. rewrite Hl. unfold mapped. destruct b as [|? [|? [|? [|? [|]]]]]; done. }
  induction es as [|[[n l] d] es IH]; [done|]. cbn [route]. by rewrite Heq, IH.
Qed.

Lemma IP_String_mapped b : length b = 4%nat -> IP_String (mapped b) = dotted b.
Proof. intros Hl. by destruct b as [|? [|? [|? [|? [|]]]]]. Qed.

Lemma RuleSet_Dial_chosen {signer} (Resolve : string -> string -> option IP) rs es (reg : @registry signer) addr ip :
  Forall2 rule_entry rs es -> Resolve "tcp" addr = Some ip -> Forall is_byte ip ->
  RuleSet_Dial Resolve rs "tcp" addr reg = (chosen es reg ip, reg).
Proof.
  intros Hrs Hres Hb. unfold RuleSet_Dial, chosen. rewrite Hres.
  rewrite <-(first_match_route rs es ip Hrs Hb). destruct (first_match rs ip) as [r|]; [|done].
  cbn. unfold Dial, mbind, G_bind, gget, mret, G_ret, gpanic. cbn.
  destruct (dialers reg !! rule_Dialer r) as [[? ? ? [[n|]|a]]|]; done.
Qed.

(** What a tunnel gets, and a connection that was redirected. *)
Definition tunnel_reply (reach : target -> string -> bool) (d : outcome target) (addr : string) : reply :=
  match d with
  | Done Nowhere => Crashed
  | Done t => if reach t addr then Tunnel t else Reply 503 []
  | Fault _ => Dropped
  end.
Definition redirect_reply (reach : target -> string -> bool) (d : outcome target) (addr : string) : reply :=
  match d with
  | Done Nowhere | Fault _ => Crashed
  | Done t => if reach t addr then Tunnel t else Dropped
  end.

(** Addresses of IPv4 in their text are not asked for. *)
Record literals (lookup ResolveTCPAddr : string -> string -> option IP) : Prop := {
  lookup_literal dns b : length b = 4%nat -> Forall is_byte b -> lookup dns (dotted b) = Some (mapped b);
  resolve_literal b port : length b = 4%nat -> Forall is_byte b -> 0 <= port < 65536 ->
    ResolveTCPAddr "tcp" (dotted b ++ ":" ++ pretty port) = Some (mapped b);
}.

Section Served.
Context {signer : Type} (lookup ResolveTCPAddr : string -> string -> option IP).
Context (reach : target -> string -> bool).
Implicit Types reg : @registry signer.

Lemma splitHostPort_number host port :
  absent "[" host = true -> 0 <= port -> splitHostPort (host ++ ":" ++ pretty port) = (host, pretty port).
Proof.
  intros Hh Hp. unfold splitHostPort. change (host ++ ":" ++ pretty port) with (host ++ String ":" (pretty port)).
  rewrite last_cut_app by (by apply port_absent). unfold valid_port.
  rewrite bool_decide_true by (rewrite all_digits_pretty by done; by eexists). by rewrite unbracket_absent.
Qed.

Lemma mapped_bytes b : Forall is_byte b -> Forall is_byte (mapped b).
Proof. intros Hb. apply Forall_app. split; [|done]. repeat constructor; by compute. Qed.

Lemma proxy_Dial_chosen rs es b port reg (Hlit : literals lookup ResolveTCPAddr) :
  Forall2 rule_entry rs es -> length b = 4%nat -> Forall is_byte b -> 0 <= port < 65536 ->
  let addr := dotted b ++ ":" ++ pretty port in
  proxy_Dial ResolveTCPAddr reach rs addr reg =
    (match chosen es reg b with
     | Done Nowhere => Done NilConn
     | Done t => Done (if reach t addr then Conn t else DialError)
     | Fault f => Fault f
     end, reg).
Proof.
  intros Hrs Hl Hb Hp addr. unfold proxy_Dial, mbind, G_bind.
  rewrite (RuleSet_Dial_chosen _ rs es reg addr (mapped b) Hrs);
    [|by apply (resolve_literal _ _ Hlit)|by apply mapped_bytes].
  unfold chosen. rewrite route_mapped by done. destruct (route es b) as [d|]; [|done].
  by destruct (dialers reg !! d) as [[? ? ? [[n|]|a]]|].
Qed.
End Served.

(** * The properties *)

(** C7: whoever asks the daemon for a connection to an address of IPv4 gets it by
    the rules, the first rule that matches and the dialer of its name: the program
    behind the client hook, whose request the HTTP proxy reads as it was meant, and
    a connection that was redirected to the transparent proxy. A rule that names no
    dialer, ["direct"] say, ends the process; a dialer without its SSH object ends it
    too when the connection was redirected. *)
Theorem connections_follow_rules {signer} (lookup ResolveTCPAddr : string -> string -> option IP)
    (reach : target -> string -> bool) (RoundTrip : http_request -> option (Z * list (string * string)))
    (Hlit : literals lookup ResolveTCPAddr)
    (o : PfMacros.byte_order) (addr : ClientHook.sockaddr) (dns : string)
    (rs : RuleSet) (es : list entry) (reg : @registry signer)
    (Haddr : HookProps.addr_bytes addr) (Hrs : Forall2 rule_entry rs es) :
  let asked := HookProps.host_port o addr in
  let port := PfMacros.ntohs o (ClientHook.sin_port addr) in
  let ip := ClientHook.sin_addr addr in
  (r ← read_request (HookProps.request_text "CONNECT" asked asked);
   Some (handle ResolveTCPAddr lookup reach RoundTrip rs dns r reg)) =
    Some (Done (tunnel_reply reach (chosen es reg ip) asked), reg) /\
  transparent_connection ResolveTCPAddr reach rs (Some (dotted ip, port)) reg =
    (Done (redirect_reply reach (chosen es reg ip) asked), reg).
Proof.
  intros asked port ip. destruct Haddr as (Hl & Hb & Hport). fold ip in Hl, Hb.
  assert (0 <= port < 65536) as Hp by (subst port; destruct o; cbn; [apply PfMacros.bswap16_range|done]).
  change asked with (dotted ip ++ ":" ++ pretty port).
  pose proof (proxy_Dial_chosen lookup ResolveTCPAddr reach rs es ip port reg Hlit Hrs Hl Hb Hp) as Hd.
  cbv zeta in Hd. split.
  - assert (forall c, digit_value c = None -> c <> "."%char -> c <> ":"%char ->
      absent c (dotted ip ++ ":" ++ pretty port) = true) as Habs.
    { intros c Hc Hdot Hcol. rewrite !absent_app, absent_dotted, absent_number by (done || lia).
      cbn [absent]. by rewrite bool_decide_false by congruence. }
    rewrite read_request_text by (done || by apply Habs). cbn [mbind option_bind].
    rewrite bool_decide_true by done. unfold handle, handleTunneling, Hostname, URLPort, ResolveDNS.
    cbn [Method URL_Host]. rewrite bool_decide_false, bool_decide_true by done.
    rewrite splitHostPort_number by (lia || by apply dotted_absent). cbn [fst snd].
    rewrite (lookup_literal _ _ Hlit) by done. rewrite IP_String_mapped by done.
    f_equal. unfold mbind, G_bind. rewrite Hd. unfold tunnel_reply.
    destruct (chosen es reg ip) as [[| |a|n]|f] eqn:Hc; [done|by cbn; case_match..|].
    by rewrite (chosen_fault _ _ _ _ Hc).
  - unfold transparent_connection. rewrite Hd. unfold redirect_reply.
    destruct (chosen es reg ip) as [[| |a|n]|f] eqn:Hc; [done|by cbn; case_match..|].
    by rewrite (chosen_fault _ _ _ _ Hc).
Qed.

(** A resolver that knows nothing but addresses. *)
Definition only_literals (dns s : string) : option IP :=
  let s := match SplitHostPort s with Some (h, _) => h | None => s end in mapped <$> parseIPv4 s.

Lemma only_literals_literals : literals only_literals only_literals.
Proof.
  split; unfold only_literals.
  - intros _ b Hl Hb. assert (SplitHostPort (dotted b) = None) as ->.
    { unfold SplitHostPort. by rewrite last_cut_absent by (by apply dotted_absent). }
    by rewrite parseIPv4_dotted.
  - intros b port Hl Hb Hp. destruct (dotted_absent b Hb) as (? & ? & ?), (port_absent port) as (? & ? & ?); [lia|].
    rewrite SplitHostPort_join by done. by rewrite parseIPv4_dotted.
Qed.

Lemma connections_follow_rules_witness :
  let net := mkIPNet [10; 0; 0; 0] [255; 0; 0; 0] in
  let asked := HookProps.request_text "CONNECT" "10.1.2.3:80" "10.1.2.3:80" in
  let serve d := (r ← read_request asked;
    Some (handle only_literals only_literals (fun _ _ => true) (fun _ => None) [mkRule net d] "" r
      (start true : @registry unit))) in
  serve "direct" = Some (Done Crashed, start true).
Proof.
  cbv zeta. eapply eq_trans; [apply (connections_follow_rules only_literals only_literals (fun _ _ => true) (fun _ => None)
    only_literals_literals PfMacros.LittleEndian (ClientHook.Sockaddr 2 0x5000 [10; 1; 2; 3]) ""
    [mkRule (mkIPNet [10; 0; 0; 0] [255; 0; 0; 0]) "direct"] [(([10; 0; 0; 0], 8), "direct")] (start true))|].
  - split_and!; [done|repeat constructor; by compute|done|done].
  - constructor; [|constructor]. split_and!; [|done|done]. apply (is_net_4 [10; 0; 0; 0] 8); [done|repeat constructor; by compute|lia].
  - reflexivity.
Defined.

(** The answer to a name that the client hook asks for, which is the address the
    resolver finds first; when it finds none, the answer says 200 all the same, and
    its address is the text ["<nil>"], which the hook then looks up as a host. *)
Theorem resolve_answers {signer} (lookup ResolveTCPAddr : string -> string -> option IP)
    (reach : target -> string -> bool) (RoundTrip : http_request -> option (Z * list (string * string)))
    (name dns : string) (rs : RuleSet) (reg : @registry signer) (Hname : one_line name) :
  (r ← read_request (HookProps.request_text "RESOLVE" "*" name);
   Some (handle ResolveTCPAddr lookup reach RoundTrip rs dns r reg)) =
    Some (Done (Reply 200 [("Host", match lookup dns name with Some ip => IP_String ip | None => "<nil>" end)]), reg).
Proof.
  rewrite read_request_text by done. cbn [mbind option_bind]. rewrite bool_decide_false by done.
  unfold handle. cbn [Method]. rewrite bool_decide_true by done. unfold handleResolve, ResolveDNS.
  cbn [Request_Host]. by destruct (lookup dns name).
Qed.

Lemma resolve_answers_witness :
  (r ← read_request (HookProps.request_text "RESOLVE" "*" "nowhere");
   Some (handle only_literals only_literals (fun _ _ => true) (fun _ => None) [] "" r (start true : @registry unit))) =
  Some (Done (Reply 200 [("Host", "<nil>")]), start true).
Proof. by eapply eq_trans; [apply resolve_answers|]. Defined.

(** C26: what the handler of the DNS proxy does with a query, in every case: it writes
    one answer, or none when the exchange gave no response or the response cannot be
    packed. An error of the exchange changes nothing: a response that comes with one,
    such as one that belongs to another request, is truncated and written as well. The
    loop changes nothing, so it never ends when the packed answer is too long and has
    records; that truncation makes answers fit, as its library says, rules this out,
    and every answer that is written then has a size the client accepts. *)
Theorem dns_answers {msg} (Pack : msg -> option (list Z)) (Answers : msg -> nat) (Truncate : msg -> Z -> msg)
    (udpSize : option Z) (m : msg) (err : option string) (rounds : nat) (Hrounds : (0 < rounds)%nat) :
  let size := msg_size udpSize in
  let written := forwardDNS Pack Answers Truncate rounds true udpSize (Exchange (Some m) err) in
  let fit := forall m n data, MinMsgSize <= n -> Pack (Truncate m n) = Some data -> Z.of_nat (length data) <= n in
  MinMsgSize <= size /\ (forall n, udpSize = Some n -> MinMsgSize <= n -> size = n) /\
  written =
    match Pack (Truncate m size) with
    | None => Done []
    | Some data =>
        if (Z.of_nat (length data) <=? size) || (Answers (Truncate m size) =? 0)%nat then Done [data]
        else Fault Diverges
    end /\
  (fit -> exists answers, written = Done answers /\ (length answers <= 1)%nat /\
    Forall (fun data => Z.of_nat (length data) <= size) answers) /\
  forwardDNS Pack Answers Truncate rounds false udpSize (Exchange (Some m) err) = Done [] /\
  forwardDNS Pack Answers Truncate rounds true udpSize (Exchange None err) = Done [].
Proof.
  intros size written fit.
  assert (MinMsgSize <= size) as Hmin.
  { subst size. unfold msg_size. destruct udpSize as [n|]; [|done]. by destruct (Z.leb_spec MinMsgSize n). }
  assert (written = match Pack (Truncate m size) with
    | None => Done []
    | Some data =>
        if (Z.of_nat (length data) <=? size) || (Answers (Truncate m size) =? 0)%nat then Done [data]
        else Fault Diverges
    end) as Hw.
  { subst written. unfold forwardDNS. cbn [negb]. fold size. cbn [exchange_response]. generalize (Truncate m size) as m'. intros m'.
    destruct rounds as [|rounds]; [lia|]. clear. induction rounds as [|rounds IH].
    - cbn. destruct (Pack m') as [data|]; [|done]. by destruct (_ <=? _), (_ =? _)%nat.
    - cbn [reply_loop] in *. destruct (Pack m') as [data|]; [|done].
      destruct (_ <=? _); [done|]. destruct (_ =? _)%nat; [done|]. exact IH. }
  split_and!; [done| |done| |done|done].
  - intros n -> Hn. subst size. unfold msg_size. by rewrite (proj2 (Z.leb_le _ _)).
  - intros Hfit. rewrite Hw. destruct (Pack (Truncate m size)) as [data|] eqn:Hp; [|by exists []; split_and!; [done|cbn; lia|constructor]].
    specialize (Hfit _ _ _ Hmin Hp). rewrite (proj2 (Z.leb_le _ _) Hfit). cbn [orb]. exists [data].
    split_and!; [done|done|by constructor].
Qed.

Lemma dns_answers_witness :
  forwardDNS Some (fun _ => 1%nat) (fun m _ => m) 100 true (Some 512) (Exchange (Some (replicate 600 0)) None) = Fault Diverges /\
  forwardDNS Some (fun _ => 1%nat) (fun m n => take (Z.to_nat n) m) 1 true (Some 512) (Exchange (Some (replicate 600 0)) (Some "id mismatch")) =
    Done [replicate 512 0].
Proof.
  split.
  - apply (dns_answers Some (fun _ => 1%nat) (fun m _ => m) (Some 512) (replicate 600 0) None 100); lia.
  - apply (dns_answers Some (fun _ => 1%nat) (fun m n => take (Z.to_nat n) m) (Some 512) (replicate 600 0) (Some "id mismatch") 1); lia.
Defined.

(** [net.JoinHostPort]. *)
Definition JoinHostPort (host port : string) : string :=
  if has ":" host then "[" ++ host ++ "]:" ++ port else host ++ ":" ++ port.

Lemma SplitHostPort_bracketed host port :
  absent "[" host = true -> absent "]" host = true ->
  absent ":" port = true -> absent "[" port = true -> absent "]" port = true ->
  SplitHostPort ("[" ++ host ++ "]:" ++ port) = Some (host, port).
Proof.
  intros Hl Hr Hpc Hpl Hpr. unfold SplitHostPort.
  replace ("[" ++ host ++ "]:" ++ port) with (("[" ++ host ++ "]") ++ String ":" port)
    by (by rewrite !string_app_assoc).
  rewrite last_cut_app by done. cbn [mbind option_bind].
  change (("[" ++ host ++ "]") ++ String ":" port) with (String "[" ((host ++ "]") ++ String ":" port)).
  cbv iota beta. rewrite string_app_assoc. change ("]" ++ String ":" port) with (String "]" (String ":" port)).
  rewrite cut_app by done. cbn [mbind option_bind]. rewrite bool_decide_true by done.
  rewrite !has_absent, absent_app, Hl. cbn [absent]. by rewrite Hpl, Hpr.
Qed.

Lemma IP_String_absent c ip :
  (length ip = 16%nat \/ length ip = 4%nat) -> Forall is_byte ip ->
  hex_value c = None -> digit_value c = None -> c <> ":"%char -> c <> "."%char -> absent c (IP_String ip) = true.
Proof.
  intros Hl Hb Hh Hd Hc Hdot. unfold IP_String. destruct ip as [|x ip]; [by destruct Hl|].
  destruct (To4 (x :: ip)) as [p4|] eqn:H4.
  - apply absent_dotted; [done..|]. pose proof (unmap_bytes _ Hb) as Hu. unfold unmap in Hu. by rewrite H4 in Hu.
  - destruct Hl as [Hl|Hl]; [|unfold To4 in H4; by rewrite Hl in H4]. rewrite Hl. by apply absent_appendTo6.
Qed.

Lemma IP_String_ne ip :
  (length ip = 16%nat \/ length ip = 4%nat) -> Forall is_byte ip -> IP_String ip <> "".
Proof.
  intros Hl Hb He. destruct (To4 ip) as [p4|] eqn:H4.
  - assert (IP_String ip = dotted p4) as Hd by (unfold IP_String; destruct ip; [by destruct Hl|by rewrite H4]).
    assert (length p4 = 4%nat) as Hp4.
    { unfold To4 in H4. repeat case_match; simplify_eq; [by apply Nat.eqb_eq|].
      rewrite length_drop. destruct Hl as [->|Hl]; [done|]. by rewrite Hl in *. }
    pose proof (unmap_bytes _ Hb) as Hu. unfold unmap in Hu. rewrite H4 in Hu. cbn in Hu.
    destruct p4 as [|x [|y p4]]; try done. inversion Hu as [|? ? Hx]; subst.
    apply (pretty_ne x (String "." (dotted (y :: p4)))); [by apply Hx|]. by rewrite <-He, Hd.
  - destruct Hl as [Hl|Hl]; [|unfold To4 in H4; by rewrite Hl in H4].
    destruct (IP_String_6 ip Hl Hb H4) as [H _]. by rewrite He in H.
Qed.

(** C27: addresses with ports, for an address that a name resolved to or that the
    parameter of the DNS proxy gives, properly joined with its port. For IPv4 the text
    that is dialled is split again; for IPv6 it never is, as its brackets are left
    out. A tunnel to such an address is refused whatever the rules say, since the
    parts that dial split the text. *)
Theorem dialled_text {signer} (lookup ResolveTCPAddr : string -> string -> option IP)
    (reach : target -> string -> bool) (rs : RuleSet) (dns name : string) (ip : IP) (port : Z)
    (reg : @registry signer)
    (Hresolve : forall s, SplitHostPort s = None -> ResolveTCPAddr "tcp" s = None)
    (Hreach : forall s, SplitHostPort s = None -> reach Direct s = false)
    (Hlen : length ip = 16%nat \/ length ip = 4%nat) (Hb : Forall is_byte ip) (Hp : 0 <= port < 65536)
    (Hname : lookup dns name = Some ip) (Hplain : absent "[" name = true) :
  let v4 := bool_decide (is_Some (To4 ip)) in
  (exists t, makeTargetAddr (JoinHostPort (IP_String ip) (pretty port)) = Some t /\
     SplitHostPort t = if v4 then Some (IP_String ip, pretty port) else None) /\
  (v4 = false ->
     handleTunneling ResolveTCPAddr lookup reach rs dns (HttpRequest "CONNECT" (name ++ ":" ++ pretty port) "") reg =
       (Done (Reply 503 []), reg)).
Proof.
  intros v4. destruct (port_absent port) as (Hpc & Hpl & Hpr); [lia|].
  pose proof (fun c => IP_String_absent c ip Hlen Hb) as Habs.
  assert (v4 = true -> has ":" (IP_String ip) = false) as H4.
  { subst v4. rewrite bool_decide_eq_true. intros [p4 H4]. unfold IP_String. destruct ip; [done|]. rewrite H4.
    rewrite has_absent. pose proof (unmap_bytes _ Hb) as Hu. unfold unmap in Hu. rewrite H4 in Hu.
    by destruct (dotted_absent p4 Hu) as [-> _]. }
  assert (v4 = false -> absent ":" (IP_String ip) = false /\
    match IP_String ip with String "[" _ => False | _ => True end) as H6.
  { subst v4. rewrite bool_decide_eq_false, <-eq_None_not_Some. intros H6. destruct Hlen as [Hl|Hl].
    - by apply IP_String_6.
    - unfold To4 in H6. by rewrite Hl in H6. }
  assert (IP_String ip <> "") as Hne by (by apply IP_String_ne).
  split.
  - assert (SplitHostPort (JoinHostPort (IP_String ip) (pretty port)) = Some (IP_String ip, pretty port)) as Hj.
    { unfold JoinHostPort. destruct (has ":" (IP_String ip)) eqn:Hhas.
      - by apply SplitHostPort_bracketed; [apply Habs..|done|done|done].
      - apply SplitHostPort_join; [|by apply Habs..|done|done|done]. rewrite has_absent in Hhas. by apply negb_false_iff. }
    exists (IP_String ip ++ ":" ++ pretty port). unfold makeTargetAddr. rewrite Hj.
    rewrite !bool_decide_false by (done || by destruct (pretty_head port) as (? & ? & -> & _); [lia|]).
    split; [done|]. destruct v4.
    + apply SplitHostPort_join; [|by apply Habs..|done|done|done].
      specialize (H4 eq_refl). rewrite has_absent in H4. by apply negb_false_iff.
    + destruct (H6 eq_refl). by apply SplitHostPort_colon.
  - intros Hv4. destruct (H6 Hv4) as [Hcol Hhead]. unfold handleTunneling, ResolveDNS, Hostname, URLPort.
    cbn [URL_Host]. rewrite splitHostPort_number by (done || lia). cbn [fst snd]. rewrite Hname.
    assert (SplitHostPort (IP_String ip ++ ":" ++ pretty port) = None) as Hs by (by apply SplitHostPort_colon).
    unfold proxy_Dial, RuleSet_Dial, mbind, G_bind. rewrite (Hresolve _ Hs). cbn. by rewrite (Hreach _ Hs).
Qed.

Lemma dialled_text_witness :
  let v6 := [32; 1; 13; 184; 0; 0; 0; 0; 0; 0; 0; 0; 0; 0; 0; 1] in
  IP_String v6 = "2001:db8::1" /\
  handleTunneling (fun _ s => '(h, _) ← SplitHostPort s; parseIPv4 h) (fun _ _ => Some v6)
    (fun _ s => bool_decide (is_Some (SplitHostPort s))) [] "" (HttpRequest "CONNECT" ("example.org" ++ ":" ++ pretty 443) "")
    (start true : @registry unit) = (Done (Reply 503 []), start true).
Proof.
  cbv zeta. split; [reflexivity|].
  apply (dialled_text (fun _ _ => Some [32; 1; 13; 184; 0; 0; 0; 0; 0; 0; 0; 0; 0; 0; 0; 1])
    (fun _ s => '(h, _) ← SplitHostPort s; parseIPv4 h)
    (fun _ s => bool_decide (is_Some (SplitHostPort s))) [] "" "example.org"
    [32; 1; 13; 184; 0; 0; 0; 0; 0; 0; 0; 0; 0; 0; 0; 1] 443 (start true)).
  - intros s ->. done.
  - intros s ->. done.
  - by left.
  - repeat constructor; by compute.
  - lia.
  - done.
  - done.
  - reflexivity.
Defined.
