(* ===== verification/CommandsProps.v ===== *)
(** The theorems on the commands: the commands on the line of the daemon, what
    [connect] sends with whose consent, and the script for iptables. *)

From stdpp Require Import base gmap list strings pretty.
From Stdlib Require Import ZArith Lia Ascii.
From S2P Require Import Prelude Decimal NetIP NetProps Dialers Rules Transport Control ControlProps Commands ProxiesProps.

#[local] Open Scope string_scope.
#[local] Open Scope Z_scope.

(** * The line of the daemon *)

(** The commands, as they are separated. *)
Fixpoint segments (cmds : list string) : list (list string) :=
  match cmds with
  | [] => [[]]
  | c :: cmds =>
      if bool_decide (c = "--") then [] :: segments cmds
      else match segments cmds with s :: ss => (c :: s) :: ss | [] => [] end
  end.

Lemma separator_segments cmds :
  match separator cmds with
  | Some i => segments cmds = take i cmds :: segments (drop (i + 1) cmds) /\ (i < length cmds)%nat
  | None => segments cmds = [cmds]
  end.
Proof.
  unfold separator. induction cmds as [|c cmds IH]; [done|]. cbn [list_find segments].
  case_bool_decide as Hc.
  - rewrite decide_True by done. cbn. split; [done|lia].
  - rewrite decide_False by done. destruct (list_find _ cmds) as [[i x]|]; cbn in *.
    + destruct IH as [-> IH]. split; [done|lia].
    + by rewrite IH.
Qed.

Section Run.
Context {S : Type} `{API S}.
Context (url_Parse : string -> option URL) (url_String : URL -> string).
Context (Getenv : string -> string) (arg0 : string).
Context (ReadFile : string -> option string) (CheckSSHKey : string -> string -> option string).
Context (error_text : string) (fuel : nat).

Abbreviation execute := (ExecuteCommand url_Parse url_String Getenv arg0 ReadFile CheckSSHKey error_text fuel).
Abbreviation run := (run_commands url_Parse url_String Getenv arg0 ReadFile CheckSSHKey error_text fuel).

(** One command after the other, whether it succeeds or not, until one ends the
    process. Nothing is left after a separator at the end; a command without a name
    is a slice out of bounds. *)
Fixpoint run_segments (ss : list (list string)) : G (world S) ending :=
  match ss with
  | [] | [[]] => mret (Returns true)
  | [] :: _ => gpanic Panic
  | (c :: args) :: ss =>
      e ← execute c args;
      match (e : ending) with Exits rc => mret (Exits rc) | Returns _ => run_segments ss end
  end.

Lemma segments_nonempty cmds : segments cmds <> [].
Proof.
  induction cmds as [|c cmds IH]; [done|]. cbn [segments]. case_bool_decide; [done|]. by destruct (segments cmds).
Qed.

Lemma run_rounds rounds cmds w :
  (length cmds < rounds)%nat -> run rounds cmds w = run_segments (segments cmds) w.
Proof.
  revert cmds w. induction rounds as [|rounds IH]; intros cmds w Hr; [lia|].
  destruct cmds as [|c args]; [done|]. cbn [run_commands].
  pose proof (separator_segments (c :: args)) as Hs. destruct (separator (c :: args)) as [[|i]|].
  - destruct Hs as [-> _]. cbn [take run_segments].
    destruct (segments (drop (0 + 1) (c :: args))) eqn:He; [by apply segments_nonempty in He|done].
  - destruct Hs as [-> Hi]. cbn [take run_segments]. replace (Datatypes.S i - 1)%nat with i by lia.
    unfold mbind, G_bind. destruct (execute c (take i args) w) as [[[ok|rc]|f] w']; [|done..].
    apply IH. rewrite length_drop. cbn [length] in *. lia.
  - rewrite Hs. cbn [run_segments]. done.
Qed.
End Run.

(** A terminal, for examples. *)
Definition terminal (lines : list string) : world unit := World "default" [] lines [] [] tt.

(** The loop of the daemon over its line ends and does what its reference does:
    it executes the commands one after the other, split at ["--"], until one ends the
    process. As many rounds as there are words, and one more, are enough. *)
Theorem run_commands_segments {S} `{API S} (url_Parse : string -> option URL) (url_String : URL -> string)
    (Getenv : string -> string) (arg0 : string) (ReadFile : string -> option string)
    (CheckSSHKey : string -> string -> option string) (error_text : string)
    (fuel rounds : nat) (cmds : list string) (w : world S) (Hrounds : (length cmds < rounds)%nat) :
  run_commands url_Parse url_String Getenv arg0 ReadFile CheckSSHKey error_text fuel rounds cmds w =
  run_segments url_Parse url_String Getenv arg0 ReadFile CheckSSHKey error_text fuel (segments cmds) w.
Proof. by apply run_rounds. Qed.

Lemma run_commands_segments_witness :
  segments ["version"; "--"; "connect"; "--accept-host-keys"; "--"; "version"] =
    [["version"]; ["connect"; "--accept-host-keys"]; ["version"]] /\
  let res := run_commands (H := Agreeable) (fun _ => None) Host (fun _ => "") "sshtunnel" (fun _ => None) (fun _ _ => None) ""
    5 7 ["version"; "--"; "connect"; "--accept-host-keys"; "--"; "version"] (terminal []) in
  res.1 = Done (Exits 0) /\ stdout res.2 =
    ["sshtunnel version: dev-build"; "Auto-accepting host key (fingerprint: SHA256:x)"].
Proof.
  split; [reflexivity|]. cbv zeta.
  rewrite (run_commands_segments (H := Agreeable) (fun _ => None) Host (fun _ => "") "sshtunnel" (fun _ => None) (fun _ _ => None) ""
    5 7 ["version"; "--"; "connect"; "--accept-host-keys"; "--"; "version"] (terminal [])) by (cbn; lia).
  by split.
Defined.

(** * Consent *)

(** Why a request follows an answer of the server, what the user said in between. *)
Inductive reason (accept_all : bool) (out : ConnectOut) : list event -> ConnectIn -> Prop :=
  | because_poll :
      out_Status out <> "need_passphrase" -> out_Status out <> "unknown_host_key" ->
      reason accept_all out [] (mkConnectIn (out_ID out) "" None)
  | because_passphrase p :
      out_Status out = "need_passphrase" ->
      reason accept_all out [Prompted (Some p)] (mkConnectIn (out_ID out) p None)
  | because_option :
      out_Status out = "unknown_host_key" -> accept_all = true ->
      reason accept_all out [] (mkConnectIn (out_ID out) "" (Some true))
  | because_yes line :
      out_Status out = "unknown_host_key" -> accept_all = false ->
      TrimSpace (fold_case line) = "yes" \/ TrimSpace (fold_case line) = "y" ->
      reason accept_all out [Answered (Some line)] (mkConnectIn (out_ID out) "" (Some true)).

(** Every request but the first has a reason. *)
Definition consented (accept_all : bool) (first : ConnectIn) (es : list event) : Prop :=
  forall before i after, es = (before ++ Sent i :: after)%list ->
    (before = [] /\ i = first) \/
    exists earlier out said, before = (earlier ++ Got (Some out) :: said)%list /\ reason accept_all out said i.

(** How the command may end. *)
Definition fair_end (es : list event) (e : ending) : Prop :=
  match e with
  | Returns ok => ok = false
  | Exits rc =>
      exists earlier out said, es = (earlier ++ Got (Some out) :: said)%list /\
        ((rc = 0 /\ out_Status out = "succeeded") \/
         (rc = 1 /\ out_Status out = "failed") \/
         (rc = 1 /\ out_Status out = "unknown_host_key" /\ exists l, said = [Answered l]))
  end.

Section Consent.
Context {S : Type} `{API S}.

(** What a round adds: the exchange and what the user said. *)
Lemma round_events all i (w : world S) :
  match connect_round all i w with
  | (Done (inl i'), w') => exists out said,
      events w' = (events w ++ Sent i :: Got (Some out) :: said)%list /\ reason all out said i' /\
      Forall (fun e => match e with Sent _ | Got _ => False | _ => True end) said
  | (Done (inr e), w') => exists es, events w' = (events w ++ Sent i :: es)%list /\
      Forall (fun e => match e with Sent _ => False | _ => True end) es /\ fair_end es e
  | (Fault _, w') => events w' = (events w ++ [Sent i])%list
  end.
Proof.
  unfold connect_round, call, print, record_event, gset, mbind, G_bind, mret, G_ret. cbn.
  destruct (api_Connect i (inner w)) as [[[out|]|f] s]; cbn; [|exists [Got None]; rewrite <-app_assoc; split_and!; [done|by repeat constructor|done]|done].
  assert (forall T (xs ys : list T) a b, ((xs ++ [a]) ++ [b]) ++ ys = xs ++ a :: b :: ys)%list as Happ
    by (intros; by rewrite <-!app_assoc).
  case_bool_decide as Hf; [|case_bool_decide as Hs; [|case_bool_decide as Hp; [|case_bool_decide as Hu]]]; cbn.
  - exists [Got (Some out)]. rewrite <-app_assoc. split_and!; [done|by repeat constructor|].
    exists [], out, []. tauto.
  - exists [Got (Some out)]. rewrite <-app_assoc. split_and!; [done|by repeat constructor|].
    exists [], out, []. tauto.
  - destruct (mjoin (head (prompts w))) as [p|]; cbn; rewrite Happ.
    + exists out, [Prompted (Some p)]. split_and!; [done|by constructor|by repeat constructor].
    + exists [Got (Some out); Prompted None]. split_and!; [done|by repeat constructor|done].
  - destruct all; cbn; [rewrite <-app_assoc; exists out, []; split_and!; [done|by constructor|done]|].
    destruct (accepts (head (stdin w))) eqn:Ha; cbn; rewrite Happ.
    + destruct (head (stdin w)) as [line|] eqn:Hl; [|done].
      exists out, [Answered (Some line)]. split_and!; [done| |by repeat constructor]. constructor; [done..|].
      unfold accepts in Ha. apply orb_true_iff in Ha. by rewrite !bool_decide_eq_true in Ha.
    + exists [Got (Some out); Answered (head (stdin w))]. split_and!; [done|by repeat constructor|].
      exists [], out, [Answered (head (stdin w))]. split; [done|]. right. right. eauto.
  - rewrite <-app_assoc. exists out, []. split_and!; [done|by constructor|done].
Qed.
Lemma fair_end_app es es' e : fair_end es' e -> fair_end (es ++ es') e.
Proof.
  destruct e as [ok|rc]; [done|]. intros (earlier & out & said & -> & Hr).
  exists (es ++ earlier)%list, out, said. by rewrite <-app_assoc.
Qed.

Lemma consented_first all i es :
  Forall (fun e => match e with Sent _ => False | _ => True end) es -> consented all i (Sent i :: es).
Proof.
  intros Hes before j after Heq. left. destruct before as [|e before]; [by simplify_eq/=|].
  simplify_eq/=. rewrite Forall_app, Forall_cons in Hes. by destruct Hes as (_ & [] & _).
Qed.

Lemma consented_round all i out said i' es :
  Forall (fun e => match e with Sent _ | Got _ => False | _ => True end) said ->
  reason all out said i' -> consented all i' es ->
  consented all i ((Sent i :: Got (Some out) :: said) ++ es).
Proof.
  intros Hsaid Hr Hes before j after Heq.
  destruct before as [|e before]; [by left; simplify_eq/=|]. right.
  cbn in Heq. injection Heq as <- Heq. destruct before as [|e before]; [done|]. injection Heq as <- Heq.
  assert (exists before', before = (said ++ before')%list /\ es = (before' ++ Sent j :: after)%list) as (before' & -> & Heq').
  { clear Hr Hes. revert before Heq. induction Hsaid as [|x said Hx Hsaid IH]; intros before Heq.
    - by exists before.
    - destruct before as [|e before]; [by simplify_eq/=|]. injection Heq as <- Heq.
      destruct (IH _ Heq) as (before' & -> & ?). by exists before'. }
  destruct (Hes _ _ _ Heq') as [[-> ->]|(earlier & out' & said' & -> & Hr')].
  - rewrite app_nil_r. by exists [Sent i], out, said.
  - exists (Sent i :: Got (Some out) :: said ++ earlier)%list, out', said'. split; [|done].
    cbn. by rewrite <-app_assoc.
Qed.

Lemma loop_events all fuel i (w : world S) :
  exists es, events (connect_loop fuel all i w).2 = (events w ++ es)%list /\ consented all i es /\
    match (connect_loop fuel all i w).1 with Done e => fair_end es e | Fault _ => True end.
Proof.
  revert i w. induction fuel as [|fuel IH]; intros i w.
  - exists []. rewrite app_nil_r. split_and!; [done| |done]. by intros [] ? ? ?.
  - cbn [connect_loop]. unfold mbind, G_bind at 1 2. pose proof (round_events all i w) as Hr.
    destruct (connect_round all i w) as [[[i'|e]|f] w1].
    + destruct Hr as (out & said & He & Hr & Hsaid). destruct (IH i' w1) as (es & Hev & Hc & Hend).
      exists ((Sent i :: Got (Some out) :: said) ++ es)%list. split_and!.
      * rewrite Hev, He. by rewrite <-app_assoc.
      * by apply (consented_round _ _ _ _ i').
      * case_match; [|done]. by apply fair_end_app.
    + destruct Hr as (es & He & Hes & Hend). exists (Sent i :: es). split_and!; [done|by apply consented_first|].
      by apply (fair_end_app [Sent i]).
    + exists [Sent i]. split_and!; [done|by apply consented_first|done].
Qed.
End Consent.

(** C9: what [connect] sends, whatever the server answers and the user does. A host
    key is accepted only right after the server asked for it, when the option says so
    or the user has just answered yes; a passphrase is sent only when one was asked
    for, and is the one that was entered; a rejection is never sent, so that the
    server goes on waiting. Every request after the first is for the connector the
    server named. The process ends with 0 only when the server said that it is
    connected, and with 1 when it failed or the user refused. *)
Theorem connect_consent {S} `{API S} (fuel : nat) (args : list string) (w : world S) :
  exists es,
    events (cmdConnect fuel args w).2 = (events w ++ es)%list /\
    consented (acceptHostKeys args) (mkConnectIn "" "" None) es /\
    (forall i, Sent i ∈ es -> AcceptHostKey i <> Some false) /\
    match (cmdConnect fuel args w).1 with Done e => fair_end es e | Fault _ => True end.
Proof.
  destruct (loop_events (acceptHostKeys args) fuel (mkConnectIn "" "" None) w) as (es & He & Hc & Hend).
  exists es. split_and!; [done|done| |done].
  intros i (before & after & Heq)%list_elem_of_split. destruct (Hc _ _ _ Heq) as [[_ ->]|(? & ? & ? & _ & Hr)]; [done|].
  by destruct Hr.
Qed.

Lemma connect_consent_example :
  (cmdConnect (H := Agreeable) 3 [] (terminal ["Yes " ; "no"])).1 = Done (Exits 0) /\
  (cmdConnect (H := Agreeable) 3 [] (terminal ["no"])).1 = Done (Exits 1).
Proof. by split. Qed.

(** * The script for iptables *)

Inductive verdict := Accept | Redirect (port : Z).

(** The chain [sshtunnel] that the script fills for TCP. *)
Definition chain (proxies : list Proxy) (rules : list control_Rule) : list (string * verdict) :=
  (((fun r => (CIDR r, Accept)) <$> filter (fun r => control_Dialer r = "direct") rules) ++
   ((fun r => (CIDR r, Redirect (port_of "transparent" proxies))) <$> filter (fun r => control_Dialer r <> "direct") rules))%list.
Definition chain_line (c : string * verdict) : string :=
  match c.2 with
  | Accept => "sudo iptables -t nat -A sshtunnel -j ACCEPT --dest " ++ c.1 ++ " -p tcp"
  | Redirect port =>
      "sudo iptables -t nat -A sshtunnel -j REDIRECT --dest " ++ c.1 ++ " -p tcp --to-ports " ++ pretty port
  end.
Definition fills_chain (line : string) : bool := String.prefix "sudo iptables -t nat -A sshtunnel -j " line.

Lemma fills_chain_line c : fills_chain (chain_line c) = true.
Proof. by destruct c as [? []]. Qed.

Lemma filter_fills (keep drop : string) ls : fills_chain keep = true -> fills_chain drop = false ->
  filter fills_chain ([keep; drop] ++ ls)%list = keep :: filter fills_chain ls.
Proof.
  intros Hk Hd. cbn [app]. rewrite filter_cons_True by (by rewrite Hk).
  rewrite filter_cons_False; [done|]. rewrite Hd. by intros [].
Qed.

(** The lines that a rule gets, and the command for the chain among them. *)
Definition rule_lines (port : Z) (r : control_Rule) : list string :=
  if bool_decide (control_Dialer r = "direct") then direct_lines r else redirect_lines port r.
Definition verdict_of (port : Z) (dialer : string) : verdict :=
  if bool_decide (dialer = "direct") then Accept else Redirect port.
Definition in_order {A} (dialer : A -> string) (l : list A) : list A :=
  (filter (fun a => dialer a = "direct") l ++ filter (fun a => dialer a <> "direct") l)%list.

Lemma script_in_order proxies rules :
  script_rules proxies rules =
    ((in_order control_Dialer rules ≫= rule_lines (port_of "transparent" proxies)) ++
     (if 0 <? port_of "dns" proxies then dns_lines (port_of "dns" proxies) else []))%list.
Proof.
  unfold script_rules, in_order. rewrite bind_app, <-app_assoc. f_equal; [|f_equal].
  - induction rules as [|r rules IH]; [done|]. rewrite bind_cons. case_bool_decide as Hd.
    + rewrite filter_cons_True, bind_cons, <-IH by done. unfold rule_lines at 1. by rewrite bool_decide_true.
    + rewrite filter_cons_False by done. exact IH.
  - induction rules as [|r rules IH]; [done|]. rewrite bind_cons. case_bool_decide as Hd.
    + rewrite filter_cons_False by (by intros []). exact IH.
    + rewrite filter_cons_True, bind_cons, <-IH by done. unfold rule_lines at 1. by rewrite bool_decide_false.
Qed.

Lemma chain_in_order proxies rules :
  chain proxies rules =
    (fun r => (CIDR r, verdict_of (port_of "transparent" proxies) (control_Dialer r))) <$> in_order control_Dialer rules.
Proof.
  unfold chain, in_order. rewrite fmap_app. f_equal; apply list_fmap_ext; intros i r Hi;
    apply list_elem_of_lookup_2, list_elem_of_filter in Hi as [Hd _]; unfold verdict_of; case_bool_decide; done.
Qed.

(** A rule of the interface and an entry. *)
Definition listed (r : control_Rule) (e : entry) : Prop :=
  (exists net, is_net net e.1.1 e.1.2 /\ CIDR r = IPNet_String net) /\ control_Dialer r = e.2.

Lemma rules_listed rs es : Forall2 rule_entry rs es -> Forall2 listed (Server_ListRules rs) es.
Proof.
  unfold Server_ListRules. intros Hrs. apply Forall2_fmap_l. eapply Forall2_impl; [exact Hrs|].
  intros r e (Hn & Hd & _). split; [|done]. by eexists.
Qed.

Lemma listed_in_order rules es :
  Forall2 listed rules es -> Forall2 listed (in_order control_Dialer rules) (in_order snd es).
Proof.
  intros H. unfold in_order. apply Forall2_app; induction H as [|r e rules es [Hn Hd] _ IH]; try done.
  - destruct (decide (e.2 = "direct")).
    + rewrite !filter_cons_True by (done || by rewrite Hd). by constructor.
    + rewrite !filter_cons_False by (done || by rewrite Hd). exact IH.
  - destruct (decide (e.2 = "direct")).
    + rewrite !filter_cons_False by (tauto || rewrite Hd; tauto). exact IH.
    + rewrite !filter_cons_True by (done || by rewrite Hd). by constructor.
Qed.

Lemma route_filters (P : string -> Prop) `{forall d, Decision (P d)} es ip :
  route (filter (fun e => P e.2) es) ip = None ->
  route (filter (fun e => ~ P e.2) es) ip = route es ip.
Proof.
  induction es as [|[[b n] d] es IH]; [done|]. destruct (decide (P d)) as [Hp|Hp].
  - rewrite filter_cons_True, filter_cons_False by (cbn; tauto). cbn [route]. by destruct (prefix_of _ _ _).
  - rewrite filter_cons_False, filter_cons_True by (cbn; tauto). cbn [route].
    by destruct (prefix_of _ _ _); [|apply IH].
Qed.

Lemma route_app es es' ip :
  route (es ++ es')%list ip = match route es ip with Some d => Some d | None => route es' ip end.
Proof. induction es as [|[[b n] d] es IH]; [done|]. cbn. by destruct (prefix_of _ _ _). Qed.
Lemma route_filter (P : string -> Prop) `{forall d, Decision (P d)} es ip d :
  route (filter (fun e => P e.2) es) ip = Some d -> P d.
Proof.
  induction es as [|[[b n] d'] es IH]; [done|]. destruct (decide (P d')).
  - rewrite filter_cons_True by done. cbn. destruct (prefix_of _ _ _); [by intros [= <-]|done].
  - rewrite filter_cons_False by done. exact IH.
Qed.

(** The networks of IPv4, up to the first that is not. *)
Definition is_v4 (e : entry) : bool := (length e.1.1 =? 4)%nat.
Fixpoint take_v4 (es : list entry) : list entry :=
  match es with e :: es => if is_v4 e then e :: take_v4 es else [] | [] => [] end.

Lemma take_v4_all es : forallb is_v4 es = true -> take_v4 es = es.
Proof. induction es as [|e es IH]; [done|]. cbn. intros [-> ?]%andb_true_iff. by rewrite IH. Qed.
Lemma take_v4_stops es es' : forallb is_v4 es = false -> take_v4 (es ++ es')%list = take_v4 es.
Proof.
  induction es as [|e es IH]; [done|]. cbn. destruct (is_v4 e); [|done]. cbn. intros H. by rewrite IH.
Qed.
Lemma take_v4_length es : (length (take_v4 es) <= length es)%nat.
Proof. induction es as [|e es IH]; [done|]. cbn. destruct (is_v4 e); cbn; lia. Qed.

Section Script.
(** What [iptables] makes of the argument of [--dest]: the addresses it stands for, or
    an error. Whether a line of the script succeeds when it is run. *)
Context (dest : string -> option (IP -> bool)) (succeeds : string -> bool).

(** [iptables] is for IPv4: a network of IPv4, with a slash and the length of its
    prefix, stands for the addresses with the prefix, and one of IPv6 is refused. A
    command of the script that appends a rule to a chain succeeds if its [--dest] is
    taken; ports are between 1 and 65535. *)
Record Iptables : Prop := {
  ipt_dest4 net b n : is_net net b n -> length b = 4%nat -> exists f, dest (IPNet_String net) = Some f /\
    forall ip, length ip = 4%nat -> Forall is_byte ip -> f ip = prefix_of n b ip;
  ipt_dest6 net b n : is_net net b n -> length b <> 4%nat -> dest (IPNet_String net) = None;
  ipt_append net b n port r line : is_net net b n -> CIDR r = IPNet_String net -> 0 < port < 65536 ->
    line ∈ direct_lines r \/ line ∈ redirect_lines port r -> succeeds line = bool_decide (is_Some (dest (CIDR r)));
}.

(** The lines that have an effect: [set -e] ends the script at the first that fails. *)
Fixpoint effective (lines : list string) : list string :=
  match lines with [] => [] | l :: lines => if succeeds l then l :: effective lines else [] end.

(** What a command of the chain that takes effect first says of an address. *)
Fixpoint first_verdict (c : list (string * verdict)) (ip : IP) : option verdict :=
  match c with
  | [] => None
  | (cidr, v) :: c =>
      match dest cidr with
      | Some f => if f ip then Some v else first_verdict c ip
      | None => first_verdict c ip
      end
  end.

Context (Hipt : Iptables) (port : Z) (Hport : 0 < port < 65536).

Abbreviation command := (fun r => (CIDR r, verdict_of port (control_Dialer r))).

Lemma listed_dest r e : listed r e -> bool_decide (is_Some (dest (CIDR r))) = is_v4 e.
Proof.
  intros [(net & Hn & ->) _]. unfold is_v4. destruct (Nat.eqb_spec (length e.1.1) 4) as [H4|H4].
  - destruct (ipt_dest4 Hipt _ _ _ Hn H4) as (f & -> & _). by apply bool_decide_eq_true_2.
  - by rewrite (ipt_dest6 Hipt _ _ _ Hn H4).
Qed.

(** The two lines of a rule both take effect, or the first ends the script. *)
Lemma effective_rule r e rest :
  listed r e ->
  filter fills_chain (effective (rule_lines port r ++ rest)%list) =
    if is_v4 e then chain_line (command r) :: filter fills_chain (effective rest) else [].
Proof.
  intros Hl. assert (forall line, line ∈ rule_lines port r -> succeeds line = is_v4 e) as Hs.
  { intros line Hline. rewrite <-(listed_dest r e Hl). destruct Hl as [(net & Hn & Hc) _].
    apply (ipt_append Hipt net e.1.1 e.1.2 port r line Hn Hc Hport).
    unfold rule_lines in Hline. case_bool_decide; auto. }
  unfold rule_lines, verdict_of in *. case_bool_decide; cbn [direct_lines redirect_lines app effective] in *;
    (rewrite (Hs _ ltac:(by left)); destruct (is_v4 e); [|done]);
    rewrite (Hs _ ltac:(right; by left)); by apply (filter_fills _ _ (effective rest)).
Qed.

Lemma effective_rules rules es rest :
  Forall2 listed rules es -> filter fills_chain (effective rest) = [] ->
  filter fills_chain (effective ((rules ≫= rule_lines port) ++ rest)%list) =
    chain_line <$> (command <$> take (length (take_v4 es)) rules).
Proof.
  intros H Hrest. induction H as [|r e rules es Hl _ IH]; [done|].
  rewrite bind_cons, <-app_assoc, (effective_rule r e) by done. cbn [take_v4].
  destruct (is_v4 e); [|done]. cbn. by rewrite IH.
Qed.

Lemma first_verdict_rules rules es ip :
  Forall2 listed rules es -> length ip = 4%nat -> Forall is_byte ip ->
  first_verdict (command <$> take (length (take_v4 es)) rules) ip = verdict_of port <$> route (take_v4 es) ip.
Proof.
  intros H Hlen Hip. assert (unmap ip = ip) as Hu by (unfold unmap, To4; by rewrite Hlen).
  induction H as [|r [[b n] d] rules es [(net & Hn & Hc) Hd] _ IH]; [done|]. cbn [take_v4].
  destruct (is_v4 _) eqn:H4; [|done]. cbn. apply Nat.eqb_eq in H4. cbn in *. rewrite Hc.
  destruct (ipt_dest4 Hipt _ _ _ Hn H4) as (f & -> & Hf). rewrite Hf, Hu by done.
  destruct (prefix_of n b ip); [by rewrite Hd|exact IH].
Qed.
End Script.

Lemma effective_dns succeeds port :
  filter fills_chain (effective succeeds (if 0 <? port then dns_lines port else [])) = [].
Proof. destruct (0 <? port); [|done]. cbn. by repeat (case_match; cbn). Qed.

(** C32: what the script does with connections of IPv4, against what the rules say, when
    there is a transparent proxy, with a port between 1 and 65535. Its
    commands are those of the rules, the direct ones first. When the lines before them
    have succeeded, they take effect up to the first rule, in this order, whose network is one of IPv6, where [iptables] fails and
    the script ends: the others are never installed, and none that redirects is when a
    direct rule is of IPv6. When all rules are of IPv4, a connection is let through
    when any rule that matches is direct, even if another one matches before it;
    otherwise it is redirected just when a rule matches, as the rules have it. *)
Theorem iptables_verdict (dest : string -> option (IP -> bool)) (succeeds : string -> bool)
    (Hipt : Iptables dest succeeds) (proxies : list Proxy) (rs : RuleSet) (es : list entry)
    (Hport : 0 < port_of "transparent" proxies < 65536) (Hrs : Forall2 rule_entry rs es) :
  let rules := Server_ListRules rs in
  let installed := take_v4 (in_order snd es) in
  let c := take (length installed) (chain proxies rules) in
  filter fills_chain (effective succeeds (script_rules proxies rules)) = chain_line <$> c /\
  (forall ip, length ip = 4%nat -> Forall is_byte ip ->
     first_verdict dest c ip = verdict_of (port_of "transparent" proxies) <$> route installed ip /\
     (forallb is_v4 es = true ->
        first_verdict dest c ip =
          match route (filter (fun e => e.2 = "direct") es) ip with
          | Some _ => Some Accept
          | None => (fun _ => Redirect (port_of "transparent" proxies)) <$> route es ip
          end)) /\
  (forallb is_v4 es = true -> c = chain proxies rules) /\
  (forallb is_v4 (filter (fun e => e.2 = "direct") es) = false -> Forall (fun cmd => cmd.2 = Accept) c).
Proof.
  intros rules installed c. set (port := port_of "transparent" proxies) in *.
  pose proof (listed_in_order _ _ (rules_listed _ _ Hrs)) as Hl. fold rules in Hl.
  assert (c = (fun r => (CIDR r, verdict_of port (control_Dialer r))) <$>
    take (length installed) (in_order control_Dialer rules)) as Hc
    by (unfold c; by rewrite chain_in_order, fmap_take).
  assert (forallb is_v4 es = true -> installed = in_order snd es) as Hall.
  { intros H4. apply take_v4_all, forallb_forall. intros e He%list_elem_of_In.
    rewrite forallb_forall in H4. apply H4, list_elem_of_In. unfold in_order in He.
    rewrite elem_of_app, !list_elem_of_filter in He. tauto. }
  split_and!.
  - rewrite Hc, script_in_order. by apply (effective_rules dest); [|done|..|apply effective_dns].
  - intros ip Hlen Hip. assert (first_verdict dest c ip = verdict_of port <$> route installed ip) as Hv
      by (rewrite Hc; by apply (first_verdict_rules dest succeeds)).
    split; [done|]. intros H4. rewrite Hv, Hall by done. unfold in_order. rewrite route_app.
    destruct (route (filter _ es) ip) as [d|] eqn:Hd.
    + by rewrite (route_filter (fun d => d = "direct") es ip d Hd).
    + pose proof (route_filters (fun d => d = "direct") es ip Hd) as Hr. cbn beta in Hr. rewrite Hr.
      destruct (route es ip) as [d|] eqn:He; [|done].
      cbn. unfold verdict_of. rewrite bool_decide_false; [done|].
      exact (route_filter (fun d => d <> "direct") es ip d Hr).
  - intros H4. unfold c. rewrite Hall by done. apply take_ge. rewrite chain_in_order, length_fmap.
    by rewrite (Forall2_length _ _ _ Hl).
  - intros H4. unfold c, installed, in_order. rewrite take_v4_stops by done.
    unfold chain. rewrite take_app_le.
    + apply Forall_take, Forall_fmap, Forall_true. done.
    + rewrite length_fmap. etransitivity; [apply take_v4_length|].
      pose proof (rules_listed _ _ Hrs) as Hl'. fold rules in Hl'. clear -Hl'.
      induction Hl' as [|r e rules es [_ Hd] _ IH]; [done|]. destruct (decide (e.2 = "direct")).
      * rewrite !filter_cons_True by (done || by rewrite Hd). cbn. lia.
      * rewrite !filter_cons_False by (done || by rewrite Hd). exact IH.
Qed.

(** ** An [iptables] *)

Definition IPv4_dest (s : string) : option (IP -> bool) :=
  net ← ParseCIDR s;
  '(nn, _) ← networkNumberAndMask net;
  if (length nn =? 4)%nat then Some (Contains net) else None.

(** The argument of [--dest] on a line. *)
Fixpoint strip (pat s : string) : option string :=
  match pat, s with
  | "", _ => Some s
  | String a pat, String b s => if bool_decide (a = b) then strip pat s else None
  | _, "" => None
  end.
Fixpoint dest_argument (s : string) : string :=
  match s with
  | "" => ""
  | String _ s' =>
      match strip "--dest " s with
      | Some rest => default "" (fst <$> cut " " rest)
      | None => dest_argument s'
      end
  end.
Definition IPv4_succeeds (line : string) : bool := bool_decide (is_Some (IPv4_dest (dest_argument line))).

Lemma cut_blank s t : absent " " s = true -> default "" (fst <$> cut " " (s ++ String " " t)) = s.
Proof. intros Hs. by rewrite cut_app. Qed.

Lemma network_blank net nn n : is_net net nn n -> absent " " (IPNet_String net) = true.
Proof.
  intros Hn. rewrite (is_net_String _ _ _ Hn). destruct Hn as [_ Hl Hb Hbits _].
  rewrite !absent_app. apply andb_true_iff. split.
  - apply IP_String_absent; try done. destruct Hl as [|[]]; auto.
  - apply andb_true_iff. split; [done|]. apply absent_number; [done|lia].
Qed.

Lemma IPv4_Iptables : Iptables IPv4_dest IPv4_succeeds.
Proof.
  assert (forall net b n, is_net net b n -> exists net', is_net net' b n /\
    IPv4_dest (IPNet_String net) = if (length b =? 4)%nat then Some (Contains net') else None) as Hd.
  { intros net b n Hn. destruct (is_net_parsed _ _ _ Hn) as (net' & Hp & Hn'). exists net'. split; [done|].
    unfold IPv4_dest. rewrite Hp. cbn. by rewrite (net_nm _ _ _ Hn'). }
  split.
  - intros net b n Hn H4. destruct (Hd _ _ _ Hn) as (net' & Hn' & ->). rewrite H4. eexists. split; [done|].
    intros ip Hlen Hip. assert (unmap ip = ip) as Hu by (unfold unmap, To4; by rewrite Hlen).
    apply Bool.eq_iff_eq_true. unfold prefix_of. rewrite (is_net_Contains _ _ _ ip Hn' Hip), Hu.
    by rewrite andb_true_iff, Nat.eqb_eq, Z.eqb_eq.
  - intros net b n Hn H4. destruct (Hd _ _ _ Hn) as (net' & _ & ->). by rewrite (proj2 (Nat.eqb_neq _ _) H4).
  - intros net b n port [cidr d] line Hn Hc _ Hline. cbn [CIDR] in Hc. subst cidr. cbn [CIDR].
    pose proof (network_blank _ _ _ Hn) as Hb. unfold IPv4_succeeds.
    assert (dest_argument line = IPNet_String net) as ->; [|done].
    unfold direct_lines, redirect_lines in Hline. cbn [CIDR] in Hline. rewrite !elem_of_cons in Hline.
    destruct Hline as [[->|[->|?%not_elem_of_nil]]|[->|[->|?%not_elem_of_nil]]]; try done;
      (etransitivity; [|eapply cut_blank, Hb]); reflexivity.
Qed.

(** Two rules of IPv4: the first that matches is not direct, and the script lets the
    connection through. *)
Lemma iptables_verdict_witness :
  let ten := mkRule (mkIPNet [10; 0; 0; 0] [255; 0; 0; 0]) "default" in
  let sub := mkRule (mkIPNet [10; 1; 0; 0] [255; 255; 0; 0]) "direct" in
  let proxies := [mkProxy "transparent" 8081 ""] in
  rule_Dialer <$> first_match [ten; sub] [10; 1; 2; 3] = Some "default" /\
  first_verdict IPv4_dest (chain proxies (Server_ListRules [ten; sub])) [10; 1; 2; 3] = Some Accept /\
  first_verdict IPv4_dest (chain proxies (Server_ListRules [ten; sub])) [10; 2; 2; 3] = Some (Redirect 8081).
Proof.
  cbv zeta. set (rs := [mkRule _ _; mkRule _ _]).
  assert (Forall2 rule_entry rs [(([10; 0; 0; 0], 8), "default"); (([10; 1; 0; 0], 16), "direct")]) as Hrs.
  { constructor; [|constructor; [|constructor]]; (split; [|done]); cbn.
    - apply (is_net_4 [10; 0; 0; 0] 8); [done|repeat constructor; by compute|lia].
    - apply (is_net_4 [10; 1; 0; 0] 16); [done|repeat constructor; by compute|lia]. }
  destruct (iptables_verdict IPv4_dest IPv4_succeeds IPv4_Iptables [mkProxy "transparent" 8081 ""] rs _ ltac:(by compute) Hrs)
    as (_ & Hv & Hc & _).
  rewrite <-(Hc eq_refl). split; [reflexivity|].
  split; (eapply eq_trans; [apply Hv; [done|repeat constructor; by compute|done]|reflexivity]).
Defined.
