(* ===== verification/Daemon.v ===== *)
(** [server.Server] of [server/server.go], the implementation of the control interface
    over the packages it drives: the registry of dialers, the rules and the proxies.
    The conversation with a connector is in [Connector], where goroutines interleave;
    here it is an argument, over a state of its own. *)

From stdpp Require Import base gmap list strings.
From Stdlib Require Import ZArith Lia Ascii.
From S2P Require Import Prelude Decimal NetIP Dialers Rules Transport Control Proxies.

#[local] Open Scope string_scope.
#[local] Open Scope Z_scope.

(** [receiving]: [Run] has come to the receive from [server.done], and [rc] is what it
    got. A connector is known by its number. *)
Record daemon (signer W : Type) := Daemon {
  reg : @registry signer;
  ruleset : RuleSet;
  pst : pstate;
  proxies : slice Proxy;
  connectors : gmap string nat;
  receiving : bool;
  rc : option Z;
  sessions : W;
}.
Arguments Daemon {signer W}.
Arguments reg {signer W}.
Arguments ruleset {signer W}.
Arguments pst {signer W}.
Arguments proxies {signer W}.
Arguments connectors {signer W}.
Arguments receiving {signer W}.
Arguments rc {signer W}.
Arguments sessions {signer W}.

Section Server.
Context {signer W : Type}.
Abbreviation D := (daemon signer W).
Context (url_Parse : string -> option URL) (ParseEncryptedPrivateKey : string -> string -> option signer).
Context (SOCKS5 : string -> bool) (listen_tcp : Z -> option Z) (free_udp : option Z).
(** The type and the text of the public key of a key; an order of a map. *)
Context (PublicKey : signer -> string * string) (range : gmap string DialerInfo -> list DialerInfo).
(** [SSHDialer.GetConnector], random bytes as text, and what follows in
    [Server.Connect] for a connector: its status, new messages and a fingerprint. *)
Context (GetConnector : nat -> G W nat) (randomHex : G W (option string)).
Context (converse : nat -> string -> option bool -> G W (option (string * slice string * string))).

(** Parts of the state. *)
Definition set_reg r (d : D) : D :=
  Daemon r (ruleset d) (pst d) (proxies d) (connectors d) (receiving d) (rc d) (sessions d).
Definition set_rules r (d : D) : D :=
  Daemon (reg d) r (pst d) (proxies d) (connectors d) (receiving d) (rc d) (sessions d).
Definition set_pst p (d : D) : D :=
  Daemon (reg d) (ruleset d) p (proxies d) (connectors d) (receiving d) (rc d) (sessions d).
Definition set_proxies l (d : D) : D :=
  Daemon (reg d) (ruleset d) (pst d) l (connectors d) (receiving d) (rc d) (sessions d).
Definition set_connectors c (d : D) : D :=
  Daemon (reg d) (ruleset d) (pst d) (proxies d) c (receiving d) (rc d) (sessions d).
Definition set_done b r (d : D) : D :=
  Daemon (reg d) (ruleset d) (pst d) (proxies d) (connectors d) b r (sessions d).
Definition set_sessions w (d : D) : D :=
  Daemon (reg d) (ruleset d) (pst d) (proxies d) (connectors d) (receiving d) (rc d) w.

(** A run on a part. *)
Definition on {P A} (get : D -> P) (set : P -> D -> D) (m : G P A) : G D A := fun d =>
  let '(r, p) := m (get d) in (r, set p d).

(** ** Operations *)

Definition Server_Health : G D (bool * bool) := mret (true, true).
Definition Server_Status : G D (Status * bool) :=
  l ← gget proxies; mret (mkStatus true l, true).

(** The send on [done] waits until [Run] receives, which it does once. *)
Definition Server_Stop : G D bool :=
  b ← gget receiving;
  if (b : bool) then gset (set_done false (Some 0));; mret true else gpanic Blocks.

Definition Server_StartProxy (proxyType proxyParameter : string) : G D (option Proxy) :=
  r ← on pst set_pst (NewProxy listen_tcp free_udp proxyType proxyParameter);
  match (r : option Z) with
  | None => mret None
  | Some port =>
      let proxyInfo := mkProxy proxyType port proxyParameter in
      gset (fun d => set_proxies (Some (default [] (proxies d) ++ [proxyInfo])%list) d);;
      mret (Some proxyInfo)
  end.
Definition Server_ListProxies : G D (option (slice Proxy)) := l ← gget proxies; mret (Some l).

Definition Server_AddSSHKey (encodedKey passPhrase : string) : G D bool :=
  on reg set_reg (AddSSHKey ParseEncryptedPrivateKey encodedKey passPhrase).
(** [GetSSHKeys]; the slice of no keys is nil. *)
Definition GetSSHKeys : G (@registry signer) (option (slice SSHKey)) :=
  p ← makeSSHDialer;
  match (p : option nat) with
  | None => gpanic Segv
  | Some n =>
      os ← gget objects;
      let keys := (fun s => mkSSHKey (PublicKey s).1 (PublicKey s).2 "" "") <$>
        default [] (signers <$> (os : list SSHDialer) !! n) in
      mret (Some (if bool_decide (keys = []) then None else Some keys))
  end.
Definition Server_ListKeys : G D (option (slice SSHKey)) := on reg set_reg GetSSHKeys.

Definition Server_AddDialer (uri : string) : G D bool :=
  on reg set_reg (AddDialer url_Parse SOCKS5 "default" uri).
Definition Marshall_dialer (info : DialerInfo) : Dialer :=
  mkDialer (info_Name info) (info_Type info) (info_Destination info).
Definition Server_ListDialers : G D (option (slice Dialer)) :=
  m ← gget (fun d => dialers (reg d)); mret (Some (Some (Marshall_dialer <$> range m))).

Definition Server_ListRules_ : G D (option (slice control_Rule)) :=
  rs ← gget ruleset; mret (Some (Some (Server_ListRules rs))).
Definition Server_AddRule_ (rule : control_Rule) : G D bool :=
  rs ← gget ruleset;
  let '(rs, ok) := Server_AddRule rs rule in
  gset (set_rules rs);; mret ok.

(** [Server.Connect]: the connector of the id, or a new entry of the table for the one
    that [dialer.GetConnector] gives, which may be there already. *)
Definition new_connector : G D (option (string * nat)) :=
  p ← on reg set_reg makeSSHDialer;
  match (p : option nat) with
  | None => gpanic Segv
  | Some n =>
      c ← on sessions set_sessions (GetConnector n);
      id ← on sessions set_sessions randomHex;
      match (id : option string) with
      | None => mret None
      | Some id =>
          gset (fun d => set_connectors (<[id := c]> (connectors d)) d);;
          mret (Some (id, c))
      end
  end.
Definition Server_Connect (i : ConnectIn) : G D (option ConnectOut) :=
  e ← (if bool_decide (in_ID i = "") then new_connector
       else m ← gget connectors; mret (c ← (m : gmap string nat) !! in_ID i; Some (in_ID i, c)));
  match (e : option (string * nat)) with
  | None => mret None
  | Some (id, c) =>
      o ← on sessions set_sessions (converse c (in_Passphrase i) (AcceptHostKey i));
      mret (match (o : option (string * slice string * string)) with
            | None => None
            | Some (st, messages, fingerprint) => Some (mkConnectOut id st messages fingerprint)
            end)
  end.

Definition Server : API D := {|
  api_Health := Server_Health;
  api_Status := Server_Status;
  api_Stop := Server_Stop;
  api_AddSSHKey := Server_AddSSHKey;
  api_ListKeys := Server_ListKeys;
  api_StartProxy := Server_StartProxy;
  api_ListProxies := Server_ListProxies;
  api_AddDialer := Server_AddDialer;
  api_ListDialers := Server_ListDialers;
  api_Connect := Server_Connect;
  api_ListRules := Server_ListRules_;
  api_AddRule := Server_AddRule_;
|}.

(** [Initialize], in a process whose packages are as they begin. *)
Definition Initialize (known_hosts : bool) (w : W) : D :=
  Daemon (start known_hosts) [] (PState "" []) None ∅ false None w.
End Server.
