(* ===== verification/Process.v ===== *)
(** The process of the daemon: its file with the process number, [server/start.go],
    and [server.Run] of [server/server.go] with [main] of [main.go]. What the system
    does for a call (a new process, a file that can be created) is an argument. *)

From stdpp Require Import base gmap list strings pretty.
From Stdlib Require Import ZArith Lia Ascii.
From S2P Require Import Prelude Decimal NetIP Dialers Rules Transport Control Commands Proxies Daemon.

#[local] Open Scope string_scope.
#[local] Open Scope Z_scope.

(** The file, and the numbers that the signal 0 reaches: the processes there are. *)
Record sys := Sys { pidFile : option string; alive : gmap.gset Z }.
Definition set_file f (s : sys) : sys := Sys f (alive s).
Definition set_alive f (s : sys) : sys := Sys (pidFile s) (f (alive s)).

(** [Returns] here, or the process ends, for a panic too. *)
Section Start.
(** Whether the file can be created, and written; the number of a process that
    [cmd.Start] makes; whether a process can be killed. *)
Context (creatable writable : bool) (spawn : option Z) (killable : Z -> bool).

Definition savePID (pid : Z) : G sys ending :=
  if negb creatable then mret (Exits 1)
  else
    gset (set_file (Some ""));;
    if negb writable then mret (Exits 1)
    else gset (set_file (Some (pretty pid)));; mret (Returns true).

Definition getPIDFromFile : G sys (option Z) :=
  data ← gget pidFile; mret ((data : option string) ≫= Atoi).

(** [FindProcess] never fails, and a signal to 0 or -1 is an error of its own. *)
Definition getProcessFromPIDFile : G sys (option Z) :=
  pid ← getPIDFromFile;
  ps ← gget alive;
  mret (pid ← (pid : option Z);
        if bool_decide (pid = 0) || bool_decide (pid = -1) then None
        else if bool_decide (pid ∈ (ps : gmap.gset Z)) then Some pid else None).

(** The error of [cmd.Start] is dropped; without a process the number is read from a
    nil pointer. *)
Definition start_ : G sys ending :=
  process ← getProcessFromPIDFile;
  match (process : option Z) with
  | Some _ => mret (Returns true)
  | None =>
      match spawn with
      | None => gpanic Segv
      | Some pid => gset (set_alive (fun ps => ps ∪ {[ pid ]}));; savePID pid
      end
  end.
Definition Start : G sys ending := start_.

Definition Stop : G sys ending :=
  process ← getProcessFromPIDFile;
  match (process : option Z) with
  | None => mret (Returns true)
  | Some pid =>
      gset (set_file None);;
      (if killable pid then gset (set_alive (fun ps => ps ∖ {[ pid ]})) else mret tt);;
      mret (Returns true)
  end.
End Start.

(** * The daemon *)

(** Where the main goroutine is when its commands are done: the process is gone, it
    hangs in a command for ever, or it receives from [done]. *)
Inductive phase := Gone (rc : Z) | Hangs | Receives.

Section Daemon.
Context {signer W : Type} {Simpl : API (daemon signer W)}.
Context (url_Parse : string -> option URL) (url_String : URL -> string).
Context (Getenv : string -> string) (arg0 : string).
Context (ReadFile : string -> option string) (CheckSSHKey : string -> string -> option string).
Context (error_text : string) (fuel : nat).
Context (gin_route : list (string * string) -> string -> string -> option nat).
Context (creatable writable log_creatable : bool).

(** A panic ends a process with 2. *)
Definition panic_rc : Z := 2.

(** The commands go through the client, to the server of the same process. *)
Definition line_commands (cmds : list string) : G (world (daemon signer W)) ending :=
  run_commands (H := Client gin_route true) url_Parse url_String Getenv arg0 ReadFile CheckSSHKey error_text fuel
    (S (length cmds)) cmds.

(** The process is gone: a panic runs what was deferred, which removes the file, and
    [os.Exit] does not. *)
Definition quit (pid rc : Z) (deferred : bool) (s : sys) : phase * sys :=
  (Gone rc, set_alive (fun ps => ps ∖ {[ pid ]}) (if deferred then set_file None s else s)).

(** [Run] in the process [pid], up to the receive. *)
Definition Run (pid : Z) (parameters : list string) (s : sys) (w : world (daemon signer W))
    : (phase * sys) * world (daemon signer W) :=
  let '(logfile, cmds, err) := Parse "logfile" "" parameters in
  match err with
  | ErrHelp => (quit pid 0 false s, w)
  | BadFlag => (quit pid 2 false s, w)
  | Parsed =>
      if negb (bool_decide (logfile = "")) && negb log_creatable then (quit pid panic_rc false s, w)
      else
        match savePID creatable writable pid s with
        | (Done (Exits rc), s) => (quit pid rc false s, w)
        | (Fault _, s) => (quit pid panic_rc false s, w)
        | (Done (Returns _), s) =>
            match line_commands cmds w with
            | (Done (Exits rc), w) => (quit pid rc false s, w)
            | (Done (Returns _), w) => ((Receives, s), set_inner (set_done true None (inner w)) w)
            | (Fault f, w) => (if waits f then (Hangs, s) else quit pid panic_rc true s, w)
            end
        end
  end.

(** What [Run] does when the server was told to stop: the number that was sent is
    the code the process ends with. *)
Definition received (pid : Z) (s : sys) (d : daemon signer W) : option (phase * sys) :=
  rc ← rc d; Some (quit pid rc false s).
End Daemon.

(** [main], for a command: what is run, with which arguments. *)
Inductive program := RunDaemon (args : list string) | RunStart (args : list string) | RunStop
  | RunCommand (cmd : string) (args : list string).
Definition main (args : list string) : program :=
  let '(cmd, parameters) := match args with [] => ("status", []) | c :: ps => (c, ps) end in
  if bool_decide (cmd = "daemon") then RunDaemon parameters
  else if bool_decide (cmd = "start") then RunStart parameters
  else if bool_decide (cmd = "stop") then RunStop
  else RunCommand cmd parameters.
