(* ===== verification/ProcessProps.v ===== *)
(** The theorems on the daemon as a whole: its file with the process number, and what
    the commands on its line do to it through the client and the server. *)

From stdpp Require Import base gmap list strings pretty.
From Stdlib Require Import ZArith Lia Ascii.
From S2P Require Import Prelude Decimal NetIP NetProps Dialers Rules Transport Control ControlProps Commands CommandsProps.
From S2P Require Import Proxies ProxiesProps Daemon Process.

#[local] Open Scope string_scope.
#[local] Open Scope Z_scope.

(** * What runs keep *)

Definition keeps {S A} (P : S -> Prop) (m : G S A) : Prop := forall s, P s -> P (m s).2.

Section Keeps.
Context {S : Type} (P : S -> Prop).

Lemma keeps_ret {A} (a : A) : keeps P (mret a).
Proof. by intros s Hs. Qed.
Lemma keeps_bind {A B} (m : G S A) (k : A -> G S B) : keeps P m -> (forall a, keeps P (k a)) -> keeps P (m ≫= k).
Proof.
  intros Hm Hk s Hs. unfold mbind, G_bind. specialize (Hm s Hs). destruct (m s) as [[a|f] s']; [by apply Hk|done].
Qed.
Lemma keeps_gget {A} (f : S -> A) : keeps P (gget f).
Proof. by intros s Hs. Qed.
Lemma keeps_gset (f : S -> S) : (forall s, P s -> P (f s)) -> keeps P (gset f).
Proof. intros Hf s Hs. by apply Hf. Qed.
Lemma keeps_gpanic {A} f : keeps P (gpanic f : G S A).
Proof. by intros s Hs. Qed.
End Keeps.

Create HintDb keeps.
#[export] Hint Resolve keeps_ret keeps_gget keeps_gpanic : keeps.
(** Proves [keeps] of a run from its parts, by cases of what it looks at. *)
Ltac keep :=
  repeat first
    [ solve [eauto with keeps] | progress cbv zeta | apply keeps_bind; [|intros ?] | apply keeps_gset; solve [eauto]
    | match goal with |- context [match ?x with _ => _ end] => is_var x; destruct x end
    | match goal with |- context [match ?x with _ => _ end] => destruct x end ].

(** Every operation of an implementation keeps [P]. *)
Record APIKeeps {S} (P : S -> Prop) (a : API S) : Prop := {
  keeps_Health : keeps P api_Health;
  keeps_Status : keeps P api_Status;
  keeps_Stop : keeps P api_Stop;
  keeps_AddSSHKey k p : keeps P (api_AddSSHKey k p);
  keeps_ListKeys : keeps P api_ListKeys;
  keeps_StartProxy t p : keeps P (api_StartProxy t p);
  keeps_ListProxies : keeps P api_ListProxies;
  keeps_AddDialer u : keeps P (api_AddDialer u);
  keeps_ListDialers : keeps P api_ListDialers;
  keeps_Connect i : keeps P (api_Connect i);
  keeps_ListRules : keeps P api_ListRules;
  keeps_AddRule r : keeps P (api_AddRule r);
}.
#[export] Hint Resolve keeps_Health keeps_Status keeps_Stop keeps_AddSSHKey keeps_ListKeys keeps_StartProxy
  keeps_ListProxies keeps_AddDialer keeps_ListDialers keeps_Connect keeps_ListRules keeps_AddRule : keeps.

Section ClientKeeps.
Context {S : Type} (P : S -> Prop) {impl : API S} (Himpl : APIKeeps P impl).
Context (gin_route : list (string * string) -> string -> string -> option nat) (connected : bool).

Lemma keeps_Recovery (m : G S response) : keeps P m -> keeps P (Recovery m).
Proof. intros Hm s Hs. specialize (Hm s Hs). unfold Recovery. destruct (m s) as [[r|f] s']; [done|by destruct (waits f)]. Qed.

Lemma keeps_route h mp : (mp, h) ∈ createGinEngine (S := S) -> forall b, keeps P (h b).
Proof.
  unfold createGinEngine. rewrite !elem_of_cons, elem_of_nil.
  intros Hin b. destruct_or! Hin; try done; injection Hin as -> ->;
    cbv delta [server_Health server_Status GetProxies PostProxies GetKeys PostKeys server_Connect PostDialers GetDialers
      GetState PutState PostTargets GetRules PostRules BindJSON answer_with answer_nothing] beta; keep.
Qed.

Lemma keeps_serve method path b : keeps P (serve_http gin_route method path b).
Proof.
  unfold serve_http. destruct (gin_route _ method path) as [i|]; [|apply keeps_ret]. cbn [mbind option_bind].
  destruct (createGinEngine !! i) as [[mp h]|] eqn:Hi; [|apply keeps_ret].
  apply keeps_Recovery, (keeps_route h mp). by eapply list_elem_of_lookup_2.
Qed.

Lemma keeps_Do method url b : keeps P (Do gin_route connected method url b).
Proof. unfold Do. destruct connected; [|apply keeps_ret]. apply keeps_bind; [apply keeps_serve|intros; apply keeps_ret]. Qed.

Lemma keeps_Client : APIKeeps P (Client gin_route connected).
Proof.
  split; intros; cbn;
    cbv delta [client_Health client_Status client_Stop client_AddSSHKey client_ListKeys client_StartProxy client_ListProxies
      client_AddDialer client_ListDialers client_Connect client_ListRules client_AddRule GetJSON PostJSON PostJSON_nil] beta;
    repeat (apply keeps_bind; [|intros ?]); first [apply keeps_Do | apply keeps_ret].
Qed.
End ClientKeeps.

Section CommandsKeep.
Context {S : Type} (P : S -> Prop) {a : API S} (Ha : APIKeeps P a).
Abbreviation W := (fun w : world S => P (inner w)).

Lemma keeps_call {A} (m : G S A) : keeps P m -> keeps W (call m).
Proof. intros Hm w Hw. unfold call. specialize (Hm _ Hw). by destruct (m (inner w)). Qed.
Lemma keeps_print ls : keeps W (print ls).
Proof. by apply keeps_gset. Qed.
Lemma keeps_ReadString : keeps W ReadString.
Proof. by intros w. Qed.
Lemma keeps_prompt_Run : keeps W prompt_Run.
Proof. by intros w. Qed.
Hint Resolve keeps_call keeps_print keeps_ReadString keeps_prompt_Run : keeps.

Lemma keeps_add_rules d cidrs : keeps W (add_rules d cidrs).
Proof. induction cidrs as [|c cidrs IH]; cbn [add_rules]; keep. Qed.
Lemma keeps_connect_round all i : keeps W (connect_round all i).
Proof.
  unfold connect_round. keep.
Qed.
Lemma keeps_connect_loop fuel all i : keeps W (connect_loop fuel all i).
Proof.
  revert i. induction fuel as [|fuel IH]; intros i; cbn [connect_loop]; [keep|].
  apply keeps_bind; [apply keeps_connect_round|]. intros [i'|e]; keep.
Qed.
Lemma keeps_ask check fuel key pass i : keeps W (ask_passphrase check fuel key pass i).
Proof. revert pass. induction fuel as [|fuel IH]; intros pass; cbn [ask_passphrase]; keep. Qed.
Hint Resolve keeps_add_rules keeps_connect_loop keeps_ask : keeps.

Context (url_Parse : string -> option URL) (url_String : URL -> string).
Context (Getenv : string -> string) (arg0 : string).
Context (ReadFile : string -> option string) (CheckSSHKey : string -> string -> option string).
Context (error_text : string) (fuel : nat).

Lemma keeps_ExecuteCommand c args :
  keeps W (ExecuteCommand url_Parse url_String Getenv arg0 ReadFile CheckSSHKey error_text fuel c args).
Proof.
  unfold ExecuteCommand. destruct (list_find _ _) as [[i [n e]]|] eqn:Hf; [|unfold usage; keep].
  apply list_find_Some in Hf as [Hf _]. apply list_elem_of_lookup_2 in Hf. revert Hf.
  unfold commandMap. rewrite !elem_of_cons, elem_of_nil. intros Hf. destruct_or! Hf; try done;
    injection Hf as _ ->; cbv delta [cmdAddDialer cmdAddRule cmdAddSSHKey cmdConnect cmdIptablesScript cmdListDialers
      cmdListProxies cmdListRules cmdStartProxy cmdStatus cmdStop cmdVersion add_rule_usage] beta; keep.
Qed.

Lemma keeps_run_segments ss :
  keeps W (run_segments url_Parse url_String Getenv arg0 ReadFile CheckSSHKey error_text fuel ss).
Proof.
  induction ss as [|[|c args] ss IH]; cbn [run_segments]; [keep|destruct ss; keep|].
  apply keeps_bind; [apply keeps_ExecuteCommand|]. intros []; keep.
Qed.
End CommandsKeep.

(** * The daemon *)

Section DaemonKeeps.
Context {signer W : Type}.
Context (url_Parse : string -> option URL) (ParseEncryptedPrivateKey : string -> string -> option signer).
Context (SOCKS5 : string -> bool) (listen_tcp : Z -> option Z) (free_udp : option Z).
Context (PublicKey : signer -> string * string) (range : gmap string DialerInfo -> list DialerInfo).
Context (GetConnector : nat -> G W nat) (randomHex : G W (option string)).
Context (converse : nat -> string -> option bool -> G W (option (string * slice string * string))).

Abbreviation Srv := (Server url_Parse ParseEncryptedPrivateKey SOCKS5 listen_tcp free_udp PublicKey range GetConnector
  randomHex converse).

(** [Run] has not come to its receive. *)
Definition busy (d : daemon signer W) : Prop := receiving d = false /\ rc d = None.

Lemma keeps_on {Q A} (get : daemon signer W -> Q) (set : Q -> daemon signer W -> daemon signer W) (m : G Q A) :
  (forall q d, busy d -> busy (set q d)) -> keeps busy (on get set m).
Proof. intros Hset d Hd. unfold on. destruct (m (get d)) as [r q]. by apply Hset. Qed.

Lemma keeps_Server : APIKeeps busy Srv.
Proof.
  assert (keeps busy (Server_Stop (signer := signer) (W := W))) as Hstop.
  { intros d Hd. unfold Server_Stop, mbind, G_bind, gget. by rewrite (proj1 Hd). }
  split; intros; cbn; [..|exact Hstop| | | | | | | | |]; try
    (cbv delta [Server_Health Server_Status Server_AddSSHKey Server_ListKeys Server_StartProxy Server_ListProxies
      Server_AddDialer Server_ListDialers Server_Connect new_connector Server_ListRules_ Server_AddRule_] beta;
     repeat first [ progress cbv zeta | apply keeps_on; done | apply keeps_ret | apply keeps_gget | apply keeps_gpanic
       | apply keeps_gset; done | apply keeps_bind; [|intros ?]
       | match goal with |- context [match ?x with _ => _ end] => destruct x end ]).
Qed.
End DaemonKeeps.

(** * The file with the process number *)

Lemma getProcess_running pid ps : 0 < pid < 2 ^ 63 -> pid ∈ ps ->
  getProcessFromPIDFile (Sys (Some (pretty pid)) ps) = (Done (Some pid), Sys (Some (pretty pid)) ps).
Proof.
  intros Hp Hin. unfold getProcessFromPIDFile, getPIDFromFile, mbind, G_bind, gget, mret, G_ret. cbn.
  rewrite Atoi_pretty by lia. cbn. by rewrite !bool_decide_false, bool_decide_true by (done || lia).
Qed.
Lemma getProcess_gone pid ps : 0 < pid < 2 ^ 63 -> pid ∉ ps ->
  getProcessFromPIDFile (Sys (Some (pretty pid)) ps) = (Done None, Sys (Some (pretty pid)) ps).
Proof.
  intros Hp Hin. unfold getProcessFromPIDFile, getPIDFromFile, mbind, G_bind, gget, mret, G_ret. cbn.
  rewrite Atoi_pretty by lia. cbn. by rewrite !bool_decide_false by (done || lia).
Qed.
Lemma getProcess_state s : (getProcessFromPIDFile s).2 = s.
Proof. done. Qed.

(** C28: starting and stopping by the file. When no process is found by it, a new one
    is started and found from then on; starting again changes nothing, whatever the
    system would do; stopping removes the file, then kills the process. The file that
    is left when the process ends otherwise stops nobody from starting, until another
    process has the number: then nothing is started, and stopping kills that one. *)
Theorem pid_file_lifecycle (s : sys) (pid : Z) (killable : Z -> bool)
    (Hpid : 0 < pid < 2 ^ 63) (Hnone : (getProcessFromPIDFile s).1 = Done None) :
  let started := Sys (Some (pretty pid)) (alive s ∪ {[ pid ]}) in
  let left_ := Sys (Some (pretty pid)) (alive s) in
  Start true true (Some pid) s = (Done (Returns true), started) /\
  Start true true None s = (Fault Segv, s) /\
  Stop killable s = (Done (Returns true), s) /\
  getProcessFromPIDFile started = (Done (Some pid), started) /\
  (forall creatable writable spawn, Start creatable writable spawn started = (Done (Returns true), started)) /\
  Stop killable started = (Done (Returns true),
    Sys None (if killable pid then (alive s ∪ {[ pid ]}) ∖ {[ pid ]} else alive s ∪ {[ pid ]})) /\
  (forall pid', 0 < pid' < 2 ^ 63 ->
     if decide (pid ∈ alive s) then
       Start true true (Some pid') left_ = (Done (Returns true), left_) /\
       Stop killable left_ = (Done (Returns true), Sys None (if killable pid then alive s ∖ {[ pid ]} else alive s))
     else
       Stop killable left_ = (Done (Returns true), left_) /\
       Start true true (Some pid') left_ = (Done (Returns true), Sys (Some (pretty pid')) (alive s ∪ {[ pid' ]}))).
Proof.
  intros started left_.
  assert (getProcessFromPIDFile s = (Done None, s)) as Hs.
  { pose proof (getProcess_state s) as H2. destruct (getProcessFromPIDFile s). cbn in *. by subst. }
  assert (getProcessFromPIDFile started = (Done (Some pid), started)) as Hst by (apply getProcess_running; set_solver).
  split_and!.
  - unfold Start, start_, mbind, G_bind. by rewrite Hs.
  - unfold Start, start_, mbind, G_bind. by rewrite Hs.
  - unfold Stop, mbind, G_bind. by rewrite Hs.
  - done.
  - intros. unfold Start, start_, mbind, G_bind. by rewrite Hst.
  - unfold Stop, mbind, G_bind. rewrite Hst. by destruct (killable pid).
  - intros pid' Hpid'. case_decide as Hin.
    + pose proof (getProcess_running pid (alive s) Hpid Hin : getProcessFromPIDFile left_ = _) as Hl. unfold Start, start_, Stop, mbind, G_bind.
      rewrite !Hl. split; [done|]. by destruct (killable pid).
    + pose proof (getProcess_gone pid (alive s) Hpid Hin : getProcessFromPIDFile left_ = _) as Hl. unfold Start, start_, Stop, mbind, G_bind.
      by rewrite !Hl.
Qed.

Lemma pid_file_lifecycle_witness :
  Start true true (Some 4711) (Sys None {[ 1 ]}) = (Done (Returns true), Sys (Some "4711") ({[ 1 ]} ∪ {[ 4711 ]})) /\
  Stop (fun _ => true) (Sys (Some "4711") ({[ 1 ]} ∪ {[ 4711 ]})) =
    (Done (Returns true), Sys None (({[ 1 ]} ∪ {[ 4711 ]}) ∖ {[ 4711 ]})).
Proof.
  assert ("4711" = pretty 4711) as -> by (vm_compute; reflexivity).
  destruct (pid_file_lifecycle (Sys None {[ 1 ]}) 4711 (fun _ => true)) as (H1 & _ & _ & _ & _ & H2 & _).
  - lia.
  - reflexivity.
  - split; [exact H1|exact H2].
Defined.

(** * The line of the daemon *)

Section Line.
Context {S : Type} `{API S}.
Context (url_Parse : string -> option URL) (url_String : URL -> string).
Context (Getenv : string -> string) (arg0 : string).
Context (ReadFile : string -> option string) (CheckSSHKey : string -> string -> option string).
Context (error_text : string) (fuel : nat).
Abbreviation segs := (run_segments url_Parse url_String Getenv arg0 ReadFile CheckSSHKey error_text fuel).

Lemma run_segments_app pre rest w w' :
  Forall (fun s => s <> []) pre -> segs pre w = (Done (Returns true), w') -> rest <> [] ->
  segs (pre ++ rest)%list w = segs rest w'.
Proof.
  intros Hpre Hw Hrest. revert w Hw. induction Hpre as [|[|c args] pre Hs Hpre IH]; intros w Hw; [|done|].
  - cbn in Hw. by injection Hw as <-.
  - cbn [app run_segments] in *. unfold mbind, G_bind in *.
    destruct (ExecuteCommand _ _ _ _ _ _ _ _ c args w) as [[[ok|rc]|f] w1]; [by apply IH|done..].
Qed.

Lemma execute_stop args w :
  ExecuteCommand url_Parse url_String Getenv arg0 ReadFile CheckSSHKey error_text fuel "stop" args w = cmdStop args w.
Proof. done. Qed.
End Line.

Section Line.
Context {signer W : Type}.
Context (url_Parse : string -> option URL) (ParseEncryptedPrivateKey : string -> string -> option signer).
Context (SOCKS5 : string -> bool) (listen_tcp : Z -> option Z) (free_udp : option Z).
Context (PublicKey : signer -> string * string) (range : gmap string DialerInfo -> list DialerInfo).
Context (GetConnector : nat -> G W nat) (randomHex : G W (option string)).
Context (converse : nat -> string -> option bool -> G W (option (string * slice string * string))).
Context (gin_route : list (string * string) -> string -> string -> option nat) (Hgin : GinRouter gin_route).

Abbreviation Srv := (Server url_Parse ParseEncryptedPrivateKey SOCKS5 listen_tcp free_udp PublicKey range GetConnector
  randomHex converse).
Abbreviation Cli := (Client (H := Srv) gin_route true).
Implicit Types d : daemon signer W.

Lemma Stop_busy d : busy d -> @api_Stop _ Cli d = (Fault Blocks, d).
Proof.
  intros [Hr _]. change (@api_Stop _ Cli) with (client_Stop (H := Srv) gin_route true). rewrite client_Stop_run by done.
  cbn. unfold Server_Stop, mbind, G_bind, gget. by rewrite Hr.
Qed.
Lemma Stop_receiving d : receiving d = true -> @api_Stop _ Cli d = (Done true, set_done false (Some 0) d).
Proof.
  intros Hr. change (@api_Stop _ Cli) with (client_Stop (H := Srv) gin_route true). rewrite client_Stop_run by done.
  cbn. unfold Server_Stop, mbind, G_bind, gget. by rewrite Hr.
Qed.

Lemma AddRule_daemon r d :
  @api_AddRule _ Cli r d = (Done false, set_rules (Server_AddRule (ruleset d) r).1 d).
Proof.
  change (@api_AddRule _ Cli) with (client_AddRule (H := Srv) gin_route true). rewrite client_AddRule_run by done.
  cbn. unfold Server_AddRule_, mbind, G_bind, gget, gset, mret, G_ret. by destruct (Server_AddRule (ruleset d) r).
Qed.

(** What [add-rule] does to the daemon: the dialer that it keeps, and the rule. *)
Lemma cmdAddRule_daemon args (w : world (daemon signer W)) :
  let '(value, rest, err) := Parse "dialer" (dialer w) args in
  let r := cmdAddRule (H := Cli) args w in
  r.1 = Done (Returns (bool_decide (rest = []))) /\ dialer r.2 = value /\
  inner r.2 = match rest with
              | [] => inner w
              | c :: _ => set_rules (Server_AddRule (ruleset (inner w)) (mkControlRule c value)).1 (inner w)
              end.
Proof.
  destruct (Parse "dialer" (dialer w) args) as [[value rest] err] eqn:Hp. cbv zeta.
  unfold cmdAddRule, add_rule_usage, print, mbind, G_bind, gget, gset, mret, G_ret. rewrite Hp.
  destruct rest as [|c cs]; [by destruct err|]. cbn [add_rules].
  unfold call, mbind, G_bind. destruct err; cbn [bool_decide decide decide_rel]; case_bool_decide; try done;
    rewrite AddRule_daemon; done.
Qed.
(** C17: [add-rule] in the daemon, through the client and the server. Only the first
    network is added, since the client takes every answer for an error; the command
    then fails, though the rule is there. Nothing else of the daemon changes. The
    dialer of the option is kept for the commands that follow without one. *)
Theorem add_rule_line (w : world (daemon signer W)) (x c1 c2 : string) (more : list string)
    (H1 : is_flag c1 = false) (H2 : is_flag c2 = false) :
  let first := cmdAddRule (H := Cli) ("--dialer" :: x :: c1 :: more) w in
  let second := cmdAddRule (H := Cli) [c2] first.2 in
  let rules := (Server_AddRule (ruleset (inner w)) (mkControlRule c1 x)).1 in
  first.1 = Done (Returns false) /\
  inner first.2 = set_rules rules (inner w) /\
  second.1 = Done (Returns false) /\
  inner second.2 = set_rules (Server_AddRule rules (mkControlRule c2 x)).1 (inner w).
Proof.
  cbv zeta.
  pose proof (cmdAddRule_daemon ("--dialer" :: x :: c1 :: more) w) as Hf. cbn [Parse] in Hf. cbn in Hf.
  rewrite H1 in Hf. cbn in Hf. destruct Hf as (Hf1 & Hfd & Hfi).
  pose proof (cmdAddRule_daemon [c2] (cmdAddRule (H := Cli) ("--dialer" :: x :: c1 :: more) w).2) as Hs.
  rewrite Hfd, Hfi in Hs. cbn [Parse] in Hs. rewrite H2 in Hs. cbn [negb] in Hs. destruct Hs as (Hs1 & _ & Hsi).
  split_and!; [exact Hf1|exact Hfi|exact Hs1|exact Hsi].
Qed.

Context (url_String : URL -> string) (Getenv : string -> string) (arg0 : string).
Context (ReadFile : string -> option string) (CheckSSHKey : string -> string -> option string).
Context (error_text : string) (fuel : nat) (log_creatable : bool).

Abbreviation segs_ := (run_segments (H := Cli) url_Parse url_String Getenv arg0 ReadFile CheckSSHKey error_text fuel).
Abbreviation Run_ := (Run (Simpl := Srv) url_Parse url_String Getenv arg0 ReadFile CheckSSHKey error_text fuel gin_route
  true true log_creatable).

Lemma line_commands_busy cmds (w : world (daemon signer W)) :
  busy (inner w) ->
  busy (inner (line_commands (Simpl := Srv) url_Parse url_String Getenv arg0 ReadFile CheckSSHKey error_text fuel gin_route cmds w).2).
Proof.
  unfold line_commands. rewrite run_rounds by lia.
  apply (keeps_run_segments busy (keeps_Client busy (keeps_Server _ _ _ _ _ _ _ _ _ _) gin_route true)).
Qed.

(** C16: the two ways to ask the daemon to stop. When its line is done it receives,
    and a client's request ends it with 0, and the file with its number remains. But a
    [stop] on its line, when it is reached, makes it hang for ever: the request waits
    for the receive, which comes after the commands. *)
Theorem stop_requests (pid : Z) (parameters : list string) (s : sys) (w : world (daemon signer W))
    (Hw : busy (inner w)) :
  (forall logfile cmds pre args post w',
     Parse "logfile" "" parameters = (logfile, cmds, Parsed) -> logfile = "" \/ log_creatable = true ->
     segments cmds = (pre ++ ("stop" :: args) :: post)%list -> Forall (fun seg => seg <> []) pre ->
     segs_ pre w = (Done (Returns true), w') ->
     exists w'', Run_ pid parameters s w = ((Hangs, Sys (Some (pretty pid)) (alive s)), w'')) /\
  (forall s' w', Run_ pid parameters s w = ((Receives, s'), w') ->
     let d' := set_done false (Some 0) (inner w') in
     s' = Sys (Some (pretty pid)) (alive s) /\
     @api_Stop _ Cli (inner w') = (Done true, d') /\
     received pid s' d' = Some (Gone 0, Sys (Some (pretty pid)) (alive s ∖ {[ pid ]}))).
Proof.
  split.
  - intros logfile cmds pre args post w' Hparse Hlog Hseg Hpre Hrun.
    assert (line_commands (Simpl := Srv) url_Parse url_String Getenv arg0 ReadFile CheckSSHKey error_text fuel gin_route
      cmds w = (Fault Blocks, set_inner (inner w') w')) as Hline.
    { unfold line_commands. rewrite run_rounds by lia. rewrite Hseg. erewrite run_segments_app by done.
      cbn [run_segments]. unfold mbind, G_bind at 1. rewrite execute_stop. unfold cmdStop, mbind, G_bind, call.
      rewrite Stop_busy; [done|].
      pose proof (keeps_run_segments busy (keeps_Client busy (keeps_Server url_Parse ParseEncryptedPrivateKey SOCKS5
        listen_tcp free_udp PublicKey range GetConnector randomHex converse) gin_route true) url_Parse url_String Getenv arg0
        ReadFile CheckSSHKey error_text fuel pre w Hw) as Hb. by rewrite Hrun in Hb. }
    eexists. unfold Run. rewrite Hparse.
    assert (negb (bool_decide (logfile = "")) && negb log_creatable = false) as ->.
    { destruct Hlog as [->| ->]; [done|apply andb_false_r]. }
    cbn [savePID negb mbind G_bind]. unfold savePID, mbind, G_bind, gset, mret, G_ret. cbn [negb].
    rewrite Hline. done.
  - intros s' w' Hrun d'. unfold Run in Hrun.
    destruct (Parse "logfile" "" parameters) as [[logfile cmds] []]; [|done..].
    destruct (negb _ && negb _); [done|]. cbn [savePID negb] in Hrun.
    unfold savePID, mbind, G_bind, gset, mret, G_ret in Hrun. cbn [negb] in Hrun.
    pose proof (line_commands_busy cmds w Hw) as Hb.
    destruct (line_commands _ _ _ _ _ _ _ _ _ cmds w) as [[[ok|rc]|f] w1]; [|done|by destruct (waits f)].
    injection Hrun as <- <-. split_and!; [done| |done]. subst d'. cbn [inner set_inner].
    by rewrite Stop_receiving.
Qed.
End Line.

(** A daemon with nothing around it, for examples. *)
Definition Alone : API (daemon unit unit) :=
  Server (fun _ => None) (fun _ _ => None) (fun _ => true) (fun p => Some p) (Some 5353) (fun _ => ("", ""))
    (fun m => (map_to_list m).*2) (fun n => mret n) (mret (Some "00")) (fun _ _ _ => mret None).
Definition fresh_world : world (daemon unit unit) := World "default" [] [] [] [] (Initialize true tt).

Lemma add_rule_line_witness :
  let add args := cmdAddRule (H := Client (H := Alone) exact_route true) args in
  let first := add ["--dialer"; "x"; "10.0.0.0/8"; "10.1.0.0/16"] fresh_world in
  (first.1, Server_ListRules (ruleset (inner (add ["192.168.0.0/16"] first.2).2))) =
    (Done (Returns false), [mkControlRule "10.0.0.0/8" "x"; mkControlRule "192.168.0.0/16" "x"]).
Proof.
  cbv zeta.
  destruct (add_rule_line (fun _ => None) (fun _ _ => None) (fun _ => true) (fun p => Some p) (Some 5353) (fun _ => ("", ""))
    (fun m => (map_to_list m).*2) (fun n => mret n) (mret (Some "00")) (fun _ _ _ => mret None)
    exact_route exact_route_gin fresh_world "x" "10.0.0.0/8" "192.168.0.0/16" ["10.1.0.0/16"] eq_refl eq_refl)
    as (H1 & _ & _ & H2).
  apply f_equal2; [exact H1|]. etransitivity; [apply (f_equal (fun d => Server_ListRules (ruleset d))), H2|].
  vm_compute. reflexivity.
Defined.

Lemma stop_requests_witness : exists w',
  Run (Simpl := Alone) (fun _ => None) Host (fun _ => "") "sshtunnel" (fun _ => None) (fun _ _ => None) "" 1 exact_route
    true true true 7 ["--logfile"; "log"; "version"; "--"; "stop"] (Sys None {[ 7 ]}) fresh_world =
  ((Hangs, Sys (Some (pretty 7)) {[ 7 ]}), w').
Proof.
  destruct (stop_requests (fun _ => None) (fun _ _ => None) (fun _ => true) (fun p => Some p) (Some 5353) (fun _ => ("", ""))
    (fun m => (map_to_list m).*2) (fun n => mret n) (mret (Some "00")) (fun _ _ _ => mret None)
    exact_route exact_route_gin Host (fun _ => "") "sshtunnel" (fun _ => None) (fun _ _ => None) "" 1 true
    7 ["--logfile"; "log"; "version"; "--"; "stop"] (Sys None {[ 7 ]}) fresh_world) as [H _]; [by split|].
  eapply (H "log" ["version"; "--"; "stop"] [["version"]] [] []).
  - reflexivity.
  - by right.
  - reflexivity.
  - by constructor.
  - reflexivity.
Defined.
