(* ===== verification/Attempts.v ===== *)
(** What the goroutine [connect] of [dialer/sshdialer.go] offers to a server: its
    authentication methods, in a slice that shares its array with the dialer's, the
    user names of its attempts, and what it prints and writes to [known_hosts]. Other
    goroutines interleave in [Connector]; here it runs on its own, but for keys that
    are added meanwhile. *)

From stdpp Require Import base list strings.
From Stdlib Require Import ZArith Lia Ascii.
From S2P Require Import Prelude Dialers.

#[local] Open Scope string_scope.
#[local] Open Scope nat_scope.

(** * Slices

    A slice of Go points into an array that others may share: its elements are the
    first [len] of an array with [cap] places. The array of the nil slice does not
    matter. Arrays are never given back. *)

Record goslice := Slice { arr : nat; len : nat; cap : nat }.
Definition nil_slice : goslice := Slice 0 0 0.

Section Slices.
Context {A : Type}.
Abbreviation heap := (list (list (option A))).
(** The capacity of a new array, for a slice that is full with so many elements. *)
Context (grow : nat -> nat).

Definition cells (s : goslice) (h : heap) : list (option A) := take (len s) (default [] (h !! arr s)).

(** [append(s, x)]. *)
Definition append (s : goslice) (x : A) (h : heap) : goslice * heap :=
  if len s <? cap s then
    (Slice (arr s) (S (len s)) (cap s), alter (<[ len s := Some x ]>) (arr s) h)
  else
    (Slice (length h) (S (len s)) (grow (len s)),
     (h ++ [cells s h ++ Some x :: replicate (grow (len s) - S (len s)) None])%list).
End Slices.

(** * Authentication *)

Inductive method (signer : Type) := PublicKeys (s : signer) | Password | Agent.
Arguments PublicKeys {signer} s.
Arguments Password {signer}.
Arguments Agent {signer}.

Section Auth.
Context {signer : Type} (grow : nat -> nat).

(** [config.Auth] of the dialer and [cfg.Auth] of the connector that runs. *)
Record auth := Auth { store : list (list (option (method signer))); config_Auth : goslice; cfg_Auth : goslice }.

(** The append of [AddSSHKey]. *)
Definition add_key (a : auth) (k : signer) : auth :=
  let '(s, h) := append grow (config_Auth a) (PublicKeys k) (store a) in Auth h s (cfg_Auth a).
(** The appends of [connect]; [agent] tells whether there is an agent. *)
Definition begin_connect (agent : bool) (a : auth) : auth :=
  let '(s, h) := append grow (config_Auth a) Password (store a) in
  let '(s, h) := if agent then append grow s Agent h else (s, h) in
  Auth h (config_Auth a) s.

Definition auth_start : auth := Auth [] nil_slice nil_slice.
Definition add_keys (ks : list signer) (a : auth) : auth := fold_left add_key ks a.

(** What a handshake offers. *)
Definition methods (s : goslice) (a : auth) : list (method signer) := omap id (cells s (store a)).
End Auth.
Arguments auth : clear implicits.

(** * Attempts *)

Section Attempts.
Context {K : Type}.
(** [known_hosts] as it was loaded: nothing to say against the key, an error that has
    the keys that were expected, or another error. *)
Inductive base_verdict := BaseOk | KeyError (want : list K) | BaseError.
Context (baseCallback : string -> K -> base_verdict) (FingerprintSHA256 : K -> string).
(** The key of a host; the errors of dialing and of the rest of the handshake; the
    answers of the user; whether the file can be written; a line of it; the text of
    the error of a handshake whose host key was refused. *)
Context (host_key : string -> K) (dial : string -> option string) (handshake : string -> string -> option string).
Context (decision : string -> bool) (writable : bool) (Line : string -> K -> string) (refused : string -> string).

(** The messages, the lines added to the file, and the attempts. *)
Record log := Log { printed : list string; known_hosts_lines : list string; attempts : list SSHAddress }.
Definition Printf (m : string) (l : log) : log := Log (printed l ++ [m])%list (known_hosts_lines l) (attempts l).
Definition write_line (m : string) (l : log) : log := Log (printed l) (known_hosts_lines l ++ [m])%list (attempts l).
Definition attempt (a : SSHAddress) (l : log) : log := Log (printed l) (known_hosts_lines l) (attempts l ++ [a])%list.

Definition newline : string := String "010" "".

(** The callback: whether the key is approved. *)
Definition HostKeyCallback (interactive : bool) (hostname : string) (l : log) : bool * log :=
  let key := host_key hostname in
  match baseCallback hostname key with
  | BaseOk => (true, l)
  | BaseError => (false, l)
  | KeyError (want :: _) =>
      (false, Printf ("WARNING: REMOTE HOST IDENTIFICATION HAS CHANGED for " ++ hostname ++ "!" ++ newline ++
        "Someone could be eavesdropping on you right now (man-in-the-middle attack)!" ++ newline ++
        "Expected fingerprint: " ++ FingerprintSHA256 want ++ newline ++
        "Got fingerprint:      " ++ FingerprintSHA256 key ++ newline) l)
  | KeyError [] =>
      if negb interactive then
        (false, Printf ("Host " ++ hostname ++ " is not in known_hosts (fingerprint: " ++ FingerprintSHA256 key ++
          ")." ++ newline ++ "Add it manually or use an interactive session to confirm." ++ newline) l)
      else
        let l := Printf ("The authenticity of host " ++ hostname ++ " can't be established." ++ newline ++
          "Host key fingerprint (SHA256): " ++ FingerprintSHA256 key) l in
        if negb (decision hostname) then (false, l)
        else if writable then
          (true, Printf ("Permanently added " ++ hostname ++ " to known_hosts." ++ newline)
                   (write_line (Line hostname key) l))
        else (true, l)
  end.

(** The loop over the addresses; [User] is [cfg.User]. The address that was connected
    to, with the user name. *)
Fixpoint connect (interactive : bool) (User : string) (addresses : list SSHAddress) (l : log) : option SSHAddress * log :=
  match addresses with
  | [] => (None, l)
  | addr :: rest =>
      let User := if bool_decide (user addr = "") then User else user addr in
      let me := User ++ "@" ++ host addr in
      let l := Printf ("Trying to connect to " ++ me ++ newline) (attempt (mkSSHAddress User (host addr)) l) in
      match dial (host addr) with
      | Some reason =>
          connect interactive User rest (Printf ("Connect to " ++ me ++ " failed. Reason: " ++ reason ++ newline) l)
      | None =>
          let '(ok, l) := HostKeyCallback interactive (host addr) l in
          match (if ok then handshake User (host addr) else Some (refused (host addr))) with
          | Some reason =>
              connect interactive User rest (Printf ("Handshake with " ++ me ++ " failed. Reason: " ++ reason ++ newline) l)
          | None => (Some (mkSSHAddress User (host addr)), Printf ("Handshake with " ++ me ++ " succeeded" ++ newline) l)
          end
      end
  end.
End Attempts.
Arguments base_verdict : clear implicits.
