(* ===== verification/AttemptsProps.v ===== *)
(** The theorems on the attempts of [connect]: what it offers while keys are added, and
    with which names it tries which hosts. *)

From stdpp Require Import base list strings pretty.
From Stdlib Require Import ZArith Lia Ascii.
From S2P Require Import Prelude Dialers Attempts.

#[local] Open Scope string_scope.
#[local] Open Scope nat_scope.

(** * Slices *)

Section Slices.
Context {A : Type} (grow : nat -> nat) (Hgrow : forall n, n < grow n).
Abbreviation heap := (list (list (option A))).
Implicit Types (s t : goslice) (h : heap).

(** A slice is in an array of its capacity, and its elements are there. *)
Definition valid s h : Prop :=
  len s <= cap s /\ (cap s = 0 \/ exists a, h !! arr s = Some a /\ length a = cap s) /\
  Forall is_Some (cells s h).

Lemma cells_length s h : valid s h -> length (cells s h) = len s.
Proof.
  intros (Hl & [Hc|(a & Ha & Hlen)] & _); unfold cells.
  - replace (len s) with 0 by lia. done.
  - rewrite Ha. cbn. rewrite length_take. lia.
Qed.

Lemma append_cells s x h :
  valid s h -> let '(s', h') := append grow s x h in
  valid s' h' /\ cells s' h' = (cells s h ++ [Some x])%list.
Proof.
  intros Hv. pose proof (cells_length s h Hv) as Hlen. destruct Hv as (Hl & Hc & Hs). unfold append.
  destruct (Nat.ltb_spec (len s) (cap s)) as [Hlt|Hge].
  - destruct Hc as [Hc|(a & Ha & Hal)]; [lia|].
    assert (cells (Slice (arr s) (S (len s)) (cap s)) (alter <[ len s := Some x ]> (arr s) h) = (cells s h ++ [Some x])%list)
      as Hcells.
    { unfold cells. cbn [arr len]. rewrite list_lookup_alter, decide_True by done. rewrite Ha. cbn.
      rewrite (take_S_r _ _ (Some x)) by (by rewrite list_lookup_insert_eq by lia).
      by rewrite take_insert_ge by lia. }
    split; [|done]. unfold valid. rewrite Hcells. cbn [arr len cap]. split_and!; [lia| |].
    + right. exists (<[len s:=Some x]> a). rewrite list_lookup_alter, decide_True, Ha by done. by rewrite length_insert.
    + apply Forall_app. split; [done|]. by constructor.
  - assert (cells (Slice (length h) (S (len s)) (grow (len s)))
      (h ++ [cells s h ++ Some x :: replicate (grow (len s) - S (len s)) None])%list = (cells s h ++ [Some x])%list) as Hcells.
    { unfold cells at 1. cbn [arr len]. rewrite lookup_app_r by lia. rewrite Nat.sub_diag. cbn.
      rewrite (cons_middle (Some x)), app_assoc. rewrite take_app_le by (rewrite length_app, Hlen; cbn; lia).
      apply take_ge. rewrite length_app, Hlen. cbn. lia. }
    split; [|done]. unfold valid. rewrite Hcells. cbn [arr len cap]. specialize (Hgrow (len s)). split_and!; [lia| |].
    + right. eexists. rewrite lookup_app_r by lia. rewrite Nat.sub_diag. split; [done|].
      rewrite length_app, Hlen. cbn. rewrite length_replicate. lia.
    + apply Forall_app. split; [done|]. by constructor.
Qed.

(** Where an append puts the elements. *)
Lemma append_place s x h :
  valid s h -> let '(s', h') := append grow s x h in
  arr s' < length h' /\ len s' = S (len s) /\
  (len s < cap s -> arr s' = arr s /\ cap s' = cap s /\ exists c, h' !! arr s = Some c /\ length c = cap s) /\
  (cap s <= len s -> arr s' = length h).
Proof.
  intros (Hl & Hc & _). unfold append. destruct (Nat.ltb_spec (len s) (cap s)) as [Hlt|Hge]; cbn [arr len cap].
  - destruct Hc as [Hc|(c & Hc & Hlen)]; [lia|]. rewrite length_alter. split_and!; [by eapply lookup_lt_Some|done| |lia].
    intros _. split_and!; [done|done|]. exists (<[len s := Some x]> c).
    by rewrite list_lookup_alter_eq, Hc, length_insert.
  - rewrite length_app. cbn. split_and!; [lia|done|lia|done].
Qed.

(** A slice that is no longer than the one that grows keeps its elements. *)
Lemma append_below s x u h :
  valid u h -> (arr u = arr s -> len u <= len s) ->
  let '(s', h') := append grow s x h in valid u h' /\ cells u h' = cells u h.
Proof.
  intros Hv Hne. unfold append. destruct (Nat.ltb_spec (len s) (cap s)) as [Hlt|Hge].
  - destruct (decide (arr u = arr s)) as [He|He].
    + assert (cells u (alter <[len s := Some x]> (arr s) h) = cells u h) as Hc.
      { unfold cells. rewrite He, list_lookup_alter_eq. destruct (h !! arr s) as [c|]; [|done]. cbn.
        by rewrite take_insert_ge by auto. }
      split; [|done]. destruct Hv as (Hl & Hcap & Hs). split_and!; [done| |by rewrite Hc].
      destruct Hcap as [|(c & Hlook & Hlen)]; [by left|right]. exists (<[len s := Some x]> c).
      by rewrite He in *; rewrite list_lookup_alter_eq, Hlook, length_insert.
    + unfold valid, cells. by rewrite list_lookup_alter_ne.
  - destruct Hv as (Hl & Hcap & Hs).
    assert (cells u (h ++ [cells s h ++ Some x :: replicate (grow (len s) - S (len s)) None])%list = cells u h) as Hc.
    { unfold cells at 1 3. destruct Hcap as [Hcap|(c & Hlook & _)].
      - by replace (len u) with 0 by lia.
      - by rewrite lookup_app_l by (by eapply lookup_lt_Some). }
    split; [|done]. split_and!; [done| |by rewrite Hc].
    destruct Hcap as [|(c & Hlook & Hlen)]; [by left|right]. exists c.
    by rewrite lookup_app_l by (by eapply lookup_lt_Some).
Qed.

(** Arrays of other slices are left alone, and all when the slice is full. *)
Lemma append_apart s x i h :
  i < length h -> (i = arr s -> cap s <= len s) ->
  let '(s', h') := append grow s x h in h' !! i = h !! i /\ i < length h' /\ (i = arr s' -> cap s' <= len s').
Proof.
  intros Ht Hne. unfold append. destruct (Nat.ltb_spec (len s) (cap s)) as [Hlt|Hge].
  - rewrite list_lookup_alter_ne by (intros <-; specialize (Hne eq_refl); lia).
    rewrite length_alter. split_and!; [done|done|]. cbn. intros Hi. specialize (Hne Hi). lia.
  - rewrite lookup_app_l by done. rewrite length_app. cbn. split_and!; [done|lia|lia].
Qed.
End Slices.

Lemma omap_id_Some {A} (l : list A) : omap id (Some <$> l) = l.
Proof. induction l as [|a l IH]; [done|]. cbn. by rewrite IH. Qed.

Lemma take_insert_in {A} m i (x : A) l : take m (<[i:=x]> l) = <[i:=x]> (take m l).
Proof.
  revert m i. induction l as [|y l IH]; intros [|m] [|i]; cbn; try done. f_equal. apply IH.
Qed.
Lemma take_inserts {A} m i (k l : list A) : take m (list_inserts i k l) = list_inserts i k (take m l).
Proof. revert i. induction k as [|x k IH]; intros i; [done|]. cbn. by rewrite take_insert_in, IH. Qed.
Lemma fmap_inserts {A B} (f : A -> B) i (k l : list A) : f <$> list_inserts i k l = list_inserts i (f <$> k) (f <$> l).
Proof. revert i. induction k as [|x k IH]; intros i; [done|]. cbn. by rewrite list_fmap_insert, IH. Qed.

(** * Authentication *)

Section Auth.
Context {signer : Type} (grow : nat -> nat) (Hgrow : forall n, n < grow n).
Implicit Types (a : auth signer) (ks : list signer) (t : goslice).

(** The capacity that [n] appends lead to. *)
Fixpoint caps (n : nat) : nat :=
  match n with O => O | S n => if n <? caps n then caps n else grow n end.

Lemma add_keys_config ks :
  let a := add_keys grow ks auth_start in
  valid (config_Auth a) (store a) /\ cells (config_Auth a) (store a) = Some <$> (PublicKeys <$> ks) /\
  len (config_Auth a) = length ks /\ cap (config_Auth a) = caps (length ks).
Proof.
  induction ks as [|k ks IH] using rev_ind; [split_and!; [split_and!; [done|by left|done]|done..]|].
  unfold add_keys in *. rewrite fold_left_app. cbn [fold_left]. cbv zeta in IH.
  destruct (fold_left (add_key grow) ks auth_start) as [h s t]. cbn [config_Auth store] in IH.
  destruct IH as (Hv & Hc & Hl & Hcap). unfold add_key. cbn [config_Auth store cfg_Auth].
  pose proof (append_cells grow Hgrow s (PublicKeys k) h Hv) as Happ.
  assert (len (append grow s (PublicKeys k) h).1 = S (len s) /\
    cap (append grow s (PublicKeys k) h).1 = if len s <? cap s then cap s else grow (len s)) as [Hl' Hcap'].
  { unfold append. by destruct (len s <? cap s). }
  destruct (append grow s (PublicKeys k) h) as [s' h']. cbn [fst config_Auth store] in *.
  rewrite !fmap_app, length_app, Nat.add_1_r, <-Hc. destruct Happ as [Hv' ->]. split_and!; [done|done|lia|].
  cbn [caps]. by rewrite Hcap', Hl, Hcap.
Qed.

Lemma add_keys_apart ks a i :
  i < length (store a) -> (i = arr (config_Auth a) -> cap (config_Auth a) <= len (config_Auth a)) ->
  store (add_keys grow ks a) !! i = store a !! i.
Proof.
  revert a. induction ks as [|k ks IH]; intros a Ht Hne; [done|].
  pose proof (append_apart grow (config_Auth a) (PublicKeys k) i (store a) Ht Hne) as Happ.
  unfold add_keys in *. cbn [fold_left]. unfold add_key at 2.
  destruct (append grow (config_Auth a) (PublicKeys k) (store a)) as [s' h']. destruct Happ as (Hc & Ht' & Hne').
  by rewrite IH.
Qed.

Lemma add_keys_cfg ks a : cfg_Auth (add_keys grow ks a) = cfg_Auth a.
Proof.
  revert a. induction ks as [|k ks IH]; intros a; [done|]. unfold add_keys in *. cbn [fold_left]. rewrite IH.
  unfold add_key. by destruct (append _ _ _ _).
Qed.

Lemma add_keys_shared ks a c :
  len (config_Auth a) <= cap (config_Auth a) ->
  store a !! arr (config_Auth a) = Some c -> length c = cap (config_Auth a) ->
  store (add_keys grow ks a) !! arr (config_Auth a) =
    Some (list_inserts (len (config_Auth a))
      (Some <$> (PublicKeys <$> take (cap (config_Auth a) - len (config_Auth a)) ks)) c).
Proof.
  revert a c. induction ks as [|k ks IH]; intros [h s t] c Hle Hc Hlen; cbn [config_Auth store] in *.
  { by rewrite take_nil. }
  unfold add_keys in *. cbn [fold_left]. unfold add_key at 2. cbn [config_Auth store cfg_Auth]. unfold append.
  destruct (Nat.ltb_spec (len s) (cap s)) as [Hlt|Hge].
  - specialize (IH (Auth (alter <[len s := Some (PublicKeys k)]> (arr s) h) (Slice (arr s) (S (len s)) (cap s)) t)
      (<[len s := Some (PublicKeys k)]> c)). cbn [config_Auth store arr len cap] in IH.
    rewrite IH; [|lia|by rewrite list_lookup_alter_eq, Hc|by rewrite length_insert].
    destruct (cap s - len s) as [|r] eqn:Hr; [lia|]. replace (cap s - S (len s)) with r by lia.
    cbn. f_equal. symmetry. apply list_insert_inserts_lt. lia.
  - replace (cap s - len s) with 0 by lia. cbn [take fmap list_fmap list_inserts].
    assert (arr s < length h) as Hlt by (by eapply lookup_lt_Some).
    etransitivity; [apply add_keys_apart; cbn [config_Auth store arr]; [rewrite length_app; cbn; lia|lia]|].
    cbn [store]. by rewrite lookup_app_l.
Qed.

(** The slice of a connector that begins: its elements, and whether it shares the array
    of the dialer's. *)
Lemma begin_cells (agent : bool) (h : list (list (option (method signer)))) s t0 :
  valid s h ->
  let rest : list (method signer) := Password :: if agent then [Agent] else [] in
  exists t h', begin_connect grow agent (Auth h s t0) = Auth h' s t /\
    cells t h' = (cells s h ++ (Some <$> rest))%list /\ arr t < length h' /\
    (length rest <= cap s - len s -> arr t = arr s /\ exists c, h' !! arr s = Some c /\ length c = cap s) /\
    (cap s - len s < length rest -> arr t = arr s -> cap s <= len s).
Proof.
  intros Hv rest. unfold begin_connect. cbn [config_Auth store].
  pose proof (append_cells grow Hgrow s Password h Hv) as Hc1. pose proof (append_place grow s Password h Hv) as Hp1.
  destruct (append grow s Password h) as [s1 h1]. destruct Hc1 as [Hv1 Hc1], Hp1 as (Ha1 & Hl1 & Hin1 & _).
  destruct agent; cbn [length] in rest; subst rest; cbn [length].
  - pose proof (append_cells grow Hgrow s1 Agent h1 Hv1) as Hc2. pose proof (append_place grow s1 Agent h1 Hv1) as Hp2.
    destruct (append grow s1 Agent h1) as [s2 h2]. destruct Hc2 as [_ Hc2], Hp2 as (Ha2 & _ & Hin2 & Hout2).
    exists s2, h2. split_and!; [done| |done| |].
    + by rewrite Hc2, Hc1, <-app_assoc.
    + intros Hle. destruct Hin1 as (He1 & Hcap1 & _); [lia|]. destruct Hin2 as (He2 & _ & c & Hc & Hlen); [lia|].
      rewrite He1 in *. rewrite He2. split; [done|]. exists c. by rewrite Hlen.
    + intros Hlt Harr. destruct (decide (cap s <= len s)) as [|Hn]; [done|].
      destruct Hin1 as (He1 & Hcap1 & _); [lia|]. rewrite Hout2 in Harr by lia. rewrite He1 in Ha1. lia.
  - exists s1, h1. split_and!; [done|by rewrite Hc1|done| |lia].
    intros Hle. destruct Hin1 as (He1 & _ & c & Hc & Hlen); [lia|]. rewrite He1. eauto.
Qed.

(** What is offered after more keys were added. *)
Lemma methods_after ks ks' (agent : bool) :
  let rest := Password :: if agent then [Agent] else [] in
  let a := begin_connect grow agent (add_keys grow ks auth_start) in
  let n := length ks in
  methods (cfg_Auth a) (add_keys grow ks' a) =
    if caps n - n <? length rest then ((PublicKeys <$> ks) ++ rest)%list
    else list_inserts n (PublicKeys <$> take (caps n - n) ks') ((PublicKeys <$> ks) ++ rest)%list.
Proof.
  intros rest a n. destruct (add_keys_config ks) as (Hv & Hc & Hl & Hcap). subst a.
  destruct (add_keys grow ks auth_start) as [h s t0]. cbn [config_Auth store] in *. fold n in Hl, Hcap.
  destruct (begin_cells agent h s t0 Hv) as (t & hf & Hb & Ht & Hin & Hshared & Hown).
  rewrite Hc, <-fmap_app in Ht. fold rest in Ht, Hshared, Hown. rewrite Hb. unfold methods. cbn [cfg_Auth].
  rewrite Hl, Hcap in *. destruct (Nat.ltb_spec (caps n - n) (length rest)) as [Hlt|Hge].
  - unfold cells. rewrite add_keys_apart; cbn [store config_Auth]; [|done|by rewrite Hcap, Hl; apply Hown].
    fold (cells t hf). by rewrite Ht, omap_id_Some.
  - destruct (Hshared Hge) as (Harr & c & Hlook & Hlen). unfold cells in *. rewrite Harr in *.
    pose proof (add_keys_shared ks' (Auth hf s t) c) as Hs. cbn [config_Auth store] in Hs. rewrite Hl, Hcap in Hs.
    rewrite Hs; [|by destruct Hv; lia|done|done]. rewrite Hlook in Ht. cbn [default from_option id] in *.
    by rewrite take_inserts, Ht, <-fmap_inserts, omap_id_Some.
Qed.

(** The dialer's own slice has the keys, whatever is done meanwhile. *)
Lemma add_keys_cells ks a :
  valid (config_Auth a) (store a) ->
  let a' := add_keys grow ks a in
  valid (config_Auth a') (store a') /\
  cells (config_Auth a') (store a') = (cells (config_Auth a) (store a) ++ (Some <$> (PublicKeys <$> ks)))%list.
Proof.
  revert a. induction ks as [|k ks IH]; intros a Hv; [by rewrite app_nil_r|].
  pose proof (append_cells grow Hgrow (config_Auth a) (PublicKeys k) (store a) Hv) as Happ.
  unfold add_keys in *. cbn [fold_left].
  destruct (append grow (config_Auth a) (PublicKeys k) (store a)) as [s' h'] eqn:He. destruct Happ as [Hv' Hc'].
  assert (add_key grow a k = Auth h' s' (cfg_Auth a)) as -> by (unfold add_key; by rewrite He).
  destruct (IH (Auth h' s' (cfg_Auth a)) Hv') as [Hv2 Hc2]. split; [done|]. rewrite Hc2. cbn [config_Auth store].
  rewrite Hc'. by rewrite <-app_assoc.
Qed.

Lemma begin_below (agent : bool) a :
  valid (config_Auth a) (store a) ->
  let a' := begin_connect grow agent a in
  config_Auth a' = config_Auth a /\ valid (config_Auth a) (store a') /\
  cells (config_Auth a) (store a') = cells (config_Auth a) (store a).
Proof.
  intros Hv. unfold begin_connect.
  pose proof (append_below grow (config_Auth a) Password (config_Auth a) (store a) Hv ltac:(done)) as H1.
  pose proof (append_place grow (config_Auth a) Password (store a) Hv) as Hp.
  destruct (append grow (config_Auth a) Password (store a)) as [s1 h1]. destruct H1 as [Hv1 Hc1], Hp as (_ & Hl & _).
  destruct agent; [|done].
  pose proof (append_below grow s1 Agent (config_Auth a) h1 Hv1 ltac:(lia)) as H2.
  destruct (append grow s1 Agent h1) as [s2 h2]. destruct H2 as [Hv2 Hc2]. cbn. split_and!; [done|done|by rewrite Hc2].
Qed.
End Auth.

(** C15: the authentication methods that the dialer and a connector that runs offer
    after keys were added while it runs. The dialer has its keys, all of them. The
    connector should have the keys of its start, the password and the agent; it has,
    when its slice has an array of its own. But the append that makes its slice uses
    the places that are left in the dialer's array, and then each new key overwrites
    one of them: the first the password, which is not asked for any more. *)
Theorem auth_methods {signer : Type} (grow : nat -> nat) (Hgrow : forall n, n < grow n)
    (ks ks' : list signer) (agent : bool) :
  let rest := Password :: if agent then [Agent] else [] in
  let started := begin_connect grow agent (add_keys grow ks auth_start) in
  let a := add_keys grow ks' started in
  let spare := caps grow (length ks) - length ks in
  let offered := methods (cfg_Auth a) a in
  methods (config_Auth a) a = PublicKeys <$> (ks ++ ks')%list /\
  offered =
    (if spare <? length rest then ((PublicKeys <$> ks) ++ rest)%list
     else list_inserts (length ks) (PublicKeys <$> take spare ks') ((PublicKeys <$> ks) ++ rest)%list) /\
  (Password ∈ offered <-> spare < length rest \/ ks' = []).
Proof.
  intros rest started a spare offered.
  assert (offered =
    (if spare <? length rest then ((PublicKeys <$> ks) ++ rest)%list
     else list_inserts (length ks) (PublicKeys <$> take spare ks') ((PublicKeys <$> ks) ++ rest)%list)) as Hoff.
  { unfold offered, a. rewrite add_keys_cfg. by apply methods_after. }
  split_and!; [|done|].
  - destruct (add_keys_config grow Hgrow ks) as (Hv & Hc & _).
    destruct (begin_below grow agent _ Hv) as (Hcfg & Hv' & Hc'). fold started in Hcfg, Hv', Hc'.
    rewrite <-Hcfg in Hv', Hc'. destruct (add_keys_cells grow Hgrow ks' started Hv') as [_ Hc2]. fold a in Hc2.
    unfold methods. rewrite Hc2, Hc', Hcfg, Hc, <-!fmap_app. apply omap_id_Some.
  - rewrite Hoff. destruct (Nat.ltb_spec spare (length rest)) as [Hlt|Hge].
    + split; [by left|intros _]. apply elem_of_app. right. by left.
    + replace (length ks) with (length (PublicKeys <$> ks) + 0) by (rewrite length_fmap; lia).
      rewrite list_inserts_app_r. destruct ks' as [|k ks'].
      { rewrite take_nil. split; [by right|intros _]. apply elem_of_app. right. by left. }
      destruct spare as [|m]; [cbn in Hge; lia|]. cbn [take fmap list_fmap list_inserts].
      unfold rest. rewrite list_inserts_cons. cbn. rewrite elem_of_app, elem_of_cons, list_elem_of_fmap.
      split; [|intros [Hlt|]; [cbn in *; lia|done]]. intros [(? & [=] & _)|[[=]|Hin]]. exfalso. revert Hin.
      destruct agent; cbn; [|by rewrite list_inserts_nil, elem_of_nil].
      destruct (PublicKeys <$> take m ks') as [|x l] eqn:Hx; cbn; [by rewrite list_elem_of_singleton|].
      destruct (take m ks'); [done|]. injection Hx as <- _. rewrite list_inserts_cons, list_inserts_nil. cbn.
      by rewrite list_elem_of_singleton.
Qed.

(** With the capacities 1, 2, 4: three keys leave a place, and the fourth takes it. *)
Lemma auth_methods_witness :
  let a := add_keys (fun n => max 1 (2 * n)) [4] (begin_connect (fun n => max 1 (2 * n)) false
    (add_keys (fun n => max 1 (2 * n)) [1; 2; 3] auth_start)) in
  methods (cfg_Auth a) a = PublicKeys <$> [1; 2; 3; 4].
Proof.
  cbv zeta. destruct (auth_methods (fun n => max 1 (2 * n)) ltac:(intros n; cbn beta; lia) [1; 2; 3] [4] false) as (_ & H & _).
  exact H.
Defined.

(** * Attempts *)


Section Tries.
Context {K : Type} (baseCallback : string -> K -> base_verdict K) (FingerprintSHA256 : K -> string).
Context (host_key : string -> K) (dial : string -> option string) (handshake : string -> string -> option string).
Context (decision : string -> bool) (writable : bool) (Line : string -> K -> string) (refused : string -> string).
Context (interactive : bool).


Abbreviation callback := (HostKeyCallback baseCallback FingerprintSHA256 host_key decision writable Line).
Abbreviation run := (connect baseCallback FingerprintSHA256 host_key dial handshake decision writable Line refused).





End Tries.


Lemma connect_attempts_example :
  let addresses := [mkSSHAddress "" "a:22"; mkSSHAddress "bob" "b:22"; mkSSHAddress "" "c:22"] in
  (connect (fun h _ => if bool_decide (h = "b:22") then KeyError [1] else KeyError []) pretty (fun _ => 1)
    (fun h => if bool_decide (h = "a:22") then Some "refused" else None) (fun _ _ => None) (fun _ => true) true
    (fun h _ => h) (fun _ => "mismatch") true "alice" addresses (Log [] [] [])).1 = Some (mkSSHAddress "bob" "c:22").
Proof. reflexivity. Qed.
