(* ===== verification/Session.v ===== *)
(** Terminals in which the command [connect] of [commands/connect.go] runs, with the
    connector of [Connector] that they talk to: each terminal has an object of the
    server for it ([ServerConnector] of [server/server.go]) and sends one request
    after the other, and all of them drive the same connector.

    The steps of a terminal are those of [Commands.connect_round], the steps of the
    connector and of the requests those of [Connector]; here is what is between them:
    a request that is sent becomes one that runs [Server.Connect], and its result
    becomes a reply. *)

From stdpp Require Import base gmap list strings.
From Stdlib Require Import ZArith Lia Ascii.
From S2P Require Import Prelude Rules Dialers Transport Control Commands Connector.

#[local] Open Scope string_scope.

(** * Replies *)

(** An implementation of the interface that gives the replies of a list to [Connect],
    and waits for ever when there are no more. It has nothing else. *)
#[export] Instance Scripted : API (list (option ConnectOut)) := {|
  api_Health := gpanic Blocks;
  api_Status := gpanic Blocks;
  api_Stop := gpanic Blocks;
  api_AddSSHKey _ _ := gpanic Blocks;
  api_ListKeys := gpanic Blocks;
  api_StartProxy _ _ := gpanic Blocks;
  api_ListProxies := gpanic Blocks;
  api_AddDialer _ := gpanic Blocks;
  api_ListDialers := gpanic Blocks;
  api_Connect _ := fun rs => match rs with o :: rs => (Done o, rs) | [] => (Fault Blocks, []) end;
  api_ListRules := gpanic Blocks;
  api_AddRule _ := gpanic Blocks;
|}.

(** The constants of [ConnectStatus]. *)
Definition status_string (st : ConnectStatus) : string :=
  match st with
  | StatusNew => ""
  | Connecting => "connecting"
  | Handshake => "handshake"
  | NeedPassphrase => "need_passphrase"
  | UnknownHostKey => "unknown_host_key"
  | Succeeded => "succeeded"
  | Failed => "failed"
  end.

(** * Terminals *)

(** [TSend]: a request is about to be sent; [TWait]: it is the request with this
    number; [TEnd]: the command is over. *)
Inductive place :=
  | TSend (i : ConnectIn)
  | TWait (i : ConnectIn) (r : nat)
  | TEnd (e : outcome ending).

(** [conn_id] and [messageCount] belong to the [ServerConnector] of the terminal. *)
Record terminal := Terminal {
  args : list string;
  conn_id : string;
  messageCount : nat;
  at_ : place;
  term : world (list (option ConnectOut));
}.

(** The command begins with a request without an identifier. *)
Definition first_request : ConnectIn := mkConnectIn "" "" None.
Definition sit (args : list string) (id : string) (w : world (list (option ConnectOut))) : terminal :=
  Terminal args id 0 (TSend first_request) (set_inner [] w).

Definition set_place (p : place) (t : terminal) : terminal :=
  Terminal (args t) (conn_id t) (messageCount t) p (term t).

(** One round of the command, with the reply to the request. [n] is the
    [messageCount] that the request leaves. *)
Definition receive (i : ConnectIn) (n : nat) (o : option ConnectOut) (t : terminal) : terminal :=
  let '(x, w) := connect_round (acceptHostKeys (args t)) i (set_inner [o] (term t)) in
  Terminal (args t) (conn_id t) n
    (match x with
     | Done (inl i) => TSend i
     | Done (inr e) => TEnd (Done e)
     | Fault f => TEnd (Fault f)
     end) w.

(** * Sessions *)

Section Session.
(** The fingerprint of the key that a host shows. *)
Context (fp : SSHAddress -> string).

(** [HostKeyFingerprint]: the host of [pendingHostKey] is the one [connect] is at. *)
Definition fingerprint (s : sys) : string :=
  match pendingHostKey (sh s), pc s with
  | Some _, CAsk a _ | Some _, CAnswered a _ _ => fp a
  | _, _ => ""
  end.

(** What [Server.Connect] returns: the status was read before, the fingerprint is
    read now. *)
Definition reply (s : sys) (id : string) (ms : slice string) (res : option ConnectStatus) : option ConnectOut :=
  st ← res;
  Some (mkConnectOut id (status_string st) ms
    (if bool_decide (st = UnknownHostKey) then fingerprint s else "")).

(** The connector with its requests, and the terminals. *)
Record session := Session { ssys : sys; terms : gmap nat terminal }.

(** A request without an identifier gets the connector while it is registered; the
    others get it by their identifier. The messages of a reply are those that came
    since the last one, up to some time. *)
Inductive sstep : session -> list label -> session -> Prop :=
  | s_connect c p rs ts l c' p' : cstep c p l c' p' ->
      sstep (Session (Sys c p rs) ts) [l] (Session (Sys c' p' rs) ts)
  | s_request c p rs ts l r x c' x' : rs !! r = Some x -> rstep r c x l c' x' ->
      sstep (Session (Sys c p rs) ts) [l] (Session (Sys c' p (<[r := x']> rs)) ts)
  | s_send c p rs ts k t i r : ts !! k = Some t -> at_ t = TSend i -> rs !! r = None ->
      (in_ID i = "" /\ registered c = true \/ in_ID i = conn_id t) ->
      sstep (Session (Sys c p rs) ts) [LRequest r]
        (Session
           (Sys (set_interactive c) p
              (<[r := RSetPassphrase (in_Passphrase i) (Transport.AcceptHostKey i) (messageCount t)]> rs))
           (<[k := set_place (TWait i r) t]> ts))
  | s_reply s ts k t i r res n ms : ts !! k = Some t -> at_ t = TWait i r ->
      reqs s !! r = Some (RReturn res) ->
      (messageCount t <= n <= messages (sh s))%nat -> length (default [] ms) = (n - messageCount t)%nat ->
      sstep (Session s ts) []
        (Session s (<[k := receive i n (reply s (conn_id t) ms res) t]> ts)).

(** A connector that was just made, and terminals that have not sent anything. *)
Definition sinit (inter : bool) (addresses : list SSHAddress) (ts : gmap nat terminal) : session :=
  Session (init inter addresses) ts.

(** The runs, with the labels of the connector, the last one first. *)
Inductive srun (s0 : session) : list label -> session -> Prop :=
  | srun_nil : srun s0 [] s0
  | srun_step tr s l s' : srun s0 tr s -> sstep s l s' -> srun s0 (l ++ tr)%list s'.

(** * Consent *)

(** The user of the terminal was shown this fingerprint in a question, and the option
    or the line after it says yes. *)
Definition approves (t : terminal) (f : string) : Prop :=
  exists before out after,
    events (term t) = (before ++ Got (Some out) :: after)%list /\
    out_Status out = "unknown_host_key" /\ HostKeyFingerprint out = f /\
    (acceptHostKeys (args t) = true \/
     exists line after', after = Answered (Some line) :: after' /\ accepts (Some line) = true).
End Session.
