(* ===== verification/SessionProps.v ===== *)
(** The theorems on terminals that talk to a connector. *)

From stdpp Require Import base gmap list strings.
From Stdlib Require Import ZArith Lia Ascii.
From S2P Require Import Prelude Rules Dialers Transport Control Commands Connector ConnectorProps Session.

#[local] Open Scope string_scope.

(** * What a session is made of *)

Section Session.
Context (fp : SSHAddress -> string).

(** The connector and its requests do not see the terminals. *)
Lemma sstep_run s l s' s0 tr :
  sstep fp s l s' -> run s0 tr (ssys s) -> run s0 (l ++ tr)%list (ssys s').
Proof.
  intros Hs Hrun. destruct Hs; [..|done]; (eapply run_step; [exact Hrun|]).
  - by constructor.
  - by eapply step_request.
  - by apply step_new.
Qed.
Lemma srun_run inter addrs ts tr s :
  srun fp (sinit inter addrs ts) tr s -> run (init inter addrs) tr (ssys s).
Proof. induction 1; [constructor|by eapply sstep_run]. Qed.

(** Whose terminal it is. *)
Definition seated (seat : list string * string * world (list (option ConnectOut))) (t : terminal) : Prop :=
  args t = seat.1.1 /\ conn_id t = seat.1.2.

Lemma seated_receive seat i n o t : seated seat t -> seated seat (receive i n o t).
Proof. unfold seated, receive. by case_match. Qed.

Definition sits (ts : gmap nat (list string * string * world (list (option ConnectOut)))) : gmap nat terminal :=
  (fun '(words, id, w) => sit words id w) <$> ts.

Lemma sstep_seated (seats : gmap nat (list string * string * world (list (option ConnectOut)))) s l s' :
  sstep fp s l s' ->
  (forall k t, terms s !! k = Some t -> exists seat, seats !! k = Some seat /\ seated seat t) ->
  (forall k t, terms s' !! k = Some t -> exists seat, seats !! k = Some seat /\ seated seat t).
Proof.
  intros Hs IH. destruct Hs as [| |c p rs ts k t i r Hk Hat|s ts k t i r res n ms Hk Hat]; cbn [terms] in *;
    [done|done|..]; destruct (IH _ _ Hk) as (seat & Hseat & Hp); intros j t' [[<- <-]|[_ Hj]]%lookup_insert_Some;
    [|by apply IH| |by apply IH]; exists seat; (split; [done|]); [done|by apply seated_receive].
Qed.

Lemma srun_seats inter addrs seats tr s :
  srun fp (sinit inter addrs (sits seats)) tr s ->
  forall k t, terms s !! k = Some t -> exists seat, seats !! k = Some seat /\ seated seat t.
Proof.
  induction 1 as [|? ? ? ? ? IH Hs]; [|by eapply sstep_seated].
  unfold sits. intros k t (((words & id) & w) & <- & Hs)%lookup_fmap_Some. by eexists.
Qed.

(** * One terminal *)

(** A reply makes the terminal accept only when it asks, and its user accepts. *)
Lemma receive_accepts i n o t i' b :
  at_ (receive i n o t) = TSend i' -> Transport.AcceptHostKey i' = Some b ->
  b = true /\ exists out, o = Some out /\ out_Status out = "unknown_host_key" /\
    approves (receive i n o t) (HostKeyFingerprint out).
Proof.
  unfold receive, approves, connect_round, call, print, record_event, gset, mbind, G_bind, mret, G_ret. cbn.
  destruct o as [out|]; cbn; [|done].
  repeat (case_match; cbn; try done); intros [= <-]; cbn; intros Hb; simplify_eq.
  all: cbn in Hb; injection Hb as <-; (split; [done|]); exists out; (split; [done|]);
    (split; [by eapply bool_decide_eq_true|]); exists (events (term t) ++ [Sent i])%list, out; eexists.
  - split; [reflexivity|]. split_and!; [by eapply bool_decide_eq_true|done|by left].
  - split; [symmetry; apply (app_assoc _ [_])|]. split_and!; [by eapply bool_decide_eq_true|done|right].
    destruct (head (stdin _)) as [line|]; [|done]. by exists line, [].
Qed.
Lemma receive_events i n o t : exists es, events (term (receive i n o t)) = (events (term t) ++ es)%list.
Proof.
  unfold receive, connect_round, call, print, record_event, gset, mbind, G_bind, mret, G_ret. cbn.
  destruct o as [out|]; cbn; repeat (case_match; cbn); simplify_eq/=; eexists; rewrite <-!app_assoc; reflexivity.
Qed.

Lemma approves_receive i n o t f : approves t f -> approves (receive i n o t) f.
Proof.
  intros (before & out & after & He & Hst & Hf & Hyes). destruct (receive_events i n o t) as [es Hes].
  assert (args (receive i n o t) = args t) as Hargs by (unfold receive; by case_match).
  exists before, out, (after ++ es)%list. rewrite Hes, He, <-app_assoc, Hargs. split_and!; [done..|].
  destruct Hyes as [?|(line & after' & -> & ?)]; [by left|right]. by exists line, (after' ++ es)%list.
Qed.

(** A question is open, which nobody has answered. *)
Definition open (c : conn) (p : cpc) : Prop := asking p = true /\ pendingHostKey c = Some None.

Definition host_of (p : cpc) : option SSHAddress :=
  match p with CAsk a _ => Some a | _ => None end.

(** What the terminal is about to answer, its user has agreed to, for the host that
    is asked for. *)
Definition justified (c : conn) (p : cpc) (t : terminal) (answer : option bool) : Prop :=
  forall b, answer = Some b ->
    b = true /\ open c p /\ forall a, host_of p = Some a -> approves t (fp a).

Definition place_ok (s : sys) (t : terminal) : Prop :=
  match at_ t with
  | TSend i => justified (sh s) (pc s) t (Transport.AcceptHostKey i)
  | TWait _ r =>
      forall x, reqs s !! r = Some x ->
        match x with
        | RSetPassphrase _ acc _ | RAccept acc _ => justified (sh s) (pc s) t acc
        | RReturn (Some UnknownHostKey) => open (sh s) (pc s)
        | _ => True
        end
  | TEnd _ => True
  end.

(** The key of the host that [connect] goes on with is trusted. *)
Definition pc_ok (P : SSHAddress -> Prop) (c : conn) (p : cpc) : Prop :=
  match p with
  | CShake a _ true | CPass a _ | CPassWait a _ | CPassBlocked a _ | CPassGot a _ | CAnswered a _ true => P a
  | CAsk a _ => pendingHostKey c = Some (Some true) -> P a
  | _ => True
  end.

Definition trusted (tr : list label) (t : terminal) (a : SSHAddress) : Prop :=
  (exists b, LVerdict a Known b ∈ tr) \/ approves t (fp a).

Record safe (k : nat) (tr : list label) (s : session) (t : terminal) : Prop := {
  safe_terms : terms s = {[k := t]};
  safe_idle r x : reqs (ssys s) !! r = Some x -> (exists res, x = RReturn res) \/ exists i, at_ t = TWait i r;
  safe_place : place_ok (ssys s) t;
  safe_pc : pc_ok (trusted tr t) (sh (ssys s)) (pc (ssys s));
  safe_connected a : LConnected a ∈ tr -> trusted tr t a;
}.

Lemma trusted_cons l tr t a : trusted tr t a -> trusted (l :: tr) t a.
Proof. intros [[b Hb]|Ha]; [left; exists b; by right|by right]. Qed.

Lemma pc_ok_mono (P Q : SSHAddress -> Prop) c p : (forall a, P a -> Q a) -> pc_ok P c p -> pc_ok Q c p.
Proof. intros HPQ. destruct p as [| | |? ? []| | |? ? []| | | | | | | | | |]; cbn; auto. Qed.

(** An open question stops [connect]. *)
Lemma open_stops c p l c' p' : open c p -> cstep c p l c' p' -> False.
Proof. intros [Ha Hp]. destruct 1; try done. cbn in *. congruence. Qed.

Lemma justified_connect c p l c' p' t acc :
  cstep c p l c' p' -> justified c p t acc -> justified c' p' t acc.
Proof. intros Hs Hj b Hb. destruct (Hj b Hb) as (_ & Ho & _). by destruct (open_stops _ _ _ _ _ Ho Hs). Qed.

Lemma safe_connect k tr c p rs ts l c' p' t :
  cstep c p l c' p' -> safe k tr (Session (Sys c p rs) ts) t ->
  safe k (l :: tr) (Session (Sys c' p' rs) ts) t.
Proof.
  intros Hs [Ht Hidle Hplace Hpc Hconn]. cbn [ssys terms sh pc reqs] in *. split; cbn [ssys terms sh pc reqs].
  - done.
  - done.
  - unfold place_ok in *. cbn [sh pc reqs] in *. destruct (at_ t); [by eapply justified_connect| |done].
    intros x Hx. specialize (Hplace x Hx). destruct x as [| | | | | | | | |[[]|]]; try done;
      try (by eapply justified_connect). by destruct (open_stops _ _ _ _ _ Hplace Hs).
  - apply (pc_ok_mono (trusted tr t) (trusted (l :: tr) t)) in Hpc; [|by intros; apply trusted_cons].
    destruct Hs; try (match goal with b : bool |- _ => destruct b end); cbn in *; try done; try naive_solver.
    left. eexists. by left.
  - intros a [->|Ha]%list_elem_of_In; [|by apply trusted_cons, Hconn, list_elem_of_In].
    inversion Hs; subst. by apply trusted_cons.
Qed.

(** The steps of a request but those of an answer. *)
Lemma open_asked s : question s -> status (sh s) = UnknownHostKey -> open (sh s) (pc s).
Proof. intros [Hq _] Hst. by apply Hq. Qed.

(** A passphrase changes neither a question nor what was approved. *)
Lemma SetPassphrase_open q p c c' ok :
  question (Sys c p q) -> forall w, SetPassphrase w c = Done (ok, c') ->
  pendingHostKey c' = pendingHostKey c /\ (open c p -> c' = c).
Proof.
  intros [Hq _] w. rewrite SetPassphrase_run. case_bool_decide as Hst; intros; simplify_eq; [|done].
  split; [done|]. intros Ho. apply Hq in Ho. cbn in Ho. congruence.
Qed.

Lemma justified_same c c' p t acc :
  (open c p -> c' = c) -> justified c p t acc -> justified c' p t acc.
Proof. intros Hc Hj b Hb. destruct (Hj b Hb) as (Hb' & Ho & Ha). by rewrite (Hc Ho). Qed.

(** Only the request that the terminal waits for goes on. *)
Lemma safe_active k tr s t r x l c' x' :
  safe k tr s t -> reqs (ssys s) !! r = Some x -> rstep r (sh (ssys s)) x l c' x' -> exists i, at_ t = TWait i r.
Proof.
  intros Hsafe Hr Hs. destruct (safe_idle _ _ _ _ Hsafe r x Hr) as [[res ->]|Hi]; [by inversion Hs|done].
Qed.

Lemma rstep_pc_ok P r c p rs x l c' x' t :
  question (Sys c p rs) -> rstep r c x l c' x' ->
  match x with RAccept acc _ => justified c p t acc | _ => True end ->
  (forall a, approves t (fp a) -> P a) ->
  pc_ok P c p -> pc_ok P c' p.
Proof.
  intros Hq Hs Hj HP Hpc. destruct Hs; try done.
  - destruct (SetPassphrase_open _ _ _ _ _ Hq _ H0) as [He _]. destruct p; cbn in *; rewrite ?He; done.
  - destruct (Hj b eq_refl) as (-> & Ho & Happ). destruct Ho as [Ha Hp]. rewrite AcceptHostKey_run in *.
    case_bool_decide; [|done]. rewrite Hp in *. simplify_eq. destruct p; try done. cbn. intros _. by apply HP, Happ.
  - rewrite AcceptHostKey_run in *. case_bool_decide; [|by simplify_eq]. by repeat case_match.
Qed.

Lemma safe_request k tr c p rs ts l r x c' x' t :
  question (Sys c p rs) -> rs !! r = Some x -> rstep r c x l c' x' ->
  safe k tr (Session (Sys c p rs) ts) t ->
  safe k (l :: tr) (Session (Sys c' p (<[r := x']> rs)) ts) t.
Proof.
  intros Hq Hr Hs Hsafe. destruct (safe_active _ _ _ _ _ _ _ _ _ Hsafe Hr Hs) as [i Hat].
  destruct Hsafe as [Ht Hidle Hplace Hpc Hconn]. cbn [ssys terms sh pc reqs] in *.
  unfold place_ok in Hplace. rewrite Hat in Hplace. specialize (Hplace x Hr). cbn [sh pc] in Hplace.
  split; cbn [ssys terms sh pc reqs].
  - done.
  - intros j y [[<- <-]|[_ Hj]]%lookup_insert_Some; [right; by exists i|by apply Hidle].
  - unfold place_ok. rewrite Hat. intros y. cbn [reqs sh pc]. rewrite lookup_insert_eq. intros [= <-].
    destruct Hs; try done.
    + eapply justified_same; [|exact Hplace]. by eapply SetPassphrase_open.
    + destruct (status c) eqn:Hst; try done. by apply (open_asked (Sys c p rs)).
  - eapply (rstep_pc_ok _ r c p rs x l c' x' t); [done|done|by destruct x|by right|].
    eapply pc_ok_mono; [|exact Hpc]. intros. by apply trusted_cons.
  - intros a [->|Ha]%list_elem_of_In; [by inversion Hs|by apply trusted_cons, Hconn, list_elem_of_In].
Qed.

Lemma safe_send k tr c p rs t i r :
  at_ t = TSend i -> rs !! r = None ->
  safe k tr (Session (Sys c p rs) {[k := t]}) t ->
  safe k (LRequest r :: tr)
    (Session (Sys (set_interactive c) p
       (<[r := RSetPassphrase (in_Passphrase i) (Transport.AcceptHostKey i) (messageCount t)]> rs))
       {[k := set_place (TWait i r) t]}) (set_place (TWait i r) t).
Proof.
  intros Hat Hr [Ht Hidle Hplace Hpc Hconn]. cbn [ssys terms sh pc reqs] in *. split; cbn [ssys terms sh pc reqs].
  - done.
  - intros j y [[<- <-]|[_ Hj]]%lookup_insert_Some; [right; by exists i|].
    destruct (Hidle j y Hj) as [?|[i' Hi']]; [by left|congruence].
  - unfold place_ok in *. cbn [reqs sh pc at_ set_place]. rewrite Hat in Hplace. intros y.
    rewrite lookup_insert_eq. by intros [= <-].
  - eapply (pc_ok_mono (trusted tr t)); [intros; by apply trusted_cons|]. by destruct p.
  - intros a [|Ha]%list_elem_of_In; [done|]. by apply trusted_cons, Hconn, list_elem_of_In.
Qed.

Lemma safe_reply k tr s t i r res n ms :
  question s -> at_ t = TWait i r -> reqs s !! r = Some (RReturn res) ->
  safe k tr (Session s {[k := t]}) t ->
  let t' := receive i n (reply fp s (conn_id t) ms res) t in safe k tr (Session s {[k := t']}) t'.
Proof.
  intros Hq Hat Hr [Ht Hidle Hplace Hpc Hconn] t'. cbn [ssys terms] in *.
  assert (forall a, trusted tr t a -> trusted tr t' a) as Hmono.
  { intros a [Hk|Ha]; [by left|right]. by apply approves_receive. }
  split; cbn [ssys terms].
  - done.
  - intros j y Hj. destruct (Hidle j y Hj) as [?|[i' Hi']]; [by left|].
    rewrite Hat in Hi'. injection Hi' as <- <-. rewrite Hr in Hj. injection Hj as <-. left. by exists res.
  - unfold place_ok in *. rewrite Hat in Hplace. specialize (Hplace _ Hr). destruct (at_ t') as [i'|i' r'|] eqn:Hat'.
    + intros b Hb. destruct (receive_accepts _ _ _ _ _ _ Hat' Hb) as (-> & out & Ho & Hst & Happ).
      split; [done|]. destruct res as [st|]; [|done]. cbn in Ho. injection Ho as <-. cbn in Hst, Happ.
      assert (st = UnknownHostKey) as -> by by destruct st. split; [done|]. intros a Ha.
      destruct Hplace as [Hask Hpe]. assert (fingerprint fp s = fp a) as <-; [|exact Happ].
      unfold fingerprint. rewrite Hpe. destruct (pc s); try done. by injection Ha as <-.
    + exfalso. revert Hat'. unfold t', receive. repeat case_match; done.
    + done.
  - by eapply pc_ok_mono.
  - intros a Ha. by apply Hmono, Hconn.
Qed.

(** * The properties *)

Section Alone.
Context (inter : bool) (addrs : list SSHAddress) (k : nat) (words : list string) (id : string).
Context (w : world (list (option ConnectOut))).

Lemma srun_safe tr s :
  srun fp (sinit inter addrs {[k := sit words id w]}) tr s -> exists t, safe k tr s t.
Proof.
  intros Hrun. induction Hrun as [|tr s l s' Hrun [t IH] Hs].
  - exists (sit words id w). split; [done|intros r x Hx; cbn in Hx; by rewrite lookup_empty in Hx|done|done|].
    intros a Ha. by apply not_elem_of_nil in Ha.
  - pose proof (run_question _ _ _ _ (srun_run _ _ _ _ _ Hrun)) as Hq.
    pose proof (safe_terms _ _ _ _ IH) as Ht.
    destruct Hs as [c p rs ts l c' p' Hc|c p rs ts l r x c' x' Hr Hx|c p rs ts k' t' i r Hk Hat Hr|s ts k' t' i r res n ms Hk Hat Hr];
      cbn [terms ssys] in *.
    + exists t. by apply (safe_connect k tr c p).
    + exists t. by apply (safe_request k tr c p rs ts l r x).
    + subst ts. apply lookup_singleton_Some in Hk as [<- <-]. rewrite insert_singleton_eq.
      eexists. by apply safe_send.
    + subst ts. apply lookup_singleton_Some in Hk as [<- <-]. rewrite insert_singleton_eq.
      eexists. by eapply safe_reply.
Qed.

(** C10: the promise of the question for an unknown host key, from the user to the
    host. When one terminal runs [connect], then in every run of the terminal, its
    requests and the connector, a host that was connected to has a key that is in
    [known_hosts], or else the terminal got a question with the fingerprint of that
    very key, and after it the option said yes or the line that was read did. *)
Theorem alone_consents (tr : list label) (s : session) (a : SSHAddress)
    (Hrun : srun fp (sinit inter addrs {[k := sit words id w]}) tr s) (Hconn : LConnected a ∈ tr) :
  (exists b, LVerdict a Known b ∈ tr) \/
  exists t, terms s !! k = Some t /\ args t = words /\ approves t (fp a).
Proof.
  destruct (srun_safe tr s Hrun) as [t Hsafe].
  destruct (safe_connected _ _ _ _ Hsafe a Hconn) as [?|Ha]; [by left|right].
  assert (terms s !! k = Some t) as Hk by (rewrite (safe_terms _ _ _ _ Hsafe); apply lookup_singleton_eq).
  exists t. split_and!; [done| |done].
  assert (srun fp (sinit inter addrs (sits {[k := (words, id, w)]})) tr s) as Hrun'
    by (unfold sits; by rewrite map_fmap_singleton).
  destruct (srun_seats _ _ _ _ _ Hrun' k t Hk) as (seat & Hseat & Hp).
  apply lookup_singleton_Some in Hseat as [_ <-]. by destruct Hp.
Qed.
End Alone.

End Session.

(** * Runs *)

(** As [forth] and [forth_req] of [ConnectorProps], and a request that terminal [k]
    sends as number [r], and the reply to it. *)
Ltac s_connect H t := eapply srun_step in H; [|apply s_connect; apply t; done].
Ltac s_request H r t :=
  eapply srun_step in H;
    [|eapply (s_request _ _ _ _ _ _ r); [reflexivity|eapply t; first [done | reflexivity | by apply Nat.ltb_lt | by apply Nat.leb_le]]];
  rewrite ?insert_insert_eq, ?insert_singleton_eq in H.
Ltac s_send H k r :=
  eapply srun_step in H;
    [|eapply (s_send _ _ _ _ _ k _ _ r); [reflexivity|reflexivity|reflexivity|first [by left | by right]]];
  rewrite ?insert_insert_eq, ?insert_singleton_eq in H.
Ltac s_reply H k ms n :=
  eapply srun_step in H;
    [|eapply (s_reply _ _ _ k _ _ _ _ n ms); [reflexivity|reflexivity|reflexivity|vm_compute; lia|reflexivity]];
  rewrite ?insert_insert_eq, ?insert_singleton_eq in H.
(** A request that has to tell of two messages, and then of a question. *)
Ltac s_asked H r :=
  s_request H r r_no_pass; s_request H r r_no_accept; do 2 (s_request H r r_message);
  s_request H r r_no_message; s_request H r r_status; s_request H r r_leaves; s_request H r r_final.

Section Runs.
Context (fp : SSHAddress -> string) (a1 a2 : SSHAddress).

(** A terminal in which the user will say yes. *)
Definition yes_terminal (id : string) : terminal := sit [] id (World "" [] ["yes"] [] [] []).

Definition texts : list string :=
  ["Trying to connect to me@host"; "The authenticity of host host can't be established."].

(** [connect] asks for the key of the first of the hosts. *)
Lemma srun_asked rest ts t0 :
  ts !! O = Some t0 -> at_ t0 = TSend first_request ->
  exists tr, srun fp (sinit false (a1 :: rest) ts) tr
    (Session (Sys (Conn UnknownHostKey "" true (Some None) 2 [] false true) (CAsk a1 rest)
       {[O := RSetPassphrase "" None (messageCount t0)]}) (<[O := set_place (TWait first_request O) t0]> ts)) /\
    LVerdict a1 Unknown true ∈ tr /\ forall a b, LVerdict a Known b ∉ tr.
Proof.
  intros Ht Hat. pose proof (srun_nil fp (sinit false (a1 :: rest) ts)) as H.
  eapply srun_step in H; [|eapply (s_send _ _ _ _ _ O _ _ O); [exact Ht|exact Hat|reflexivity|by left]].
  s_connect H c_next. s_connect H c_try. s_connect H c_dial. s_connect H c_ask.
  eexists. split; [exact H|]. cbn. split; [by left|]. set_solver.
Qed.

(** A terminal accepts the key of an unknown host, which is connected to, and the
    command ends. *)
Lemma srun_accepted :
  exists tr s t, srun fp (sinit false [a1] {[O := yes_terminal "c0"]}) tr s /\ LConnected a1 ∈ tr /\
    (forall a b, LVerdict a Known b ∉ tr) /\ terms s !! O = Some t /\ at_ t = TEnd (Done (Exits 0)).
Proof.
  destruct (srun_asked [] {[O := yes_terminal "c0"]} (yes_terminal "c0")) as (tr & H & Hv & Hk); [done..|].
  s_asked H O. s_reply H O (Some texts) 2%nat. s_send H O 1%nat.
  s_request H 1%nat r_no_pass. s_request H 1%nat r_accept.
  s_connect H c_answer. s_connect H (fun c a rest => c_accepted c a rest true). s_connect H c_succeeds.
  s_connect H c_client. s_connect H c_succeeded.
  do 2 (s_request H 1%nat r_message). s_request H 1%nat r_no_message. s_request H 1%nat r_status.
  s_request H 1%nat r_leaves. s_request H 1%nat r_final. s_reply H O (Some texts) 4%nat.
  do 3 eexists. split; [exact H|]. cbn [app terms]. split; [set_solver|]. split; [set_solver|].
  split; [apply lookup_singleton_eq|reflexivity].
Qed.

(** What the terminal is after the question, which was the result of request [r]. *)
Definition asked (r : nat) (id : string) : terminal :=
  receive first_request 2 (Some (mkConnectOut id "unknown_host_key" (Some texts) (fp a1)))
    (set_place (TWait first_request r) (yes_terminal id)).

Definition two : gmap nat terminal := <[1%nat := yes_terminal "c1"]> {[O := yes_terminal "c0"]}.
Definition question_open : conn := Conn UnknownHostKey "" true (Some None) 2 [] false true.

(** Both terminals are asked for the key of the first host. *)
Lemma srun_both :
  exists tr, srun fp (sinit false [a1; a2] two) tr
    (Session (Sys question_open (CAsk a1 [a2])
       (<[1%nat := RReturn (Some UnknownHostKey)]> {[O := RReturn (Some UnknownHostKey)]}))
       (<[1%nat := asked 1 "c1"]> (<[O := asked 0 "c0"]> two))) /\
    forall a b, LVerdict a Known b ∉ tr.
Proof.
  destruct (srun_asked [a2] two (yes_terminal "c0")) as (tr & H & Hv & Hk); [done..|].
  s_asked H O. s_reply H O (Some texts) 2%nat.
  s_send H 1%nat 1%nat. s_asked H 1%nat. s_reply H 1%nat (Some texts) 2%nat.
  eexists. split; [exact H|]. set_solver.
Qed.

(** The questions that a terminal got are for one key. *)
Definition asked_only (f : string) (t : terminal) : Prop :=
  forall out, Got (Some out) ∈ events (term t) -> out_Status out = "unknown_host_key" -> HostKeyFingerprint out = f.

Lemma asked_events r id :
  events (term (asked r id)) =
    [Sent first_request; Got (Some (mkConnectOut id "unknown_host_key" (Some texts) (fp a1))); Answered (Some "yes")].
Proof. reflexivity. Qed.

Lemma asked_asked_only r id : asked_only (fp a1) (asked r id).
Proof.
  unfold asked_only. rewrite asked_events. intros out. rewrite !elem_of_cons.
  by intros [|[[= ->]|[|?%not_elem_of_nil]]].
Qed.
Lemma asked_only_place f p t : asked_only f t -> asked_only f (set_place p t).
Proof. exact id. Qed.

(** C30: an answer is not bound to the question it was given for. Two terminals run
    [connect], and both are asked for the key of the first host. One of them says yes,
    the handshake with that host fails, and the connector comes to the second host,
    whose key is unknown too. The yes of the other terminal, to the first question,
    arrives now: it accepts the key of the second host, which is connected to, though
    no terminal was ever asked for that key. *)
Theorem answer_not_bound :
  exists tr s, srun fp (sinit false [a1; a2] two) tr s /\
    LConnected a2 ∈ tr /\ (forall a b, LVerdict a Known b ∉ tr) /\
    map_Forall (fun _ t => args t = [] /\ asked_only (fp a1) t) (terms s).
Proof.
  destruct srun_both as (tr & H & Hk).
  s_send H 1%nat 2%nat. s_request H 2%nat r_no_pass. s_request H 2%nat r_accept.
  s_connect H c_answer. s_connect H (fun c a rest => c_accepted c a rest true). s_connect H c_fails.
  s_connect H c_next. s_connect H c_try. s_connect H c_dial. s_connect H c_ask.
  s_send H O 3%nat. s_request H 3%nat r_no_pass. s_request H 3%nat r_accept.
  s_connect H c_answer. s_connect H (fun c a rest => c_accepted c a rest true). s_connect H c_succeeds.
  do 2 eexists. split; [exact H|]. cbn [app terms]. split; [by left|]. split; [set_solver|].
  do 2 (apply map_Forall_insert_2; [split; [reflexivity|apply asked_only_place, asked_asked_only]|]).
  apply map_Forall_insert_2; [split; [reflexivity|apply asked_asked_only]|].
  repeat apply map_Forall_insert_2; try (split; [done|intros ? []%not_elem_of_nil]). apply map_Forall_empty.
Qed.
End Runs.

Lemma alone_consents_witness :
  let h := mkSSHAddress "me" "host:22" in
  exists tr s, srun host (sinit false [h] {[O := yes_terminal "c0"]}) tr s /\ LConnected h ∈ tr /\
    exists t, terms s !! O = Some t /\ approves t "host:22".
Proof.
  intros h. destruct (srun_accepted host h) as (tr & s & _ & Hrun & Hc & Hk & _). exists tr, s. split_and!; [done|done|].
  destruct (alone_consents host false [h] O [] "c0" (World "" [] ["yes"] [] [] []) tr s h Hrun Hc)
    as [[b Hb]|(t & Ht & _ & Ha)]; [by apply Hk in Hb|by exists t].
Defined.
