(* ===== verification/SessionLive.v ===== *)
(** When a terminal and a connector wait for each other for ever. [Wait] of
    [dialer/sshdialer.go] looks whether the connector is done before it takes the lock
    and is put on the list of those who wait: a notification in between is lost. *)

From stdpp Require Import base gmap list strings.
From Stdlib Require Import ZArith Lia Ascii.
From S2P Require Import Prelude Rules Dialers Transport Control Commands Connector ConnectorProps Session SessionProps.

#[local] Open Scope string_scope.

(** * Who can go on *)

(** [connect] goes on, but at an unanswered question, at a passphrase that nobody has
    told it of, and at its end. *)
Definition connect_waits (c : conn) (p : cpc) : Prop :=
  match p with
  | CAsk _ _ => pendingHostKey c = Some None
  | CPassBlocked _ _ => None ∈ waiting c
  | COver => True
  | _ => False
  end.

Lemma connect_goes_on s :
  question s -> (exists l c' p', cstep (sh s) (pc s) l c' p') \/ connect_waits (sh s) (pc s).
Proof.
  intros [_ Hp]. destruct s as [c p rs]; cbn in *.
  destruct p as [[|a rest]|a rest|a rest|a rest ok|a rest|a rest|a rest []|a rest|a rest|a rest|a rest| | | | | |];
    cbn; try (left; do 3 eexists; first [by apply (c_accepted c a rest true)|by constructor]).
  - destruct (Hp eq_refl) as [[b|] Hb]; [left; do 3 eexists; by eapply c_answer|by right].
  - left. destruct (decide (passphrase c = "")); do 3 eexists; [by apply c_pass_none|by apply c_pass_got].
  - destruct (decide (None ∈ waiting c)); [by right|left]. do 3 eexists. by apply c_pass_woken.
  - by right.
Qed.

Lemma connect_waits_stuck c p l c' p' : connect_waits c p -> ~ cstep c p l c' p'.
Proof. intros Hw Hs. destruct Hs; cbn in Hw; try done. by simplify_eq. Qed.

(** A request goes on, but when it is over, and when it waits for news. *)
Lemma request_goes_on s r x :
  question s ->
  (exists l c' x', rstep r (sh s) x l c' x') \/ (exists res, x = RReturn res) \/
  exists n, x = RBlocked n /\ Some r ∈ waiting (sh s).
Proof.
  intros [Hq _]. set (c := sh s) in *. destruct x as [q acc n|[b|] n|n|n|st n| |n|n|n|res].
  - left. destruct (decide (q = "")) as [->|Hne]; [do 3 eexists; by constructor|].
    pose proof (SetPassphrase_run q c) as Hr. case_bool_decide; do 3 eexists; by apply (r_pass _ _ _ _ _ _ _ Hne Hr).
  - left. pose proof (AcceptHostKey_run b c) as Hr. case_bool_decide as Hst.
    + destruct (proj1 Hq Hst) as [_ Hpe]. rewrite Hpe in Hr. do 3 eexists. by eapply r_accept.
    + do 3 eexists. by eapply r_accept_error.
  - left. do 3 eexists. constructor.
  - left. destruct (decide (n < messages c)%nat); do 3 eexists; [by apply r_message|apply r_no_message; lia].
  - left. do 3 eexists. constructor.
  - left. destruct (leaves st c) eqn:Hl; do 3 eexists; [by apply r_leaves|by apply r_stays].
  - left. do 3 eexists. constructor.
  - left. destruct (Done_ c) eqn:Hd; do 3 eexists; [by apply r_wait_done|by apply r_wait].
  - left. do 3 eexists. constructor.
  - destruct (decide (Some r ∈ waiting c)); [right; right; by exists n|left; do 3 eexists; by apply r_woken].
  - right. left. by exists res.
Qed.

(** * A terminal on its own *)

Section Live.
Context (fp : SSHAddress -> string).

Lemma receive_ID i n o t i' :
  at_ (receive i n o t) = TSend i' -> exists out, o = Some out /\ in_ID i' = out_ID out.
Proof.
  unfold receive, connect_round, call, print, record_event, gset, mbind, G_bind, mret, G_ret. cbn.
  destruct o as [out|]; cbn; [|done].
  repeat (case_match; cbn; try done); intros [= <-]; simplify_eq/=; by exists out.
Qed.

Lemma receive_rest i n o t :
  messageCount (receive i n o t) = n /\ conn_id (receive i n o t) = conn_id t /\
  forall j r, at_ (receive i n o t) <> TWait j r.
Proof. unfold receive. case_match. split_and!; [done..|]. intros. cbn. by repeat case_match. Qed.

Lemma cstep_messages c p l c' p' : cstep c p l c' p' -> (messages c <= messages c')%nat.
Proof. destruct 1; cbn; repeat case_match; cbn; lia. Qed.
Lemma rstep_messages r c x l c' x' : rstep r c x l c' x' -> messages c' = messages c.
Proof.
  destruct 1; try done.
  - rewrite SetPassphrase_run in *. by case_bool_decide; simplify_eq.
  - rewrite AcceptHostKey_run in *. case_bool_decide; [|done]. repeat case_match; by simplify_eq.
  - rewrite AcceptHostKey_run in *. case_bool_decide; [|by simplify_eq]. by repeat case_match.
Qed.

(** A terminal has been given messages that there are, it waits for a request that
    there is, and its requests after the first name its connector. *)
Definition joined (s : session) : Prop :=
  forall k t, terms s !! k = Some t ->
    (messageCount t <= messages (sh (ssys s)))%nat /\
    match at_ t with
    | TSend i => i = first_request \/ in_ID i = conn_id t
    | TWait i r => is_Some (reqs (ssys s) !! r)
    | TEnd _ => True
    end.

Lemma sstep_joined s l s' : sstep fp s l s' -> joined s -> joined s'.
Proof.
  intros Hs Hj. destruct Hs as [c p rs ts l c' p' Hc|c p rs ts l r x c' x' Hr Hx|c p rs ts k t i r Hk Hat Hr _|s ts k t i r res n ms Hk Hat Hr Hn _];
    intros j tj Htj; cbn [terms ssys sh reqs] in *.
  - destruct (Hj j tj Htj) as [Hm Hplace]. cbn in *. split; [|done].
    apply cstep_messages in Hc. lia.
  - destruct (Hj j tj Htj) as [Hm Hplace]. cbn in *. split; [by rewrite (rstep_messages _ _ _ _ _ _ Hx)|].
    destruct (at_ tj); try done. apply lookup_insert_is_Some'. by right.
  - apply lookup_insert_Some in Htj as [[<- <-]|[_ Htj]].
    + destruct (Hj k t Hk) as [Hm _]. split; [done|]. cbn. apply lookup_insert_is_Some'. by left.
    + destruct (Hj j tj Htj) as [Hm Hplace]. split; [done|]. destruct (at_ tj); try done.
      apply lookup_insert_is_Some'. by right.
  - apply lookup_insert_Some in Htj as [[<- <-]|[_ Htj]]; [|exact (Hj j tj Htj)].
    destruct (receive_rest i n (reply fp s (conn_id t) ms res) t) as (-> & -> & Hne). split; [lia|].
    destruct (at_ (receive _ _ _ _)) as [i'|i' r'|] eqn:Hat'; [|by destruct (Hne i' r')|done].
    apply receive_ID in Hat' as (out & Ho & ->). right. destruct res; [|done]. by injection Ho as <-.
Qed.

Lemma sits_joined inter addrs seats : joined (sinit inter addrs (sits seats)).
Proof.
  intros k t Hk. cbn in Hk. unfold sits in Hk. apply lookup_fmap_Some in Hk as (((words & id) & w) & <- & _). cbn.
  split; [lia|by left].
Qed.
Lemma srun_joined inter addrs seats tr s : srun fp (sinit inter addrs (sits seats)) tr s -> joined s.
Proof. induction 1; [apply sits_joined|by eapply sstep_joined]. Qed.

(** [connect] waits at a question, and is at its end, only after it has emptied the list
    of those who wait: whoever is on it came later. *)
Definition notifies_first (p : cpc) : Prop := asking p = true \/ p = COver.

Lemma notified_before s0 tr s :
  srun fp s0 tr s -> ~ notifies_first (pc (ssys s0)) -> notifies_first (pc (ssys s)) ->
  exists tr1 tr2 s1, srun fp s0 tr1 s1 /\ srun fp s1 tr2 s /\ tr = (tr2 ++ tr1)%list /\
    pc (ssys s1) = pc (ssys s) /\ waiting (sh (ssys s1)) = [].
Proof.
  intros Hrun H0. induction Hrun as [|tr s l s' Hrun IH Hs]; intros Hn; [done|].
  assert (pc (ssys s) = pc (ssys s') -> exists tr1 tr2 s1, srun fp s0 tr1 s1 /\ srun fp s1 tr2 s' /\
    (l ++ tr)%list = (tr2 ++ tr1)%list /\ pc (ssys s1) = pc (ssys s') /\ waiting (sh (ssys s1)) = []) as Hsame.
  { intros He. rewrite <-He in *. destruct (IH Hn) as (tr1 & tr2 & s1 & H1 & H2 & -> & Hp & Hw).
    exists tr1, (l ++ tr2)%list, s1. split_and!; [done|by eapply srun_step|by rewrite app_assoc|done|done]. }
  destruct Hs as [c p rs ts l c' p' Hc| | |]; [|by apply Hsame..].
  assert (waiting c' = [] -> exists tr1 tr2 s1, srun fp s0 tr1 s1 /\ srun fp s1 tr2 (Session (Sys c' p' rs) ts) /\
    ([l] ++ tr)%list = (tr2 ++ tr1)%list /\ pc (ssys s1) = p' /\ waiting (sh (ssys s1)) = []) as Hnow.
  { intros Hw. exists ([l] ++ tr)%list, [], (Session (Sys c' p' rs) ts).
    split_and!; [eapply srun_step; [exact Hrun|by apply s_connect]|constructor|done|done|done]. }
  destruct Hc; try (exfalso; by destruct Hn); by apply Hnow.
Qed.

(** Nothing can happen any more. *)
Definition stuck (s : session) : Prop := forall l s', ~ sstep fp s l s'.

(** The terminal waits for news, and none will come. *)
Definition waits_in_vain (s : session) (t : terminal) : Prop :=
  exists i r n, at_ t = TWait i r /\ reqs (ssys s) !! r = Some (RBlocked n) /\
    Some r ∈ waiting (sh (ssys s)) /\ connect_waits (sh (ssys s)) (pc (ssys s)).

Lemma stuck_in_vain k s t :
  question (ssys s) -> joined s -> terms s !! k = Some t -> stuck s ->
  (forall e, at_ t <> TEnd e) -> (at_ t = TSend first_request -> registered (sh (ssys s)) = true) -> waits_in_vain s t.
Proof.
  intros Hq Hj Hk Hstuck Hend Hfirst. destruct s as [[c p rs] ts], (Hj k t Hk) as [Hm Hplace]. cbn in *.
  destruct (at_ t) as [i|i r|e] eqn:Hat; [|destruct Hplace as [x Hx]|by destruct (Hend e)].
  - exfalso. eapply Hstuck. eapply (s_send fp c p rs ts k t i (fresh (dom rs))); [done|done| |].
    + apply not_elem_of_dom, is_fresh.
    + destruct Hplace as [->|Hid]; [left|by right]. by split; [|apply Hfirst].
  - destruct (request_goes_on (Sys c p rs) r x Hq) as [(l & c' & x' & Hs)|[[res ->]|(n & -> & Hw)]].
    + exfalso. eapply Hstuck. by eapply s_request.
    + exfalso. eapply Hstuck. eapply (s_reply fp (Sys c p rs) ts k t i r res (messages c)
        (Some (replicate (messages c - messageCount t) ""))); try done. apply length_replicate.
    + exists i, r, n. split_and!; try done.
      destruct (connect_goes_on (Sys c p rs) Hq) as [(l & c' & p' & Hs)|]; [|done].
      exfalso. eapply Hstuck. by apply s_connect.
Qed.

Lemma in_vain_stuck k tr s t : safe fp k tr s t -> waits_in_vain s t -> stuck s.
Proof.
  intros Hsafe (i & r & n & Hat & Hr & Hw & Hc) l s' Hs. pose proof (safe_terms _ _ _ _ _ Hsafe) as Ht.
  assert (forall x y, reqs (ssys s) !! x = Some y -> (exists res, y = RReturn res) \/ x = r) as Hothers.
  { intros x y Hx. destruct (safe_idle _ _ _ _ _ Hsafe x y Hx) as [|[j Hj]]; [by left|right]. congruence. }
  destruct Hs as [c p rs ts l c' p' Hs|c p rs ts l x y c' y' Hx Hs|c p rs ts k' t' j x Hk Hat'|s ts k' t' j x res m ms Hk Hat' Hx];
    cbn [ssys terms sh pc reqs] in *.
  - by eapply connect_waits_stuck.
  - destruct (Hothers x y Hx) as [[res ->]| ->]; [by inversion Hs|]. rewrite Hr in Hx. injection Hx as <-. by inversion Hs; subst.
  - subst ts. apply lookup_singleton_Some in Hk as [<- <-]. congruence.
  - subst ts. apply lookup_singleton_Some in Hk as [<- <-]. rewrite Hat in Hat'. simplify_eq.
Qed.
End Live.

(** * The properties *)

Section Deadlocks.
Context (fp : SSHAddress -> string) (a : SSHAddress) (w : world (list (option ConnectOut))).
Abbreviation alone := (sinit false [a] (sits {[O := ([], "c0", w)]})).

Lemma srun_sits inter addrs k words id tr s :
  srun fp (sinit inter addrs (sits {[k := (words, id, w)]})) tr s ->
  exists t, safe fp k tr s t /\ terms s !! k = Some t.
Proof.
  intros Hrun. unfold sits in Hrun. rewrite map_fmap_singleton in Hrun.
  destruct (srun_safe fp inter addrs k words id w tr s Hrun) as [t Hsafe]. exists t. split; [done|].
  rewrite (safe_terms _ _ _ _ _ Hsafe). apply lookup_singleton_eq.
Qed.

(** The first request of the terminal has found nothing new, and is about to wait. *)
Lemma srun_about_to_wait :
  exists tr, srun fp alone tr
    (Session (Sys (Conn StatusNew "" true None 0 [] false true) (CNext [a]) {[O := RAppend 0]})
       {[O := set_place (TWait first_request O) (sit [] "c0" w)]}).
Proof.
  pose proof (srun_nil fp (sinit false [a] {[O := sit [] "c0" w]})) as H.
  s_send H O O. s_request H O r_no_pass. s_request H O r_no_accept. s_request H O r_no_message.
  s_request H O r_status. s_request H O r_stays. s_request H O r_wait.
  eexists. unfold sits. rewrite map_fmap_singleton. exact H.
Qed.

(** The terminal waits in vain, with the connector in this state. *)
Definition in_vain (P : conn -> cpc -> Prop) : Prop :=
  exists tr s t, srun fp alone tr s /\ terms s !! O = Some t /\ waits_in_vain s t /\ P (sh (ssys s)) (pc (ssys s)).

Ltac in_vain H :=
  s_request H O r_append; do 3 eexists; split; [exact H|]; split; [apply lookup_singleton_eq|]; split;
    [do 3 eexists; split_and!; [reflexivity|reflexivity|cbn; set_solver|cbn; try done; set_solver]|done].

Lemma misses_question : in_vain (fun c p => status c = UnknownHostKey /\ p = CAsk a []).
Proof.
  destruct srun_about_to_wait as [tr H].
  s_connect H c_next. s_connect H c_try. s_connect H c_dial. s_connect H c_ask. in_vain H.
Qed.
(** The request was on the list before the passphrase was asked for. *)
Lemma misses_passphrase :
  exists tr1 tr2 s1 s t,
    srun fp alone tr1 s1 /\ srun fp s1 tr2 s /\
    status (sh (ssys s1)) = Handshake /\ waiting (sh (ssys s1)) = [Some O] /\
    terms s !! O = Some t /\ waits_in_vain s t /\
    status (sh (ssys s)) = NeedPassphrase /\ pc (ssys s) = CPassBlocked a [].
Proof.
  destruct srun_about_to_wait as [tr H].
  s_connect H c_next. s_connect H c_try. s_connect H c_dial. s_request H O r_append.
  match type of H with srun _ _ ?tr1 ?s1 => exists tr1; pose proof (srun_nil fp s1) as H2 end.
  s_connect H2 c_known. s_connect H2 c_password. s_connect H2 c_pass_none. s_connect H2 c_pass_append.
  do 4 eexists. split; [exact H|]. split; [exact H2|]. split; [done|]. split; [reflexivity|].
  split; [apply lookup_singleton_eq|]. split; [|done].
  do 3 eexists. split_and!; [reflexivity|reflexivity|cbn; set_solver|cbn; set_solver].
Qed.
Lemma misses_success : in_vain (fun c p => status c = Succeeded /\ client c = true /\ p = COver).
Proof.
  destruct srun_about_to_wait as [tr H].
  s_connect H c_next. s_connect H c_try. s_connect H c_dial. s_connect H c_known. s_connect H c_succeeds.
  s_connect H c_client. s_connect H c_succeeded. s_connect H c_defer. s_connect H c_defer2. s_connect H c_defer3.
  in_vain H.
Qed.
End Deadlocks.

(** C29: when a terminal on its own and the connector wait for ever. A terminal that
    has come to a connector, and in which the command is not over, is stuck exactly when
    its request is on the list of those who wait for news while [connect] waits itself,
    at a question or at a passphrase, or is at its end, so that no notification will
    come any more. At a question and at the end one was given, but before the request
    was on the list: an earlier state of the run has [connect] there and nobody on the
    list. For a passphrase none is given at all: a request is stuck also when it was on
    the list while the handshake went on. All of this happens, in the first request
    already: the user is never asked, or never told that the connection was made. *)
Theorem missed_wakeups (fp : SSHAddress -> string) (w : world (list (option ConnectOut))) :
  (forall inter addrs k words id tr s t,
     srun fp (sinit inter addrs (sits {[k := (words, id, w)]})) tr s -> terms s !! k = Some t ->
     (forall e, at_ t <> TEnd e) -> (at_ t = TSend first_request -> registered (sh (ssys s)) = true) ->
     (stuck fp s <-> waits_in_vain s t)) /\
  (forall inter addrs seats tr s t,
     srun fp (sinit inter addrs (sits seats)) tr s -> waits_in_vain s t ->
     (exists a rest, pc (ssys s) = CPassBlocked a rest) \/
     exists tr1 tr2 s1, srun fp (sinit inter addrs (sits seats)) tr1 s1 /\ srun fp s1 tr2 s /\
       tr = (tr2 ++ tr1)%list /\ pc (ssys s1) = pc (ssys s) /\ waiting (sh (ssys s1)) = []) /\
  (forall a,
     in_vain fp a w (fun c p => status c = UnknownHostKey /\ p = CAsk a []) /\
     in_vain fp a w (fun c p => status c = Succeeded /\ client c = true /\ p = COver) /\
     exists tr1 tr2 s1 s t,
       srun fp (sinit false [a] (sits {[O := ([], "c0", w)]})) tr1 s1 /\ srun fp s1 tr2 s /\
       status (sh (ssys s1)) = Handshake /\ waiting (sh (ssys s1)) = [Some O] /\
       terms s !! O = Some t /\ waits_in_vain s t /\
       status (sh (ssys s)) = NeedPassphrase /\ pc (ssys s) = CPassBlocked a []).
Proof.
  split_and!; [..|intros a; split_and!; [apply misses_question|apply misses_success|apply misses_passphrase]].
  2: { intros inter addrs seats tr s t Hrun (i & r & n & _ & _ & _ & Hc).
       destruct (pc (ssys s)) as [| | | | |b rest| | | |b rest| | | | | | |] eqn:Hpc; try done; [|by left; eauto|];
         (right; rewrite <-Hpc; eapply notified_before; [exact Hrun|by intros []|rewrite Hpc; by (left + right)]). }
  intros inter addrs k words id tr s t Hrun Hk Hend Hfirst.
  destruct (srun_sits fp w _ _ _ _ _ _ _ Hrun) as (t' & Hsafe & Hk'). rewrite Hk in Hk'. injection Hk' as <-.
  split; [|by eapply in_vain_stuck].
  intros Hstuck. eapply (stuck_in_vain fp k s t); try done; [|by eapply srun_joined].
  eapply run_question. by eapply srun_run.
Qed.

(** Nothing can happen any more, though the connection was made. *)
Lemma missed_wakeups_witness :
  let h := mkSSHAddress "me" "host:22" in
  let w := World "" [] [] [] [] [] in
  exists tr s, srun host (sinit false [h] (sits {[O := ([], "c0", w)]})) tr s /\
    client (sh (ssys s)) = true /\ stuck host s.
Proof.
  intros h w. destruct (missed_wakeups host w) as (Hiff & _ & Hall).
  destruct (Hall h) as (_ & (tr & s & t & Hrun & Hk & Hm & _ & Hc & _) & _).
  exists tr, s. split_and!; [done|done|]. pose proof Hm as (i & r & n & Hat & _).
  apply (Hiff false [h] O [] "c0" tr s t Hrun Hk); [congruence|congruence|exact Hm].
Defined.
